(** * Nanvix: lottery scheduler and block buffer cache

    A shallow embedding of the process scheduler (rand, next_process,
    sched, resume, add_compensation, yield) and of the block buffer cache
    of fs/buffer.c (getblk, blklock, blkunlock, brelse, bread, bwrite,
    bsync, binit), with the properties of both that the design document
    states.

    C integers are modelled as [Z] with their wrap-around written out,
    pointers to [struct buffer] as a small inductive type that names the
    three places such a struct lives in (the [buffers] array, the
    [free_buffers] sentinel, the [hashtab] array), and the single-precision
    arithmetic of add_compensation with the IEEE-754 binary32 operations
    of the standard library's [SpecFloat]. *)

From Stdlib Require Import ZArith Lia String.
From Stdlib Require Import Floats.SpecFloat.
From stdpp Require Import base decidable option list.

Local Open Scope Z_scope.

(** ** Compile-time configuration

    The headers that fix these constants (nanvix/const.h, nanvix/pm.h,
    nanvix/fs.h, nanvix/mm.h) are not part of the sources at hand, so
    they are parameters of the development. *)

Class Config := {
  PROC_QUANTUM : Z;          (* quantum length, in clock ticks *)
  PRIO_USER : Z;
  PRIO_BUFFER : Z;
  NORMALIZATION_VALUE : Z;
  FIRST_PROC : nat;          (* index of the first process-table slot *)
  LAST_PROC : nat;           (* index of the last process-table slot *)
  IDLE : nat;                (* index of the idle process *)
  NR_BUFFERS : nat;
  BUFFERS_HASHTAB_SIZE : nat;
  BLOCK_SIZE : Z;
  BUFFERS_VIRT : Z;
  BUFFER_VALID : Z;
  BUFFER_BUSY : Z;
  BUFFER_LOCKED : Z;
  BUFFER_DIRTY : Z
}.

(** ** Machine integers *)

(** [int]: 32 bits, two's complement. *)
Definition wrap_int (z : Z) : Z := (z + 2 ^ 31) mod 2 ^ 32 - 2 ^ 31.

(** [unsigned int] and, on the 32-bit target, [unsigned long int]. *)
Definition wrap_uint (z : Z) : Z := z mod 2 ^ 32.

Definition INT_MAX : Z := 2 ^ 31 - 1.
Definition INT_MIN : Z := - 2 ^ 31.

Definition in_int (z : Z) : Prop := INT_MIN <= z <= INT_MAX.

(** ** Single-precision floats *)

Definition float := spec_float.

Definition f32_of_int (z : Z) : float := binary_normalize 24 128 z 0 false.
Definition f32_div (x y : float) : float := SFdiv 24 128 x y.

(** Conversion of a float to an integer discards the fractional part. *)
Definition f32_trunc (x : float) : Z :=
  match x with
  | S754_finite s m e =>
      let a := if 0 <=? e then Z.pos m * 2 ^ e else Z.pos m / 2 ^ (- e) in
      if s then - a else a
  | _ => 0
  end.

(** The cast [(unsigned int) x]. C leaves it undefined when the truncated
    value does not fit; the model reduces it modulo 2^32 there. *)
Definition f32_to_uint (x : float) : Z := wrap_uint (f32_trunc x).

(** ** Processes *)

Inductive proc_state :=
| PROC_DEAD | PROC_ZOMBIE | PROC_RUNNING | PROC_READY
| PROC_WAITING | PROC_SLEEPING | PROC_STOPPED.

Global Instance proc_state_eq_dec : EqDecision proc_state.
Proof. solve_decision. Defined.

Inductive signal := SIGCHLD | SIGALRM.

(** The fields of [struct process] that the scheduler reads and writes.
    [received] stands for the set of signals sent to the process. *)
Record process := {
  state : proc_state;
  counter : Z;
  priority : Z;
  nice : Z;
  tickets : Z;
  compensation : Z;
  alarm : Z;
  father : nat;
  received : list signal
}.

Definition with_state (v : proc_state) (p : process) : process :=
  {| state := v; counter := counter p; priority := priority p; nice := nice p;
     tickets := tickets p; compensation := compensation p; alarm := alarm p;
     father := father p; received := received p |}.
Definition with_counter (v : Z) (p : process) : process :=
  {| state := state p; counter := v; priority := priority p; nice := nice p;
     tickets := tickets p; compensation := compensation p; alarm := alarm p;
     father := father p; received := received p |}.
Definition with_priority (v : Z) (p : process) : process :=
  {| state := state p; counter := counter p; priority := v; nice := nice p;
     tickets := tickets p; compensation := compensation p; alarm := alarm p;
     father := father p; received := received p |}.
Definition with_tickets (v : Z) (p : process) : process :=
  {| state := state p; counter := counter p; priority := priority p; nice := nice p;
     tickets := v; compensation := compensation p; alarm := alarm p;
     father := father p; received := received p |}.
Definition with_compensation (v : Z) (p : process) : process :=
  {| state := state p; counter := counter p; priority := priority p; nice := nice p;
     tickets := tickets p; compensation := v; alarm := alarm p;
     father := father p; received := received p |}.
Definition with_alarm (v : Z) (p : process) : process :=
  {| state := state p; counter := counter p; priority := priority p; nice := nice p;
     tickets := tickets p; compensation := compensation p; alarm := v;
     father := father p; received := received p |}.
Definition with_received (v : list signal) (p : process) : process :=
  {| state := state p; counter := counter p; priority := priority p; nice := nice p;
     tickets := tickets p; compensation := compensation p; alarm := alarm p;
     father := father p; received := v |}.

Definition null_process : process :=
  {| state := PROC_DEAD; counter := 0; priority := 0; nice := 0; tickets := 0;
     compensation := 0; alarm := 0; father := 0%nat; received := [] |}.

Global Instance process_inhabited : Inhabited process := populate null_process.

(** ** Block buffers *)

(** A pointer to a [struct buffer]: the address of a slot of the
    [buffers] array, of the [free_buffers] list head, or of a slot of the
    [hashtab] array (the list heads share the layout of a buffer). *)
Inductive bufptr :=
| Buffers (i : nat)
| FreeBuffers
| Hashtab (i : nat).

Global Instance bufptr_eq_dec : EqDecision bufptr.
Proof. solve_decision. Defined.

(** [struct buffer]. [dev] and [num] have the unsigned types [dev_t] and
    [block_t]; [data] is the address of the block's bytes; [chain] is the
    queue of the processes that sleep on the buffer, by process-table
    index. *)
Record buffer := {
  dev : N;
  num : N;
  data : Z;
  count : Z;
  flags : Z;
  chain : list nat;
  free_next : bufptr;
  free_prev : bufptr;
  hash_next : bufptr;
  hash_prev : bufptr
}.

Definition with_dev (v : N) (b : buffer) : buffer :=
  {| dev := v; num := num b; data := data b; count := count b; flags := flags b;
     chain := chain b; free_next := free_next b; free_prev := free_prev b;
     hash_next := hash_next b; hash_prev := hash_prev b |}.
Definition with_num (v : N) (b : buffer) : buffer :=
  {| dev := dev b; num := v; data := data b; count := count b; flags := flags b;
     chain := chain b; free_next := free_next b; free_prev := free_prev b;
     hash_next := hash_next b; hash_prev := hash_prev b |}.
Definition with_data (v : Z) (b : buffer) : buffer :=
  {| dev := dev b; num := num b; data := v; count := count b; flags := flags b;
     chain := chain b; free_next := free_next b; free_prev := free_prev b;
     hash_next := hash_next b; hash_prev := hash_prev b |}.
Definition with_count (v : Z) (b : buffer) : buffer :=
  {| dev := dev b; num := num b; data := data b; count := v; flags := flags b;
     chain := chain b; free_next := free_next b; free_prev := free_prev b;
     hash_next := hash_next b; hash_prev := hash_prev b |}.
Definition with_flags (v : Z) (b : buffer) : buffer :=
  {| dev := dev b; num := num b; data := data b; count := count b; flags := v;
     chain := chain b; free_next := free_next b; free_prev := free_prev b;
     hash_next := hash_next b; hash_prev := hash_prev b |}.
Definition with_chain (v : list nat) (b : buffer) : buffer :=
  {| dev := dev b; num := num b; data := data b; count := count b; flags := flags b;
     chain := v; free_next := free_next b; free_prev := free_prev b;
     hash_next := hash_next b; hash_prev := hash_prev b |}.
Definition with_free_next (v : bufptr) (b : buffer) : buffer :=
  {| dev := dev b; num := num b; data := data b; count := count b; flags := flags b;
     chain := chain b; free_next := v; free_prev := free_prev b;
     hash_next := hash_next b; hash_prev := hash_prev b |}.
Definition with_free_prev (v : bufptr) (b : buffer) : buffer :=
  {| dev := dev b; num := num b; data := data b; count := count b; flags := flags b;
     chain := chain b; free_next := free_next b; free_prev := v;
     hash_next := hash_next b; hash_prev := hash_prev b |}.
Definition with_hash_next (v : bufptr) (b : buffer) : buffer :=
  {| dev := dev b; num := num b; data := data b; count := count b; flags := flags b;
     chain := chain b; free_next := free_next b; free_prev := free_prev b;
     hash_next := v; hash_prev := hash_prev b |}.
Definition with_hash_prev (v : bufptr) (b : buffer) : buffer :=
  {| dev := dev b; num := num b; data := data b; count := count b; flags := flags b;
     chain := chain b; free_next := free_next b; free_prev := free_prev b;
     hash_next := hash_next b; hash_prev := v |}.

Definition null_buffer : buffer :=
  {| dev := 0; num := 0; data := 0; count := 0; flags := 0; chain := [];
     free_next := FreeBuffers; free_prev := FreeBuffers;
     hash_next := FreeBuffers; hash_prev := FreeBuffers |}.

Global Instance buffer_inhabited : Inhabited buffer := populate null_buffer.

(** A request handed to the block device driver. *)
Inductive io_event :=
| DevRead (d n : N)
| DevWrite (d n : N).

(** ** The kernel state

    The process table with the scheduler's globals, and the globals of
    fs/buffer.c. The file-local queue [chain] of buffer.c (processes
    waiting for any buffer to become free) is called [any_free_chain]
    here, since [chain] is already the name of the buffer field.
    [interrupts] is the processor's interrupt-enable flag; [io_log]
    records the requests issued to the block device driver, oldest
    first. *)
Record kernel := {
  proctab : list process;
  curr_proc : nat;
  last_proc : nat;
  ticks : Z;
  buffers : list buffer;
  free_buffers : buffer;
  hashtab : list buffer;
  any_free_chain : list nat;
  interrupts : bool;
  io_log : list io_event
}.

Definition with_proctab (v : list process) (k : kernel) : kernel :=
  {| proctab := v; curr_proc := curr_proc k; last_proc := last_proc k;
     ticks := ticks k; buffers := buffers k; free_buffers := free_buffers k;
     hashtab := hashtab k; any_free_chain := any_free_chain k;
     interrupts := interrupts k; io_log := io_log k |}.
Definition with_curr_proc (v : nat) (k : kernel) : kernel :=
  {| proctab := proctab k; curr_proc := v; last_proc := last_proc k;
     ticks := ticks k; buffers := buffers k; free_buffers := free_buffers k;
     hashtab := hashtab k; any_free_chain := any_free_chain k;
     interrupts := interrupts k; io_log := io_log k |}.
Definition with_last_proc (v : nat) (k : kernel) : kernel :=
  {| proctab := proctab k; curr_proc := curr_proc k; last_proc := v;
     ticks := ticks k; buffers := buffers k; free_buffers := free_buffers k;
     hashtab := hashtab k; any_free_chain := any_free_chain k;
     interrupts := interrupts k; io_log := io_log k |}.
Definition with_buffers (v : list buffer) (k : kernel) : kernel :=
  {| proctab := proctab k; curr_proc := curr_proc k; last_proc := last_proc k;
     ticks := ticks k; buffers := v; free_buffers := free_buffers k;
     hashtab := hashtab k; any_free_chain := any_free_chain k;
     interrupts := interrupts k; io_log := io_log k |}.
Definition with_free_buffers (v : buffer) (k : kernel) : kernel :=
  {| proctab := proctab k; curr_proc := curr_proc k; last_proc := last_proc k;
     ticks := ticks k; buffers := buffers k; free_buffers := v;
     hashtab := hashtab k; any_free_chain := any_free_chain k;
     interrupts := interrupts k; io_log := io_log k |}.
Definition with_hashtab (v : list buffer) (k : kernel) : kernel :=
  {| proctab := proctab k; curr_proc := curr_proc k; last_proc := last_proc k;
     ticks := ticks k; buffers := buffers k; free_buffers := free_buffers k;
     hashtab := v; any_free_chain := any_free_chain k;
     interrupts := interrupts k; io_log := io_log k |}.
Definition with_any_free_chain (v : list nat) (k : kernel) : kernel :=
  {| proctab := proctab k; curr_proc := curr_proc k; last_proc := last_proc k;
     ticks := ticks k; buffers := buffers k; free_buffers := free_buffers k;
     hashtab := hashtab k; any_free_chain := v;
     interrupts := interrupts k; io_log := io_log k |}.
Definition with_interrupts (v : bool) (k : kernel) : kernel :=
  {| proctab := proctab k; curr_proc := curr_proc k; last_proc := last_proc k;
     ticks := ticks k; buffers := buffers k; free_buffers := free_buffers k;
     hashtab := hashtab k; any_free_chain := any_free_chain k;
     interrupts := v; io_log := io_log k |}.
Definition with_io_log (v : list io_event) (k : kernel) : kernel :=
  {| proctab := proctab k; curr_proc := curr_proc k; last_proc := last_proc k;
     ticks := ticks k; buffers := buffers k; free_buffers := free_buffers k;
     hashtab := hashtab k; any_free_chain := any_free_chain k;
     interrupts := interrupts k; io_log := v |}.

(** The process in slot [i] of the process table. *)
Definition proc (k : kernel) (i : nat) : process := proctab k !!! i.

(** Assignment to fields of the process in slot [i]. *)
Definition set_proc (i : nat) (f : process -> process) (k : kernel) : kernel :=
  with_proctab (alter f i (proctab k)) k.

Section Scheduler.
Context {cfg : Config}.

(** Modelled from the spec: the macro CURRENT_TIME of nanvix/clock.h,
    which is not among the sources. The design document seeds the
    generator from the current clock tick, an unsigned counter. *)
Definition CURRENT_TIME (k : kernel) : Z := ticks k.

(** Modelled from the spec: IS_VALID of nanvix/pm.h is not among the
    sources; a process-table slot is valid unless its process is dead. *)
Definition IS_VALID (p : process) : bool :=
  bool_decide (state p <> PROC_DEAD).

(** Modelled from the spec: sndsig of the signal module delivers [sig] to
    the process in slot [p]. *)
Definition sndsig (p : nat) (sig : signal) (k : kernel) : kernel :=
  set_proc p (fun q => with_received (sig :: received q) q) k.

(** Modelled from the spec: switch_to of the hardware layer makes [next]
    the process that the processor executes. *)
Definition switch_to (next : nat) (k : kernel) : kernel :=
  with_curr_proc next k.

Definition rand (k : kernel) : Z :=
  let seed := wrap_uint (wrap_uint (CURRENT_TIME k * 1103515245) + 12345) in
  wrap_int (wrap_uint (seed / 65536) mod 32768).

Definition next_process (k : kernel) (total_tickets : Z) : Z :=
  wrap_int (Z.quot (wrap_int (rand k * total_tickets)) 32768 + 1).

Definition sched (p : nat) (k : kernel) : kernel :=
  set_proc p (with_counter 0) (set_proc p (with_state PROC_READY) k).

Definition resume (p : nat) (k : kernel) : kernel :=
  if decide (state (proc k p) = PROC_STOPPED) then sched p k else k.

Definition add_compensation (k : kernel) : kernel :=
  let p := proc k (curr_proc k) in
  if (0 <? counter p) && negb (counter p =? PROC_QUANTUM) then
    let used_quantum := f32_of_int (wrap_int (PROC_QUANTUM - counter p)) in
    let fraction := f32_div used_quantum (f32_of_int PROC_QUANTUM) in
    let compensation := f32_div (f32_of_int (tickets p)) fraction in
    let final := wrap_int (f32_to_uint compensation - tickets p) in
    set_proc (curr_proc k) (with_compensation final) k
  else k.

(** The slots FIRST_PROC .. LAST_PROC, in table order. *)
Definition proc_range : list nat :=
  seq FIRST_PROC (S LAST_PROC - FIRST_PROC).

(** The tickets a process enters the lottery with. *)
Definition lottery_tickets (p : process) : Z :=
  wrap_int (tickets p + compensation p).

(** Start of yield: a process that is still running is compensated and
    made ready again, and is remembered as the last process. *)
Definition yield_resched (k : kernel) : kernel :=
  let k1 :=
    if decide (state (proc k (curr_proc k)) = PROC_RUNNING)
    then sched (curr_proc k) (add_compensation k)
    else k in
  with_last_proc (curr_proc k1) k1.

(** One iteration of the first loop of yield. *)
Definition check_alarm (st : kernel * Z) (p : nat) : kernel * Z :=
  let '(k, total_tickets) := st in
  let total_tickets :=
    if decide (state (proc k p) = PROC_READY)
    then wrap_int (total_tickets + lottery_tickets (proc k p))
    else total_tickets in
  if negb (IS_VALID (proc k p)) then (k, total_tickets)
  else if negb (alarm (proc k p) =? 0) && (alarm (proc k p) <? ticks k)
  then (sndsig p SIGALRM (set_proc p (with_alarm 0) k), total_tickets)
  else (k, total_tickets).

Definition check_alarms (k : kernel) : kernel * Z :=
  foldl check_alarm (k, 0) proc_range.

(** The second loop of yield: the first ready process whose running sum
    of tickets is greater than the drawn ticket, or IDLE. *)
Fixpoint choose (k : kernel) (sorted_ticket tickets_sum : Z) (ps : list nat) : nat :=
  match ps with
  | [] => IDLE
  | p :: ps' =>
      if decide (state (proc k p) <> PROC_READY)
      then choose k sorted_ticket tickets_sum ps'
      else
        let tickets_sum := wrap_int (tickets_sum + lottery_tickets (proc k p)) in
        if sorted_ticket <? tickets_sum then p
        else choose k sorted_ticket tickets_sum ps'
  end.

(** The last part of yield: the chosen process gets a fresh quantum. *)
Definition dispatch (next : nat) (k : kernel) : kernel :=
  let k := set_proc next (with_priority PRIO_USER) k in
  let k := set_proc next (with_state PROC_RUNNING) k in
  let k := set_proc next (with_counter PROC_QUANTUM) k in
  let k := set_proc next (fun p =>
             with_tickets
               (wrap_int (wrap_int (wrap_int (priority p * -1) + NORMALIZATION_VALUE)
                          - nice p)) p) k in
  let k := set_proc next (with_compensation 0) k in
  switch_to next k.

(** The number of tickets yield counts, and the process it picks. *)
Definition yield_total (k : kernel) : Z := snd (check_alarms (yield_resched k)).

Definition yield_next (k : kernel) : nat :=
  let '(k1, total_tickets) := check_alarms (yield_resched k) in
  choose k1 (next_process k1 total_tickets) 0 proc_range.

Definition yield (k : kernel) : kernel :=
  let '(k1, total_tickets) := check_alarms (yield_resched k) in
  let sorted_ticket := next_process k1 total_tickets in
  let next := choose k1 sorted_ticket 0 proc_range in
  dispatch next k1.

(** stop: the current process stops and tells its parent. *)
Definition stop (k : kernel) : kernel :=
  let k := set_proc (curr_proc k) (with_state PROC_STOPPED) k in
  yield (sndsig (father (proc k (curr_proc k))) SIGCHLD k).

End Scheduler.

(** ** Kernel code that may sleep or panic

    A kernel routine is run from a kernel state. It ends by returning a
    value, by a kernel panic, or by putting its process to sleep; the run
    also lists, oldest first, the states the kernel had after each of the
    routine's statements that changed it ([points]), so that a property
    can be checked at every point of the routine and not only at its
    end. *)

Inductive result (A : Type) : Type :=
| Done (a : A)          (* the routine returned [a] *)
| Panic (msg : string)  (* kpanic: the system halted *)
| Asleep                (* the calling process sleeps on a wait queue *)
| OutOfFuel.            (* a list walk did not come back to its list head *)

Arguments Done {A} a.
Arguments Panic {A} msg.
Arguments Asleep {A}.
Arguments OutOfFuel {A}.

Record run (A : Type) : Type := Run {
  outcome : result A;
  final : kernel;
  points : list kernel
}.

Arguments Run {A} outcome final points.
Arguments outcome {A} r.
Arguments final {A} r.
Arguments points {A} r.

Definition M (A : Type) : Type := kernel -> run A.

Definition ret {A : Type} (a : A) : M A := fun k => Run (Done a) k [].

Definition bind {A B : Type} (m : M A) (f : A -> M B) : M B := fun k =>
  let r := m k in
  match outcome r with
  | Done a =>
      let r' := f a (final r) in
      Run (outcome r') (final r') (points r ++ points r')
  | Panic msg => Run (Panic msg) (final r) (points r)
  | Asleep => Run Asleep (final r) (points r)
  | OutOfFuel => Run OutOfFuel (final r) (points r)
  end.

Notation "'let*' x ':=' m 'in' f" := (bind m (fun x => f))
  (at level 10, x name, m at level 100, f at level 200).
Notation "m >> f" := (bind m (fun _ => f))
  (at level 100, f at level 200, right associativity).

(** Reading the state. *)
Definition gets {A : Type} (f : kernel -> A) : M A := fun k => Run (Done (f k)) k [].

(** One statement that changes the state. *)
Definition stmt (f : kernel -> kernel) : M unit := fun k => Run (Done tt) (f k) [f k].

(** A conditional on the state. *)
Definition cond {A : Type} (c : kernel -> bool) (m1 m2 : M A) : M A := fun k =>
  if c k then m1 k else m2 k.

Definition out_of_fuel {A : Type} : M A := fun k => Run OutOfFuel k [].

(** How a run ends: its outcome and its last state. *)
Definition res {A : Type} (m : M A) (k : kernel) : result A * kernel :=
  (outcome (m k), final (m k)).

(** Modelled from the spec: kpanic of the kernel library. A panic is
    fatal: the system halts and the routine never continues. *)
Definition kpanic {A : Type} (msg : string) : M A := fun k => Run (Panic msg) k [].

(** Modelled from the spec: kprintf of the kernel library writes a
    message to the console, which is not part of the kernel state. *)
Definition kprintf (msg : string) : M unit := ret tt.

(** Modelled from the spec: the interrupt-masking primitives of the
    hardware layer. *)
Definition disable_interrupts : M unit := stmt (with_interrupts false).
Definition enable_interrupts : M unit := stmt (with_interrupts true).

(** The struct that a pointer points to, and assignment through a
    pointer. *)
Definition load (k : kernel) (p : bufptr) : buffer :=
  match p with
  | Buffers i => buffers k !!! i
  | FreeBuffers => free_buffers k
  | Hashtab i => hashtab k !!! i
  end.

Definition store (p : bufptr) (f : buffer -> buffer) (k : kernel) : kernel :=
  match p with
  | Buffers i => with_buffers (alter f i (buffers k)) k
  | FreeBuffers => with_free_buffers (f (free_buffers k)) k
  | Hashtab i => with_hashtab (alter f i (hashtab k)) k
  end.

Notation "k @ p" := (load k p) (at level 9, p at level 9, format "k @ p").

(** A wait queue: the [chain] of a buffer, or the file-local [chain]. *)
Inductive wait_queue :=
| BufChain (buf : bufptr)
| AnyFreeChain.

Definition queue (k : kernel) (q : wait_queue) : list nat :=
  match q with
  | BufChain buf => chain k@buf
  | AnyFreeChain => any_free_chain k
  end.

Definition set_queue (q : wait_queue) (l : list nat) (k : kernel) : kernel :=
  match q with
  | BufChain buf => store buf (with_chain l) k
  | AnyFreeChain => with_any_free_chain l k
  end.

Section BufferCache.
Context {cfg : Config}.

(** Modelled from the spec: sleep of the process manager. The current
    process joins the queue and waits; the processor goes to another
    process, which runs with interrupts enabled. The run of the routine
    ends here: the process continues after the call when it is woken, in
    the state of that moment, and re-checks what it slept for. *)
Definition sleep {A : Type} (q : wait_queue) (prio : Z) : M A := fun k =>
  let k1 := set_queue q (curr_proc k :: queue k q) k in
  let k2 := set_proc (curr_proc k) (with_priority prio) k1 in
  let k3 := set_proc (curr_proc k) (with_state PROC_WAITING) k2 in
  let k4 := with_interrupts true k3 in
  Run Asleep k4 [k4].

(** Modelled from the spec: wakeup of the process manager moves every
    sleeper of the queue to the ready state, with [sched], and leaves
    the queue empty. *)
Definition wake (l : list nat) (k : kernel) : kernel :=
  foldl (fun k p => sched p k) k l.

Definition wakeup (q : wait_queue) : M unit :=
  stmt (fun k => set_queue q [] (wake (queue k q) k)).

(** The test [flags & F]. *)
Definition flag_set (fl F : Z) : bool := negb (Z.land fl F =? 0).

Definition HASH (d n : N) : nat :=
  N.to_nat (N.lxor d n mod N.of_nat BUFFERS_HASHTAB_SIZE).

Definition blklock (buf : bufptr) : M unit :=
  disable_interrupts >>
  (* while (buf->flags & BUFFER_LOCKED) sleep(&buf->chain, PRIO_BUFFER); *)
  cond (fun k => flag_set (flags k@buf) BUFFER_LOCKED)
    (sleep (BufChain buf) PRIO_BUFFER)
    (ret tt) >>
  stmt (fun k => store buf (with_flags (Z.lor (flags k@buf) BUFFER_LOCKED)) k) >>
  enable_interrupts.

Definition blkunlock (buf : bufptr) : M unit :=
  disable_interrupts >>
  stmt (fun k => store buf (with_flags (Z.land (flags k@buf) (Z.lnot BUFFER_LOCKED))) k) >>
  wakeup (BufChain buf) >>
  enable_interrupts.

(** [buf->free_prev->free_next = buf->free_next;
     buf->free_next->free_prev = buf->free_prev;] *)
Definition free_unlink (buf : bufptr) : M unit :=
  stmt (fun k => store (free_prev k@buf) (with_free_next (free_next k@buf)) k) >>
  stmt (fun k => store (free_next k@buf) (with_free_prev (free_prev k@buf)) k).

(** [buf->count++], giving the value before the increment. *)
Definition count_incr (buf : bufptr) : M Z :=
  let* old := gets (fun k => count k@buf) in
  stmt (fun k => store buf (with_count (wrap_int (count k@buf + 1))) k) >>
  ret old.

(** The part of the loop body of getblk for a buffer that holds the
    wanted block: getblk sleeps while the buffer is locked, and returns
    the buffer, locked and with one more reference, otherwise. *)
Definition getblk_found (buf : bufptr) : M (option bufptr) :=
  cond (fun k => flag_set (flags k@buf) BUFFER_LOCKED)
    (* goto repeat, once woken *)
    (sleep (BufChain buf) PRIO_BUFFER)
    (let* old := count_incr buf in
     (if old =? 0 then free_unlink buf else ret tt) >>
     blklock buf >>
     enable_interrupts >>
     ret (Some buf)).

(** The walk of getblk along hash queue [i], from [buf] on. [Some buf]
    is the buffer that getblk returns from inside the loop; [None] means
    that the loop ended without finding the block. *)
Fixpoint getblk_search (fuel : nat) (d n : N) (i : nat) (buf : bufptr)
  : M (option bufptr) :=
  match fuel with
  | O => out_of_fuel
  | S fuel =>
      if decide (buf = Hashtab i) then ret None
      else
        cond (fun k => negb (dev k@buf =? d)%N || negb (num k@buf =? n)%N)
          (* continue *)
          (let* next := gets (fun k => hash_next k@buf) in
           getblk_search fuel d n i next)
          (getblk_found buf)
  end.

(** The part of getblk after the loop: the block is not in the cache,
    and the first buffer of the free list is taken for it. *)
Definition getblk_miss (d n : N) (i : nat) : M bufptr :=
  cond (fun k => bool_decide (FreeBuffers = free_next k@FreeBuffers))
    (kprintf "fs: no free buffers" >>
     (* goto repeat, once woken *)
     sleep AnyFreeChain PRIO_BUFFER)
    (let* buf := gets (fun k => free_next k@FreeBuffers) in
     free_unlink buf >>
     count_incr buf >>
     cond (fun k => flag_set (flags k@buf) BUFFER_DIRTY)
       (* the statements after the panic are never reached *)
       (kpanic "fs: asynchronous write")
       (ret tt) >>
     (* remove buffer from hash queue *)
     stmt (fun k => store (hash_prev k@buf) (with_hash_next (hash_next k@buf)) k) >>
     stmt (fun k => store (hash_next k@buf) (with_hash_prev (hash_prev k@buf)) k) >>
     (* reassign device and block number *)
     stmt (store buf (with_dev d)) >>
     stmt (store buf (with_num n)) >>
     stmt (fun k => store buf (with_flags (Z.land (flags k@buf) (Z.lnot BUFFER_VALID))) k) >>
     (* place buffer in a new hash queue *)
     stmt (fun k => store (hash_next k@(Hashtab i)) (with_hash_prev buf) k) >>
     stmt (store buf (with_hash_prev (Hashtab i))) >>
     stmt (fun k => store buf (with_hash_next (hash_next k@(Hashtab i))) k) >>
     stmt (store (Hashtab i) (with_hash_next buf)) >>
     blklock buf >>
     enable_interrupts >>
     ret buf).

(** getblk, from the label [repeat] on. A hash queue holds buffers of
    the [buffers] array only, so a walk that is longer than the array
    does not come back to the list head. *)
Definition getblk_repeat (d n : N) : M bufptr :=
  let i := HASH d n in
  disable_interrupts >>
  let* first := gets (fun k => hash_next k@(Hashtab i)) in
  let* found := getblk_search (S NR_BUFFERS) d n i first in
  match found with
  | Some buf => ret buf
  | None => getblk_miss d n i
  end.

Definition getblk (d n : N) : M bufptr :=
  (if (d =? 0)%N && (n =? 0)%N then kpanic "getblk(0, 0)" else ret tt) >>
  getblk_repeat d n.

Definition brelse (buf : bufptr) : M unit :=
  disable_interrupts >>
  (* if (--buf->count == 0) *)
  stmt (fun k => store buf (with_count (wrap_int (count k@buf - 1))) k) >>
  cond (fun k => count k@buf =? 0)
    (wakeup AnyFreeChain >>
     cond (fun k => flag_set (flags k@buf) BUFFER_VALID
                    && flag_set (flags k@buf) BUFFER_DIRTY)
       (* insert in the end *)
       (stmt (fun k => store (free_prev k@FreeBuffers) (with_free_next buf) k) >>
        stmt (fun k => store buf (with_free_prev (free_prev k@FreeBuffers)) k) >>
        stmt (store FreeBuffers (with_free_prev buf)) >>
        stmt (store buf (with_free_next FreeBuffers)))
       (* insert in the begin *)
       (stmt (fun k => store (free_next k@FreeBuffers) (with_free_prev buf) k) >>
        stmt (store buf (with_free_prev FreeBuffers)) >>
        stmt (fun k => store buf (with_free_next (free_next k@FreeBuffers)) k) >>
        stmt (store FreeBuffers (with_free_next buf))))
    (ret tt) >>
  cond (fun k => count k@buf <? 0)
    (kpanic "fs: freeing buffer twice")
    (ret tt) >>
  blkunlock buf >>
  enable_interrupts.

(** Modelled from the spec: bdev_readblk of the device layer reads the
    block synchronously and marks the buffer valid. *)
Definition bdev_readblk (buf : bufptr) : M unit :=
  stmt (fun k => with_io_log (io_log k ++ [DevRead (dev k@buf) (num k@buf)]) k) >>
  stmt (fun k => store buf (with_flags (Z.lor (flags k@buf) BUFFER_VALID)) k).

(** Modelled from the spec: bdev_writeblk of the device layer writes the
    block synchronously, marks the buffer clean and, after the write,
    releases the buffer. *)
Definition bdev_writeblk (buf : bufptr) : M unit :=
  stmt (fun k => with_io_log (io_log k ++ [DevWrite (dev k@buf) (num k@buf)]) k) >>
  stmt (fun k => store buf (with_flags (Z.land (flags k@buf) (Z.lnot BUFFER_DIRTY))) k) >>
  brelse buf.

Definition bread (d n : N) : M bufptr :=
  let* buf := getblk d n in
  cond (fun k => flag_set (flags k@buf) BUFFER_VALID)
    (ret buf)
    (bdev_readblk buf >>
     ret buf).

Definition bwrite (buf : bufptr) : M unit :=
  bdev_writeblk buf.

(** The body of the loop of bsync, for one buffer. *)
Definition bsync_buffer (buf : bufptr) : M unit :=
  blklock buf >>
  cond (fun k => negb (flag_set (flags k@buf) BUFFER_VALID))
    (blkunlock buf)
    (let* old := count_incr buf in
     (if old =? 0 then free_unlink buf else ret tt) >>
     bdev_writeblk buf).

Fixpoint bsync_loop (bufs : list nat) : M unit :=
  match bufs with
  | [] => ret tt
  | i :: bufs' => bsync_buffer (Buffers i) >> bsync_loop bufs'
  end.

Definition bsync : M unit := bsync_loop (seq 0 NR_BUFFERS).

(** The body of the first loop of binit, for buffer [i]; [ptr] is the
    address of its data. *)
Definition binit_buffer (i : nat) (ptr : Z) : M unit :=
  stmt (store (Buffers i) (with_dev 0)) >>
  stmt (store (Buffers i) (with_num 0)) >>
  stmt (store (Buffers i) (with_data ptr)) >>
  stmt (store (Buffers i) (with_count 0)) >>
  stmt (store (Buffers i)
          (with_flags (Z.lnot (Z.lor (Z.lor (Z.lor BUFFER_VALID BUFFER_BUSY)
                                        BUFFER_LOCKED) BUFFER_DIRTY)))) >>
  stmt (store (Buffers i) (with_chain [])) >>
  stmt (store (Buffers i)
          (with_free_next (if decide (i + 1 = NR_BUFFERS)%nat
                           then FreeBuffers else Buffers (i + 1)))) >>
  stmt (store (Buffers i)
          (with_free_prev (if Z.of_nat i - 1 <? 0
                           then FreeBuffers else Buffers (i - 1)))) >>
  stmt (store (Buffers i) (with_hash_next (Buffers i))) >>
  stmt (store (Buffers i) (with_hash_prev (Buffers i))).

Fixpoint binit_buffers (idx : list nat) (ptr : Z) : M unit :=
  match idx with
  | [] => ret tt
  | i :: idx' => binit_buffer i ptr >> binit_buffers idx' (ptr + BLOCK_SIZE)
  end.

Fixpoint binit_hashtab (idx : list nat) : M unit :=
  match idx with
  | [] => ret tt
  | i :: idx' =>
      stmt (store (Hashtab i) (with_hash_prev (Hashtab i))) >>
      stmt (store (Hashtab i) (with_hash_next (Hashtab i))) >>
      binit_hashtab idx'
  end.

Definition binit : M unit :=
  kprintf "fs: initializing the block buffer cache" >>
  binit_buffers (seq 0 NR_BUFFERS) BUFFERS_VIRT >>
  stmt (store FreeBuffers (with_free_next (Buffers 0))) >>
  stmt (store FreeBuffers (with_free_prev (Buffers (NR_BUFFERS - 1)))) >>
  binit_hashtab (seq 0 BUFFERS_HASHTAB_SIZE) >>
  kprintf "fs: %d slots in the block buffer cache".

End BufferCache.

(** ** Example configuration and scheduler states

    A small configuration with the quantum of the design document's
    scenarios (100 ticks), and process tables for its lottery and
    compensation scenarios: slot 0 holds the idle process, the slots
    1 and 2 the processes P1 and P2. *)

Definition example_cfg : Config := {|
  PROC_QUANTUM := 100;
  PRIO_USER := 40;
  PRIO_BUFFER := -80;
  NORMALIZATION_VALUE := 80;
  FIRST_PROC := 1;
  LAST_PROC := 2;
  IDLE := 0;
  NR_BUFFERS := 4;
  BUFFERS_HASHTAB_SIZE := 3;
  BLOCK_SIZE := 1024;
  BUFFERS_VIRT := 4096;
  BUFFER_VALID := 1;
  BUFFER_BUSY := 2;
  BUFFER_LOCKED := 4;
  BUFFER_DIRTY := 8
|}.

Definition example_process (st : proc_state) (cnt tk : Z) : process :=
  {| state := st; counter := cnt; priority := 40; nice := 0; tickets := tk;
     compensation := 0; alarm := 0; father := 0%nat; received := [] |}.

Definition example_kernel (procs : list process) (curr : nat) (now : Z) : kernel :=
  {| proctab := procs; curr_proc := curr; last_proc := curr; ticks := now;
     buffers := replicate 4 null_buffer; free_buffers := null_buffer;
     hashtab := replicate 3 null_buffer; any_free_chain := [];
     interrupts := true; io_log := [] |}.

(** The idle process runs; P1 (10 tickets) and P2 (30 tickets) are
    ready; the clock is at [now]. *)
Definition lottery_kernel (now : Z) : kernel :=
  example_kernel
    [example_process PROC_RUNNING 0 0;
     example_process PROC_READY 0 10;
     example_process PROC_READY 0 30] 0 now.

(** P1 runs with 10 tickets and has 75 ticks of its quantum left. *)
Definition compensation_kernel : kernel :=
  example_kernel
    [example_process PROC_READY 0 0;
     example_process PROC_RUNNING 75 10;
     example_process PROC_WAITING 0 30] 1 0.

(** P1 runs with [tk] tickets and has [cnt] ticks of its quantum left. *)
Definition early_yield_kernel (cnt tk : Z) : kernel :=
  example_kernel
    [example_process PROC_READY 0 0;
     example_process PROC_RUNNING cnt tk;
     example_process PROC_WAITING 0 30] 1 0.

(** The compensation as the specification words it, in exact arithmetic:
    the tickets divided by the used fraction
    [(quantum - cnt) / quantum] of the quantum, truncated toward zero,
    less the tickets. Dividing by that fraction is multiplying by
    [quantum] and dividing by [quantum - cnt]. *)
Definition compensation_formula (quantum cnt tk : Z) : Z :=
  Z.quot (tk * quantum) (quantum - cnt) - tk.

(** The compensation that add_compensation gives P1 when it has [cnt]
    ticks left and [tk] tickets. *)
Definition early_yield_compensation (cnt tk : Z) : Z :=
  compensation (proc (@add_compensation example_cfg (early_yield_kernel cnt tk)) 1).

(** The integers [lo], [lo + 1], ..., [lo + n - 1]. *)
Definition Z_range (lo : Z) (n : nat) : list Z :=
  map (fun i => lo + Z.of_nat i) (seq 0 n).

(** ** Vocabulary of the buffer cache properties *)

(** A pointer that points to an existing struct. *)
Definition valid_ptr (k : kernel) (p : bufptr) : Prop :=
  match p with
  | Buffers i => (i < length (buffers k))%nat
  | FreeBuffers => True
  | Hashtab i => (i < length (hashtab k))%nat
  end.

Global Instance valid_ptr_dec (k : kernel) (p : bufptr) : Decision (valid_ptr k p).
Proof. destruct p; simpl; apply _. Defined.

(** The state after some statements of the cache, as functions of the
    state before them. *)

(** [buf->free_prev->free_next = buf->free_next;
     buf->free_next->free_prev = buf->free_prev;] *)
Definition unlinked (buf : bufptr) (k : kernel) : kernel :=
  let u1 := store (free_prev k@buf) (with_free_next (free_next k@buf)) k in
  store (free_next u1@buf) (with_free_prev (free_prev u1@buf)) u1.

(** [buf->count++;] *)
Definition counted (buf : bufptr) (k : kernel) : kernel :=
  store buf (with_count (wrap_int (count k@buf + 1))) k.

(** blklock on a buffer that is not locked. *)
Definition locked {cfg : Config} (buf : bufptr) (k : kernel) : kernel :=
  with_interrupts true
    (store buf (with_flags (Z.lor (flags k@buf) BUFFER_LOCKED))
       (with_interrupts false k)).

(** [buf->hash_prev->hash_next = buf->hash_next;
     buf->hash_next->hash_prev = buf->hash_prev;] *)
Definition hash_unlinked (buf : bufptr) (k : kernel) : kernel :=
  let h1 := store (hash_prev k@buf) (with_hash_next (hash_next k@buf)) k in
  store (hash_next h1@buf) (with_hash_prev (hash_prev h1@buf)) h1.

(** [buf->dev = dev; buf->num = num; buf->flags &= ~BUFFER_VALID;] *)
Definition reassigned {cfg : Config} (d n : N) (buf : bufptr) (k : kernel) : kernel :=
  let a1 := store buf (with_dev d) k in
  let a2 := store buf (with_num n) a1 in
  store buf (with_flags (Z.land (flags a2@buf) (Z.lnot BUFFER_VALID))) a2.

(** The four assignments that place [buf] first in hash queue [i]. *)
Definition hash_inserted (i : nat) (buf : bufptr) (k : kernel) : kernel :=
  let i1 := store (hash_next k@(Hashtab i)) (with_hash_prev buf) k in
  let i2 := store buf (with_hash_prev (Hashtab i)) i1 in
  let i3 := store buf (with_hash_next (hash_next i2@(Hashtab i))) i2 in
  store (Hashtab i) (with_hash_next buf) i3.

(** The state after getblk has found its block in an unlocked buffer. *)
Definition found_state {cfg : Config} (buf : bufptr) (k : kernel) : kernel :=
  with_interrupts true
    (locked buf
       (if count k@buf =? 0 then unlinked buf (counted buf k) else counted buf k)).

(** The state after getblk has taken [buf] out of the free list and
    has counted its reference. *)
Definition victim_state (buf : bufptr) (k : kernel) : kernel :=
  counted buf (unlinked buf k).

(** The state after getblk has moved [buf] to hash queue [i], for block
    [n] of device [d]. *)
Definition rehash_state {cfg : Config} (d n : N) (i : nat) (buf : bufptr) (k : kernel)
  : kernel :=
  hash_inserted i buf (reassigned d n buf (hash_unlinked buf k)).

(** The state in which getblk returns a buffer that it took from the
    free list. *)
Definition miss_state {cfg : Config} (d n : N) (i : nat) (buf : bufptr) (k : kernel)
  : kernel :=
  with_interrupts true (locked buf (rehash_state d n i buf (victim_state buf k))).

(** The flags that the cache tests are bits of their own. *)
Definition flags_distinct {cfg : Config} : Prop :=
  BUFFER_VALID <> 0 /\ BUFFER_LOCKED <> 0 /\ BUFFER_DIRTY <> 0 /\
  Z.land BUFFER_VALID BUFFER_LOCKED = 0 /\
  Z.land BUFFER_DIRTY BUFFER_LOCKED = 0 /\
  Z.land BUFFER_DIRTY BUFFER_VALID = 0.

(** The four flags of a buffer, as one mask. *)
Definition BUFFER_FLAGS {cfg : Config} : Z :=
  Z.lor (Z.lor (Z.lor BUFFER_VALID BUFFER_BUSY) BUFFER_LOCKED) BUFFER_DIRTY.

(** Buffer [i] as binit leaves it, with its data at [ptr]. *)
Definition init_buffer {cfg : Config} (i : nat) (ptr : Z) : buffer :=
  {| dev := 0; num := 0; data := ptr; count := 0;
     flags := Z.lnot BUFFER_FLAGS;
     chain := [];
     free_next := if decide (i + 1 = NR_BUFFERS)%nat then FreeBuffers else Buffers (i + 1);
     free_prev := if Z.of_nat i - 1 <? 0 then FreeBuffers else Buffers (i - 1);
     hash_next := Buffers i;
     hash_prev := Buffers i |}.

(** Doubly-linked lists of buffers, along a pair of link fields
    ([next], [prev]): the free list along [free_next] and [free_prev],
    a hash queue along [hash_next] and [hash_prev]. *)
Section Paths.
Variables next prev : buffer -> bufptr.

(** Two neighbours: [b] comes after [a], and [a] before [b]. *)
Definition linked (k : kernel) (a b : bufptr) : Prop :=
  next k@a = b /\ prev k@b = a.

(** The buffers [l] are linked one after the other between [a] and
    [z], in both directions. *)
Fixpoint path (k : kernel) (a : bufptr) (l : list nat) (z : bufptr) : Prop :=
  match l with
  | [] => linked k a z
  | i :: l' => linked k a (Buffers i) /\ path k (Buffers i) l' z
  end.

End Paths.

(** The walk along [hash_next] from [p] goes through the buffers [l]
    and arrives at [z]. *)
Fixpoint hash_chain (k : kernel) (p : bufptr) (l : list nat) (z : bufptr) : Prop :=
  match l with
  | [] => p = z
  | j :: l' => p = Buffers j /\ hash_chain k (hash_next k@p) l' z
  end.

(** Buffer [j] holds block [n] of device [d]. *)
Definition holds (k : kernel) (j : nat) (d n : N) : Prop :=
  dev k@(Buffers j) = d /\ num k@(Buffers j) = n.

Global Instance holds_dec (k : kernel) (j : nat) (d n : N) : Decision (holds k j d n).
Proof. unfold holds. apply _. Defined.

(** The first buffer of the list [l] that holds block [n] of device
    [d]. *)
Fixpoint lookup_block (k : kernel) (d n : N) (l : list nat) : option nat :=
  match l with
  | [] => None
  | j :: l' => if decide (holds k j d n) then Some j else lookup_block k d n l'
  end.

(** getblk has returned buffer [j] for block [n] of device [d]: the
    buffer has this identity, is locked and is referenced. *)
Definition getblk_returned {cfg : Config} (d n : N) (r : run bufptr) (j : nat) : Prop :=
  outcome r = Done (Buffers j) /\
  dev (final r)@(Buffers j) = d /\
  num (final r)@(Buffers j) = n /\
  flag_set (flags (final r)@(Buffers j)) BUFFER_LOCKED = true /\
  1 <= count (final r)@(Buffers j).

(** Reference counts are not negative and can still be incremented. *)
Definition counts_in_range (k : kernel) : Prop :=
  forall i, (i < length (buffers k))%nat -> 0 <= count k@(Buffers i) < INT_MAX.

(** The element after the start of a path. *)
Definition path_head (l : list nat) (z : bufptr) : bufptr :=
  match l with
  | [] => z
  | i :: _ => Buffers i
  end.

(** The free list holds exactly the buffers [l], from head to tail. *)
Definition is_free_list (k : kernel) (l : list nat) : Prop :=
  path free_next free_prev k FreeBuffers l FreeBuffers /\
  NoDup l /\
  (forall i, i ∈ l -> (i < length (buffers k))%nat).

(** Hash queue [h] holds exactly the buffers [l], from head to tail. *)
Definition is_hash_queue (k : kernel) (h : nat) (l : list nat) : Prop :=
  path hash_next hash_prev k (Hashtab h) l (Hashtab h) /\
  NoDup l /\
  (forall i, i ∈ l -> (i < length (buffers k))%nat).

(** ** Example cache states

    States of the example configuration (4 buffers, 3 hash queues),
    reached from binit by the routines of the cache. Process 0 is the
    caller unless said otherwise. *)

(** A kernel whose cache is not initialised yet. *)
Definition boot_kernel : kernel :=
  example_kernel
    [example_process PROC_RUNNING 50 10;
     example_process PROC_READY 0 10;
     example_process PROC_READY 0 30] 0 0.

(** After binit. *)
Definition cache_init : kernel := final (@binit example_cfg boot_kernel).

(** Process 0 has read block (1, 10) and holds its buffer, buffer 0. *)
Definition cache_held : kernel := final (@bread example_cfg 1 10 cache_init).

(** Process 1 has asked for the same block and sleeps on buffer 0; the
    processor is back at process 0. *)
Definition cache_contended : kernel :=
  with_curr_proc 0 (final (@getblk example_cfg 1 10 (with_curr_proc 1 cache_held))).

(** Process 0 has released buffer 0 again: the buffer is valid, not
    referenced and first in the free list. *)
Definition cache_released : kernel :=
  final (@brelse example_cfg (Buffers 0) cache_held).

(** Process 0 has read block (1, 7) into buffer 0, written to it and
    released it; then it has read the blocks (1, 1), (1, 2) and (1, 3)
    and holds their buffers. The dirty buffer 0 is the only free one. *)
Definition cache_dirty_head : kernel :=
  let k1 := final (@bread example_cfg 1 7 cache_init) in
  let k2 := store (Buffers 0)
              (with_flags (Z.lor (flags k1@(Buffers 0)) (@BUFFER_DIRTY example_cfg))) k1 in
  let k3 := final (@brelse example_cfg (Buffers 0) k2) in
  let k4 := final (@bread example_cfg 1 1 k3) in
  let k5 := final (@bread example_cfg 1 2 k4) in
  final (@bread example_cfg 1 3 k5).

(** The buffers that the walk along [free_next] from [p] meets before
    it leaves the buffer array. *)
Fixpoint free_walk (fuel : nat) (k : kernel) (p : bufptr) : list nat :=
  match fuel, p with
  | S fuel, Buffers i => i :: free_walk fuel k (free_next k@p)
  | _, _ => []
  end.

(** The buffers on the free list. *)
Definition free_members (k : kernel) : list nat :=
  free_walk (length (buffers k)) k (free_next k@FreeBuffers).

(** The invariant of the reference counts: a buffer has no reference
    if and only if it is on the free list. *)
Definition count_iff_free (k : kernel) : Prop :=
  forall i, (i < length (buffers k))%nat ->
    (count k@(Buffers i) = 0 <-> i ∈ free_members k).

(** The invariant, with the free list named: the free list holds the
    buffers [l], and a buffer has no reference if and only if it is one
    of them; no reference count is negative. *)
Definition free_list_inv (k : kernel) (l : list nat) : Prop :=
  is_free_list k l /\
  forall i, (i < length (buffers k))%nat ->
    0 <= count k@(Buffers i) <= INT_MAX /\
    (count k@(Buffers i) = 0 <-> i ∈ l).

(** bsync on [cache_released], at buffer 0: bsync has locked the buffer
    and has counted its reference, and has not taken the buffer out of
    the free list yet. *)
Definition bsync_window : kernel :=
  counted (Buffers 0) (@locked example_cfg (Buffers 0) cache_released).

(** ** Vocabulary of the scheduler properties *)

(** The tickets that the ready processes among [ps] hold together. *)
Fixpoint ready_tickets (k : kernel) (ps : list nat) : Z :=
  match ps with
  | [] => 0
  | p :: ps' =>
      if decide (state (proc k p) = PROC_READY)
      then lottery_tickets (proc k p) + ready_tickets k ps'
      else ready_tickets k ps'
  end.

(** No process other than [p] is running. *)
Definition only_running (k : kernel) (p : nat) : Prop :=
  forall q, (q < length (proctab k))%nat -> state (proc k q) = PROC_RUNNING -> q = p.

(** The test of the first loop of yield on a process: the slot is valid,
    an alarm is set and its time is over. *)
Definition alarm_expired (now : Z) (p : process) : bool :=
  IS_VALID p && negb (alarm p =? 0) && (alarm p <? now).

(** A process after its alarm has gone off: the alarm is cleared and
    SIGALRM has been sent. *)
Definition alarm_fired (p : process) : process :=
  with_received (SIGALRM :: received p) (with_alarm 0 p).

(** ** Vocabulary of the hash queues *)

(** A list of buffers without buffer [j]. *)
Definition without (j : nat) (l : list nat) : list nat :=
  filter (fun x => x <> j) l.

(** Buffer [j] is linked to itself along the hash links, as binit leaves
    a buffer that has not held a block yet. *)
Definition hash_self (k : kernel) (j : nat) : Prop :=
  hash_next k@(Buffers j) = Buffers j /\ hash_prev k@(Buffers j) = Buffers j.

(** The hash table as a whole: queue [h] holds the buffers [qs h]; a
    buffer is in the queue that its device and block number hash to, or
    in no queue and linked to itself; and no two buffers of the queues
    hold the same block. *)
Definition cache_inv {cfg : Config} (k : kernel) (qs : nat -> list nat) : Prop :=
  (forall h, (h < length (hashtab k))%nat -> is_hash_queue k h (qs h)) /\
  (forall h j, (h < length (hashtab k))%nat -> j ∈ qs h ->
     HASH (dev k@(Buffers j)) (num k@(Buffers j)) = h) /\
  (forall j, (j < length (buffers k))%nat ->
     (forall h, (h < length (hashtab k))%nat -> j ∉ qs h) -> hash_self k j) /\
  (forall h j1 j2, (h < length (hashtab k))%nat -> j1 ∈ qs h -> j2 ∈ qs h ->
     dev k@(Buffers j1) = dev k@(Buffers j2) ->
     num k@(Buffers j1) = num k@(Buffers j2) -> j1 = j2).

(** No buffer is locked. *)
Definition all_unlocked {cfg : Config} (k : kernel) : Prop :=
  forall i, (i < length (buffers k))%nat ->
    flag_set (flags k@(Buffers i)) BUFFER_LOCKED = false.

(** The requests that bsync hands to the driver for the buffers [bufs]:
    one write for each valid buffer, in the order of the list. *)
Fixpoint sync_writes {cfg : Config} (k : kernel) (bufs : list nat) : list io_event :=
  match bufs with
  | [] => []
  | i :: bufs' =>
      if flag_set (flags k@(Buffers i)) BUFFER_VALID
      then DevWrite (dev k@(Buffers i)) (num k@(Buffers i)) :: sync_writes k bufs'
      else sync_writes k bufs'
  end.

(** The queues [qs] after buffer [j] has been moved to the front of
    queue [h]. *)
Definition requeued (h j : nat) (qs : nat -> list nat) : nat -> list nat :=
  fun h' => if decide (h' = h) then j :: without j (qs h) else without j (qs h').

(** After binit a process has asked for the blocks (1, 1) to (1, 4) and
    holds their buffers: no buffer is free. *)
Definition cache_full : kernel :=
  let k1 := final (@getblk example_cfg 1 1 cache_init) in
  let k2 := final (@getblk example_cfg 1 2 k1) in
  let k3 := final (@getblk example_cfg 1 3 k2) in
  final (@getblk example_cfg 1 4 k3).

(** * Properties *)

(** ** Machine integers *)

Lemma wrap_int_id (z : Z) : in_int z -> wrap_int z = z.
Proof.
  unfold in_int, INT_MIN, INT_MAX, wrap_int. intros H.
  rewrite Z.mod_small; lia.
Qed.

Lemma wrap_int_range (z : Z) : in_int (wrap_int z).
Proof.
  unfold in_int, INT_MIN, INT_MAX, wrap_int.
  pose proof (Z.mod_pos_bound (z + 2 ^ 31) (2 ^ 32)). lia.
Qed.

(** Bits 16 to 30 of a number do not depend on what is above bit 31. *)
Lemma bits_16_30_of_low_word (x : Z) :
  (x mod 2 ^ 32 / 65536) mod 32768 = (x / 65536) mod 32768.
Proof.
  rewrite (Z.div_mod x (2 ^ 32)) at 2 by lia.
  replace (2 ^ 32 * (x / 2 ^ 32) + x mod 2 ^ 32)
    with (x mod 2 ^ 32 + (x / 2 ^ 32 * 65536) * 65536) by lia.
  rewrite Z.div_add by lia.
  replace (x / 2 ^ 32 * 65536) with (x / 2 ^ 32 * 2 * 32768) by lia.
  rewrite Z.mod_add by lia. reflexivity.
Qed.

(** ** The pseudo-random generator and the lottery draw *)

Lemma rand_formula (k : kernel) :
  rand k = ((ticks k * 1103515245 + 12345) / 65536) mod 32768.
Proof.
  unfold rand, CURRENT_TIME, wrap_uint.
  rewrite Zplus_mod_idemp_l.
  rewrite (Z.mod_small (_ / 65536) (2 ^ 32)).
  - rewrite bits_16_30_of_low_word. apply wrap_int_id.
    pose proof (Z.mod_pos_bound ((ticks k * 1103515245 + 12345) / 65536) 32768).
    unfold in_int, INT_MIN, INT_MAX. lia.
  - pose proof (Z.mod_pos_bound (ticks k * 1103515245 + 12345) (2 ^ 32)).
    split.
    + apply Z.div_pos; lia.
    + apply Z.div_lt_upper_bound; lia.
Qed.

Lemma rand_range (k : kernel) : 0 <= rand k < 32768.
Proof. rewrite rand_formula. apply Z.mod_pos_bound. lia. Qed.

Lemma next_process_formula (k : kernel) (total_tickets : Z) :
  0 <= total_tickets <= 65536 ->
  next_process k total_tickets = rand k * total_tickets / 32768 + 1.
Proof.
  intros H. unfold next_process.
  pose proof (rand_range k) as Hr.
  assert (0 <= rand k * total_tickets <= 32767 * 65536) by nia.
  rewrite (wrap_int_id (rand k * total_tickets))
    by (unfold in_int, INT_MIN, INT_MAX; lia).
  rewrite Z.quot_div_nonneg by lia.
  apply wrap_int_id.
  assert (0 <= rand k * total_tickets / 32768 <= 32767 * 65536).
  { split; [apply Z.div_pos; lia|].
    apply Z.div_le_upper_bound; lia. }
  unfold in_int, INT_MIN, INT_MAX. lia.
Qed.

(** The draw is a ticket number between 1 and the number of tickets. *)
Lemma next_process_range (k : kernel) (total_tickets : Z) :
  0 < total_tickets <= 65536 ->
  1 <= next_process k total_tickets <= total_tickets.
Proof.
  intros H. rewrite next_process_formula by lia.
  pose proof (rand_range k) as Hr.
  assert (0 <= rand k * total_tickets / 32768) by (apply Z.div_pos; nia).
  assert (rand k * total_tickets / 32768 < total_tickets).
  { apply Z.div_lt_upper_bound; nia. }
  lia.
Qed.

(** ** Process-table updates *)

Lemma proc_set_proc_eq (k : kernel) (i : nat) (f : process -> process) :
  (i < length (proctab k))%nat -> proc (set_proc i f k) i = f (proc k i).
Proof. intros H. unfold proc, set_proc. simpl. by apply list_lookup_total_alter_eq. Qed.

Lemma proc_set_proc_ne (k : kernel) (i j : nat) (f : process -> process) :
  i <> j -> proc (set_proc i f k) j = proc k j.
Proof. intros H. unfold proc, set_proc. simpl. by apply list_lookup_total_alter_ne. Qed.

Lemma length_proctab_set_proc (k : kernel) (i : nat) (f : process -> process) :
  length (proctab (set_proc i f k)) = length (proctab k).
Proof. unfold set_proc. simpl. apply length_alter. Qed.

Lemma set_proc_fields (k : kernel) (i : nat) (f : process -> process) :
  curr_proc (set_proc i f k) = curr_proc k /\
  last_proc (set_proc i f k) = last_proc k /\
  ticks (set_proc i f k) = ticks k /\
  buffers (set_proc i f k) = buffers k /\
  free_buffers (set_proc i f k) = free_buffers k /\
  hashtab (set_proc i f k) = hashtab k /\
  any_free_chain (set_proc i f k) = any_free_chain k /\
  interrupts (set_proc i f k) = interrupts k /\
  io_log (set_proc i f k) = io_log k.
Proof. by repeat split. Qed.

Lemma proc_sched_eq (k : kernel) (i : nat) :
  (i < length (proctab k))%nat ->
  proc (sched i k) i = with_counter 0 (with_state PROC_READY (proc k i)).
Proof.
  intros H. unfold sched.
  rewrite proc_set_proc_eq by (by rewrite length_proctab_set_proc).
  by rewrite proc_set_proc_eq.
Qed.

Lemma proc_sched_ne (k : kernel) (i j : nat) :
  i <> j -> proc (sched i k) j = proc k j.
Proof. intros H. unfold sched. by rewrite !proc_set_proc_ne. Qed.

Lemma length_proctab_sched (k : kernel) (i : nat) :
  length (proctab (sched i k)) = length (proctab k).
Proof. unfold sched. by rewrite !length_proctab_set_proc. Qed.

Section SchedulerFacts.
Context {cfg : Config}.

(** Processes that are not ready are skipped by the second loop of
    yield, and the first ready process whose running sum is greater than
    the drawn ticket is chosen. *)
Lemma choose_first_ready (k : kernel) (ticket sum : Z) (ps1 : list nat) (p : nat)
    (ps2 : list nat) :
  (forall q, q ∈ ps1 -> state (proc k q) <> PROC_READY) ->
  state (proc k p) = PROC_READY ->
  ticket < wrap_int (sum + lottery_tickets (proc k p)) ->
  choose k ticket sum (ps1 ++ p :: ps2) = p.
Proof.
  intros Hskip Hready Hwin. induction ps1 as [|q ps1 IH]; simpl.
  - destruct (decide (state (proc k p) <> PROC_READY)) as [Hn|_]; [congruence|].
    destruct (Z.ltb_spec ticket (wrap_int (sum + lottery_tickets (proc k p)))); [done|lia].
  - destruct (decide (state (proc k q) <> PROC_READY)) as [_|Hn].
    + apply IH. intros q' Hq'. apply Hskip. by right.
    + exfalso. apply Hn, Hskip. by left.
Qed.

End SchedulerFacts.

(** ** Compensation tickets *)

Section Compensation.
Context {cfg : Config}.

(** The value that add_compensation computes, in single precision:
    tickets divided by the used fraction of the quantum, cut to an
    integer, less the tickets. *)
Lemma add_compensation_value (k : kernel) :
  let p := proc k (curr_proc k) in
  (curr_proc k < length (proctab k))%nat ->
  in_int PROC_QUANTUM ->
  0 < counter p < PROC_QUANTUM ->
  let fraction :=
    f32_div (f32_of_int (PROC_QUANTUM - counter p)) (f32_of_int PROC_QUANTUM) in
  proc (add_compensation k) (curr_proc k) =
    with_compensation
      (wrap_int (f32_to_uint (f32_div (f32_of_int (tickets p)) fraction) - tickets p)) p.
Proof.
  intros p Hcur HQ Hc fraction. unfold add_compensation. fold p.
  destruct (Z.ltb_spec 0 (counter p)); [|lia].
  destruct (Z.eqb_spec (counter p) PROC_QUANTUM); [lia|]. cbv beta iota zeta.
  change (true && negb false) with true. cbv iota.
  rewrite proc_set_proc_eq by exact Hcur. fold p.
  rewrite (wrap_int_id (PROC_QUANTUM - counter p)); [reflexivity|].
  unfold in_int, INT_MIN, INT_MAX in *. lia.
Qed.

(** A process that yields while it is still running is made ready
    again, after it has been compensated. *)
Lemma yield_resched_running (k : kernel) :
  (curr_proc k < length (proctab k))%nat ->
  state (proc k (curr_proc k)) = PROC_RUNNING ->
  proc (yield_resched k) (curr_proc k) =
    with_counter 0 (with_state PROC_READY (proc (add_compensation k) (curr_proc k))) /\
  curr_proc (yield_resched k) = curr_proc k.
Proof.
  intros Hcur Hrun. unfold yield_resched.
  destruct (decide (state (proc k (curr_proc k)) = PROC_RUNNING)) as [_|]; [|done].
  assert (Hc : curr_proc (add_compensation k) = curr_proc k).
  { unfold add_compensation. by destruct (_ && _). }
  assert (Hl : length (proctab (add_compensation k)) = length (proctab k)).
  { unfold add_compensation. destruct (_ && _); [|done].
    apply length_proctab_set_proc. }
  split; [|done].
  change (proc (sched (curr_proc k) (add_compensation k)) (curr_proc k) =
          with_counter 0 (with_state PROC_READY (proc (add_compensation k) (curr_proc k)))).
  apply proc_sched_eq. by rewrite Hl.
Qed.

(** What add_compensation does for a process that yields while it is
    still running: with [0 < counter < PROC_QUANTUM] the compensation is
    the single-precision quotient of the code, cut to an integer, less
    the tickets; with [counter = 0] or [counter = PROC_QUANTUM] the
    compensation is left as it is. With a quantum of 100, a counter of
    75 and 10 tickets the compensation is 30, and the process enters the
    next lottery with 40 tickets. *)
Lemma add_compensation_on_early_yield (k : kernel) :
  let p := proc k (curr_proc k) in
  (curr_proc k < length (proctab k))%nat ->
  in_int PROC_QUANTUM ->
  state p = PROC_RUNNING ->
  (0 < counter p < PROC_QUANTUM ->
     let fraction :=
       f32_div (f32_of_int (PROC_QUANTUM - counter p)) (f32_of_int PROC_QUANTUM) in
     let final :=
       wrap_int (f32_to_uint (f32_div (f32_of_int (tickets p)) fraction) - tickets p) in
     proc (add_compensation k) (curr_proc k) = with_compensation final p /\
     proc (yield_resched k) (curr_proc k) =
       with_counter 0 (with_state PROC_READY (with_compensation final p))) /\
  (counter p = 0 \/ counter p = PROC_QUANTUM ->
     add_compensation k = k /\
     proc (yield_resched k) (curr_proc k) =
       with_counter 0 (with_state PROC_READY p)) /\
  (PROC_QUANTUM = 100 -> counter p = 75 -> tickets p = 10 ->
     compensation (proc (add_compensation k) (curr_proc k)) = 30 /\
     state (proc (yield_resched k) (curr_proc k)) = PROC_READY /\
     lottery_tickets (proc (yield_resched k) (curr_proc k)) = 40).
Proof.
  intros p Hcur HQ Hrun.
  destruct (yield_resched_running k Hcur Hrun) as [Hy _]. fold p in Hy.
  split; [|split].
  - intros Hc fraction final.
    pose proof (add_compensation_value k Hcur HQ Hc) as Hv.
    cbv zeta in Hv. fold p in Hv. fold fraction in Hv. fold final in Hv.
    split; [exact Hv|]. by rewrite Hy, Hv.
  - intros Hc.
    assert (Hid : add_compensation k = k).
    { unfold add_compensation. fold p.
      destruct Hc as [Hc|Hc]; rewrite Hc.
      - reflexivity.
      - rewrite Z.eqb_refl. by rewrite andb_false_r. }
    split; [exact Hid|]. by rewrite Hy, Hid.
  - intros Hq Hc Ht.
    assert (Hlt : 0 < counter p < PROC_QUANTUM) by lia.
    pose proof (add_compensation_value k Hcur HQ Hlt) as Hv.
    cbv zeta in Hv. fold p in Hv. rewrite Hq, Hc, Ht in Hv.
    rewrite Hy, Hv. unfold lottery_tickets. simpl. rewrite Ht.
    by vm_compute.
Qed.

End Compensation.

Lemma add_compensation_on_early_yield_witness :
  (curr_proc compensation_kernel < length (proctab compensation_kernel))%nat /\
  compensation
    (proc (@add_compensation example_cfg compensation_kernel) 1) = 30 /\
  lottery_tickets (proc (@yield_resched example_cfg compensation_kernel) 1) = 40.
Proof.
  assert (H1 : (curr_proc compensation_kernel < length (proctab compensation_kernel))%nat)
    by (simpl; lia).
  assert (H2 : in_int (@PROC_QUANTUM example_cfg))
    by (unfold in_int, INT_MIN, INT_MAX; simpl; lia).
  destruct (@add_compensation_on_early_yield example_cfg compensation_kernel
              H1 H2 eq_refl) as (_ & _ & H).
  destruct (H eq_refl eq_refl eq_refl) as (Ha & _ & Hb).
  split; [exact H1|]. split; [exact Ha|exact Hb].
Defined.

(** The tickets that the lottery counts after the early yield of the
    compensation scenario. *)
Lemma compensation_scenario_total :
  @yield_total example_cfg compensation_kernel = 40.
Proof. by vm_compute. Qed.

(** The single-precision quotient is not always the exact one: with a
    quantum of 100, a counter of 28 and 18 tickets the exact quotient
    18 / 0.72 is 25, the computed one is just below it. *)
Lemma add_compensation_rounding :
  f32_to_uint
    (f32_div (f32_of_int 18) (f32_div (f32_of_int (100 - 28)) (f32_of_int 100))) = 24.
Proof. by vm_compute. Qed.

(** C6. The compensation is not at every input the quotient of the
    formula, tickets divided by the used fraction of the quantum, cut
    to an integer, less the tickets. With a quantum of 100, a process
    that yields while it is running with 28 ticks left and 18 tickets
    has used 0.72 of its quantum; 18 / 0.72 is 25, so the formula gives
    it 7 compensation tickets. add_compensation gives it 6, and the
    process enters the next lottery with 24 tickets: the used fraction
    in single precision lies just above 0.72, the quotient just below
    25, and the conversion to an integer cuts it to 24. *)
Theorem add_compensation_drops_ticket :
  let k := early_yield_kernel 28 18 in
  let p := proc k (curr_proc k) in
  (state p = PROC_RUNNING /\ counter p = 28 /\ tickets p = 18 /\
   @PROC_QUANTUM example_cfg = 100) /\
  compensation_formula 100 28 18 = 7 /\
  compensation (proc (@add_compensation example_cfg k) (curr_proc k)) = 6 /\
  lottery_tickets (proc (@yield_resched example_cfg k) (curr_proc k)) = 24 /\
  @yield_total example_cfg k = 24.
Proof.
  cbv zeta. split; [by repeat split|]. split; [reflexivity|].
  split; [by vm_compute|]. split; by vm_compute.
Qed.

(** How far the code is from the formula, with a quantum of 100: for
    every counter from 1 to 99 and every number of tickets from 0 to
    100 the compensation of the code is that of the formula or one
    less, and one less only where the exact quotient is a whole
    number. *)
Lemma add_compensation_formula_or_one_less (cnt tk : Z) :
  1 <= cnt <= 99 ->
  0 <= tk <= 100 ->
  early_yield_compensation cnt tk = compensation_formula 100 cnt tk \/
  (early_yield_compensation cnt tk = compensation_formula 100 cnt tk - 1 /\
   (100 - cnt | tk * 100)).
Proof.
  intros Hc Ht.
  assert (Hall :
    forallb (fun c => forallb (fun t =>
       (early_yield_compensation c t =? compensation_formula 100 c t) ||
       ((early_yield_compensation c t =? compensation_formula 100 c t - 1) &&
        ((t * 100) mod (100 - c) =? 0)))
       (Z_range 0 101)) (Z_range 1 99) = true) by (by vm_compute).
  rewrite forallb_forall in Hall.
  assert (Hin : forall lo n z, lo <= z < lo + Z.of_nat n -> In z (Z_range lo n)).
  { intros lo n z Hz. unfold Z_range. apply in_map_iff.
    exists (Z.to_nat (z - lo)). split; [lia|]. apply in_seq. lia. }
  specialize (Hall cnt (Hin 1 99%nat cnt ltac:(lia))).
  rewrite forallb_forall in Hall.
  specialize (Hall tk (Hin 0 101%nat tk ltac:(lia))).
  apply orb_true_iff in Hall as [H|H].
  - left. by apply Z.eqb_eq.
  - right. apply andb_true_iff in H as [H1 H2].
    apply Z.eqb_eq in H1, H2. split; [exact H1|].
    apply Z.mod_divide; [lia|exact H2].
Qed.

(** ** The lottery *)

Section Lottery.
Context {cfg : Config}.

(** C9. rand is a function of the clock tick alone: it is
    [((ticks * 1103515245 + 12345) / 65536) mod 32768], so two calls in
    the same tick give the same number. The lottery draw is
    [rand() * total_tickets / 32768 + 1]. At tick 0 with 40 tickets the
    drawn ticket is 1, so a ready process with 10 tickets wins against
    every process that comes after it in the process table. *)
Theorem rand_of_ticks_and_lottery_draw (k : kernel) (total_tickets : Z) :
  0 <= total_tickets <= 65536 ->
  rand k = ((ticks k * 1103515245 + 12345) / 65536) mod 32768 /\
  (forall k', ticks k' = ticks k -> rand k' = rand k) /\
  next_process k total_tickets = rand k * total_tickets / 32768 + 1 /\
  (ticks k = 0 ->
     next_process k 40 = 1 /\
     forall ps1 p1 ps2,
       (forall q, q ∈ ps1 -> state (proc k q) <> PROC_READY) ->
       state (proc k p1) = PROC_READY ->
       tickets (proc k p1) = 10 ->
       compensation (proc k p1) = 0 ->
       choose k (next_process k 40) 0 (ps1 ++ p1 :: ps2) = p1).
Proof.
  intros HT. split; [apply rand_formula|]. split.
  { intros k' Hk'. by rewrite !rand_formula, Hk'. }
  split; [by apply next_process_formula|].
  intros Hticks.
  assert (Hdraw : next_process k 40 = 1).
  { rewrite next_process_formula by lia. rewrite rand_formula, Hticks. reflexivity. }
  split; [exact Hdraw|].
  intros ps1 p1 ps2 Hskip Hready Htk Hcomp. rewrite Hdraw.
  apply choose_first_ready; [done..|].
  unfold lottery_tickets. rewrite Htk, Hcomp. by vm_compute.
Qed.

End Lottery.

Lemma rand_of_ticks_and_lottery_draw_witness :
  0 <= 40 <= 65536 /\
  next_process (lottery_kernel 0) 40 = 1 /\
  @choose example_cfg (lottery_kernel 0) (next_process (lottery_kernel 0) 40) 0
    ([] ++ 1%nat :: [2%nat]) = 1%nat.
Proof.
  assert (H : 0 <= 40 <= 65536) by lia.
  destruct (@rand_of_ticks_and_lottery_draw example_cfg (lottery_kernel 0) 40 H)
    as (_ & _ & _ & Hex).
  destruct (Hex eq_refl) as [Hdraw Hwin].
  split; [exact H|]. split; [exact Hdraw|].
  apply Hwin; [|reflexivity..].
  intros q Hq. by apply elem_of_nil in Hq.
Defined.

(** The lottery scenario of the design document, through yield: at tick
    0 the idle process yields, 40 tickets are counted and P1 (slot 1)
    gets the processor. *)
Lemma lottery_scenario :
  @yield_total example_cfg (lottery_kernel 0) = 40 /\
  @yield_next example_cfg (lottery_kernel 0) = 1%nat /\
  curr_proc (@yield example_cfg (lottery_kernel 0)) = 1%nat /\
  state (proc (@yield example_cfg (lottery_kernel 0)) 1) = PROC_RUNNING.
Proof. by vm_compute. Qed.

(** C1. The second loop of yield wants a running sum greater than the
    drawn ticket, and the draw can be the last ticket: at tick 35, with
    P1 (10 tickets) and P2 (30 tickets) ready, 40 tickets are counted,
    ticket 40 is drawn, no running sum (10, then 40) is greater, and the
    idle process gets the processor although two processes are ready. *)
Theorem yield_last_ticket_runs_idle :
  state (proc (lottery_kernel 35) 1) = PROC_READY /\
  state (proc (lottery_kernel 35) 2) = PROC_READY /\
  @yield_total example_cfg (lottery_kernel 35) = 40 /\
  next_process (lottery_kernel 35) 40 = 40 /\
  @yield_next example_cfg (lottery_kernel 35) = @IDLE example_cfg /\
  curr_proc (@yield example_cfg (lottery_kernel 35)) = @IDLE example_cfg.
Proof. by vm_compute. Qed.

(** ** Pointers: loads and stores *)

Lemma alter_out_of_range {A : Type} (f : A -> A) (l : list A) (i : nat) :
  (length l <= i)%nat -> alter f i l = l.
Proof.
  revert i. induction l as [|x l IH]; intros [|i] H; simpl in *; try done; try lia.
  f_equal. apply IH. lia.
Qed.

Lemma load_store_eq (k : kernel) (p : bufptr) (f : buffer -> buffer) :
  valid_ptr k p -> (store p f k)@p = f k@p.
Proof.
  destruct p as [i| |i]; simpl; intros H; [|done|];
    by apply list_lookup_total_alter_eq.
Qed.

Lemma load_store_ne (k : kernel) (p q : bufptr) (f : buffer -> buffer) :
  p <> q -> (store p f k)@q = k@q.
Proof.
  intros H. destruct p as [i| |i], q as [j| |j]; simpl; try done;
    apply list_lookup_total_alter_ne; congruence.
Qed.

Lemma load_store_invalid (k : kernel) (p q : bufptr) (f : buffer -> buffer) :
  ~ valid_ptr k p -> (store p f k)@q = k@q.
Proof.
  intros H. destruct p as [i| |i]; simpl in H; [|tauto|];
    destruct q as [j| |j]; simpl; try done;
    rewrite alter_out_of_range; (done || lia).
Qed.

(** A store that leaves a field of every struct as it is leaves the
    field as it is at every pointer. *)
Lemma load_store_proj {A : Type} (proj : buffer -> A) (k : kernel) (p q : bufptr)
    (f : buffer -> buffer) :
  (forall b, proj (f b) = proj b) -> proj (store p f k)@q = proj k@q.
Proof.
  intros H. destruct (decide (p = q)) as [->|Hne].
  - destruct (decide (valid_ptr k q)).
    + by rewrite load_store_eq, H.
    + by rewrite load_store_invalid.
  - by rewrite load_store_ne.
Qed.

Lemma valid_ptr_store (k : kernel) (p q : bufptr) (f : buffer -> buffer) :
  valid_ptr (store p f k) q <-> valid_ptr k q.
Proof.
  destruct p as [i| |i], q as [j| |j]; simpl; try done; by rewrite length_alter.
Qed.

Lemma store_other (k : kernel) (p : bufptr) (f : buffer -> buffer) :
  proctab (store p f k) = proctab k /\
  curr_proc (store p f k) = curr_proc k /\
  last_proc (store p f k) = last_proc k /\
  ticks (store p f k) = ticks k /\
  any_free_chain (store p f k) = any_free_chain k /\
  interrupts (store p f k) = interrupts k /\
  io_log (store p f k) = io_log k.
Proof. by destruct p. Qed.

Lemma proc_store (k : kernel) (p : bufptr) (f : buffer -> buffer) (i : nat) :
  proc (store p f k) i = proc k i.
Proof. by destruct p. Qed.

Lemma length_buffers_store (k : kernel) (p : bufptr) (f : buffer -> buffer) :
  length (buffers (store p f k)) = length (buffers k).
Proof. destruct p; simpl; try done. apply length_alter. Qed.

Lemma length_hashtab_store (k : kernel) (p : bufptr) (f : buffer -> buffer) :
  length (hashtab (store p f k)) = length (hashtab k).
Proof. destruct p; simpl; try done. apply length_alter. Qed.

(** Changes of the kernel state outside the buffer cache. *)
Lemma load_with_interrupts (k : kernel) (b : bool) (p : bufptr) :
  (with_interrupts b k)@p = k@p.
Proof. by destruct p. Qed.

Lemma load_with_io_log (k : kernel) (l : list io_event) (p : bufptr) :
  (with_io_log l k)@p = k@p.
Proof. by destruct p. Qed.

Lemma load_with_any_free_chain (k : kernel) (l : list nat) (p : bufptr) :
  (with_any_free_chain l k)@p = k@p.
Proof. by destruct p. Qed.

Lemma load_set_proc (k : kernel) (i : nat) (f : process -> process) (p : bufptr) :
  (set_proc i f k)@p = k@p.
Proof. by destruct p. Qed.

Lemma load_sched (k : kernel) (i : nat) (p : bufptr) : (sched i k)@p = k@p.
Proof. unfold sched. by rewrite !load_set_proc. Qed.

(** ** Waking up a queue *)

Lemma wake_cons (i : nat) (l : list nat) (k : kernel) :
  wake (i :: l) k = wake l (sched i k).
Proof. reflexivity. Qed.

Lemma load_wake (l : list nat) (k : kernel) (p : bufptr) : (wake l k)@p = k@p.
Proof.
  revert k. induction l as [|i l IH]; intros k; [done|].
  by rewrite wake_cons, IH, load_sched.
Qed.

Lemma wake_other (l : list nat) (k : kernel) :
  length (proctab (wake l k)) = length (proctab k) /\
  curr_proc (wake l k) = curr_proc k /\
  any_free_chain (wake l k) = any_free_chain k /\
  interrupts (wake l k) = interrupts k /\
  io_log (wake l k) = io_log k /\
  buffers (wake l k) = buffers k /\
  free_buffers (wake l k) = free_buffers k /\
  hashtab (wake l k) = hashtab k.
Proof.
  revert k. induction l as [|i l IH]; intros k; [done|].
  rewrite wake_cons.
  destruct (IH (sched i k)) as (H1 & H2 & H3 & H4 & H5 & H6 & H7 & H8).
  rewrite H1, H2, H3, H4, H5, H6, H7, H8.
  by rewrite length_proctab_sched.
Qed.

(** A process that is ready stays ready while others are woken. *)
Lemma wake_keeps_ready (l : list nat) (k : kernel) (p : nat) :
  (p < length (proctab k))%nat ->
  state (proc k p) = PROC_READY ->
  state (proc (wake l k) p) = PROC_READY.
Proof.
  revert k. induction l as [|i l IH]; intros k Hlen Hst; [done|].
  rewrite wake_cons. apply IH; [by rewrite length_proctab_sched|].
  destruct (decide (i = p)) as [->|Hne].
  - by rewrite proc_sched_eq.
  - by rewrite proc_sched_ne.
Qed.

(** Every process of a woken queue is ready afterwards; the others are
    as they were. *)
Lemma wake_ready (l : list nat) (k : kernel) (p : nat) :
  p ∈ l -> (p < length (proctab k))%nat ->
  state (proc (wake l k) p) = PROC_READY.
Proof.
  revert k. induction l as [|i l IH]; intros k Hin Hp; [by apply elem_of_nil in Hin|].
  rewrite wake_cons. apply elem_of_cons in Hin as [->|Hin].
  - apply wake_keeps_ready; [by rewrite length_proctab_sched|].
    by rewrite proc_sched_eq.
  - apply IH; [done|]. by rewrite length_proctab_sched.
Qed.

Lemma wake_not_member (l : list nat) (k : kernel) (p : nat) :
  p ∉ l -> proc (wake l k) p = proc k p.
Proof.
  revert k. induction l as [|i l IH]; intros k Hin; [done|].
  apply not_elem_of_cons in Hin as [Hne Hl].
  rewrite wake_cons, IH by done. by rewrite proc_sched_ne.
Qed.

Lemma length_buffers_wake (l : list nat) (k : kernel) :
  length (buffers (wake l k)) = length (buffers k).
Proof. by destruct (wake_other l k) as (_ & _ & _ & _ & _ & -> & _). Qed.

Lemma length_proctab_wake (l : list nat) (k : kernel) :
  length (proctab (wake l k)) = length (proctab k).
Proof. by destruct (wake_other l k) as (-> & _). Qed.

Lemma valid_ptr_wake (l : list nat) (k : kernel) (p : bufptr) :
  valid_ptr (wake l k) p <-> valid_ptr k p.
Proof.
  destruct (wake_other l k) as (_ & _ & _ & _ & _ & Hb & _ & Hh).
  destruct p; simpl; by rewrite ?Hb, ?Hh.
Qed.

Lemma valid_ptr_with_interrupts (b : bool) (k : kernel) (p : bufptr) :
  valid_ptr (with_interrupts b k) p <-> valid_ptr k p.
Proof. by destruct p. Qed.

Lemma valid_ptr_with_io_log (l : list io_event) (k : kernel) (p : bufptr) :
  valid_ptr (with_io_log l k) p <-> valid_ptr k p.
Proof. by destruct p. Qed.

Lemma valid_ptr_with_any_free_chain (l : list nat) (k : kernel) (p : bufptr) :
  valid_ptr (with_any_free_chain l k) p <-> valid_ptr k p.
Proof. by destruct p. Qed.

Lemma valid_ptr_set_proc (i : nat) (f : process -> process) (k : kernel) (p : bufptr) :
  valid_ptr (set_proc i f k) p <-> valid_ptr k p.
Proof. by destruct p. Qed.

(** ** Reading fields through stores *)

Lemma valid_store (k : kernel) (p q : bufptr) (f : buffer -> buffer) :
  valid_ptr k q -> valid_ptr (store p f k) q.
Proof. apply valid_ptr_store. Qed.

Lemma valid_wake (l : list nat) (k : kernel) (p : bufptr) :
  valid_ptr k p -> valid_ptr (wake l k) p.
Proof. apply valid_ptr_wake. Qed.

Lemma valid_with_interrupts (b : bool) (k : kernel) (p : bufptr) :
  valid_ptr k p -> valid_ptr (with_interrupts b k) p.
Proof. apply valid_ptr_with_interrupts. Qed.

Lemma valid_with_io_log (l : list io_event) (k : kernel) (p : bufptr) :
  valid_ptr k p -> valid_ptr (with_io_log l k) p.
Proof. apply valid_ptr_with_io_log. Qed.

Lemma valid_with_any_free_chain (l : list nat) (k : kernel) (p : bufptr) :
  valid_ptr k p -> valid_ptr (with_any_free_chain l k) p.
Proof. apply valid_ptr_with_any_free_chain. Qed.

Lemma valid_set_proc (i : nat) (f : process -> process) (k : kernel) (p : bufptr) :
  valid_ptr k p -> valid_ptr (set_proc i f k) p.
Proof. apply valid_ptr_set_proc. Qed.

Lemma valid_free_buffers (k : kernel) : valid_ptr k FreeBuffers.
Proof. exact I. Qed.

Create HintDb valid.
#[local] Hint Resolve valid_store valid_wake valid_with_interrupts valid_with_io_log
  valid_with_any_free_chain valid_set_proc valid_free_buffers : valid.

(** Rewriting of a field read through a chain of stores and of changes
    outside the cache. *)
Ltac ld_step :=
  first
    [ rewrite load_with_interrupts
    | rewrite load_with_io_log
    | rewrite load_with_any_free_chain
    | rewrite load_set_proc
    | rewrite load_wake
    | rewrite (load_store_proj dev) by (intros; reflexivity)
    | rewrite (load_store_proj num) by (intros; reflexivity)
    | rewrite (load_store_proj data) by (intros; reflexivity)
    | rewrite (load_store_proj count) by (intros; reflexivity)
    | rewrite (load_store_proj flags) by (intros; reflexivity)
    | rewrite (load_store_proj chain) by (intros; reflexivity)
    | rewrite (load_store_proj free_next) by (intros; reflexivity)
    | rewrite (load_store_proj free_prev) by (intros; reflexivity)
    | rewrite (load_store_proj hash_next) by (intros; reflexivity)
    | rewrite (load_store_proj hash_prev) by (intros; reflexivity)
    | rewrite load_store_eq by (eauto 20 with valid)
    | rewrite load_store_ne by congruence ].

Ltac ld := repeat ld_step.

(** Stores leave the state outside the cache as it is. *)
Lemma io_log_store (k : kernel) (p : bufptr) (f : buffer -> buffer) :
  io_log (store p f k) = io_log k.
Proof. by destruct p. Qed.

Lemma any_free_chain_store (k : kernel) (p : bufptr) (f : buffer -> buffer) :
  any_free_chain (store p f k) = any_free_chain k.
Proof. by destruct p. Qed.

Lemma interrupts_store (k : kernel) (p : bufptr) (f : buffer -> buffer) :
  interrupts (store p f k) = interrupts k.
Proof. by destruct p. Qed.

Lemma proctab_store (k : kernel) (p : bufptr) (f : buffer -> buffer) :
  proctab (store p f k) = proctab k.
Proof. by destruct p. Qed.

Lemma curr_proc_store (k : kernel) (p : bufptr) (f : buffer -> buffer) :
  curr_proc (store p f k) = curr_proc k.
Proof. by destruct p. Qed.

Ltac ko :=
  repeat first
    [ rewrite io_log_store
    | rewrite any_free_chain_store
    | rewrite interrupts_store
    | rewrite proctab_store
    | rewrite curr_proc_store
    | rewrite length_buffers_store
    | rewrite length_hashtab_store
    | progress cbn [with_interrupts with_io_log with_any_free_chain
                    io_log any_free_chain interrupts proctab curr_proc
                    buffers hashtab free_buffers] ].

(** ** Flags *)

Lemma flag_clear_off (fl F : Z) : flag_set (Z.land fl (Z.lnot F)) F = false.
Proof.
  unfold flag_set. rewrite <- Z.land_assoc, (Z.land_comm (Z.lnot F)), Z.land_lnot_diag.
  by rewrite Z.land_0_r.
Qed.

Lemma land_clear_other (fl F G : Z) :
  Z.land G F = 0 -> Z.land (Z.land fl (Z.lnot F)) G = Z.land fl G.
Proof.
  intros H. apply Z.bits_inj'. intros i Hi.
  rewrite !Z.land_spec, Z.lnot_spec by done.
  apply (f_equal (fun z => Z.testbit z i)) in H.
  rewrite Z.land_spec, Z.bits_0 in H.
  destruct (Z.testbit fl i), (Z.testbit F i), (Z.testbit G i); simpl in *; congruence.
Qed.

Lemma flag_clear_other (fl F G : Z) :
  Z.land G F = 0 -> flag_set (Z.land fl (Z.lnot F)) G = flag_set fl G.
Proof. intros H. unfold flag_set. by rewrite land_clear_other. Qed.

Lemma flag_set_on (fl F : Z) : F <> 0 -> flag_set (Z.lor fl F) F = true.
Proof.
  intros H. unfold flag_set.
  rewrite Z.land_comm, Z.land_lor_distr_r, Z.land_diag.
  destruct (Z.eqb_spec (Z.lor (Z.land F fl) F) 0) as [E|]; [|done].
  apply Z.lor_eq_0_iff in E. tauto.
Qed.

Lemma land_set_other (fl F G : Z) :
  Z.land G F = 0 -> Z.land (Z.lor fl F) G = Z.land fl G.
Proof.
  intros H. rewrite Z.land_comm, Z.land_lor_distr_r, H, Z.lor_0_r. apply Z.land_comm.
Qed.

Lemma flag_set_other (fl F G : Z) :
  Z.land G F = 0 -> flag_set (Z.lor fl F) G = flag_set fl G.
Proof. intros H. unfold flag_set. by rewrite land_set_other. Qed.

(** ** Unlocking a buffer *)

Section Unlock.
Context {cfg : Config}.

Lemma blkunlock_run (k : kernel) (buf : bufptr) :
  let k1 := store buf (with_flags (Z.land (flags k@buf) (Z.lnot BUFFER_LOCKED)))
              (with_interrupts false k) in
  outcome (blkunlock buf k) = Done tt /\
  final (blkunlock buf k) =
    with_interrupts true (store buf (with_chain []) (wake (chain k1@buf) k1)).
Proof.
  split; [reflexivity|]. unfold blkunlock. cbn -[store load wake].
  by rewrite load_with_interrupts.
Qed.

(** The effect of blkunlock on a buffer, field by field. *)
Lemma blkunlock_effect (k : kernel) (buf : bufptr) :
  valid_ptr k buf ->
  let k' := final (blkunlock buf k) in
  outcome (blkunlock buf k) = Done tt /\
  flag_set (flags k'@buf) BUFFER_LOCKED = false /\
  flags k'@buf = Z.land (flags k@buf) (Z.lnot BUFFER_LOCKED) /\
  (forall F, Z.land F BUFFER_LOCKED = 0 ->
     flag_set (flags k'@buf) F = flag_set (flags k@buf) F) /\
  chain k'@buf = [] /\
  (forall p, p ∈ chain k@buf -> (p < length (proctab k))%nat ->
     state (proc k' p) = PROC_READY) /\
  (forall p, p ∉ chain k@buf -> proc k' p = proc k p) /\
  dev k'@buf = dev k@buf /\
  num k'@buf = num k@buf /\
  data k'@buf = data k@buf /\
  count k'@buf = count k@buf /\
  free_next k'@buf = free_next k@buf /\
  free_prev k'@buf = free_prev k@buf /\
  hash_next k'@buf = hash_next k@buf /\
  hash_prev k'@buf = hash_prev k@buf /\
  (forall q, q <> buf -> k'@q = k@q).
Proof.
  intros Hv k'. destruct (blkunlock_run k buf) as [Ho Hf]. cbv zeta in Hf.
  assert (Hfl : flags k'@buf = Z.land (flags k@buf) (Z.lnot BUFFER_LOCKED)).
  { unfold k'. rewrite Hf, load_with_interrupts.
    rewrite (load_store_proj flags) by done.
    rewrite load_wake, load_store_eq by done. done. }
  assert (Hch : chain (store buf
                   (with_flags (Z.land (flags k@buf) (Z.lnot BUFFER_LOCKED)))
                   (with_interrupts false k))@buf = chain k@buf).
  { rewrite (load_store_proj chain) by done. by rewrite load_with_interrupts. }
  assert (Hframe : forall (A : Type) (proj : buffer -> A),
             (forall v b, proj (with_chain v b) = proj b) ->
             (forall v b, proj (with_flags v b) = proj b) ->
             proj k'@buf = proj k@buf).
  { intros A proj H1 H2. unfold k'. rewrite Hf, load_with_interrupts.
    rewrite (load_store_proj proj) by (intros; apply H1).
    rewrite load_wake, (load_store_proj proj) by (intros; apply H2).
    by rewrite load_with_interrupts. }
  split; [exact Ho|]. split; [rewrite Hfl; apply flag_clear_off|].
  split; [exact Hfl|]. split.
  { intros F HF. rewrite Hfl. by apply flag_clear_other. }
  split.
  { unfold k'. rewrite Hf, load_with_interrupts, load_store_eq; [done|].
    by apply valid_ptr_wake, valid_ptr_store. }
  split.
  { intros p Hp Hlen. unfold k'. rewrite Hf, Hch.
    change (state (proc (store buf (with_chain [])
      (wake (chain k@buf) (store buf (with_flags (Z.land (flags k@buf) (Z.lnot BUFFER_LOCKED)))
         (with_interrupts false k)))) p) = PROC_READY).
    rewrite proc_store. apply wake_ready; [done|].
    by destruct buf. }
  split.
  { intros p Hp. unfold k'. rewrite Hf, Hch.
    change (proc (store buf (with_chain [])
      (wake (chain k@buf) (store buf (with_flags (Z.land (flags k@buf) (Z.lnot BUFFER_LOCKED)))
         (with_interrupts false k)))) p = proc k p).
    rewrite proc_store, wake_not_member by done. by destruct buf. }
  repeat (split; [by apply Hframe|]).
  intros q Hq. unfold k'. rewrite Hf, load_with_interrupts.
  rewrite load_store_ne by done. rewrite load_wake, load_store_ne by done.
  apply load_with_interrupts.
Qed.

(** C10. blkunlock always returns: on every buffer, locked or not, it
    clears BUFFER_LOCKED, wakes all the processes that sleep on the
    buffer, and leaves the device and block number, the data pointer,
    the reference count, the other flags, and the links of the free list
    and of the hash queue as they are; no other struct changes. *)
Theorem blkunlock_total (k : kernel) (buf : bufptr) :
  valid_ptr k buf ->
  let k' := final (blkunlock buf k) in
  outcome (blkunlock buf k) = Done tt /\
  flag_set (flags k'@buf) BUFFER_LOCKED = false /\
  flags k'@buf = Z.land (flags k@buf) (Z.lnot BUFFER_LOCKED) /\
  (forall F, Z.land F BUFFER_LOCKED = 0 ->
     flag_set (flags k'@buf) F = flag_set (flags k@buf) F) /\
  chain k'@buf = [] /\
  (forall p, p ∈ chain k@buf -> (p < length (proctab k))%nat ->
     state (proc k' p) = PROC_READY) /\
  (forall p, p ∉ chain k@buf -> proc k' p = proc k p) /\
  dev k'@buf = dev k@buf /\
  num k'@buf = num k@buf /\
  data k'@buf = data k@buf /\
  count k'@buf = count k@buf /\
  free_next k'@buf = free_next k@buf /\
  free_prev k'@buf = free_prev k@buf /\
  hash_next k'@buf = hash_next k@buf /\
  hash_prev k'@buf = hash_prev k@buf /\
  (forall q, q <> buf -> k'@q = k@q).
Proof. exact (blkunlock_effect k buf). Qed.

End Unlock.

(** ** Runs *)

Lemma bind_done {A B : Type} (m : M A) (f : A -> M B) (k : kernel) (a : A) :
  outcome (m k) = Done a ->
  outcome (bind m f k) = outcome (f a (final (m k))) /\
  final (bind m f k) = final (f a (final (m k))) /\
  points (bind m f k) = points (m k) ++ points (f a (final (m k))).
Proof. intros H. unfold bind. by rewrite H. Qed.

Lemma bind_not_done {A B : Type} (m : M A) (f : A -> M B) (k : kernel) :
  (forall a, outcome (m k) <> Done a) ->
  final (bind m f k) = final (m k) /\
  points (bind m f k) = points (m k) /\
  (forall b, outcome (bind m f k) <> Done b) /\
  (forall msg, outcome (bind m f k) = Panic msg <-> outcome (m k) = Panic msg) /\
  (outcome (bind m f k) = Asleep <-> outcome (m k) = Asleep) /\
  (outcome (bind m f k) = OutOfFuel <-> outcome (m k) = OutOfFuel).
Proof.
  intros H. unfold bind. destruct (outcome (m k)) as [a|msg| |]; simpl.
  - by destruct (H a).
  - repeat split; try done; intros; congruence.
  - repeat split; try done; intros; congruence.
  - repeat split; try done; intros; congruence.
Qed.

(** The end of a run, statement by statement. *)

Lemma res_ret {A : Type} (a : A) (k : kernel) : res (ret a) k = (Done a, k).
Proof. reflexivity. Qed.

Lemma res_stmt (f : kernel -> kernel) (k : kernel) : res (stmt f) k = (Done tt, f k).
Proof. reflexivity. Qed.

Lemma res_cond {A : Type} (c : kernel -> bool) (m1 m2 : M A) (k : kernel) :
  res (cond c m1 m2) k = if c k then res m1 k else res m2 k.
Proof. unfold res, cond. by destruct (c k). Qed.

Lemma res_bind_ret {A B : Type} (a : A) (g : A -> M B) (k : kernel) :
  res (bind (ret a) g) k = res (g a) k.
Proof. reflexivity. Qed.

Lemma res_bind_stmt {B : Type} (f : kernel -> kernel) (g : unit -> M B) (k : kernel) :
  res (bind (stmt f) g) k = res (g tt) (f k).
Proof. reflexivity. Qed.

Lemma res_bind_gets {A B : Type} (f : kernel -> A) (g : A -> M B) (k : kernel) :
  res (bind (gets f) g) k = res (g (f k)) k.
Proof. reflexivity. Qed.

Lemma res_bind_kpanic {A B : Type} (msg : string) (g : A -> M B) (k : kernel) :
  res (bind (kpanic msg) g) k = (Panic msg, k).
Proof. reflexivity. Qed.

Lemma res_bind_out_of_fuel {A B : Type} (g : A -> M B) (k : kernel) :
  res (bind out_of_fuel g) k = (OutOfFuel, k).
Proof. reflexivity. Qed.

Lemma res_bind_cond {A B : Type} (c : kernel -> bool) (m1 m2 : M A) (g : A -> M B)
    (k : kernel) :
  res (bind (cond c m1 m2) g) k = if c k then res (bind m1 g) k else res (bind m2 g) k.
Proof. unfold res, bind, cond. by destruct (c k). Qed.

Lemma res_bind_if {A B : Type} (b : bool) (m1 m2 : M A) (g : A -> M B) (k : kernel) :
  res (bind (if b then m1 else m2) g) k
  = if b then res (bind m1 g) k else res (bind m2 g) k.
Proof. by destruct b. Qed.

Lemma res_bind_assoc {A B C : Type} (m : M A) (f : A -> M B) (g : B -> M C)
    (k : kernel) :
  res (bind (bind m f) g) k = res (bind m (fun a => bind (f a) g)) k.
Proof.
  unfold res, bind. destruct (outcome (m k)); try done.
  simpl. by destruct (outcome (f a (final (m k)))).
Qed.

Lemma res_bind_done {A B : Type} (m : M A) (g : A -> M B) (k : kernel) (a : A)
    (k' : kernel) :
  res m k = (Done a, k') -> res (bind m g) k = res (g a) k'.
Proof. unfold res, bind. intros [= -> <-]. done. Qed.

Lemma res_bind_asleep {A B : Type} (m : M A) (g : A -> M B) (k k' : kernel) :
  res m k = (Asleep, k') -> res (bind m g) k = (Asleep, k').
Proof. unfold res, bind. intros [= -> <-]. done. Qed.

Lemma res_bind_panic {A B : Type} (m : M A) (g : A -> M B) (k k' : kernel)
    (msg : string) :
  res m k = (Panic msg, k') -> res (bind m g) k = (Panic msg, k').
Proof. unfold res, bind. intros [= -> <-]. done. Qed.

Lemma res_outcome_final {A : Type} (m : M A) (k : kernel) (r : result A)
    (k' : kernel) :
  res m k = (r, k') <-> outcome (m k) = r /\ final (m k) = k'.
Proof. unfold res. split; [by intros [= -> ->]|by intros [-> ->]]. Qed.

(** The points of a run, statement by statement. *)

Lemma points_bind_stmt {B : Type} (f : kernel -> kernel) (g : unit -> M B) (k : kernel) :
  points (bind (stmt f) g k) = f k :: points (g tt (f k)).
Proof. reflexivity. Qed.

Lemma points_bind_ret {A B : Type} (a : A) (g : A -> M B) (k : kernel) :
  points (bind (ret a) g k) = points (g a k).
Proof. reflexivity. Qed.

Lemma points_bind_cond {A B : Type} (c : kernel -> bool) (m1 m2 : M A) (g : A -> M B)
    (k : kernel) :
  points (bind (cond c m1 m2) g k)
  = if c k then points (bind m1 g k) else points (bind m2 g k).
Proof. unfold bind, cond. by destruct (c k). Qed.

Lemma points_bind_kpanic {A B : Type} (msg : string) (g : A -> M B) (k : kernel) :
  points (bind (kpanic msg) g k) = [].
Proof. reflexivity. Qed.

(** ** Initialisation of the cache *)

Section Init.
Context {cfg : Config}.

Lemma binit_buffer_run (k : kernel) (i : nat) (ptr : Z) :
  let k' := final (binit_buffer i ptr k) in
  (i < length (buffers k))%nat ->
  outcome (binit_buffer i ptr k) = Done tt /\
  k'@(Buffers i) = init_buffer i ptr /\
  (forall q, q <> Buffers i -> k'@q = k@q) /\
  length (buffers k') = length (buffers k) /\
  length (hashtab k') = length (hashtab k).
Proof.
  intros k' Hi. split; [reflexivity|].
  unfold k', binit_buffer. cbn -[store load].
  split.
  { rewrite !load_store_eq; [reflexivity|..];
      repeat (apply valid_ptr_store); exact Hi. }
  split.
  { intros q Hq. by rewrite !load_store_ne. }
  by rewrite !length_buffers_store, !length_hashtab_store.
Qed.

Lemma binit_buffers_run (n : nat) (a : nat) (ptr : Z) (k : kernel) :
  let k' := final (binit_buffers (seq a n) ptr k) in
  (a + n <= length (buffers k))%nat ->
  outcome (binit_buffers (seq a n) ptr k) = Done tt /\
  (forall i, (a <= i < a + n)%nat ->
     k'@(Buffers i) = init_buffer i (ptr + Z.of_nat (i - a) * BLOCK_SIZE)) /\
  (forall q, (forall i, (a <= i < a + n)%nat -> q <> Buffers i) -> k'@q = k@q) /\
  length (buffers k') = length (buffers k) /\
  length (hashtab k') = length (hashtab k).
Proof.
  revert a ptr k. induction n as [|n IH]; intros a ptr k k' Hlen.
  - split; [reflexivity|]. split; [intros i Hi; lia|]. by repeat split.
  - assert (Ha : (a < length (buffers k))%nat) by lia.
    destruct (binit_buffer_run k a ptr Ha) as (Ho & Hb & Hframe & Hl1 & Hl2).
    set (k1 := final (binit_buffer a ptr k)) in *.
    assert (Hlen1 : (S a + n <= length (buffers k1))%nat) by lia.
    destruct (IH (S a) (ptr + BLOCK_SIZE) k1 Hlen1) as (Ho' & Hb' & Hframe' & Hl1' & Hl2').
    assert (Hrun : binit_buffers (seq a (S n)) ptr k =
              Run (outcome (binit_buffers (seq (S a) n) (ptr + BLOCK_SIZE) k1))
                  (final (binit_buffers (seq (S a) n) (ptr + BLOCK_SIZE) k1))
                  (points (binit_buffer a ptr k)
                     ++ points (binit_buffers (seq (S a) n) (ptr + BLOCK_SIZE) k1))).
    { change (seq a (S n)) with (a :: seq (S a) n).
      change (binit_buffers (a :: seq (S a) n) ptr k)
        with (bind (binit_buffer a ptr)
                (fun _ => binit_buffers (seq (S a) n) (ptr + BLOCK_SIZE)) k).
      unfold bind at 1. rewrite Ho. reflexivity. }
    unfold k'. rewrite Hrun. cbn [outcome final].
    split; [exact Ho'|]. split.
    { intros i Hi. destruct (decide (i = a)) as [->|Hne].
      - rewrite Hframe' by (intros j Hj; injection; lia).
        rewrite Hb. f_equal. rewrite Nat.sub_diag. lia.
      - rewrite Hb' by lia. f_equal.
        replace (i - a)%nat with (S (i - S a)) by lia. lia. }
    split.
    { intros q Hq. rewrite Hframe'.
      - apply Hframe. apply Hq. lia.
      - intros i Hi. apply Hq. lia. }
    split; congruence.
Qed.

Lemma binit_hashtab_run (n : nat) (a : nat) (k : kernel) :
  let k' := final (binit_hashtab (seq a n) k) in
  (a + n <= length (hashtab k))%nat ->
  outcome (binit_hashtab (seq a n) k) = Done tt /\
  (forall h, (a <= h < a + n)%nat ->
     hash_next k'@(Hashtab h) = Hashtab h /\ hash_prev k'@(Hashtab h) = Hashtab h) /\
  (forall q, (forall h, (a <= h < a + n)%nat -> q <> Hashtab h) -> k'@q = k@q) /\
  length (buffers k') = length (buffers k) /\
  length (hashtab k') = length (hashtab k).
Proof.
  revert a k. induction n as [|n IH]; intros a k k' Hlen.
  - split; [reflexivity|]. split; [intros i Hi; lia|]. by repeat split.
  - set (k1 := store (Hashtab a) (with_hash_next (Hashtab a))
                 (store (Hashtab a) (with_hash_prev (Hashtab a)) k)).
    assert (Hv : valid_ptr k (Hashtab a)) by (simpl; lia).
    assert (Hlen1 : (S a + n <= length (hashtab k1))%nat).
    { unfold k1. rewrite !length_hashtab_store. lia. }
    destruct (IH (S a) k1 Hlen1) as (Ho' & Hb' & Hframe' & Hl1' & Hl2').
    assert (Hrun : outcome (binit_hashtab (seq a (S n)) k)
                   = outcome (binit_hashtab (seq (S a) n) k1) /\
                   final (binit_hashtab (seq a (S n)) k)
                   = final (binit_hashtab (seq (S a) n) k1)).
    { split; reflexivity. }
    destruct Hrun as [Hro Hrf]. unfold k'. rewrite Hro, Hrf.
    split; [exact Ho'|]. split.
    { intros h Hh. destruct (decide (h = a)) as [->|Hne].
      - rewrite Hframe' by (intros j Hj; injection; lia).
        unfold k1. rewrite load_store_eq by (by apply valid_ptr_store).
        rewrite load_store_eq by done. done.
      - apply Hb'. lia. }
    split.
    { intros q Hq. rewrite Hframe'.
      - unfold k1. rewrite !load_store_ne; [done|intros <-; eapply Hq; [|done]; lia..].
      - intros h Hh. apply Hq. lia. }
    unfold k1 in Hl1', Hl2'. rewrite !length_buffers_store in Hl1'.
    rewrite !length_hashtab_store in Hl2'. done.
Qed.

Lemma flag_init_off (F : Z) :
  Z.land F (Z.lnot BUFFER_FLAGS) = 0 -> flag_set (Z.lnot BUFFER_FLAGS) F = false.
Proof. intros H. unfold flag_set. by rewrite Z.land_comm, H. Qed.

Lemma flags_init_clear :
  flag_set (Z.lnot BUFFER_FLAGS) BUFFER_VALID = false /\
  flag_set (Z.lnot BUFFER_FLAGS) BUFFER_BUSY = false /\
  flag_set (Z.lnot BUFFER_FLAGS) BUFFER_LOCKED = false /\
  flag_set (Z.lnot BUFFER_FLAGS) BUFFER_DIRTY = false.
Proof.
  repeat split; apply flag_init_off; unfold BUFFER_FLAGS;
    apply Z.bits_inj'; intros i Hi;
    rewrite !Z.land_spec, !Z.lnot_spec, !Z.lor_spec, Z.bits_0 by done;
    destruct (Z.testbit BUFFER_VALID i), (Z.testbit BUFFER_BUSY i),
      (Z.testbit BUFFER_LOCKED i), (Z.testbit BUFFER_DIRTY i); reflexivity.
Qed.

(** The free list that the first loop of binit links: the buffers from
    [a] on, after the buffer before [a]. *)
Lemma init_free_path (k : kernel) (n a : nat) :
  (a + n = NR_BUFFERS)%nat ->
  (forall i, (i < NR_BUFFERS)%nat ->
     free_next k@(Buffers i)
       = (if decide (i + 1 = NR_BUFFERS)%nat then FreeBuffers else Buffers (i + 1)) /\
     free_prev k@(Buffers i)
       = (if Z.of_nat i - 1 <? 0 then FreeBuffers else Buffers (i - 1))) ->
  free_prev k@FreeBuffers = Buffers (NR_BUFFERS - 1) ->
  (0 < n)%nat ->
  free_next k@(if decide (a = 0)%nat then FreeBuffers else Buffers (a - 1)) = Buffers a ->
  path free_next free_prev k (if decide (a = 0)%nat then FreeBuffers else Buffers (a - 1))
    (seq a n) FreeBuffers.
Proof.
  intros Han Hlinks Hlast. revert a Han. induction n as [|n IH]; intros a Han Hn Hfirst;
    [lia|].
  assert (Ha : (a < NR_BUFFERS)%nat) by lia.
  destruct (Hlinks a Ha) as [Hnext Hprev].
  simpl. split.
  { split; [exact Hfirst|]. rewrite Hprev.
    destruct (decide (a = 0)%nat) as [->|Hne]; [done|].
    destruct (Z.ltb_spec (Z.of_nat a - 1) 0); [lia|done]. }
  destruct n as [|n].
  - simpl. split.
    + rewrite Hnext. destruct (decide (a + 1 = NR_BUFFERS)%nat); [done|lia].
    + rewrite Hlast. f_equal. lia.
  - specialize (IH (S a)).
    destruct (decide (S a = 0)%nat) as [|_]; [lia|].
    replace (S a - 1)%nat with a in IH by lia.
    apply IH; [lia|lia|].
    rewrite Hnext. destruct (decide (a + 1 = NR_BUFFERS)%nat); [lia|].
    f_equal. lia.
Qed.

(** binit is its two loops, with the two assignments to the head of
    the free list in between. *)
Lemma binit_final (k : kernel) :
  length (buffers k) = NR_BUFFERS ->
  length (hashtab k) = BUFFERS_HASHTAB_SIZE ->
  let k1 := final (binit_buffers (seq 0 NR_BUFFERS) BUFFERS_VIRT k) in
  let k2 := store FreeBuffers (with_free_prev (Buffers (NR_BUFFERS - 1)))
              (store FreeBuffers (with_free_next (Buffers 0)) k1) in
  outcome (binit k) = Done tt /\
  final (binit k) = final (binit_hashtab (seq 0 BUFFERS_HASHTAB_SIZE) k2).
Proof.
  intros Hnb Hnh k1 k2.
  assert (Hlen0 : (0 + NR_BUFFERS <= length (buffers k))%nat) by lia.
  destruct (binit_buffers_run NR_BUFFERS 0 BUFFERS_VIRT k Hlen0) as (Ho1 & _).
  assert (Hlen2 : (0 + BUFFERS_HASHTAB_SIZE <= length (hashtab k2))%nat).
  { unfold k2, k1. rewrite !length_hashtab_store.
    destruct (binit_buffers_run NR_BUFFERS 0 BUFFERS_VIRT k Hlen0)
      as (_ & _ & _ & _ & ->). lia. }
  destruct (binit_hashtab_run BUFFERS_HASHTAB_SIZE 0 k2 Hlen2) as (Ho3 & _).
  unfold binit, kprintf.
  destruct (bind_done (ret tt)
    (fun _ => binit_buffers (seq 0 NR_BUFFERS) BUFFERS_VIRT >>
              stmt (store FreeBuffers (with_free_next (Buffers 0))) >>
              stmt (store FreeBuffers (with_free_prev (Buffers (NR_BUFFERS - 1)))) >>
              binit_hashtab (seq 0 BUFFERS_HASHTAB_SIZE) >> ret tt) k tt eq_refl)
    as (-> & -> & _).
  cbn [ret final].
  destruct (bind_done (binit_buffers (seq 0 NR_BUFFERS) BUFFERS_VIRT)
    (fun _ => stmt (store FreeBuffers (with_free_next (Buffers 0))) >>
              stmt (store FreeBuffers (with_free_prev (Buffers (NR_BUFFERS - 1)))) >>
              binit_hashtab (seq 0 BUFFERS_HASHTAB_SIZE) >> ret tt) k tt Ho1)
    as (-> & -> & _).
  fold k1.
  destruct (bind_done (stmt (store FreeBuffers (with_free_next (Buffers 0))))
    (fun _ => stmt (store FreeBuffers (with_free_prev (Buffers (NR_BUFFERS - 1)))) >>
              binit_hashtab (seq 0 BUFFERS_HASHTAB_SIZE) >> ret tt) k1 tt eq_refl)
    as (-> & -> & _).
  cbn [stmt final].
  destruct (bind_done (stmt (store FreeBuffers (with_free_prev (Buffers (NR_BUFFERS - 1)))))
    (fun _ => binit_hashtab (seq 0 BUFFERS_HASHTAB_SIZE) >> ret tt)
    (store FreeBuffers (with_free_next (Buffers 0)) k1) tt eq_refl)
    as (-> & -> & _).
  cbn [stmt final]. fold k2.
  destruct (bind_done (binit_hashtab (seq 0 BUFFERS_HASHTAB_SIZE))
    (fun _ => ret tt) k2 tt Ho3) as (-> & -> & _).
  done.
Qed.

Lemma binit_buffers_io_log (l : list nat) (ptr : Z) (k : kernel) :
  io_log (final (binit_buffers l ptr k)) = io_log k.
Proof.
  revert ptr k. induction l as [|i l IH]; intros ptr k; [done|].
  cbn [binit_buffers].
  destruct (bind_done (binit_buffer i ptr)
              (fun _ => binit_buffers l (ptr + BLOCK_SIZE)) k tt eq_refl)
    as (_ & -> & _).
  rewrite IH. unfold binit_buffer. cbn -[store load].
  by rewrite !io_log_store.
Qed.

Lemma binit_hashtab_io_log (l : list nat) (k : kernel) :
  io_log (final (binit_hashtab l k)) = io_log k.
Proof.
  revert k. induction l as [|i l IH]; intros k; [done|].
  change (final (binit_hashtab (i :: l) k))
    with (final (binit_hashtab l
            (store (Hashtab i) (with_hash_next (Hashtab i))
               (store (Hashtab i) (with_hash_prev (Hashtab i)) k)))).
  rewrite IH. by rewrite !io_log_store.
Qed.

(** binit keeps the sizes of the arrays and issues no device request. *)
Lemma binit_shape (k : kernel) :
  length (buffers k) = NR_BUFFERS ->
  length (hashtab k) = BUFFERS_HASHTAB_SIZE ->
  length (buffers (final (binit k))) = NR_BUFFERS /\
  length (hashtab (final (binit k))) = BUFFERS_HASHTAB_SIZE /\
  io_log (final (binit k)) = io_log k.
Proof.
  intros Hnb Hnh. destruct (binit_final k Hnb Hnh) as [_ ->].
  assert (Hlen0 : (0 + NR_BUFFERS <= length (buffers k))%nat) by lia.
  destruct (binit_buffers_run NR_BUFFERS 0 BUFFERS_VIRT k Hlen0)
    as (_ & _ & _ & Hl1 & Hh1).
  set (k1 := final (binit_buffers (seq 0 NR_BUFFERS) BUFFERS_VIRT k)) in *.
  set (k2 := store FreeBuffers (with_free_prev (Buffers (NR_BUFFERS - 1)))
               (store FreeBuffers (with_free_next (Buffers 0)) k1)).
  assert (Hlen2 : (0 + BUFFERS_HASHTAB_SIZE <= length (hashtab k2))%nat).
  { unfold k2. rewrite !length_hashtab_store. lia. }
  destruct (binit_hashtab_run BUFFERS_HASHTAB_SIZE 0 k2 Hlen2)
    as (_ & _ & _ & Hl3 & Hh3).
  rewrite Hl3, Hh3, binit_hashtab_io_log. unfold k2.
  rewrite !length_buffers_store, !length_hashtab_store, !io_log_store.
  unfold k1 at 3. rewrite binit_buffers_io_log. repeat split; congruence.
Qed.

(** The state that binit leaves. *)
Lemma binit_effect (k : kernel) :
  length (buffers k) = NR_BUFFERS ->
  length (hashtab k) = BUFFERS_HASHTAB_SIZE ->
  (0 < NR_BUFFERS)%nat ->
  let k' := final (binit k) in
  outcome (binit k) = Done tt /\
  (forall i, (i < NR_BUFFERS)%nat ->
     let b := k'@(Buffers i) in
     flag_set (flags b) BUFFER_VALID = false /\
     flag_set (flags b) BUFFER_BUSY = false /\
     flag_set (flags b) BUFFER_LOCKED = false /\
     flag_set (flags b) BUFFER_DIRTY = false /\
     flags b = Z.lnot BUFFER_FLAGS /\
     dev b = 0%N /\ num b = 0%N /\ count b = 0 /\ chain b = [] /\
     data b = BUFFERS_VIRT + Z.of_nat i * BLOCK_SIZE /\
     hash_next b = Buffers i /\ hash_prev b = Buffers i) /\
  is_free_list k' (seq 0 NR_BUFFERS) /\
  (forall h, (h < BUFFERS_HASHTAB_SIZE)%nat ->
     hash_next k'@(Hashtab h) = Hashtab h /\ hash_prev k'@(Hashtab h) = Hashtab h).
Proof.
  intros Hnb Hnh Hpos k'.
  assert (Hlen0 : (0 + NR_BUFFERS <= length (buffers k))%nat) by lia.
  destruct (binit_buffers_run NR_BUFFERS 0 BUFFERS_VIRT k Hlen0)
    as (Ho1 & Hb1 & Hf1 & Hl1 & Hh1).
  set (k1 := final (binit_buffers (seq 0 NR_BUFFERS) BUFFERS_VIRT k)) in *.
  set (k2 := store FreeBuffers (with_free_prev (Buffers (NR_BUFFERS - 1)))
               (store FreeBuffers (with_free_next (Buffers 0)) k1)).
  assert (Hlen2 : (0 + BUFFERS_HASHTAB_SIZE <= length (hashtab k2))%nat).
  { unfold k2. rewrite !length_hashtab_store. lia. }
  destruct (binit_hashtab_run BUFFERS_HASHTAB_SIZE 0 k2 Hlen2)
    as (Ho3 & Hb3 & Hf3 & Hl3 & Hh3).
  destruct (binit_final k Hnb Hnh) as [Hout Hk']. fold k1 k2 in Hk'. fold k' in Hk'.
split; [exact Hout|].
  assert (Hbuf : forall i, (i < NR_BUFFERS)%nat ->
            k'@(Buffers i) = init_buffer i (BUFFERS_VIRT + Z.of_nat i * BLOCK_SIZE)).
  { intros i Hi. rewrite Hk', Hf3 by done. unfold k2.
    rewrite !load_store_ne by done. rewrite Hb1 by lia.
    by rewrite Nat.sub_0_r. }
  assert (Hfree : k'@FreeBuffers =
            with_free_prev (Buffers (NR_BUFFERS - 1))
              (with_free_next (Buffers 0) k1@FreeBuffers)).
  { rewrite Hk', Hf3 by done. unfold k2. by rewrite !load_store_eq. }
  split.
  { intros i Hi b. unfold b. rewrite (Hbuf i Hi). simpl.
    destruct flags_init_clear as (H1 & H2 & H3 & H4). by repeat split. }
  split.
  { split; [|split].
    - apply (init_free_path k' NR_BUFFERS 0); [lia| | |lia|].
      + intros i Hi. by rewrite (Hbuf i Hi).
      + by rewrite Hfree.
      + change (free_next k'@FreeBuffers = Buffers 0). by rewrite Hfree.
    - apply NoDup_seq.
    - intros i Hi. apply elem_of_seq in Hi.
      rewrite Hk', Hl3. unfold k2. rewrite !length_buffers_store. lia. }
  intros h Hh. rewrite Hk'. apply Hb3. lia.
Qed.

(** C7. After binit every buffer has none of its four flags set (the
    flags word is the complement of the four flags), device and block
    number 0, reference count 0, an empty wait queue, its data at
    [BUFFERS_VIRT + i * BLOCK_SIZE], and hash links that point to the
    buffer itself; the free list holds all the buffers in index order;
    every hash queue is empty. *)
Theorem binit_cache (k : kernel) :
  length (buffers k) = NR_BUFFERS ->
  length (hashtab k) = BUFFERS_HASHTAB_SIZE ->
  (0 < NR_BUFFERS)%nat ->
  let k' := final (binit k) in
  outcome (binit k) = Done tt /\
  (forall i, (i < NR_BUFFERS)%nat ->
     let b := k'@(Buffers i) in
     flag_set (flags b) BUFFER_VALID = false /\
     flag_set (flags b) BUFFER_BUSY = false /\
     flag_set (flags b) BUFFER_LOCKED = false /\
     flag_set (flags b) BUFFER_DIRTY = false /\
     flags b = Z.lnot BUFFER_FLAGS /\
     dev b = 0%N /\ num b = 0%N /\ count b = 0 /\ chain b = [] /\
     data b = BUFFERS_VIRT + Z.of_nat i * BLOCK_SIZE /\
     hash_next b = Buffers i /\ hash_prev b = Buffers i) /\
  is_free_list k' (seq 0 NR_BUFFERS) /\
  (forall h, (h < BUFFERS_HASHTAB_SIZE)%nat ->
     hash_next k'@(Hashtab h) = Hashtab h /\ hash_prev k'@(Hashtab h) = Hashtab h).
Proof. exact (binit_effect k). Qed.

End Init.

(** ** Doubly-linked lists *)

Section PathFacts.
Variables next prev : buffer -> bufptr.

Lemma linked_sym (k : kernel) (a b : bufptr) :
  linked next prev k a b <-> linked prev next k b a.
Proof. unfold linked. tauto. Qed.

(** A path depends on the [next] field of its sources and on the
    [prev] field of its targets only. *)
Lemma path_frame (k k' : kernel) (l : list nat) (a z : bufptr) :
  (forall p, p = a \/ p ∈ (Buffers <$> l) -> next k'@p = next k@p) ->
  (forall p, p = z \/ p ∈ (Buffers <$> l) -> prev k'@p = prev k@p) ->
  path next prev k a l z -> path next prev k' a l z.
Proof.
  revert a. induction l as [|i l IH]; intros a Hn Hp; simpl.
  - unfold linked. intros [H1 H2]. rewrite Hn, Hp by auto. done.
  - intros [[H1 H2] H3]. split.
    + unfold linked. rewrite Hn by auto.
      rewrite Hp by (right; rewrite fmap_cons; apply elem_of_cons; auto). done.
    + apply IH; [| |done].
      * intros p [->|Hin]; apply Hn; right; rewrite fmap_cons; apply elem_of_cons; auto.
      * intros p [->|Hin]; apply Hp; [by left|].
        right; rewrite fmap_cons; apply elem_of_cons; auto.
Qed.

Lemma path_snoc (k : kernel) (l : list nat) (i : nat) (a z : bufptr) :
  path next prev k a (l ++ [i]) z <->
  path next prev k a l (Buffers i) /\ linked next prev k (Buffers i) z.
Proof.
  revert a. induction l as [|j l IH]; intros a; simpl; [tauto|].
  rewrite IH. tauto.
Qed.

Lemma path_next (k : kernel) (l : list nat) (a z : bufptr) :
  path next prev k a l z -> next k@a = path_head l z.
Proof. destruct l; cbn [path path_head]; unfold linked; tauto. Qed.

(** Insertion after the list head [a] of a list that starts and ends at
    [a]: the four assignments of a head insertion give the list with
    [i] in front. *)
Lemma path_push (k k' : kernel) (a : bufptr) (i : nat) (l : list nat) :
  path next prev k a l a ->
  NoDup l -> i ∉ l -> a <> Buffers i -> (forall j, a <> Buffers j) ->
  next k'@a = Buffers i ->
  prev k'@(Buffers i) = a ->
  next k'@(Buffers i) = next k@a ->
  prev k'@(next k@a) = Buffers i ->
  (forall p, p <> a -> p <> Buffers i -> next k'@p = next k@p) ->
  (forall p, p <> Buffers i -> p <> next k@a -> prev k'@p = prev k@p) ->
  path next prev k' a (i :: l) a.
Proof.
  intros Hpath Hnd Hi Hai Ha H1 H2 H3 H4 Hfn Hfp. cbn [path]. split; [done|].
  destruct l as [|j l]; cbn [path] in *.
  - destruct Hpath as [Hn Hp]. split; [congruence|]. by rewrite Hn in H4.
  - destruct Hpath as [[Hn Hp] Hrest]. rewrite Hn in *.
    apply not_elem_of_cons in Hi as [Hij Hil].
    apply NoDup_cons in Hnd as [Hjl Hnd].
    split; [done|]. eapply path_frame; [| |exact Hrest].
    + intros p [->|Hin].
      * apply Hfn; [apply not_eq_sym, Ha|congruence].
      * apply list_elem_of_fmap in Hin as (x & -> & Hx).
        apply Hfn; [apply not_eq_sym, Ha|congruence].
    + intros p [->|Hin].
      * apply Hfp; [done|apply Ha].
      * apply list_elem_of_fmap in Hin as (x & -> & Hx).
        apply Hfp; congruence.
Qed.

End PathFacts.

Lemma path_rev (next prev : buffer -> bufptr) (k : kernel) (l : list nat)
    (a z : bufptr) :
  path next prev k a l z -> path prev next k z (reverse l) a.
Proof.
  revert a. induction l as [|i l IH]; intros a.
  - apply linked_sym.
  - intros [H1 H2]. rewrite reverse_cons. apply path_snoc.
    split; [by apply IH|by apply linked_sym].
Qed.

Section PathRemoval.
Variables next prev : buffer -> bufptr.

Lemma path_app (k : kernel) (l1 : list nat) (j : nat) (l2 : list nat) (a z : bufptr) :
  path next prev k a (l1 ++ j :: l2) z <->
  path next prev k a l1 (Buffers j) /\ path next prev k (Buffers j) l2 z.
Proof.
  revert a. induction l1 as [|i l1 IH]; intros a; cbn [app path]; [done|].
  rewrite IH. tauto.
Qed.

(** The element before the end of a path is its start or one of its
    buffers. *)
Lemma path_prev_in (k : kernel) (l : list nat) (a z : bufptr) :
  path next prev k a l z -> prev k@z ∈ a :: (Buffers <$> l).
Proof.
  revert a. induction l as [|i l IH]; intros a.
  - intros [_ ->]. by left.
  - intros [_ Hrest]. right. rewrite fmap_cons. by apply IH.
Qed.

(** A path whose last link is bent to a new end [z']. *)
Lemma path_retarget (k k' : kernel) (z z' : bufptr) (l : list nat) (a : bufptr) :
  path next prev k a l z ->
  NoDup (a :: (Buffers <$> l)) ->
  z' ∉ (Buffers <$> l) ->
  next k'@(prev k@z) = z' ->
  prev k'@z' = prev k@z ->
  (forall p, p <> prev k@z -> next k'@p = next k@p) ->
  (forall p, p <> z' -> prev k'@p = prev k@p) ->
  path next prev k' a l z'.
Proof.
  intros Hpath Hnd Hz' Hn Hp Hfn Hfp. revert a Hpath Hnd.
  induction l as [|i l IH]; intros a Hpath Hnd.
  - destruct Hpath as [H1 H2]. rewrite H2 in *. by split.
  - destruct Hpath as [[H1 H2] Hrest].
    rewrite fmap_cons in Hz', Hnd.
    apply not_elem_of_cons in Hz' as [Hz'i Hz'l].
    apply NoDup_cons in Hnd as [Ha Hnd].
    split.
    + split.
      * rewrite Hfn; [done|]. intros ->. apply Ha.
        by apply (path_prev_in k l (Buffers i) z).
      * rewrite Hfp by congruence. done.
    + by apply IH.
Qed.

(** The two assignments that take buffer [j] out of a list that starts
    and ends at [a] give the list without [j]. *)
Lemma path_remove (k k' : kernel) (a : bufptr) (l1 : list nat) (j : nat)
    (l2 : list nat) :
  path next prev k a (l1 ++ j :: l2) a ->
  NoDup (l1 ++ j :: l2) ->
  (forall i, a <> Buffers i) ->
  next k'@(prev k@(Buffers j)) = next k@(Buffers j) ->
  prev k'@(next k@(Buffers j)) = prev k@(Buffers j) ->
  (forall p, p <> prev k@(Buffers j) -> next k'@p = next k@p) ->
  (forall p, p <> next k@(Buffers j) -> prev k'@p = prev k@p) ->
  path next prev k' a (l1 ++ l2) a.
Proof.
  intros Hpath Hnd Ha Hn Hp Hfn Hfp.
  apply path_app in Hpath as [Hp1 Hp2].
  apply NoDup_app in Hnd as (Hnd1 & Hdisj & Hnd2).
  apply NoDup_cons in Hnd2 as [Hj2 Hnd2].
  assert (Hnodes : forall l, NoDup l -> NoDup (a :: (Buffers <$> l))).
  { intros l Hl. apply NoDup_cons. split.
    - intros Hin. apply list_elem_of_fmap in Hin as (x & Hx & _). by apply (Ha x).
    - apply NoDup_fmap_2; [|done]. by intros x y [= ->]. }
  assert (Hnext : next k@(Buffers j) = path_head l2 a) by (by eapply path_next).
  assert (Hhead : path_head l2 a ∉ (Buffers <$> l1)).
  { intros Hin. apply list_elem_of_fmap in Hin as (x & Hx & Hx1).
    destruct l2 as [|n l2]; cbn [path_head] in Hx.
    - by apply (Ha x).
    - injection Hx as <-. apply (Hdisj n Hx1). right. by left. }
  assert (Hpred : prev k@(Buffers j) ∈ a :: (Buffers <$> l1))
    by (by eapply path_prev_in).
  assert (H1 : path next prev k' a l1 (next k@(Buffers j))).
  { eapply path_retarget; [exact Hp1|by apply Hnodes|by rewrite Hnext|done..]. }
  destruct l2 as [|n l2].
  - rewrite app_nil_r. cbn [path_head] in Hnext. by rewrite Hnext in H1.
  - cbn [path_head] in Hnext. rewrite Hnext in H1. apply path_app. split; [done|].
    destruct Hp2 as [_ Hp2]. apply NoDup_cons in Hnd2 as [Hn2 Hnd2].
    eapply path_frame; [| |exact Hp2].
    + intros p Hsrc. apply Hfn. intros ->.
      assert (Hpl2 : exists x, prev k@(Buffers j) = Buffers x /\ x ∈ n :: l2).
      { destruct Hsrc as [Hsrc|Hsrc].
        - exists n. split; [done|by left].
        - apply list_elem_of_fmap in Hsrc as (x & Hx & Hx2). exists x.
          split; [done|by right]. }
      destruct Hpl2 as (x & Hx & Hx2). rewrite Hx in Hpred.
      apply elem_of_cons in Hpred as [Hpred|Hpred].
      * by apply (Ha x).
      * apply list_elem_of_fmap in Hpred as (y & [= <-] & Hy).
        apply (Hdisj x Hy). by right.
    + intros p Htgt. apply Hfp. rewrite Hnext. intros ->.
      destruct Htgt as [Htgt|Htgt].
      * symmetry in Htgt. by apply (Ha n).
      * apply list_elem_of_fmap in Htgt as (y & [= <-] & Hy). done.
Qed.

End PathRemoval.

Lemma is_free_list_ext (k k' : kernel) (l : list nat) :
  (forall p, free_next k'@p = free_next k@p) ->
  (forall p, free_prev k'@p = free_prev k@p) ->
  length (buffers k') = length (buffers k) ->
  is_free_list k l -> is_free_list k' l.
Proof.
  intros Hn Hp Hlen (Hpath & Hnd & Hv). split; [|split; [done|]].
  - eapply path_frame; [| |exact Hpath]; auto.
  - intros i Hi. rewrite Hlen. auto.
Qed.

(** ** Insertion into the free list *)

Lemma free_list_head (k : kernel) (l : list nat) :
  is_free_list k l ->
  free_next k@FreeBuffers = path_head l FreeBuffers /\
  valid_ptr k (path_head l FreeBuffers) /\
  (forall i, i ∉ l -> Buffers i <> path_head l FreeBuffers).
Proof.
  intros (Hpath & Hnd & Hv). split; [by eapply path_next|].
  destruct l as [|j l]; simpl.
  - split; [done|]. intros i _. done.
  - split; [apply Hv; by left|]. intros i Hi.
    apply not_elem_of_cons in Hi as [Hi _]. congruence.
Qed.

(** The four assignments of brelse that insert a buffer in the begin
    of the free list. *)
Lemma free_insert_begin (k : kernel) (i : nat) (l : list nat) :
  let buf := Buffers i in
  let k1 := store (free_next k@FreeBuffers) (with_free_prev buf) k in
  let k2 := store buf (with_free_prev FreeBuffers) k1 in
  let k3 := store buf (with_free_next (free_next k2@FreeBuffers)) k2 in
  let k4 := store FreeBuffers (with_free_next buf) k3 in
  (i < length (buffers k))%nat ->
  is_free_list k l -> i ∉ l ->
  is_free_list k4 (i :: l).
Proof.
  intros buf k1 k2 k3 k4 Hi Hfl Hnotin. subst buf.
  destruct (free_list_head k l Hfl) as (Hhead & Hvhead & Hnehead).
  specialize (Hnehead i Hnotin).
  destruct Hfl as (Hpath & Hnd & Hv).
  assert (Hvb : valid_ptr k (Buffers i)) by exact Hi.
  set (X := path_head l FreeBuffers) in *.
  assert (HXF : forall j, FreeBuffers <> Buffers j) by done.
  split; [|split].
  - assert (H1 : free_next k4@FreeBuffers = Buffers i) by (unfold k4; by ld).
    assert (H2 : free_prev k4@(Buffers i) = FreeBuffers)
      by (unfold k4, k3, k2; by ld).
    assert (H3 : free_next k4@(Buffers i) = free_next k@FreeBuffers)
      by (unfold k4, k3, k2, k1; by ld).
    assert (H4 : free_prev k4@(free_next k@FreeBuffers) = Buffers i)
      by (unfold k4, k3, k2, k1; rewrite Hhead; by ld).
    assert (H5 : forall p, p <> FreeBuffers -> p <> Buffers i ->
              free_next k4@p = free_next k@p)
      by (intros p Hp1 Hp2; unfold k4, k3, k2, k1; by ld).
    assert (H6 : forall p, p <> Buffers i -> p <> free_next k@FreeBuffers ->
              free_prev k4@p = free_prev k@p)
      by (intros p Hp1 Hp2; unfold k4, k3, k2, k1; rewrite Hhead in *; by ld).
    exact (path_push free_next free_prev k k4 FreeBuffers i l
             Hpath Hnd Hnotin (HXF i) HXF H1 H2 H3 H4 H5 H6).
  - apply NoDup_cons. done.
  - intros j Hj. unfold k4, k3, k2, k1. rewrite !length_buffers_store.
    apply elem_of_cons in Hj as [->|Hj]; auto.
Qed.

Lemma free_list_tail (k : kernel) (l : list nat) :
  is_free_list k l ->
  path free_prev free_next k FreeBuffers (reverse l) FreeBuffers /\
  free_prev k@FreeBuffers = path_head (reverse l) FreeBuffers /\
  valid_ptr k (path_head (reverse l) FreeBuffers) /\
  (forall i, i ∉ l -> Buffers i <> path_head (reverse l) FreeBuffers).
Proof.
  intros (Hpath & Hnd & Hv).
  assert (Hrev : path free_prev free_next k FreeBuffers (reverse l) FreeBuffers)
    by (by apply path_rev).
  split; [done|]. split; [by eapply path_next|].
  assert (Hin : forall j, j ∈ reverse l -> j ∈ l).
  { intros j Hj. by rewrite elem_of_reverse in Hj. }
  destruct (reverse l) as [|j l']; simpl.
  - split; [done|]. by intros i _.
  - split; [apply Hv, Hin; by left|]. intros i Hi Heq.
    injection Heq as ->. apply Hi, Hin. by left.
Qed.

(** The four assignments of brelse that insert a buffer in the end of
    the free list. *)
Lemma free_insert_end (k : kernel) (i : nat) (l : list nat) :
  let buf := Buffers i in
  let k1 := store (free_prev k@FreeBuffers) (with_free_next buf) k in
  let k2 := store buf (with_free_prev (free_prev k1@FreeBuffers)) k1 in
  let k3 := store FreeBuffers (with_free_prev buf) k2 in
  let k4 := store buf (with_free_next FreeBuffers) k3 in
  (i < length (buffers k))%nat ->
  is_free_list k l -> i ∉ l ->
  is_free_list k4 (l ++ [i]).
Proof.
  intros buf k1 k2 k3 k4 Hi Hfl Hnotin. subst buf.
  destruct (free_list_tail k l Hfl) as (Hrev & Hhead & Hvhead & Hnehead).
  specialize (Hnehead i Hnotin).
  destruct Hfl as (Hpath & Hnd & Hv).
  assert (Hvb : valid_ptr k (Buffers i)) by exact Hi.
  set (X := path_head (reverse l) FreeBuffers) in *.
  assert (HXF : forall j, FreeBuffers <> Buffers j) by done.
  split; [|split].
  - assert (H1 : free_prev k4@FreeBuffers = Buffers i) by (unfold k4, k3; by ld).
    assert (H2 : free_next k4@(Buffers i) = FreeBuffers) by (unfold k4; by ld).
    assert (H3 : free_prev k4@(Buffers i) = free_prev k@FreeBuffers)
      by (unfold k4, k3, k2, k1; by ld).
    assert (H4 : free_next k4@(free_prev k@FreeBuffers) = Buffers i)
      by (unfold k4, k3, k2, k1; rewrite Hhead; by ld).
    assert (H5 : forall p, p <> FreeBuffers -> p <> Buffers i ->
              free_prev k4@p = free_prev k@p)
      by (intros p Hp1 Hp2; unfold k4, k3, k2, k1; by ld).
    assert (H6 : forall p, p <> Buffers i -> p <> free_prev k@FreeBuffers ->
              free_next k4@p = free_next k@p)
      by (intros p Hp1 Hp2; unfold k4, k3, k2, k1; rewrite Hhead in *; by ld).
    assert (Hnd' : NoDup (reverse l)) by (by rewrite reverse_Permutation).
    assert (Hnotin' : i ∉ reverse l) by (by rewrite elem_of_reverse).
    pose proof (path_push free_prev free_next k k4 FreeBuffers i (reverse l)
                  Hrev Hnd' Hnotin' (HXF i) HXF H1 H2 H3 H4 H5 H6) as Hp.
    apply path_rev in Hp. by rewrite reverse_cons, reverse_involutive in Hp.
  - apply NoDup_app. split; [done|]. split.
    + intros x Hx Hx'. apply list_elem_of_singleton in Hx'. by subst.
    + apply NoDup_singleton.
  - intros j Hj. unfold k4, k3, k2, k1. rewrite !length_buffers_store.
    apply elem_of_app in Hj as [Hj|Hj]; [auto|].
    apply list_elem_of_singleton in Hj. by subst.
Qed.

(** ** Releasing a buffer *)

Section Release.
Context {cfg : Config}.

Lemma res_blkunlock (k : kernel) (buf : bufptr) :
  res (blkunlock buf) k = (Done tt, final (blkunlock buf k)).
Proof. reflexivity. Qed.

(** The run of brelse, case by case. *)
Lemma brelse_run (k : kernel) (buf : bufptr) :
  let k1 := store buf (with_count (wrap_int (count k@buf - 1)))
              (with_interrupts false k) in
  let kw := with_any_free_chain [] (wake (any_free_chain k1) k1) in
  let e1 := store (free_prev kw@FreeBuffers) (with_free_next buf) kw in
  let e2 := store buf (with_free_prev (free_prev e1@FreeBuffers)) e1 in
  let e3 := store FreeBuffers (with_free_prev buf) e2 in
  let e4 := store buf (with_free_next FreeBuffers) e3 in
  let b1 := store (free_next kw@FreeBuffers) (with_free_prev buf) kw in
  let b2 := store buf (with_free_prev FreeBuffers) b1 in
  let b3 := store buf (with_free_next (free_next b2@FreeBuffers)) b2 in
  let b4 := store FreeBuffers (with_free_next buf) b3 in
  let k2 :=
    if count k1@buf =? 0
    then if flag_set (flags kw@buf) BUFFER_VALID && flag_set (flags kw@buf) BUFFER_DIRTY
         then e4 else b4
    else k1 in
  res (brelse buf) k =
    if count k2@buf <? 0 then (Panic "fs: freeing buffer twice", k2)
    else (Done tt, with_interrupts true (final (blkunlock buf k2))).
Proof.
  intros k1 kw e1 e2 e3 e4 b1 b2 b3 b4 k2.
  assert (Hend : forall k2',
    res (cond (fun k => count k@buf <? 0) (kpanic "fs: freeing buffer twice") (ret tt) >>
         blkunlock buf >> enable_interrupts) k2' =
    if count k2'@buf <? 0 then (Panic "fs: freeing buffer twice", k2')
    else (Done tt, with_interrupts true (final (blkunlock buf k2')))).
  { intros k2'. rewrite res_bind_cond. by destruct (count k2'@buf <? 0). }
  unfold brelse, disable_interrupts, wakeup.
  rewrite res_bind_stmt, res_bind_stmt, load_with_interrupts. fold k1.
  rewrite res_bind_cond. subst k2. destruct (count k1@buf =? 0).
  - rewrite res_bind_assoc, res_bind_stmt. cbn [set_queue queue]. fold kw.
    rewrite res_bind_cond.
    destruct (flag_set (flags kw@buf) BUFFER_VALID && flag_set (flags kw@buf) BUFFER_DIRTY).
    + rewrite !res_bind_assoc. rewrite !res_bind_stmt.
      fold e1. fold e2. fold e3. fold e4. apply Hend.
    + rewrite !res_bind_assoc. rewrite !res_bind_stmt.
      fold b1. fold b2. fold b3. fold b4. apply Hend.
  - rewrite res_bind_ret. apply Hend.
Qed.

Lemma blkunlock_other (k : kernel) (buf : bufptr) :
  let k' := final (blkunlock buf k) in
  any_free_chain k' = any_free_chain k /\
  io_log k' = io_log k /\
  curr_proc k' = curr_proc k /\
  interrupts k' = true /\
  length (buffers k') = length (buffers k) /\
  length (hashtab k') = length (hashtab k) /\
  length (proctab k') = length (proctab k).
Proof.
  intros k'. destruct (blkunlock_run k buf) as [_ Hf]. cbv zeta in Hf.
  unfold k'. rewrite Hf. clear Hf k'.
  set (k1 := store buf (with_flags _) _).
  destruct (wake_other (chain k1@buf) k1) as (H1 & H2 & H3 & H4 & H5 & H6 & H7 & H8).
  destruct (store_other (wake (chain k1@buf) k1) buf (with_chain []))
    as (S1 & S2 & S3 & S4 & S5 & S6 & S7).
  destruct (store_other (with_interrupts false k) buf
              (with_flags (Z.land (flags k@buf) (Z.lnot BUFFER_LOCKED))))
    as (T1 & T2 & T3 & T4 & T5 & T6 & T7).
  cbn [with_interrupts any_free_chain io_log curr_proc interrupts buffers hashtab proctab].
  rewrite S1, S2, S5, S7, length_buffers_store, length_hashtab_store.
  rewrite H1, H2, H3, H5, H6, H8. unfold k1.
  rewrite T1, T2, T5, T7, length_buffers_store, length_hashtab_store. done.
Qed.

(** brelse on a referenced buffer: the fields that it leaves alone. *)
Lemma brelse_fields (k : kernel) (buf : bufptr) :
  valid_ptr k buf ->
  1 <= count k@buf <= INT_MAX ->
  let k' := final (brelse buf k) in
  outcome (brelse buf k) = Done tt /\
  (forall q, dev k'@q = dev k@q /\ num k'@q = num k@q /\
             hash_next k'@q = hash_next k@q /\ hash_prev k'@q = hash_prev k@q) /\
  flags k'@buf = Z.land (flags k@buf) (Z.lnot BUFFER_LOCKED) /\
  count k'@buf = count k@buf - 1 /\
  io_log k' = io_log k /\
  length (buffers k') = length (buffers k) /\
  length (hashtab k') = length (hashtab k) /\
  (forall q, q <> buf -> flags k'@q = flags k@q /\ count k'@q = count k@q).
Proof.
  intros Hv Hcount k'.
  pose proof (brelse_run k buf) as Hrun. cbv zeta in Hrun.
  set (k1 := store buf (with_count (wrap_int (count k@buf - 1)))
               (with_interrupts false k)) in *.
  set (kw := with_any_free_chain [] (wake (any_free_chain k1) k1)) in *.
  set (k2 := if count k1@buf =? 0 then _ else _) in Hrun.
  assert (Hc1 : wrap_int (count k@buf - 1) = count k@buf - 1).
  { apply wrap_int_id. unfold in_int, INT_MIN, INT_MAX in *. lia. }
  assert (Hk2 : valid_ptr k2 buf /\
            (forall q, dev k2@q = dev k@q /\ num k2@q = num k@q /\
               hash_next k2@q = hash_next k@q /\ hash_prev k2@q = hash_prev k@q) /\
            flags k2@buf = flags k@buf /\
            count k2@buf = count k@buf - 1 /\
            io_log k2 = io_log k /\
            length (buffers k2) = length (buffers k) /\
            length (hashtab k2) = length (hashtab k) /\
            (forall q, q <> buf -> flags k2@q = flags k@q /\ count k2@q = count k@q)).
  { assert (Hvw : valid_ptr kw buf) by (unfold kw, k1; eauto 10 with valid).
    assert (Hlw : io_log kw = io_log k /\ length (buffers kw) = length (buffers k) /\
              length (hashtab kw) = length (hashtab k)).
    { unfold kw. cbn [with_any_free_chain io_log buffers hashtab].
      destruct (wake_other (any_free_chain k1) k1) as (_ & _ & _ & _ & -> & -> & _ & ->).
      unfold k1. by ko. }
    destruct Hlw as (L1 & L2 & L3).
    unfold k2.
    destruct (count k1@buf =? 0);
      [destruct (flag_set (flags kw@buf) BUFFER_VALID
                 && flag_set (flags kw@buf) BUFFER_DIRTY)|].
    - split; [eauto 10 with valid|].
      split; [intros q; unfold kw, k1; by ld|].
      split; [unfold kw, k1; by ld|].
      split; [unfold kw, k1; ld; by rewrite Hc1|].
      split; [ko; by rewrite L1|]. split; [ko; by rewrite L2|].
      split; [ko; by rewrite L3|]. intros q Hq. unfold kw, k1. by ld.
    - split; [eauto 10 with valid|].
      split; [intros q; unfold kw, k1; by ld|].
      split; [unfold kw, k1; by ld|].
      split; [unfold kw, k1; ld; by rewrite Hc1|].
      split; [ko; by rewrite L1|]. split; [ko; by rewrite L2|].
      split; [ko; by rewrite L3|]. intros q Hq. unfold kw, k1. by ld.
    - unfold k1. split; [eauto 10 with valid|].
      split; [intros q; by ld|]. split; [by ld|].
      split; [ld; by rewrite Hc1|].
      split; [by ko|]. split; [by ko|]. split; [by ko|].
      intros q Hq. by ld. }
  destruct Hk2 as (Hv2 & Hid & Hfl & Hct & Hio & Hlb & Hlh & Hoth).
  destruct (Z.ltb_spec (count k2@buf) 0) as [|_]; [lia|].
  apply res_outcome_final in Hrun as [Hout Hfin].
  destruct (blkunlock_effect k2 buf Hv2)
    as (_ & _ & B1 & _ & _ & _ & _ & B2 & B3 & _ & B4 & _ & _ & B5 & B6 & Bframe).
  destruct (blkunlock_other k2 buf) as (_ & O1 & _ & _ & O2 & O3 & _).
  unfold k'. rewrite Hfin. rewrite !load_with_interrupts.
  split; [done|]. split.
  { intros q. rewrite !load_with_interrupts.
    destruct (decide (q = buf)) as [->|Hne].
    - rewrite B2, B3, B5, B6. apply Hid.
    - rewrite Bframe by done. apply Hid. }
  split; [by rewrite B1, Hfl|]. split; [by rewrite B4|].
  cbn [with_interrupts io_log buffers hashtab].
  split; [congruence|]. split; [congruence|]. split; [congruence|].
  intros q Hq. rewrite !load_with_interrupts, Bframe by done. by apply Hoth.
Qed.

(** blkunlock changes no link of the free list. *)
Lemma blkunlock_free_list (k : kernel) (buf : bufptr) (l : list nat) :
  valid_ptr k buf ->
  is_free_list k l -> is_free_list (with_interrupts true (final (blkunlock buf k))) l.
Proof.
  intros Hv Hfl.
  destruct (blkunlock_effect k buf Hv)
    as (_ & _ & _ & _ & _ & _ & _ & _ & _ & _ & _ & Hn & Hp & _ & _ & Hframe).
  destruct (blkunlock_other k buf) as (_ & _ & _ & _ & Hlen & _).
  eapply is_free_list_ext; [| | |exact Hfl].
  - intros p. rewrite load_with_interrupts.
    destruct (decide (p = buf)) as [->|Hne]; [done|]. by rewrite Hframe.
  - intros p. rewrite load_with_interrupts.
    destruct (decide (p = buf)) as [->|Hne]; [done|]. by rewrite Hframe.
  - done.
Qed.

(** The effect of brelse on a referenced buffer. *)
Lemma brelse_effect (k : kernel) (i : nat) (l : list nat) :
  let buf := Buffers i in
  (i < length (buffers k))%nat ->
  1 <= count k@buf <= INT_MAX ->
  is_free_list k l -> i ∉ l ->
  let k' := final (brelse buf k) in
  outcome (brelse buf k) = Done tt /\
  count k'@buf = count k@buf - 1 /\
  (count k@buf = 1 ->
     any_free_chain k' = [] /\
     (forall p, p ∈ any_free_chain k -> (p < length (proctab k))%nat ->
        state (proc k' p) = PROC_READY) /\
     is_free_list k'
       (if flag_set (flags k@buf) BUFFER_VALID && flag_set (flags k@buf) BUFFER_DIRTY
        then l ++ [i] else i :: l)) /\
  (count k@buf <> 1 ->
     any_free_chain k' = any_free_chain k /\
     (forall p, p ∉ chain k@buf -> proc k' p = proc k p) /\
     is_free_list k' l) /\
  flag_set (flags k'@buf) BUFFER_LOCKED = false /\
  chain k'@buf = [] /\
  (forall p, p ∈ chain k@buf -> (p < length (proctab k))%nat ->
     state (proc k' p) = PROC_READY).
Proof.
  intros buf Hi Hcount Hfl Hnotin k'.
  assert (Hv : valid_ptr k buf) by exact Hi.
  pose proof (brelse_run k buf) as Hrun. cbv zeta in Hrun.
  set (k1 := store buf (with_count (wrap_int (count k@buf - 1)))
               (with_interrupts false k)) in *.
  set (kw := with_any_free_chain [] (wake (any_free_chain k1) k1)) in *.
  assert (Hc1 : count k1@buf = count k@buf - 1).
  { unfold k1. ld. apply wrap_int_id.
    unfold in_int, INT_MIN, INT_MAX in *. lia. }
  assert (Hfl1 : is_free_list k1 l).
  { eapply is_free_list_ext; [| | |exact Hfl].
    - intros p. unfold k1. by ld.
    - intros p. unfold k1. by ld.
    - unfold k1. by rewrite length_buffers_store. }
  assert (Hv1 : valid_ptr k1 buf) by (unfold k1; eauto with valid).
  assert (Hproc1 : forall p, proc k1 p = proc k p).
  { intros p. unfold k1. by rewrite proc_store. }
  assert (Hlen1 : length (proctab k1) = length (proctab k)).
  { unfold k1. by destruct (store_other (with_interrupts false k) buf
      (with_count (wrap_int (count k@buf - 1)))) as (-> & _). }
  assert (Hafc1 : any_free_chain k1 = any_free_chain k).
  { unfold k1. by destruct (store_other (with_interrupts false k) buf
      (with_count (wrap_int (count k@buf - 1)))) as (_ & _ & _ & _ & -> & _). }
  assert (Hch1 : chain k1@buf = chain k@buf) by (unfold k1; by ld).
  assert (Hflags1 : flags k1@buf = flags k@buf) by (unfold k1; by ld).
  (* what blkunlock does at the end, from a state [k2] *)
  assert (Hend : forall k2 : kernel,
    valid_ptr k2 buf ->
    let kf := with_interrupts true (final (blkunlock buf k2)) in
    count kf@buf = count k2@buf /\
    any_free_chain kf = any_free_chain k2 /\
    flag_set (flags kf@buf) BUFFER_LOCKED = false /\
    chain kf@buf = [] /\
    (forall p, p ∈ chain k2@buf -> (p < length (proctab k2))%nat ->
       state (proc kf p) = PROC_READY) /\
    (forall p, p ∉ chain k2@buf -> proc kf p = proc k2 p) /\
    (forall l', is_free_list k2 l' -> is_free_list kf l')).
  { intros k2 Hv2 kf.
    destruct (blkunlock_effect k2 buf Hv2)
      as (_ & Hl & _ & _ & Hch & Hrd & Hnm & _ & _ & _ & Hcnt & _).
    destruct (blkunlock_other k2 buf) as (Hafc & _).
    unfold kf. rewrite !load_with_interrupts.
    split; [done|]. split; [done|]. split; [done|]. split; [done|].
    split; [done|]. split; [done|].
    intros l' Hl'. by apply blkunlock_free_list. }
  destruct (Z.eqb_spec (count k1@buf) 0) as [Hz|Hnz].
  - (* the last reference *)
    assert (Hone : count k@buf = 1) by lia.
    assert (Hflw : is_free_list kw l).
    { eapply is_free_list_ext; [| | |exact Hfl1].
      - intros p. unfold kw. by ld.
      - intros p. unfold kw. by ld.
      - unfold kw. cbn [with_any_free_chain buffers]. apply length_buffers_wake. }
    assert (Hiw : (i < length (buffers kw))%nat).
    { unfold kw. cbn [with_any_free_chain buffers]. rewrite length_buffers_wake.
      exact Hv1. }
    assert (Hflagsw : flags kw@buf = flags k@buf) by (unfold kw; ld; done).
    rewrite Hflagsw in Hrun.
    set (k2 := if flag_set (flags k@buf) BUFFER_VALID
                  && flag_set (flags k@buf) BUFFER_DIRTY
               then _ else _) in Hrun.
    assert (Hk2 : count k2@buf = 0 /\ valid_ptr k2 buf /\
              any_free_chain k2 = [] /\ chain k2@buf = chain k@buf /\
              (forall p, proc k2 p = proc kw p) /\
              length (proctab k2) = length (proctab k) /\
              is_free_list k2
                (if flag_set (flags k@buf) BUFFER_VALID
                    && flag_set (flags k@buf) BUFFER_DIRTY
                 then l ++ [i] else i :: l)).
    { assert (Hcw : count kw@buf = 0) by (unfold kw; ld; lia).
      assert (Hvw : valid_ptr kw buf) by exact Hiw.
      assert (Hchw : chain kw@buf = chain k@buf) by (unfold kw; ld; done).
      assert (Hlw : length (proctab kw) = length (proctab k)).
      { unfold kw. cbn [with_any_free_chain proctab].
        by rewrite length_proctab_wake. }
      unfold k2.
      destruct (flag_set (flags k@buf) BUFFER_VALID && flag_set (flags k@buf) BUFFER_DIRTY).
      - split; [by ld|]. split; [eauto 10 with valid|].
        split; [by rewrite !(proj1 (proj2 (proj2 (proj2 (proj2 (store_other _ _ _))))))|].
        split; [by ld|]. split; [intros p; by rewrite !proc_store|].
        split; [by rewrite !(proj1 (store_other _ _ _))|].
        by apply (free_insert_end kw i l).
      - split; [by ld|]. split; [eauto 10 with valid|].
        split; [by rewrite !(proj1 (proj2 (proj2 (proj2 (proj2 (store_other _ _ _))))))|].
        split; [by ld|]. split; [intros p; by rewrite !proc_store|].
        split; [by rewrite !(proj1 (store_other _ _ _))|].
        by apply (free_insert_begin kw i l). }
    destruct Hk2 as (Hc2 & Hv2 & Hafc2 & Hch2 & Hproc2 & Hlen2 & Hfl2).
    destruct (Z.ltb_spec (count k2@buf) 0) as [|_]; [lia|].
    apply res_outcome_final in Hrun as [Hout Hfin].
    destruct (Hend k2 Hv2) as (E1 & E2 & E3 & E4 & E5 & E6 & E7).
    unfold k'. rewrite Hfin.
    split; [done|]. split; [lia|]. split.
    { intros _. split; [congruence|]. split; [|by apply E7].
      intros p Hp Hlt.
      destruct (decide (p ∈ chain k2@buf)) as [Hin|Hnin].
      - apply E5; [done|lia].
      - rewrite E6, Hproc2 by done. unfold kw.
        change (state (proc (wake (any_free_chain k1) k1) p) = PROC_READY).
        apply wake_ready; [by rewrite Hafc1|lia]. }
    split; [intros Hne; lia|].
    split; [done|]. split; [done|].
    intros p Hp Hlt. apply E5; [by rewrite Hch2|lia].
  - (* other references remain *)
    destruct (Z.ltb_spec (count k1@buf) 0) as [|_]; [lia|].
    apply res_outcome_final in Hrun as [Hout Hfin].
    destruct (Hend k1 Hv1) as (E1 & E2 & E3 & E4 & E5 & E6 & E7).
    unfold k'. rewrite Hfin.
    split; [done|]. split; [lia|]. split; [intros Hone; lia|].
    split.
    { intros _. split; [congruence|]. split; [|by apply E7].
      intros p Hp. rewrite E6 by (by rewrite Hch1). apply Hproc1. }
    split; [done|]. split; [done|].
    intros p Hp Hlt. apply E5; [by rewrite Hch1|lia].
Qed.

(** C3. brelse on a locked buffer with a reference count of at least 1
    returns and takes one reference away. Exactly when the count has
    become 0 it wakes the processes that wait for any buffer and puts
    the buffer into the free list: at the end when the buffer is both
    valid and dirty, at the begin otherwise. In every case it clears
    BUFFER_LOCKED and wakes all the processes that sleep on the
    buffer. *)
Theorem brelse_locked_buffer (k : kernel) (i : nat) (l : list nat) :
  let buf := Buffers i in
  (i < length (buffers k))%nat ->
  flag_set (flags k@buf) BUFFER_LOCKED = true ->
  1 <= count k@buf <= INT_MAX ->
  is_free_list k l -> i ∉ l ->
  let k' := final (brelse buf k) in
  outcome (brelse buf k) = Done tt /\
  count k'@buf = count k@buf - 1 /\
  (count k@buf = 1 ->
     any_free_chain k' = [] /\
     (forall p, p ∈ any_free_chain k -> (p < length (proctab k))%nat ->
        state (proc k' p) = PROC_READY) /\
     is_free_list k'
       (if flag_set (flags k@buf) BUFFER_VALID && flag_set (flags k@buf) BUFFER_DIRTY
        then l ++ [i] else i :: l)) /\
  (count k@buf <> 1 ->
     any_free_chain k' = any_free_chain k /\
     (forall p, p ∉ chain k@buf -> proc k' p = proc k p) /\
     is_free_list k' l) /\
  flag_set (flags k'@buf) BUFFER_LOCKED = false /\
  chain k'@buf = [] /\
  (forall p, p ∈ chain k@buf -> (p < length (proctab k))%nat ->
     state (proc k' p) = PROC_READY).
Proof.
  intros buf Hi _ Hcount Hfl Hnotin. exact (brelse_effect k i l Hi Hcount Hfl Hnotin).
Qed.

(** C4. brelse on a buffer whose reference count is 0 already ends in
    the kernel panic "fs: freeing buffer twice" (the message of the
    design document, behind the tag of the file system). No link of the
    free list is written at any point of the run, so the buffer is not
    put into the free list before the panic; the count is left at -1. *)
Theorem brelse_twice_panics (k : kernel) (i : nat) :
  let buf := Buffers i in
  (i < length (buffers k))%nat ->
  count k@buf = 0 ->
  let k' := final (brelse buf k) in
  outcome (brelse buf k) = Panic "fs: freeing buffer twice" /\
  count k'@buf = -1 /\
  Forall (fun s => forall p,
            free_next s@p = free_next k@p /\ free_prev s@p = free_prev k@p)
         (points (brelse buf k)) /\
  (forall p, free_next k'@p = free_next k@p /\ free_prev k'@p = free_prev k@p) /\
  (forall l, is_free_list k l -> is_free_list k' l).
Proof.
  intros buf Hi Hcount k'.
  assert (Hv : valid_ptr k buf) by exact Hi.
  pose proof (brelse_run k buf) as Hrun. cbv zeta in Hrun.
  set (k1 := store buf (with_count (wrap_int (count k@buf - 1)))
               (with_interrupts false k)) in *.
  assert (Hc1 : count k1@buf = -1).
  { unfold k1. ld. by rewrite Hcount. }
  rewrite Hc1 in Hrun. cbn [Z.eqb] in Hrun.
  rewrite Hc1 in Hrun. cbn [Z.ltb Z.compare] in Hrun.
  apply res_outcome_final in Hrun as [Hout Hfin].
  assert (Hlinks : forall p,
            free_next k1@p = free_next k@p /\ free_prev k1@p = free_prev k@p).
  { intros p. unfold k1. by ld. }
  assert (Hpoints : points (brelse buf k) = [with_interrupts false k; k1]).
  { unfold brelse, disable_interrupts.
    rewrite !points_bind_stmt, load_with_interrupts. fold k1.
    rewrite points_bind_cond, Hc1. cbn [Z.eqb].
    rewrite points_bind_ret, points_bind_cond, Hc1. cbn [Z.ltb Z.compare].
    by rewrite points_bind_kpanic. }
  unfold k'. rewrite Hfin, Hpoints.
  split; [done|]. split; [done|]. split.
  { apply Forall_cons. split; [intros p; by ld|].
    apply Forall_cons. split; [done|]. apply Forall_nil. done. }
  split; [done|].
  intros l Hl. eapply is_free_list_ext; [| | |exact Hl].
  - intros p. apply Hlinks.
  - intros p. apply Hlinks.
  - unfold k1. by rewrite length_buffers_store.
Qed.

End Release.

(** ** Getting a buffer *)

Section Getblk.
Context {cfg : Config}.

Lemma res_sleep {A : Type} (q : wait_queue) (prio : Z) (k : kernel) :
  res (@sleep A q prio) k = (Asleep, final (@sleep A q prio k)).
Proof. reflexivity. Qed.

Lemma res_bind_sleep {A B : Type} (q : wait_queue) (prio : Z) (g : A -> M B)
    (k : kernel) :
  res (bind (@sleep A q prio) g) k = (Asleep, final (@sleep A q prio k)).
Proof. reflexivity. Qed.

(** blklock sleeps on a locked buffer and locks an unlocked one. *)
Lemma res_blklock (k : kernel) (buf : bufptr) :
  res (blklock buf) k =
    if flag_set (flags k@buf) BUFFER_LOCKED
    then (Asleep, final (@sleep unit (BufChain buf) PRIO_BUFFER (with_interrupts false k)))
    else (Done tt, locked buf k).
Proof.
  unfold blklock, disable_interrupts, enable_interrupts, locked.
  rewrite res_bind_stmt, res_bind_cond, load_with_interrupts.
  destruct (flag_set (flags k@buf) BUFFER_LOCKED).
  - by rewrite res_bind_sleep.
  - rewrite res_bind_ret, res_bind_stmt, res_stmt. by rewrite load_with_interrupts.
Qed.

Lemma res_bind_count_incr {B : Type} (buf : bufptr) (g : Z -> M B) (k : kernel) :
  res (bind (count_incr buf) g) k = res (g (count k@buf)) (counted buf k).
Proof.
  unfold count_incr, counted.
  by rewrite res_bind_assoc, res_bind_gets, res_bind_assoc, res_bind_stmt, res_bind_ret.
Qed.

Lemma res_bind_free_unlink {B : Type} (buf : bufptr) (g : unit -> M B) (k : kernel) :
  res (bind (free_unlink buf) g) k = res (g tt) (unlinked buf k).
Proof.
  unfold free_unlink, unlinked.
  by rewrite res_bind_assoc, !res_bind_stmt.
Qed.

(** *** The steps, field by field *)

Lemma unlinked_proj {A : Type} (proj : buffer -> A) (buf q : bufptr) (k : kernel) :
  (forall v b, proj (with_free_next v b) = proj b) ->
  (forall v b, proj (with_free_prev v b) = proj b) ->
  proj (unlinked buf k)@q = proj k@q.
Proof.
  intros H1 H2. unfold unlinked. cbv zeta.
  rewrite (load_store_proj proj) by (intros; apply H2).
  by rewrite (load_store_proj proj) by (intros; apply H1).
Qed.

Lemma hash_unlinked_proj {A : Type} (proj : buffer -> A) (buf q : bufptr) (k : kernel) :
  (forall v b, proj (with_hash_next v b) = proj b) ->
  (forall v b, proj (with_hash_prev v b) = proj b) ->
  proj (hash_unlinked buf k)@q = proj k@q.
Proof.
  intros H1 H2. unfold hash_unlinked. cbv zeta.
  rewrite (load_store_proj proj) by (intros; apply H2).
  by rewrite (load_store_proj proj) by (intros; apply H1).
Qed.

Lemma hash_inserted_proj {A : Type} (proj : buffer -> A) (i : nat) (buf q : bufptr)
    (k : kernel) :
  (forall v b, proj (with_hash_next v b) = proj b) ->
  (forall v b, proj (with_hash_prev v b) = proj b) ->
  proj (hash_inserted i buf k)@q = proj k@q.
Proof.
  intros H1 H2. unfold hash_inserted. cbv zeta.
  rewrite (load_store_proj proj) by (intros; apply H1).
  rewrite (load_store_proj proj) by (intros; apply H1).
  rewrite (load_store_proj proj) by (intros; apply H2).
  by rewrite (load_store_proj proj) by (intros; apply H2).
Qed.

Lemma counted_proj {A : Type} (proj : buffer -> A) (buf q : bufptr) (k : kernel) :
  (forall v b, proj (with_count v b) = proj b) ->
  proj (counted buf k)@q = proj k@q.
Proof. intros H. unfold counted. by rewrite (load_store_proj proj) by (intros; apply H). Qed.

Lemma locked_proj {A : Type} (proj : buffer -> A) (buf q : bufptr) (k : kernel) :
  (forall v b, proj (with_flags v b) = proj b) ->
  proj (locked buf k)@q = proj k@q.
Proof.
  intros H. unfold locked. rewrite load_with_interrupts.
  rewrite (load_store_proj proj) by (intros; apply H). by rewrite load_with_interrupts.
Qed.

Lemma reassigned_proj {A : Type} (proj : buffer -> A) (d n : N) (buf q : bufptr)
    (k : kernel) :
  (forall v b, proj (with_dev v b) = proj b) ->
  (forall v b, proj (with_num v b) = proj b) ->
  (forall v b, proj (with_flags v b) = proj b) ->
  proj (reassigned d n buf k)@q = proj k@q.
Proof.
  intros H1 H2 H3. unfold reassigned. cbv zeta.
  rewrite (load_store_proj proj) by (intros; apply H3).
  rewrite (load_store_proj proj) by (intros; apply H2).
  by rewrite (load_store_proj proj) by (intros; apply H1).
Qed.

Lemma step_ne (buf q : bufptr) (k : kernel) (d n : N) :
  q <> buf ->
  (counted buf k)@q = k@q /\ (locked buf k)@q = k@q /\ (reassigned d n buf k)@q = k@q.
Proof.
  intros Hne. unfold counted, locked, reassigned. cbv zeta.
  rewrite load_with_interrupts, !load_store_ne by done.
  by rewrite load_with_interrupts.
Qed.

Lemma count_counted (buf : bufptr) (k : kernel) :
  valid_ptr k buf -> count (counted buf k)@buf = wrap_int (count k@buf + 1).
Proof. intros Hv. unfold counted. by rewrite load_store_eq. Qed.

Lemma flags_locked (buf : bufptr) (k : kernel) :
  valid_ptr k buf -> flags (locked buf k)@buf = Z.lor (flags k@buf) BUFFER_LOCKED.
Proof.
  intros Hv. unfold locked. rewrite load_with_interrupts, load_store_eq; [done|].
  by apply valid_with_interrupts.
Qed.

Lemma reassigned_buf (d n : N) (buf : bufptr) (k : kernel) :
  valid_ptr k buf ->
  dev (reassigned d n buf k)@buf = d /\
  num (reassigned d n buf k)@buf = n /\
  flags (reassigned d n buf k)@buf = Z.land (flags k@buf) (Z.lnot BUFFER_VALID).
Proof. intros Hv. unfold reassigned. cbv zeta. split; [by ld|]. split; by ld. Qed.

Lemma hash_inserted_head (i : nat) (buf : bufptr) (k : kernel) :
  valid_ptr k (Hashtab i) ->
  hash_next (hash_inserted i buf k)@(Hashtab i) = buf.
Proof.
  intros Hv. unfold hash_inserted. cbv zeta.
  rewrite load_store_eq; [done|]. by repeat apply valid_store.
Qed.

(** The steps keep the shape of the state and leave the rest of the
    kernel as it is. *)
Lemma steps_other (buf : bufptr) (k : kernel) (d n : N) (i : nat) :
  (length (buffers (unlinked buf k)) = length (buffers k) /\
   length (hashtab (unlinked buf k)) = length (hashtab k) /\
   io_log (unlinked buf k) = io_log k) /\
  (length (buffers (counted buf k)) = length (buffers k) /\
   length (hashtab (counted buf k)) = length (hashtab k) /\
   io_log (counted buf k) = io_log k) /\
  (length (buffers (locked buf k)) = length (buffers k) /\
   length (hashtab (locked buf k)) = length (hashtab k) /\
   io_log (locked buf k) = io_log k /\
   interrupts (locked buf k) = true) /\
  (length (buffers (hash_unlinked buf k)) = length (buffers k) /\
   length (hashtab (hash_unlinked buf k)) = length (hashtab k) /\
   io_log (hash_unlinked buf k) = io_log k) /\
  (length (buffers (reassigned d n buf k)) = length (buffers k) /\
   length (hashtab (reassigned d n buf k)) = length (hashtab k) /\
   io_log (reassigned d n buf k) = io_log k) /\
  (length (buffers (hash_inserted i buf k)) = length (buffers k) /\
   length (hashtab (hash_inserted i buf k)) = length (hashtab k) /\
   io_log (hash_inserted i buf k) = io_log k).
Proof.
  unfold unlinked, counted, locked, hash_unlinked, reassigned, hash_inserted.
  cbv zeta. repeat split; by ko.
Qed.

Lemma valid_steps (buf q : bufptr) (k : kernel) (d n : N) (i : nat) :
  valid_ptr k q ->
  valid_ptr (unlinked buf k) q /\ valid_ptr (counted buf k) q /\
  valid_ptr (locked buf k) q /\ valid_ptr (hash_unlinked buf k) q /\
  valid_ptr (reassigned d n buf k) q /\ valid_ptr (hash_inserted i buf k) q.
Proof.
  intros Hv.
  destruct (steps_other buf k d n i)
    as ((A1 & A2 & _) & (B1 & B2 & _) & (C1 & C2 & _) & (D1 & D2 & _)
        & (E1 & E2 & _) & (F1 & F2 & _)).
  destruct q; simpl in *; try done; repeat split; lia.
Qed.

Lemma valid_unlinked (buf q : bufptr) (k : kernel) :
  valid_ptr k q -> valid_ptr (unlinked buf k) q.
Proof. intros Hv. by destruct (valid_steps buf q k 0%N 0%N 0 Hv) as (? & _). Qed.

Lemma valid_counted (buf q : bufptr) (k : kernel) :
  valid_ptr k q -> valid_ptr (counted buf k) q.
Proof. intros Hv. by destruct (valid_steps buf q k 0%N 0%N 0 Hv) as (_ & ? & _). Qed.

Lemma valid_locked (buf q : bufptr) (k : kernel) :
  valid_ptr k q -> valid_ptr (locked buf k) q.
Proof. intros Hv. by destruct (valid_steps buf q k 0%N 0%N 0 Hv) as (_ & _ & ? & _). Qed.

Lemma valid_hash_unlinked (buf q : bufptr) (k : kernel) :
  valid_ptr k q -> valid_ptr (hash_unlinked buf k) q.
Proof.
  intros Hv. by destruct (valid_steps buf q k 0%N 0%N 0 Hv) as (_ & _ & _ & ? & _).
Qed.

Lemma valid_reassigned (d n : N) (buf q : bufptr) (k : kernel) :
  valid_ptr k q -> valid_ptr (reassigned d n buf k) q.
Proof.
  intros Hv. by destruct (valid_steps buf q k d n 0 Hv) as (_ & _ & _ & _ & ? & _).
Qed.

Lemma valid_hash_inserted (i : nat) (buf q : bufptr) (k : kernel) :
  valid_ptr k q -> valid_ptr (hash_inserted i buf k) q.
Proof.
  intros Hv. by destruct (valid_steps buf q k 0%N 0%N i Hv) as (_ & _ & _ & _ & _ & ?).
Qed.

#[local] Hint Resolve valid_unlinked valid_counted valid_locked valid_hash_unlinked
  valid_reassigned valid_hash_inserted : valid.

(** Taking a buffer out of the free list. *)
Lemma unlinked_free_list (k : kernel) (j : nat) (l1 l2 : list nat) :
  is_free_list k (l1 ++ j :: l2) ->
  is_free_list (unlinked (Buffers j) k) (l1 ++ l2).
Proof.
  intros (Hpath & Hnd & Hb).
  pose proof Hpath as Hsplit. apply path_app in Hsplit as [Hp1 Hp2].
  pose proof (path_prev_in free_next free_prev k l1 FreeBuffers (Buffers j) Hp1) as HP.
  pose proof (path_next free_next free_prev k l2 (Buffers j) FreeBuffers Hp2) as HN.
  set (P := free_prev k@(Buffers j)) in *.
  set (N := free_next k@(Buffers j)) in *.
  pose proof Hnd as Hnd'. apply NoDup_app in Hnd' as (Hnd1 & Hdisj & Hnd2).
  apply NoDup_cons in Hnd2 as [Hj2 Hnd2].
  assert (HvP : valid_ptr k P).
  { apply elem_of_cons in HP as [->|HP]; [done|].
    apply list_elem_of_fmap in HP as (x & -> & Hx). apply Hb.
    apply elem_of_app. by left. }
  assert (HPj : P <> Buffers j).
  { intros HPj. rewrite HPj in HP. apply elem_of_cons in HP as [HP|HP]; [done|].
    apply list_elem_of_fmap in HP as (x & [= <-] & Hx).
    apply (Hdisj j Hx). by left. }
  assert (HvN : valid_ptr k N).
  { rewrite HN. destruct l2 as [|n l2]; [done|]. apply Hb.
    apply elem_of_app. right. right. by left. }
  assert (Hu : unlinked (Buffers j) k
               = store N (with_free_prev P) (store P (with_free_next N) k)).
  { unfold unlinked. cbv zeta. fold P N.
    rewrite (load_store_proj free_prev) by done. fold P.
    by rewrite load_store_ne by done. }
  rewrite Hu. split; [|split].
  - apply (path_remove free_next free_prev k _ FreeBuffers l1 j l2 Hpath Hnd);
      [done|fold P N; by ld|fold P N; by ld|..].
    + intros p Hp. fold P in Hp. by ld.
    + intros p Hp. fold N in Hp. by ld.
  - apply NoDup_app. split; [done|]. split; [|done].
    intros x Hx1 Hx2. apply (Hdisj x Hx1). by right.
  - intros i Hi. rewrite !length_buffers_store. apply Hb.
    apply elem_of_app in Hi as [Hi|Hi]; apply elem_of_app; [by left|].
    right. by right.
Qed.

Lemma res_getblk_found (k : kernel) (buf : bufptr) :
  valid_ptr k buf ->
  res (getblk_found buf) k =
    if flag_set (flags k@buf) BUFFER_LOCKED
    then (Asleep, final (@sleep (option bufptr) (BufChain buf) PRIO_BUFFER k))
    else (Done (Some buf), found_state buf k).
Proof.
  intros Hv. unfold getblk_found. rewrite res_cond.
  destruct (flag_set (flags k@buf) BUFFER_LOCKED) eqn:Hl; [by rewrite res_sleep|].
  rewrite res_bind_count_incr. unfold found_state.
  assert (Hblk : forall k2, flags k2@buf = flags k@buf ->
            res (blklock buf >> enable_interrupts >> ret (Some buf)) k2 =
            (Done (Some buf), with_interrupts true (locked buf k2))).
  { intros k2 Hfl.
    erewrite res_bind_done; [|rewrite res_blklock, Hfl, Hl; reflexivity].
    unfold enable_interrupts. by rewrite res_bind_stmt, res_ret. }
  rewrite res_bind_if. destruct (count k@buf =? 0).
  - rewrite res_bind_free_unlink. apply Hblk.
    rewrite (unlinked_proj flags) by done. by rewrite (counted_proj flags).
  - rewrite res_bind_ret. apply Hblk. by rewrite (counted_proj flags).
Qed.

(** What a hit changes: the buffer gets the lock and one more
    reference; identities, hash queues and the device log stay. *)
Lemma found_state_facts (k : kernel) (buf : bufptr) :
  valid_ptr k buf ->
  let k' := found_state buf k in
  flags k'@buf = Z.lor (flags k@buf) BUFFER_LOCKED /\
  count k'@buf = wrap_int (count k@buf + 1) /\
  (forall q, dev k'@q = dev k@q /\ num k'@q = num k@q /\
             hash_next k'@q = hash_next k@q /\ hash_prev k'@q = hash_prev k@q) /\
  (forall q, q <> buf -> flags k'@q = flags k@q /\ count k'@q = count k@q) /\
  io_log k' = io_log k /\
  interrupts k' = true /\
  length (buffers k') = length (buffers k) /\
  length (hashtab k') = length (hashtab k).
Proof.
  intros Hv k'. unfold k', found_state.
  set (k2 := if count k@buf =? 0 then unlinked buf (counted buf k) else counted buf k).
  assert (Hproj : forall (A : Type) (proj : buffer -> A) q,
            (forall v b, proj (with_free_next v b) = proj b) ->
            (forall v b, proj (with_free_prev v b) = proj b) ->
            (forall v b, proj (with_count v b) = proj b) ->
            proj k2@q = proj k@q).
  { intros A proj q H1 H2 H3. unfold k2. destruct (count k@buf =? 0).
    - rewrite (unlinked_proj proj) by done. by rewrite (counted_proj proj).
    - by rewrite (counted_proj proj). }
  assert (Hv2 : valid_ptr k2 buf).
  { unfold k2. destruct (count k@buf =? 0); eauto with valid. }
  assert (Hc2 : count k2@buf = wrap_int (count k@buf + 1)).
  { unfold k2. destruct (count k@buf =? 0).
    - rewrite (unlinked_proj count) by done. by apply count_counted.
    - by apply count_counted. }
  assert (Hne2 : forall q, q <> buf -> count k2@q = count k@q).
  { intros q Hq. unfold k2. destruct (count k@buf =? 0).
    - rewrite (unlinked_proj count) by done.
      by destruct (step_ne buf q k 0%N 0%N Hq) as (-> & _).
    - by destruct (step_ne buf q k 0%N 0%N Hq) as (-> & _). }
  assert (Hother : io_log k2 = io_log k /\
            length (buffers k2) = length (buffers k) /\
            length (hashtab k2) = length (hashtab k)).
  { unfold k2.
    destruct (steps_other buf k 0%N 0%N 0) as (_ & (B1 & B2 & B3) & _).
    destruct (steps_other buf (counted buf k) 0%N 0%N 0) as ((A1 & A2 & A3) & _).
    destruct (count k@buf =? 0); repeat split; congruence. }
  destruct Hother as (O1 & O2 & O3).
  destruct (steps_other buf k2 0%N 0%N 0) as (_ & _ & (C1 & C2 & C3 & C4) & _).
  rewrite !load_with_interrupts.
  split; [rewrite flags_locked by done; by rewrite (Hproj _ flags)|].
  split; [by rewrite (locked_proj count)|].
  split.
  { intros q. rewrite !load_with_interrupts.
    rewrite (locked_proj dev), (locked_proj num), (locked_proj hash_next),
      (locked_proj hash_prev) by done.
    by rewrite (Hproj _ dev), (Hproj _ num), (Hproj _ hash_next), (Hproj _ hash_prev). }
  split.
  { intros q Hq. rewrite !load_with_interrupts.
    destruct (step_ne buf q k2 0%N 0%N Hq) as (_ & -> & _).
    split; [by apply (Hproj _ flags)|by apply Hne2]. }
  cbn [with_interrupts io_log interrupts buffers hashtab].
  repeat split; congruence.
Qed.

(** The loop of getblk passes over the buffers that hold other
    blocks. *)
Lemma getblk_search_skip (k : kernel) (d n : N) (h : nat) (l : list nat)
    (fuel : nat) (p z : bufptr) :
  hash_chain k p l z ->
  (forall j, j ∈ l -> ~ holds k j d n) ->
  res (getblk_search (length l + fuel) d n h p) k = res (getblk_search fuel d n h z) k.
Proof.
  revert p. induction l as [|j l IH]; intros p Hchain Hno.
  - simpl in Hchain. by subst.
  - destruct Hchain as [-> Hchain].
    change (length (j :: l) + fuel)%nat with (S (length l + fuel)).
    cbn [getblk_search].
    destruct (decide (Buffers j = Hashtab h)) as [|_]; [done|].
    rewrite res_cond.
    assert (Hmis : negb (dev k@(Buffers j) =? d)%N || negb (num k@(Buffers j) =? n)%N = true).
    { assert (Hj : ~ holds k j d n) by (apply Hno; by left).
      unfold holds in Hj.
      destruct (N.eqb_spec (dev k@(Buffers j)) d), (N.eqb_spec (num k@(Buffers j)) n);
        simpl; tauto. }
    rewrite Hmis, res_bind_gets. apply IH; [done|].
    intros j' Hj'. apply Hno. by right.
Qed.

Lemma getblk_search_end (k : kernel) (d n : N) (h : nat) (fuel : nat) :
  res (getblk_search (S fuel) d n h (Hashtab h)) k = (Done None, k).
Proof.
  cbn [getblk_search]. by destruct (decide (Hashtab h = Hashtab h)).
Qed.

Lemma getblk_search_found (k : kernel) (d n : N) (h : nat) (fuel : nat) (j : nat) :
  holds k j d n ->
  res (getblk_search (S fuel) d n h (Buffers j)) k = res (getblk_found (Buffers j)) k.
Proof.
  intros [Hd Hn]. cbn [getblk_search].
  destruct (decide (Buffers j = Hashtab h)) as [|_]; [done|].
  rewrite res_cond, Hd, Hn, !N.eqb_refl. reflexivity.
Qed.

(** The part of getblk after the loop, case by case. *)
Lemma res_getblk_miss (k : kernel) (d n : N) (h : nat) :
  res (getblk_miss d n h) k =
    if bool_decide (FreeBuffers = free_next k@FreeBuffers)
    then (Asleep, final (@sleep bufptr AnyFreeChain PRIO_BUFFER k))
    else
      let buf := free_next k@FreeBuffers in
      let kv := victim_state buf k in
      if flag_set (flags kv@buf) BUFFER_DIRTY
      then (Panic "fs: asynchronous write", kv)
      else
        let km := rehash_state d n h buf kv in
        if flag_set (flags km@buf) BUFFER_LOCKED
        then (Asleep,
              final (@sleep unit (BufChain buf) PRIO_BUFFER (with_interrupts false km)))
        else (Done buf, miss_state d n h buf k).
Proof.
  unfold getblk_miss. rewrite res_cond.
  destruct (bool_decide (FreeBuffers = free_next k@FreeBuffers)).
  { unfold kprintf. by rewrite res_bind_ret, res_sleep. }
  rewrite res_bind_gets. cbv zeta.
  set (buf := free_next k@FreeBuffers).
  rewrite res_bind_free_unlink, res_bind_count_incr.
  fold (victim_state buf k).
  set (kv := victim_state buf k).
  rewrite res_bind_cond.
  destruct (flag_set (flags kv@buf) BUFFER_DIRTY); [by rewrite res_bind_kpanic|].
  rewrite res_bind_ret, !res_bind_stmt.
  change (store (Hashtab h) (with_hash_next buf) _)
    with (rehash_state d n h buf kv).
  set (km := rehash_state d n h buf kv).
  pose proof (res_blklock km buf) as Hb.
  unfold miss_state. fold kv. fold km.
  destruct (flag_set (flags km@buf) BUFFER_LOCKED).
  - by erewrite res_bind_asleep.
  - erewrite res_bind_done by exact Hb.
    unfold enable_interrupts. by rewrite res_bind_stmt, res_ret.
Qed.

(** What a miss changes: the buffer taken from the free list gets the
    identity of the wanted block, loses BUFFER_VALID, gets the lock and
    a reference, and stands first in its new hash queue. *)
Lemma miss_state_facts (k : kernel) (d n : N) (h : nat) (buf : bufptr) :
  valid_ptr k buf -> valid_ptr k (Hashtab h) ->
  let k' := miss_state d n h buf k in
  dev k'@buf = d /\ num k'@buf = n /\
  flags k'@buf
    = Z.lor (Z.land (flags k@buf) (Z.lnot BUFFER_VALID)) BUFFER_LOCKED /\
  count k'@buf = wrap_int (count k@buf + 1) /\
  hash_next k'@(Hashtab h) = buf /\
  io_log k' = io_log k /\
  interrupts k' = true /\
  length (buffers k') = length (buffers k) /\
  length (hashtab k') = length (hashtab k) /\
  (forall q, q <> buf ->
     dev k'@q = dev k@q /\ num k'@q = num k@q /\
     flags k'@q = flags k@q /\ count k'@q = count k@q).
Proof.
  intros Hv Hh k'. unfold k', miss_state, rehash_state, victim_state.
  set (s1 := unlinked buf k). set (s2 := counted buf s1).
  set (s3 := hash_unlinked buf s2). set (s4 := reassigned d n buf s3).
  set (s5 := hash_inserted h buf s4). set (s6 := locked buf s5).
  assert (V1 : forall q, valid_ptr k q -> valid_ptr s1 q) by (unfold s1; eauto with valid).
  assert (V2 : forall q, valid_ptr k q -> valid_ptr s2 q) by (unfold s2; eauto with valid).
  assert (V3 : forall q, valid_ptr k q -> valid_ptr s3 q) by (unfold s3; eauto with valid).
  assert (V4 : forall q, valid_ptr k q -> valid_ptr s4 q) by (unfold s4; eauto with valid).
  assert (V5 : forall q, valid_ptr k q -> valid_ptr s5 q) by (unfold s5; eauto with valid).
  destruct (reassigned_buf d n buf s3 (V3 _ Hv)) as (Rd & Rn & Rf). fold s4 in Rd, Rn, Rf.
  rewrite !load_with_interrupts.
  split.
  { unfold s6. rewrite (locked_proj dev) by done.
    unfold s5. by rewrite (hash_inserted_proj dev). }
  split.
  { unfold s6. rewrite (locked_proj num) by done.
    unfold s5. by rewrite (hash_inserted_proj num). }
  split.
  { unfold s6. rewrite flags_locked by auto.
    unfold s5. rewrite (hash_inserted_proj flags) by done. rewrite Rf.
    unfold s3. rewrite (hash_unlinked_proj flags) by done.
    unfold s2. rewrite (counted_proj flags) by done.
    unfold s1. by rewrite (unlinked_proj flags). }
  split.
  { unfold s6. rewrite (locked_proj count) by done.
    unfold s5. rewrite (hash_inserted_proj count) by done.
    unfold s4. rewrite (reassigned_proj count) by done.
    unfold s3. rewrite (hash_unlinked_proj count) by done.
    unfold s2. rewrite count_counted by auto.
    unfold s1. by rewrite (unlinked_proj count). }
  split.
  { unfold s6. rewrite (locked_proj hash_next) by done.
    unfold s5. apply hash_inserted_head. auto. }
  destruct (steps_other buf k d n h) as ((A1 & A2 & A3) & _). fold s1 in A1, A2, A3.
  destruct (steps_other buf s1 d n h) as (_ & (B1 & B2 & B3) & _). fold s2 in B1, B2, B3.
  destruct (steps_other buf s2 d n h) as (_ & _ & _ & (C1 & C2 & C3) & _).
  fold s3 in C1, C2, C3.
  destruct (steps_other buf s3 d n h) as (_ & _ & _ & _ & (D1 & D2 & D3) & _).
  fold s4 in D1, D2, D3.
  destruct (steps_other buf s4 d n h) as (_ & _ & _ & _ & _ & (E1 & E2 & E3)).
  fold s5 in E1, E2, E3.
  destruct (steps_other buf s5 d n h) as (_ & _ & (F1 & F2 & F3 & F4) & _).
  fold s6 in F1, F2, F3, F4.
  cbn [with_interrupts io_log interrupts buffers hashtab].
  split; [congruence|]. split; [done|]. split; [congruence|]. split; [congruence|].
  intros q Hq. rewrite !load_with_interrupts.
  unfold s6. destruct (step_ne buf q s5 d n Hq) as (_ & -> & _).
  destruct (step_ne buf q s3 d n Hq) as (_ & _ & Hre). fold s4 in Hre.
  destruct (step_ne buf q s1 d n Hq) as (Hco & _). fold s2 in Hco.
  unfold s5.
  rewrite (hash_inserted_proj dev), (hash_inserted_proj num),
    (hash_inserted_proj flags), (hash_inserted_proj count) by done.
  rewrite Hre. unfold s3.
  rewrite (hash_unlinked_proj dev), (hash_unlinked_proj num),
    (hash_unlinked_proj flags), (hash_unlinked_proj count) by done.
  rewrite Hco. unfold s1.
  by rewrite (unlinked_proj dev), (unlinked_proj num),
    (unlinked_proj flags), (unlinked_proj count).
Qed.

Lemma victim_state_facts (k : kernel) (buf : bufptr) :
  valid_ptr k buf ->
  let k' := victim_state buf k in
  count k'@buf = wrap_int (count k@buf + 1) /\
  (forall q, flags k'@q = flags k@q) /\
  io_log k' = io_log k.
Proof.
  intros Hv k'. unfold k', victim_state.
  split.
  { rewrite count_counted by eauto with valid. by rewrite (unlinked_proj count). }
  split.
  { intros q. rewrite (counted_proj flags) by done. by rewrite (unlinked_proj flags). }
  destruct (steps_other buf k 0%N 0%N 0) as ((_ & _ & A3) & _).
  destruct (steps_other buf (unlinked buf k) 0%N 0%N 0) as (_ & (_ & _ & B3) & _).
  congruence.
Qed.

Lemma rehash_state_flags (k : kernel) (d n : N) (h : nat) (buf : bufptr) :
  valid_ptr k buf ->
  flags (rehash_state d n h buf k)@buf = Z.land (flags k@buf) (Z.lnot BUFFER_VALID).
Proof.
  intros Hv. unfold rehash_state. rewrite (hash_inserted_proj flags) by done.
  destruct (reassigned_buf d n buf (hash_unlinked buf k)) as (_ & _ & ->);
    [eauto with valid|].
  by rewrite (hash_unlinked_proj flags).
Qed.

Lemma path_hash_chain (k : kernel) (l : list nat) (a z : bufptr) :
  path hash_next hash_prev k a l z -> hash_chain k (hash_next k@a) l z.
Proof.
  revert a. induction l as [|j l IH]; intros a.
  - by intros [H _].
  - intros [[H1 _] H2]. split; [done|]. rewrite H1. by apply IH.
Qed.

Lemma hash_chain_app (k : kernel) (l1 l2 : list nat) (p z : bufptr) :
  hash_chain k p (l1 ++ l2) z ->
  exists q, hash_chain k p l1 q /\ hash_chain k q l2 z.
Proof.
  revert p. induction l1 as [|j l1 IH]; intros p H.
  - by exists p.
  - destruct H as [-> H]. destruct (IH _ H) as (q & H1 & H2).
    exists q. by split.
Qed.

Lemma lookup_block_Some (k : kernel) (d n : N) (l : list nat) (j : nat) :
  lookup_block k d n l = Some j ->
  exists l1 l2, l = l1 ++ j :: l2 /\ (forall x, x ∈ l1 -> ~ holds k x d n) /\
                holds k j d n.
Proof.
  induction l as [|x l IH]; [done|]. simpl.
  destruct (decide (holds k x d n)) as [Hx|Hx].
  - intros [= ->]. exists [], l. split; [done|]. split; [|done].
    intros y Hy. by apply elem_of_nil in Hy.
  - intros H. destruct (IH H) as (l1 & l2 & -> & Hno & Hj).
    exists (x :: l1), l2. split; [done|]. split; [|done].
    intros y Hy. apply elem_of_cons in Hy as [->|Hy]; auto.
Qed.

Lemma lookup_block_None (k : kernel) (d n : N) (l : list nat) :
  lookup_block k d n l = None -> forall x, x ∈ l -> ~ holds k x d n.
Proof.
  induction l as [|x l IH]; simpl.
  - intros _ y Hy. by apply elem_of_nil in Hy.
  - destruct (decide (holds k x d n)) as [Hx|Hx]; [done|].
    intros H y Hy. apply elem_of_cons in Hy as [->|Hy]; auto.
Qed.

(** A list of distinct buffers is not longer than the buffer array. *)
Lemma distinct_buffers_length (l : list nat) (m : nat) :
  NoDup l -> (forall i, i ∈ l -> (i < m)%nat) -> (length l <= m)%nat.
Proof.
  intros Hnd Hb.
  assert (Hsub : l ⊆+ seq 0 m).
  { apply NoDup_submseteq; [done|]. intros x Hx. apply elem_of_seq.
    specialize (Hb x Hx). lia. }
  apply submseteq_length in Hsub. by rewrite length_seq in Hsub.
Qed.

Lemma HASH_in_range (d n : N) : (0 < BUFFERS_HASHTAB_SIZE)%nat ->
  (HASH d n < BUFFERS_HASHTAB_SIZE)%nat.
Proof.
  intros H. unfold HASH.
  assert (N.lxor d n mod N.of_nat BUFFERS_HASHTAB_SIZE < N.of_nat BUFFERS_HASHTAB_SIZE)%N
    by (apply N.mod_lt; lia).
  lia.
Qed.

(** The loop of getblk on a whole hash queue. *)
Lemma getblk_search_queue (k : kernel) (d n : N) (h : nat) (l : list nat) :
  is_hash_queue k h l ->
  length (buffers k) = NR_BUFFERS ->
  res (getblk_search (S NR_BUFFERS) d n h (hash_next k@(Hashtab h))) k =
    match lookup_block k d n l with
    | Some j => res (getblk_found (Buffers j)) k
    | None => (Done None, k)
    end.
Proof.
  intros (Hpath & Hnd & Hb) Hlen.
  rewrite Hlen in Hb.
  pose proof (distinct_buffers_length l NR_BUFFERS Hnd Hb) as Hll.
  apply path_hash_chain in Hpath.
  destruct (lookup_block k d n l) as [j|] eqn:Hlook.
  - destruct (lookup_block_Some k d n l j Hlook) as (l1 & l2 & -> & Hno & Hj).
    apply hash_chain_app in Hpath as (q & Hc1 & [-> _]).
    rewrite length_app in Hll. simpl in Hll.
    replace (S NR_BUFFERS) with (length l1 + S (NR_BUFFERS - length l1))%nat by lia.
    rewrite (getblk_search_skip k d n h l1 _ _ _ Hc1 Hno).
    by apply getblk_search_found.
  - pose proof (lookup_block_None k d n l Hlook) as Hno.
    replace (S NR_BUFFERS) with (length l + S (NR_BUFFERS - length l))%nat by lia.
    rewrite (getblk_search_skip k d n h l _ _ _ Hpath Hno).
    apply getblk_search_end.
Qed.

Lemma lookup_block_with_interrupts (b : bool) (k : kernel) (d n : N) (l : list nat) :
  lookup_block (with_interrupts b k) d n l = lookup_block k d n l.
Proof.
  induction l as [|j l IH]; [done|]. simpl. rewrite IH.
  destruct (decide (holds (with_interrupts b k) j d n)) as [H|H],
    (decide (holds k j d n)) as [H'|H']; try done; unfold holds in *;
    rewrite !load_with_interrupts in H; tauto.
Qed.

Lemma is_hash_queue_with_interrupts (b : bool) (k : kernel) (h : nat) (l : list nat) :
  is_hash_queue k h l -> is_hash_queue (with_interrupts b k) h l.
Proof.
  intros (Hp & Hnd & Hb). split; [|by split].
  eapply path_frame; [| |exact Hp]; intros p _; by rewrite load_with_interrupts.
Qed.

(** getblk, case by case: what the hash queue of the block and the free
    list decide. *)
Lemma getblk_cases (k : kernel) (d n : N) (l lf : list nat) :
  flags_distinct ->
  (0 < BUFFERS_HASHTAB_SIZE)%nat ->
  length (buffers k) = NR_BUFFERS ->
  length (hashtab k) = BUFFERS_HASHTAB_SIZE ->
  is_hash_queue k (HASH d n) l ->
  is_free_list k lf ->
  let k0 := with_interrupts false k in
  res (getblk d n) k =
    if (d =? 0)%N && (n =? 0)%N then (Panic "getblk(0, 0)", k)
    else
      match lookup_block k d n l with
      | Some j =>
          if flag_set (flags k@(Buffers j)) BUFFER_LOCKED
          then (Asleep,
                final (@sleep (option bufptr) (BufChain (Buffers j)) PRIO_BUFFER k0))
          else (Done (Buffers j), found_state (Buffers j) k0)
      | None =>
          match lf with
          | [] => (Asleep, final (@sleep bufptr AnyFreeChain PRIO_BUFFER k0))
          | j :: _ =>
              let buf := Buffers j in
              if flag_set (flags k@buf) BUFFER_DIRTY
              then (Panic "fs: asynchronous write", victim_state buf k0)
              else if flag_set (flags k@buf) BUFFER_LOCKED
                   then (Asleep,
                         final (@sleep unit (BufChain buf) PRIO_BUFFER
                                  (with_interrupts false
                                     (rehash_state d n (HASH d n) buf
                                        (victim_state buf k0)))))
                   else (Done buf, miss_state d n (HASH d n) buf k0)
          end
      end.
Proof.
  intros Hflags Hsize Hnb Hnh Hq Hfl k0.
  destruct Hflags as (_ & _ & _ & HVL & _).
  unfold getblk. rewrite res_bind_if.
  destruct ((d =? 0)%N && (n =? 0)%N); [by rewrite res_bind_kpanic|].
  rewrite res_bind_ret. unfold getblk_repeat, disable_interrupts. cbv zeta.
  rewrite res_bind_stmt, res_bind_gets. fold k0.
  pose proof (getblk_search_queue k0 d n (HASH d n) l
                (is_hash_queue_with_interrupts false k _ _ Hq) Hnb) as Hs.
  assert (Hk0 : forall q, k0@q = k@q) by (intros q; apply load_with_interrupts).
  rewrite Hk0. rewrite Hk0 in Hs.
  replace (lookup_block k0 d n l) with (lookup_block k d n l) in Hs
    by (symmetry; apply lookup_block_with_interrupts).
  destruct (lookup_block k d n l) as [j|] eqn:Hlook.
  - destruct (lookup_block_Some k d n l j Hlook) as (l1 & l2 & -> & _ & _).
    assert (Hvj : valid_ptr k0 (Buffers j)).
    { destruct Hq as (_ & _ & Hb). apply Hb.
      apply elem_of_app. right. by left. }
    rewrite res_getblk_found in Hs by done.
    rewrite Hk0 in Hs.
    destruct (flag_set (flags k@(Buffers j)) BUFFER_LOCKED).
    + by erewrite res_bind_asleep.
    + erewrite res_bind_done by exact Hs. reflexivity.
  - erewrite res_bind_done by exact Hs. cbv beta iota.
    rewrite res_getblk_miss.
    destruct (free_list_head k lf Hfl) as (Hhead & Hvhead & _).
    rewrite !Hk0, Hhead.
    destruct lf as [|j lf']; simpl path_head.
    + by rewrite bool_decide_eq_true_2.
    + rewrite bool_decide_eq_false_2 by done. cbv zeta.
      simpl in Hvhead.
      assert (Hvj : valid_ptr k0 (Buffers j)) by exact Hvhead.
      destruct (victim_state_facts k0 (Buffers j) Hvj) as (_ & Hfv & _).
      rewrite Hfv, Hk0.
      destruct (flag_set (flags k@(Buffers j)) BUFFER_DIRTY); [done|].
      rewrite rehash_state_flags by eauto with valid.
      rewrite Hfv, Hk0.
      rewrite flag_clear_other by (by rewrite Z.land_comm).
      by destruct (flag_set (flags k@(Buffers j)) BUFFER_LOCKED).
Qed.

(** C2, as the code has it. getblk(0, 0) panics. For another block,
    getblk looks the block up in its hash queue [l]. A buffer that holds
    the block and is locked makes getblk sleep; one that is not locked
    is returned. When no buffer holds the block, getblk sleeps if the
    free list [lf] is empty, panics ("fs: asynchronous write") if the
    first free buffer is dirty, sleeps if that buffer is locked, and
    returns that buffer otherwise. A returned buffer has the device and
    block number asked for, is locked and has a reference count of at
    least 1. *)
Theorem getblk_outcome (k : kernel) (d n : N) (l lf : list nat) :
  flags_distinct ->
  (0 < BUFFERS_HASHTAB_SIZE)%nat ->
  length (buffers k) = NR_BUFFERS ->
  length (hashtab k) = BUFFERS_HASHTAB_SIZE ->
  is_hash_queue k (HASH d n) l ->
  is_free_list k lf ->
  counts_in_range k ->
  let r := getblk d n k in
  if (d =? 0)%N && (n =? 0)%N then outcome r = Panic "getblk(0, 0)"
  else
    match lookup_block k d n l with
    | Some j =>
        if flag_set (flags k@(Buffers j)) BUFFER_LOCKED then outcome r = Asleep
        else getblk_returned d n r j
    | None =>
        match lf with
        | [] => outcome r = Asleep
        | j :: _ =>
            if flag_set (flags k@(Buffers j)) BUFFER_DIRTY
            then outcome r = Panic "fs: asynchronous write"
            else if flag_set (flags k@(Buffers j)) BUFFER_LOCKED
                 then outcome r = Asleep
                 else getblk_returned d n r j
        end
    end.
Proof.
  intros Hflags Hsize Hnb Hnh Hq Hfl Hcounts r. subst r.
  pose proof (getblk_cases k d n l lf Hflags Hsize Hnb Hnh Hq Hfl) as Hc.
  cbv zeta in Hc.
  destruct Hflags as (_ & HL & _).
  set (k0 := with_interrupts false k) in *.
  assert (Hk0 : forall q, k0@q = k@q) by (intros q; apply load_with_interrupts).
  assert (Hcnt : forall j, (j < length (buffers k))%nat ->
            1 <= wrap_int (count k0@(Buffers j) + 1)).
  { intros j Hj. rewrite Hk0. specialize (Hcounts j Hj).
    rewrite wrap_int_id; [lia|]. unfold in_int, INT_MIN, INT_MAX in *. lia. }
  destruct ((d =? 0)%N && (n =? 0)%N).
  { by apply res_outcome_final in Hc as [-> _]. }
  destruct (lookup_block k d n l) as [j|] eqn:Hlook.
  - destruct (lookup_block_Some k d n l j Hlook) as (l1 & l2 & El & _ & Hd & Hn).
    assert (Hj : (j < length (buffers k))%nat).
    { destruct Hq as (_ & _ & Hb). apply Hb. rewrite El.
      apply elem_of_app. right. by left. }
    destruct (flag_set (flags k@(Buffers j)) BUFFER_LOCKED).
    { by apply res_outcome_final in Hc as [-> _]. }
    apply res_outcome_final in Hc as [Ho Hf].
    destruct (found_state_facts k0 (Buffers j) Hj) as (F1 & F2 & F3 & _).
    destruct (F3 (Buffers j)) as (Fd & Fn & _).
    unfold getblk_returned. rewrite Ho, Hf, Fd, Fn, F1, F2, !Hk0.
    split; [done|]. split; [done|]. split; [done|].
    split; [by apply flag_set_on|]. rewrite <- Hk0. by apply Hcnt.
  - destruct lf as [|j lf'].
    { by apply res_outcome_final in Hc as [-> _]. }
    cbv zeta in Hc.
    assert (Hj : (j < length (buffers k))%nat).
    { destruct Hfl as (_ & _ & Hb). apply Hb. by left. }
    destruct (flag_set (flags k@(Buffers j)) BUFFER_DIRTY).
    { by apply res_outcome_final in Hc as [-> _]. }
    destruct (flag_set (flags k@(Buffers j)) BUFFER_LOCKED).
    { by apply res_outcome_final in Hc as [-> _]. }
    apply res_outcome_final in Hc as [Ho Hf].
    assert (Hh : valid_ptr k0 (Hashtab (HASH d n))).
    { simpl. rewrite Hnh. by apply HASH_in_range. }
    destruct (miss_state_facts k0 d n (HASH d n) (Buffers j) Hj Hh)
      as (M1 & M2 & M3 & M4 & _).
    unfold getblk_returned. rewrite Ho, Hf, M1, M2, M3, M4.
    split; [done|]. split; [done|]. split; [done|].
    split; [by apply flag_set_on|]. by apply Hcnt.
Qed.

End Getblk.

(** ** Reading a block *)

Section Bread.
Context {cfg : Config}.

(** bread on a buffer that getblk returns: one device read unless the
    buffer is valid. *)
Lemma res_bread (k : kernel) (d n : N) (buf : bufptr) (k1 : kernel) :
  res (getblk d n) k = (Done buf, k1) ->
  res (bread d n) k =
    if flag_set (flags k1@buf) BUFFER_VALID then (Done buf, k1)
    else
      let k2 := with_io_log (io_log k1 ++ [DevRead (dev k1@buf) (num k1@buf)]) k1 in
      (Done buf, store buf (with_flags (Z.lor (flags k2@buf) BUFFER_VALID)) k2).
Proof.
  intros Hg. unfold bread. erewrite res_bind_done by exact Hg.
  rewrite res_cond. destruct (flag_set (flags k1@buf) BUFFER_VALID); [done|].
  unfold bdev_readblk. by rewrite res_bind_assoc, !res_bind_stmt, res_ret.
Qed.

(** C5. After binit, bread of a block (which is not in the cache)
    issues exactly one device read; after brelse of the buffer, a second
    bread of the same block finds the buffer, valid, at the head of the
    hash queue of the block, issues no device read and returns the same
    buffer. *)
Theorem bread_again_hits (k : kernel) (d n : N) :
  flags_distinct ->
  (0 < NR_BUFFERS)%nat ->
  (0 < BUFFERS_HASHTAB_SIZE)%nat ->
  length (buffers k) = NR_BUFFERS ->
  length (hashtab k) = BUFFERS_HASHTAB_SIZE ->
  (d, n) <> (0%N, 0%N) ->
  let k1 := final (binit k) in
  let r1 := bread d n k1 in
  let r2 := brelse (Buffers 0) (final r1) in
  let r3 := bread d n (final r2) in
  outcome r1 = Done (Buffers 0) /\
  io_log (final r1) = io_log k1 ++ [DevRead d n] /\
  outcome r2 = Done tt /\
  io_log (final r2) = io_log (final r1) /\
  hash_next (final r2)@(Hashtab (HASH d n)) = Buffers 0 /\
  flag_set (flags (final r2)@(Buffers 0)) BUFFER_VALID = true /\
  outcome r3 = Done (Buffers 0) /\
  io_log (final r3) = io_log (final r2).
Proof.
  intros Hflags Hnr Hsize Hnb Hnh Hdn k1 r1 r2 r3.
  set (h := HASH d n) in *. set (buf := Buffers 0) in *.
  destruct (binit_effect k Hnb Hnh Hnr) as (_ & Hbufs & Hfree & Hhash).
  destruct (binit_shape k Hnb Hnh) as (Hnb1 & Hnh1 & _).
  fold k1 in Hbufs, Hfree, Hhash, Hnb1, Hnh1.
  destruct Hflags as (HV & HL & HD & HVL & HDL & HDV).
  assert (Hflags : flags_distinct) by done.
  assert (Hh : (h < BUFFERS_HASHTAB_SIZE)%nat) by (by apply HASH_in_range).
  destruct (Hbufs 0%nat Hnr) as (I1 & I2 & I3 & I4 & I5 & I6 & I7 & I8 & _).
  fold buf in I1, I2, I3, I4, I5, I6, I7, I8.
  (* the first getblk misses and takes buffer 0 *)
  assert (Hq : is_hash_queue k1 h []).
  { split; [|split].
    - apply Hhash, Hh.
    - apply NoDup_nil. done.
    - intros i Hi. by apply elem_of_nil in Hi. }
  pose proof (getblk_cases k1 d n [] (seq 0 NR_BUFFERS) Hflags Hsize Hnb1 Hnh1 Hq Hfree)
    as Hg.
  assert (Hnz : (d =? 0)%N && (n =? 0)%N = false).
  { destruct (N.eqb_spec d 0), (N.eqb_spec n 0); try done. subst. done. }
  rewrite Hnz in Hg. cbn [lookup_block] in Hg.
  destruct NR_BUFFERS as [|nr] eqn:Enr; [lia|]. cbn [seq] in Hg. cbv zeta in Hg.
  fold buf h in Hg. rewrite I4, I3 in Hg.
  set (kA := miss_state d n h buf (with_interrupts false k1)) in *.
  assert (Hvb : valid_ptr (with_interrupts false k1) buf).
  { apply valid_with_interrupts. unfold buf. cbn [valid_ptr]. lia. }
  assert (Hvh : valid_ptr (with_interrupts false k1) (Hashtab h)).
  { apply valid_with_interrupts. cbn [valid_ptr]. lia. }
  destruct (miss_state_facts (with_interrupts false k1) d n h buf Hvb Hvh)
    as (A1 & A2 & A3 & A4 & A5 & A6 & A7 & A8 & A9 & _).
  fold kA in A1, A2, A3, A4, A5, A6, A7, A8, A9.
  rewrite load_with_interrupts in A3, A4. rewrite I5 in A3. rewrite I8 in A4.
  cbn [with_interrupts io_log buffers hashtab] in A6, A8, A9.
  (* bread reads the block from the device *)
  pose proof (res_bread k1 d n buf kA Hg) as Hb.
  assert (HAvalid : flag_set (flags kA@buf) BUFFER_VALID = false).
  { rewrite A3. rewrite flag_set_other by done. apply flag_clear_off. }
  rewrite HAvalid in Hb. cbv zeta in Hb. rewrite !load_with_io_log, A1, A2 in Hb.
  set (kB := store buf _ _) in Hb.
  apply res_outcome_final in Hb as [Ho1 Hf1].
  assert (HvA : valid_ptr kA buf).
  { unfold buf. cbn [valid_ptr]. rewrite A8. lia. }
  assert (HvAh : valid_ptr kA (Hashtab h)).
  { cbn [valid_ptr]. rewrite A9. lia. }
  assert (HB : valid_ptr kB buf /\
            dev kB@buf = d /\ num kB@buf = n /\ count kB@buf = 1 /\
            flag_set (flags kB@buf) BUFFER_VALID = true /\
            hash_next kB@(Hashtab h) = buf /\
            io_log kB = io_log k1 ++ [DevRead d n] /\
            length (buffers kB) = S nr).
  { unfold kB. split; [eauto with valid|].
    split; [by ld|]. split; [by ld|]. split; [by ld|].
    split; [ld; by apply flag_set_on|]. split; [by ld|].
    split; [ko; by rewrite A6|]. ko. rewrite A8. lia. }
  destruct HB as (HvB & B1 & B2 & B3 & B4 & B5 & B6 & B7).
  (* brelse gives the buffer back *)
  assert (HcB : 1 <= count kB@buf <= INT_MAX).
  { rewrite B3. unfold INT_MAX. lia. }
  destruct (brelse_fields kB buf HvB HcB) as (Ho2 & C1 & C2 & C3 & C4 & C5 & C6 & _).
  subst r1 r2 r3. rewrite Hf1 in *.
  set (kC := final (brelse buf kB)) in *.
  destruct (C1 buf) as (Cd & Cn & _). destruct (C1 (Hashtab h)) as (_ & _ & Chn & _).
  assert (HCvalid : flag_set (flags kC@buf) BUFFER_VALID = true).
  { rewrite C2. by rewrite flag_clear_other. }
  assert (HClocked : flag_set (flags kC@buf) BUFFER_LOCKED = false).
  { rewrite C2. apply flag_clear_off. }
  (* the second getblk finds the buffer in its hash queue *)
  set (k0 := with_interrupts false kC).
  assert (Hk0 : forall q, k0@q = kC@q) by (intros q; apply load_with_interrupts).
  assert (HvC : valid_ptr k0 buf).
  { apply valid_with_interrupts. unfold buf. cbn [valid_ptr]. rewrite C5, B7. lia. }
  assert (Hg2 : res (getblk d n) kC = (Done buf, found_state buf k0)).
  { unfold getblk. rewrite res_bind_if, Hnz, res_bind_ret.
    unfold getblk_repeat, disable_interrupts. cbv zeta.
    rewrite res_bind_stmt, res_bind_gets. fold k0. fold h.
    rewrite Hk0, Chn, B5.
    rewrite (res_bind_done _ _ _ (Some buf) (found_state buf k0)); [reflexivity|].
    subst buf. rewrite getblk_search_found.
    - rewrite res_getblk_found by done. by rewrite Hk0, HClocked.
    - unfold holds. rewrite !Hk0. split; congruence. }
  pose proof (res_bread kC d n buf _ Hg2) as Hb2.
  destruct (found_state_facts k0 buf HvC) as (F1 & _ & _ & _ & F5 & _).
  assert (HFvalid : flag_set (flags (found_state buf k0)@buf) BUFFER_VALID = true).
  { rewrite F1, Hk0. by rewrite flag_set_other. }
  rewrite HFvalid in Hb2. apply res_outcome_final in Hb2 as [Ho3 Hf3].
  rewrite Ho1, Ho2, Ho3, Hf3, F5.
  repeat split; try done; try congruence.
Qed.

End Bread.

(** ** The reference counts and the free list *)

Lemma free_walk_path (k : kernel) (l : list nat) (a : bufptr) (fuel : nat) :
  path free_next free_prev k a l FreeBuffers ->
  (length l <= fuel)%nat ->
  free_walk fuel k (free_next k@a) = l.
Proof.
  revert a fuel. induction l as [|i l IH]; intros a fuel Hpath Hfuel.
  - destruct Hpath as [-> _]. by destruct fuel.
  - destruct Hpath as [[Hn _] Hrest]. rewrite Hn.
    destruct fuel as [|fuel]; [simpl in Hfuel; lia|].
    cbn [free_walk]. f_equal. apply IH; [done|]. simpl in Hfuel. lia.
Qed.

(** The walk along the free list meets the buffers of the list. *)
Lemma free_members_spec (k : kernel) (l : list nat) :
  is_free_list k l -> free_members k = l.
Proof.
  intros (Hpath & Hnd & Hb). unfold free_members.
  apply free_walk_path; [done|]. by apply distinct_buffers_length.
Qed.

Lemma free_list_inv_count_iff_free (k : kernel) (l : list nat) :
  free_list_inv k l -> count_iff_free k.
Proof.
  intros [Hfl Hc] i Hi. rewrite (free_members_spec k l Hfl). by apply Hc.
Qed.

Section Invariant.
Context {cfg : Config}.

(** The invariant holds after binit. *)
Lemma binit_free_list_inv (k : kernel) :
  length (buffers k) = NR_BUFFERS ->
  length (hashtab k) = BUFFERS_HASHTAB_SIZE ->
  (0 < NR_BUFFERS)%nat ->
  free_list_inv (final (binit k)) (seq 0 NR_BUFFERS).
Proof.
  intros Hnb Hnh Hnr.
  destruct (binit_effect k Hnb Hnh Hnr) as (_ & Hbufs & Hfree & _).
  destruct (binit_shape k Hnb Hnh) as (Hlen & _).
  split; [done|]. intros i Hi. rewrite Hlen in Hi.
  destruct (Hbufs i Hi) as (_ & _ & _ & _ & _ & _ & _ & -> & _).
  unfold INT_MAX. split; [lia|]. split; [|done].
  intros _. apply elem_of_seq. lia.
Qed.

(** brelse on a referenced buffer preserves the invariant. *)
Lemma brelse_free_list_inv (k : kernel) (i : nat) (l : list nat) :
  (i < length (buffers k))%nat ->
  1 <= count k@(Buffers i) ->
  free_list_inv k l ->
  outcome (brelse (Buffers i) k) = Done tt /\
  exists l', free_list_inv (final (brelse (Buffers i) k)) l'.
Proof.
  intros Hi Hc1 [Hfl Hinv].
  destruct (Hinv i Hi) as [[_ Hmax] Hiff].
  assert (Hcount : 1 <= count k@(Buffers i) <= INT_MAX) by lia.
  assert (Hnotin : i ∉ l) by (intros Hin; apply Hiff in Hin; lia).
  destruct (brelse_effect k i l Hi Hcount Hfl Hnotin)
    as (Ho & Hc & Hlast & Hmore & _).
  destruct (brelse_fields k (Buffers i) Hi Hcount)
    as (_ & _ & _ & _ & _ & Hlen & _ & Hoth).
  split; [done|].
  set (k' := final (brelse (Buffers i) k)) in *.
  assert (Hcounts : forall l',
            is_free_list k' l' ->
            (forall j, j ∈ l' <-> (j = i /\ count k@(Buffers i) = 1) \/ j ∈ l) ->
            free_list_inv k' l').
  { intros l' Hfl' Hmem. split; [done|]. intros j Hj. rewrite Hlen in Hj.
    rewrite Hmem. destruct (decide (j = i)) as [->|Hne].
    - rewrite Hc. split; [lia|]. split; [intros; left; split; [done|lia]|].
      intros [[_ H1]|Hin]; [lia|done].
    - destruct (Hoth (Buffers j)) as [_ ->]; [congruence|].
      destruct (Hinv j Hj) as [Hr Hjj]. split; [done|].
      rewrite Hjj. split; [by right|]. intros [[-> _]|Hin]; done. }
  destruct (decide (count k@(Buffers i) = 1)) as [Hone|Hne].
  - destruct (Hlast Hone) as (_ & _ & Hfl').
    eexists. apply Hcounts; [exact Hfl'|].
    intros j. destruct (_ && _).
    + rewrite elem_of_app, list_elem_of_singleton. tauto.
    + rewrite elem_of_cons. tauto.
  - destruct (Hmore Hne) as (_ & _ & Hfl').
    exists l. apply Hcounts; [exact Hfl'|]. intros j. tauto.
Qed.

(** Taking buffer [j] for one more reference: the other counts stay,
    and the free list loses [j] if it had it. *)
Lemma take_free_list_inv (k k' : kernel) (j : nat) (lf lf' : list nat) :
  free_list_inv k lf ->
  counts_in_range k ->
  length (buffers k') = length (buffers k) ->
  is_free_list k' lf' ->
  (forall i, i ∈ lf' <-> i ∈ lf /\ i <> j) ->
  count k'@(Buffers j) = count k@(Buffers j) + 1 ->
  (forall i, i <> j -> count k'@(Buffers i) = count k@(Buffers i)) ->
  free_list_inv k' lf'.
Proof.
  intros [_ Hinv] Hrange Hlen Hfl' Hmem Hj Hoth. split; [done|].
  intros i Hi. rewrite Hlen in Hi. rewrite Hmem.
  destruct (decide (i = j)) as [->|Hne].
  - rewrite Hj. specialize (Hrange j Hi). split; [lia|].
    split; [lia|]. by intros [_ ?].
  - rewrite (Hoth i Hne). destruct (Hinv i Hi) as [Hr Hiff].
    split; [done|]. rewrite Hiff. tauto.
Qed.

(** getblk preserves the invariant when it returns a buffer. *)
Lemma getblk_free_list_inv (k : kernel) (d n : N) (l lf : list nat) (j : nat) :
  flags_distinct ->
  (0 < BUFFERS_HASHTAB_SIZE)%nat ->
  length (buffers k) = NR_BUFFERS ->
  length (hashtab k) = BUFFERS_HASHTAB_SIZE ->
  is_hash_queue k (HASH d n) l ->
  free_list_inv k lf ->
  counts_in_range k ->
  outcome (getblk d n k) = Done (Buffers j) ->
  interrupts (final (getblk d n k)) = true /\
  exists lf', free_list_inv (final (getblk d n k)) lf'.
Proof.
  intros Hflags Hsize Hnb Hnh Hq Hinv Hrange Hdone.
  pose proof Hinv as [Hfl Hcounts].
  pose proof (getblk_cases k d n l lf Hflags Hsize Hnb Hnh Hq Hfl) as Hc.
  cbv zeta in Hc.
  set (k0 := with_interrupts false k) in *.
  assert (Hk0 : forall q, k0@q = k@q) by (intros q; apply load_with_interrupts).
  assert (Hwrap : forall i, (i < length (buffers k))%nat ->
            wrap_int (count k0@(Buffers i) + 1) = count k@(Buffers i) + 1).
  { intros i Hi. rewrite Hk0. specialize (Hrange i Hi).
    apply wrap_int_id. unfold in_int, INT_MIN, INT_MAX in *. lia. }
  assert (Hfl0 : is_free_list k0 lf).
  { apply (is_free_list_ext k); [intros; by rewrite Hk0..|done|done]. }
  destruct ((d =? 0)%N && (n =? 0)%N).
  { apply res_outcome_final in Hc as [Ho _]. congruence. }
  destruct (lookup_block k d n l) as [b|] eqn:Hlook.
  - destruct (lookup_block_Some k d n l b Hlook) as (h1 & h2 & El & _).
    assert (Hb : (b < length (buffers k))%nat).
    { destruct Hq as (_ & _ & Hbnd). apply Hbnd. rewrite El.
      apply elem_of_app. right. by left. }
    destruct (flag_set (flags k@(Buffers b)) BUFFER_LOCKED).
    { apply res_outcome_final in Hc as [Ho _]. congruence. }
    apply res_outcome_final in Hc as [Ho Hf].
    destruct (found_state_facts k0 (Buffers b) Hb)
      as (_ & F2 & _ & F4 & _ & F6 & F7 & _).
    rewrite Hf. split; [done|].
    assert (Hlist : exists lf',
              is_free_list (found_state (Buffers b) k0) lf' /\
              forall i, i ∈ lf' <-> i ∈ lf /\ i <> b).
    { unfold found_state.
      destruct (count k0@(Buffers b) =? 0) eqn:Hzero.
      - apply Z.eqb_eq in Hzero. rewrite Hk0 in Hzero.
        apply (Hcounts b Hb) in Hzero.
        apply list_elem_of_split in Hzero as (l1 & l2 & ->).
        exists (l1 ++ l2). split.
        + apply (is_free_list_ext (unlinked (Buffers b) (counted (Buffers b) k0))).
          * intros q. rewrite load_with_interrupts. by apply locked_proj.
          * intros q. rewrite load_with_interrupts. by apply locked_proj.
          * cbn [with_interrupts buffers].
            by destruct (steps_other (Buffers b)
                           (unlinked (Buffers b) (counted (Buffers b) k0)) d n 0)
              as (_ & _ & (? & _) & _).
          * apply unlinked_free_list.
            apply (is_free_list_ext k0); [intros; by apply counted_proj..| |done].
            by destruct (steps_other (Buffers b) k0 d n 0) as (_ & (? & _) & _).
        + destruct Hfl as (_ & Hnd & _).
          apply NoDup_app in Hnd as (_ & Hdisj & Hnd2).
          apply NoDup_cons in Hnd2 as [Hb2 _].
          intros i. rewrite !elem_of_app, elem_of_cons. split.
          * intros [Hi|Hi]; (split; [tauto|]); intros ->; [|done].
            apply (Hdisj b Hi). by left.
          * tauto.
      - apply Z.eqb_neq in Hzero. rewrite Hk0 in Hzero.
        exists lf. split.
        + apply (is_free_list_ext (counted (Buffers b) k0)).
          * intros q. rewrite load_with_interrupts. by apply locked_proj.
          * intros q. rewrite load_with_interrupts. by apply locked_proj.
          * cbn [with_interrupts buffers].
            by destruct (steps_other (Buffers b) (counted (Buffers b) k0) d n 0)
              as (_ & _ & (? & _) & _).
          * apply (is_free_list_ext k0); [intros; by apply counted_proj..| |done].
            by destruct (steps_other (Buffers b) k0 d n 0) as (_ & (? & _) & _).
        + intros i. split; [|tauto]. intros Hi. split; [done|]. intros ->.
          by apply (Hcounts b Hb) in Hi. }
    destruct Hlist as (lf' & Hfl' & Hmem). exists lf'.
    apply (take_free_list_inv k _ b lf lf' Hinv Hrange); try done.
    + by rewrite F2, Hwrap.
    + intros i Hi. destruct (F4 (Buffers i)) as [_ ->]; [congruence|]. by rewrite Hk0.
  - destruct lf as [|b lf'].
    { apply res_outcome_final in Hc as [Ho _]. congruence. }
    cbv zeta in Hc.
    assert (Hb : (b < length (buffers k))%nat).
    { destruct Hfl as (_ & _ & Hbnd). apply Hbnd. by left. }
    destruct (flag_set (flags k@(Buffers b)) BUFFER_DIRTY).
    { apply res_outcome_final in Hc as [Ho _]. congruence. }
    destruct (flag_set (flags k@(Buffers b)) BUFFER_LOCKED).
    { apply res_outcome_final in Hc as [Ho _]. congruence. }
    apply res_outcome_final in Hc as [Ho Hf].
    assert (Hh : valid_ptr k0 (Hashtab (HASH d n))).
    { simpl. rewrite Hnh. by apply HASH_in_range. }
    destruct (miss_state_facts k0 d n (HASH d n) (Buffers b) Hb Hh)
      as (_ & _ & _ & M4 & _ & _ & M7 & M8 & _ & M10).
    rewrite Hf. split; [done|]. exists lf'.
    apply (take_free_list_inv k _ b (b :: lf') lf' Hinv Hrange); try done.
    + unfold miss_state, rehash_state, victim_state.
      set (s1 := unlinked (Buffers b) k0). set (s2 := counted (Buffers b) s1).
      set (s3 := hash_unlinked (Buffers b) s2).
      set (s4 := reassigned d n (Buffers b) s3).
      set (s5 := hash_inserted (HASH d n) (Buffers b) s4).
      assert (H1 : is_free_list s1 lf') by exact (unlinked_free_list k0 b [] lf' Hfl0).
      assert (H2 : is_free_list s2 lf').
      { apply (is_free_list_ext s1); [intros; by apply counted_proj..| |done].
        by destruct (steps_other (Buffers b) s1 d n 0) as (_ & (? & _) & _). }
      assert (H3 : is_free_list s3 lf').
      { apply (is_free_list_ext s2); [intros; by apply hash_unlinked_proj..| |done].
        by destruct (steps_other (Buffers b) s2 d n 0) as (_ & _ & _ & (? & _) & _). }
      assert (H4 : is_free_list s4 lf').
      { apply (is_free_list_ext s3); [intros; by apply reassigned_proj..| |done].
        by destruct (steps_other (Buffers b) s3 d n 0)
          as (_ & _ & _ & _ & (? & _) & _). }
      assert (H5 : is_free_list s5 lf').
      { apply (is_free_list_ext s4); [intros; by apply hash_inserted_proj..| |done].
        by destruct (steps_other (Buffers b) s4 d n (HASH d n))
          as (_ & _ & _ & _ & _ & (? & _)). }
      apply (is_free_list_ext s5); [| | |done].
      * intros q. rewrite load_with_interrupts. by apply locked_proj.
      * intros q. rewrite load_with_interrupts. by apply locked_proj.
      * cbn [with_interrupts buffers].
        by destruct (steps_other (Buffers b) s5 d n 0) as (_ & _ & (? & _) & _).
    + destruct Hfl as (_ & Hnd & _). apply NoDup_cons in Hnd as [Hb2 _].
      intros i. rewrite elem_of_cons. split; [|tauto].
      intros Hi. split; [tauto|]. by intros ->.
    + by rewrite M4, Hwrap.
    + intros i Hi. destruct (M10 (Buffers i)) as (_ & _ & _ & ->); [congruence|].
      by rewrite Hk0.
Qed.

End Invariant.

(** ** The example states *)

Lemma example_flags_distinct : @flags_distinct example_cfg.
Proof. by vm_compute. Qed.

Ltac example_members :=
  let i := fresh "i" in
  let Hi := fresh "Hi" in
  intros i Hi;
  repeat (apply elem_of_cons in Hi as [->|Hi]; [vm_compute; lia|]);
  by apply elem_of_nil in Hi.

Ltac example_list :=
  split; [by vm_compute|]; split;
  [apply (bool_decide_unpack _); by vm_compute | example_members].

Lemma cache_init_free_list : is_free_list cache_init [0; 1; 2; 3]%nat.
Proof. example_list. Qed.

Lemma cache_init_hash_queue : is_hash_queue cache_init 2 [].
Proof. example_list. Qed.

Lemma cache_held_free_list : is_free_list cache_held [1; 2; 3]%nat.
Proof. example_list. Qed.

Lemma cache_dirty_head_free_list : is_free_list cache_dirty_head [0]%nat.
Proof. example_list. Qed.

Lemma cache_dirty_head_hash_queue : is_hash_queue cache_dirty_head 1 [].
Proof. example_list. Qed.

Ltac example_counts :=
  let i := fresh "i" in
  let Hi := fresh "Hi" in
  intros i Hi;
  do 4 (destruct i as [|i]; [vm_compute; split; congruence|]);
  vm_compute in Hi; lia.

Lemma cache_init_counts : counts_in_range cache_init.
Proof. example_counts. Qed.

Lemma cache_dirty_head_counts : counts_in_range cache_dirty_head.
Proof. example_counts. Qed.

(** ** Witnesses and counterexamples *)

Lemma binit_cache_witness :
  length (buffers boot_kernel) = @NR_BUFFERS example_cfg /\
  is_free_list (final (@binit example_cfg boot_kernel)) [0; 1; 2; 3]%nat.
Proof.
  assert (H1 : length (buffers boot_kernel) = @NR_BUFFERS example_cfg) by reflexivity.
  assert (H2 : length (hashtab boot_kernel) = @BUFFERS_HASHTAB_SIZE example_cfg)
    by reflexivity.
  assert (H3 : (0 < @NR_BUFFERS example_cfg)%nat) by (simpl; lia).
  destruct (@binit_cache example_cfg boot_kernel H1 H2 H3) as (_ & _ & Hfree & _).
  split; [exact H1|exact Hfree].
Defined.

Lemma blkunlock_total_witness :
  valid_ptr cache_contended (Buffers 0) /\
  chain cache_contended@(Buffers 0) = [1%nat] /\
  state (proc cache_contended 1) = PROC_WAITING /\
  state (proc (final (@blkunlock example_cfg (Buffers 0) cache_contended)) 1)
    = PROC_READY /\
  flag_set (flags (final (@blkunlock example_cfg (Buffers 0) cache_contended))@(Buffers 0))
    (@BUFFER_LOCKED example_cfg) = false.
Proof.
  assert (Hv : valid_ptr cache_contended (Buffers 0)) by (vm_compute; lia).
  destruct (@blkunlock_total example_cfg cache_contended (Buffers 0) Hv)
    as (_ & Hl & _ & _ & _ & Hready & _).
  split; [exact Hv|]. split; [by vm_compute|]. split; [by vm_compute|].
  split; [|exact Hl].
  apply Hready; [vm_compute; by left|vm_compute; lia].
Defined.

Lemma brelse_locked_buffer_witness :
  flag_set (flags cache_held@(Buffers 0)) (@BUFFER_LOCKED example_cfg) = true /\
  count cache_held@(Buffers 0) = 1 /\
  is_free_list cache_held [1; 2; 3]%nat /\
  outcome (@brelse example_cfg (Buffers 0) cache_held) = Done tt /\
  is_free_list (final (@brelse example_cfg (Buffers 0) cache_held)) [0; 1; 2; 3]%nat.
Proof.
  assert (H1 : (0 < length (buffers cache_held))%nat) by (vm_compute; lia).
  assert (H2 : flag_set (flags cache_held@(Buffers 0)) (@BUFFER_LOCKED example_cfg)
               = true) by (by vm_compute).
  assert (H3 : 1 <= count cache_held@(Buffers 0) <= INT_MAX)
    by (vm_compute; split; congruence).
  assert (H4 : 0%nat ∉ [1; 2; 3]%nat).
  { intros H. repeat (apply elem_of_cons in H as [H|H]; [lia|]).
    by apply elem_of_nil in H. }
  destruct (@brelse_locked_buffer example_cfg cache_held 0 [1; 2; 3]%nat
              H1 H2 H3 cache_held_free_list H4) as (Ho & _ & Hlast & _).
  assert (H5 : count cache_held@(Buffers 0) = 1) by (by vm_compute).
  destruct (Hlast H5) as (_ & _ & Hfl).
  split; [exact H2|]. split; [exact H5|]. split; [exact cache_held_free_list|].
  split; [exact Ho|]. exact Hfl.
Defined.

Lemma brelse_twice_panics_witness :
  count cache_released@(Buffers 0) = 0 /\
  outcome (@brelse example_cfg (Buffers 0) cache_released)
    = Panic "fs: freeing buffer twice".
Proof.
  assert (H1 : (0 < length (buffers cache_released))%nat) by (vm_compute; lia).
  assert (H2 : count cache_released@(Buffers 0) = 0) by (by vm_compute).
  destruct (@brelse_twice_panics example_cfg cache_released 0 H1 H2) as (Ho & _).
  split; [exact H2|exact Ho].
Defined.

Lemma getblk_outcome_witness :
  @getblk_returned example_cfg 1 10 (@getblk example_cfg 1 10 cache_init) 0.
Proof.
  assert (H2 : (0 < @BUFFERS_HASHTAB_SIZE example_cfg)%nat) by (simpl; lia).
  assert (H3 : length (buffers cache_init) = @NR_BUFFERS example_cfg) by (by vm_compute).
  assert (H4 : length (hashtab cache_init) = @BUFFERS_HASHTAB_SIZE example_cfg)
    by (by vm_compute).
  exact (@getblk_outcome example_cfg cache_init 1 10 [] [0; 1; 2; 3]%nat
           example_flags_distinct H2 H3 H4 cache_init_hash_queue
           cache_init_free_list cache_init_counts).
Defined.

(** C2, as it is stated, fails: block (1, 5) is not block (0, 0), and
    getblk(1, 5) panics in a state that the cache reaches from binit,
    because the only free buffer is dirty. *)
Lemma getblk_dirty_victim_panics :
  (1%N, 5%N) <> (0%N, 0%N) /\
  is_hash_queue cache_dirty_head (@HASH example_cfg 1 5) [] /\
  is_free_list cache_dirty_head [0]%nat /\
  counts_in_range cache_dirty_head /\
  outcome (@getblk example_cfg 1 5 cache_dirty_head) = Panic "fs: asynchronous write" /\
  ~ (exists buf, outcome (@getblk example_cfg 1 5 cache_dirty_head) = Done buf).
Proof.
  split; [done|]. split; [exact cache_dirty_head_hash_queue|].
  split; [exact cache_dirty_head_free_list|].
  split; [exact cache_dirty_head_counts|].
  split; [by vm_compute|]. intros [buf H]. vm_compute in H. done.
Qed.

Lemma bread_again_hits_witness :
  (1%N, 10%N) <> (0%N, 0%N) /\
  io_log (final (@bread example_cfg 1 10 cache_init)) = [DevRead 1 10] /\
  outcome (@bread example_cfg 1 10 cache_released) = Done (Buffers 0) /\
  io_log (final (@bread example_cfg 1 10 cache_released)) = [DevRead 1 10].
Proof.
  assert (H0 : (1%N, 10%N) <> (0%N, 0%N)) by done.
  assert (H1 : (0 < @NR_BUFFERS example_cfg)%nat) by (simpl; lia).
  assert (H2 : (0 < @BUFFERS_HASHTAB_SIZE example_cfg)%nat) by (simpl; lia).
  assert (H3 : length (buffers boot_kernel) = @NR_BUFFERS example_cfg) by reflexivity.
  assert (H4 : length (hashtab boot_kernel) = @BUFFERS_HASHTAB_SIZE example_cfg)
    by reflexivity.
  destruct (@bread_again_hits example_cfg boot_kernel 1 10
              example_flags_distinct H1 H2 H3 H4 H0)
    as (_ & Hlog1 & _ & Hlog2 & _ & _ & Ho3 & Hlog3).
  split; [exact H0|]. split; [exact Hlog1|]. split; [exact Ho3|].
  change (io_log (final (@bread example_cfg 1 10 cache_released))
          = io_log cache_init ++ [DevRead 1 10]).
  unfold cache_released, cache_held, cache_init.
  rewrite Hlog3, Hlog2. exact Hlog1.
Defined.

(** ** The invariant in the example states *)

Ltac example_count_iff_free :=
  let i := fresh "i" in
  let Hi := fresh "Hi" in
  intros i Hi;
  do 4 (destruct i as [|i];
        [vm_compute; split; [intros _; repeat constructor | reflexivity]|]);
  vm_compute in Hi; lia.

Lemma cache_init_count_iff_free : count_iff_free cache_init.
Proof. example_count_iff_free. Qed.

Lemma cache_released_count_iff_free : count_iff_free cache_released.
Proof. example_count_iff_free. Qed.

(** On [cache_released] bsync returns, and the invariant holds again
    in the state that it leaves. *)
Lemma bsync_released_count_iff_free :
  outcome (@bsync example_cfg cache_released) = Done tt /\
  count_iff_free (final (@bsync example_cfg cache_released)).
Proof. split; [by vm_compute|]. example_count_iff_free. Qed.

(** C8. bsync increments the reference count of a valid buffer and
    takes the buffer out of the free list after blklock has enabled the
    interrupts again. On [cache_released] (after binit, bread and
    brelse, where the invariant holds) the run of bsync goes through
    [bsync_window]: interrupts are enabled, buffer 0 has one reference
    and is still on the free list. *)
Theorem bsync_counts_with_interrupts_enabled :
  count_iff_free cache_released /\
  bsync_window ∈ points (@bsync example_cfg cache_released) /\
  interrupts bsync_window = true /\
  count bsync_window@(Buffers 0) = 1 /\
  0%nat ∈ free_members bsync_window /\
  ~ count_iff_free bsync_window.
Proof.
  split; [exact cache_released_count_iff_free|].
  split; [apply list_elem_of_lookup; exists 3%nat; by vm_compute|].
  split; [by vm_compute|]. split; [by vm_compute|].
  assert (Hin : 0%nat ∈ free_members bsync_window) by (vm_compute; by left).
  split; [exact Hin|].
  intros Hinv. assert (H0 : (0 < length (buffers bsync_window))%nat) by (vm_compute; lia).
  apply (Hinv 0%nat H0) in Hin. vm_compute in Hin. done.
Qed.

(** * Further properties of the scheduler *)

Section SchedulerMore.
Context {cfg : Config}.

(** ** The process table under the updates of yield *)

Lemma proc_out_of_range (k : kernel) (p : nat) :
  (length (proctab k) <= p)%nat -> proc k p = null_process.
Proof.
  intros H. unfold proc. rewrite list_lookup_total_alt.
  by rewrite lookup_ge_None_2.
Qed.

Lemma proc_set_proc (k : kernel) (i j : nat) (f : process -> process) :
  proc (set_proc i f k) j =
    if decide (i = j /\ (i < length (proctab k))%nat) then f (proc k i) else proc k j.
Proof. unfold proc, set_proc. simpl. apply list_lookup_total_alter. Qed.

Lemma ticks_set_proc (k : kernel) (i : nat) (f : process -> process) :
  ticks (set_proc i f k) = ticks k.
Proof. done. Qed.

(** One iteration of the first loop changes the process it looks at,
    and only if the alarm of that process has expired. *)
Lemma check_alarm_state (k : kernel) (t : Z) (p : nat) :
  fst (check_alarm (k, t) p) =
    if alarm_expired (ticks k) (proc k p)
    then sndsig p SIGALRM (set_proc p (with_alarm 0) k)
    else k.
Proof.
  unfold check_alarm, alarm_expired.
  destruct (IS_VALID (proc k p)); simpl; [|done].
  by destruct (negb (alarm (proc k p) =? 0) && (alarm (proc k p) <? ticks k)).
Qed.

Lemma check_alarm_total (k : kernel) (t : Z) (p : nat) :
  snd (check_alarm (k, t) p) =
    if decide (state (proc k p) = PROC_READY)
    then wrap_int (t + lottery_tickets (proc k p))
    else t.
Proof.
  unfold check_alarm.
  destruct (IS_VALID (proc k p)); simpl; [|done].
  by destruct (negb (alarm (proc k p) =? 0) && (alarm (proc k p) <? ticks k)).
Qed.

Lemma alarm_expired_in_table (k : kernel) (p : nat) :
  alarm_expired (ticks k) (proc k p) = true -> (p < length (proctab k))%nat.
Proof.
  intros H. destruct (decide (p < length (proctab k))%nat) as [|Hge]; [done|].
  rewrite proc_out_of_range in H by lia. done.
Qed.

Lemma check_alarm_proc (k : kernel) (t : Z) (p q : nat) :
  proc (fst (check_alarm (k, t) p)) q =
    if decide (q = p)
    then (if alarm_expired (ticks k) (proc k p) then alarm_fired (proc k p)
          else proc k p)
    else proc k q.
Proof.
  rewrite check_alarm_state.
  destruct (alarm_expired (ticks k) (proc k p)) eqn:He.
  - pose proof (alarm_expired_in_table k p He) as Hp.
    unfold sndsig. rewrite !proc_set_proc, length_proctab_set_proc.
    destruct (decide (q = p)) as [->|Hne].
    + rewrite !decide_True by done. reflexivity.
    + rewrite !decide_False by (intros [? _]; congruence). reflexivity.
  - by destruct (decide (q = p)) as [->|].
Qed.

Lemma check_alarm_frame (k : kernel) (t : Z) (p : nat) :
  let k' := fst (check_alarm (k, t) p) in
  ticks k' = ticks k /\ curr_proc k' = curr_proc k /\ last_proc k' = last_proc k /\
  length (proctab k') = length (proctab k).
Proof.
  cbv zeta. rewrite check_alarm_state.
  destruct (alarm_expired (ticks k) (proc k p)); [|done].
  unfold sndsig. by rewrite !length_proctab_set_proc.
Qed.

(** The first loop as a whole. *)
Lemma check_alarms_frame (ps : list nat) (k : kernel) (t : Z) :
  let k' := fst (foldl check_alarm (k, t) ps) in
  ticks k' = ticks k /\ curr_proc k' = curr_proc k /\ last_proc k' = last_proc k /\
  length (proctab k') = length (proctab k).
Proof.
  revert k t. induction ps as [|p ps IH]; intros k t; [done|].
  cbn [foldl]. destruct (check_alarm (k, t) p) as [k1 t1] eqn:E.
  pose proof (check_alarm_frame k t p) as H. rewrite E in H. cbn [fst] in H.
  specialize (IH k1 t1). cbv zeta in *.
  destruct H as (H1 & H2 & H3 & H4). destruct IH as (I1 & I2 & I3 & I4).
  repeat split; congruence.
Qed.

Lemma check_alarms_proc (ps : list nat) (k : kernel) (t : Z) (q : nat) :
  NoDup ps ->
  proc (fst (foldl check_alarm (k, t) ps)) q =
    if decide (q ∈ ps)
    then (if alarm_expired (ticks k) (proc k q) then alarm_fired (proc k q)
          else proc k q)
    else proc k q.
Proof.
  revert k t. induction ps as [|p ps IH]; intros k t Hnd.
  { cbn [foldl fst]. rewrite decide_False; [done|]. apply not_elem_of_nil. }
  apply NoDup_cons in Hnd as [Hp Hnd].
  cbn [foldl]. destruct (check_alarm (k, t) p) as [k1 t1] eqn:E.
  rewrite (IH k1 t1 Hnd).
  pose proof (check_alarm_proc k t p q) as Hq. rewrite E in Hq. cbn [fst] in Hq.
  pose proof (check_alarm_frame k t p) as Hf. rewrite E in Hf. cbn [fst] in Hf.
  destruct Hf as (Ht & _). rewrite Ht, Hq.
  destruct (decide (q = p)) as [->|Hne].
  - rewrite (decide_False (P := p ∈ ps)) by done.
    rewrite decide_True by (by left). reflexivity.
  - destruct (decide (q ∈ ps)) as [Hin|Hnin].
    + rewrite decide_True by (by right). reflexivity.
    + rewrite decide_False; [done|].
      intros Hc. apply elem_of_cons in Hc as [?|?]; done.
Qed.

(** The first loop leaves alone what the lottery reads. *)
Lemma check_alarms_sched (ps : list nat) (k : kernel) (t : Z) (q : nat) :
  let k' := fst (foldl check_alarm (k, t) ps) in
  state (proc k' q) = state (proc k q) /\
  tickets (proc k' q) = tickets (proc k q) /\
  compensation (proc k' q) = compensation (proc k q) /\
  nice (proc k' q) = nice (proc k q) /\
  father (proc k' q) = father (proc k q).
Proof.
  revert k t. induction ps as [|p ps IH]; intros k t; [done|].
  cbn [foldl]. destruct (check_alarm (k, t) p) as [k1 t1] eqn:E.
  pose proof (check_alarm_proc k t p q) as Hq. rewrite E in Hq. cbn [fst] in Hq.
  specialize (IH k1 t1). cbv zeta in *.
  destruct IH as (-> & -> & -> & -> & ->). rewrite Hq.
  destruct (decide (q = p)) as [->|]; [|done].
  by destruct (alarm_expired (ticks k) (proc k p)).
Qed.

Lemma ready_tickets_ext (k k' : kernel) (ps : list nat) :
  (forall q, state (proc k' q) = state (proc k q) /\
             tickets (proc k' q) = tickets (proc k q) /\
             compensation (proc k' q) = compensation (proc k q)) ->
  ready_tickets k' ps = ready_tickets k ps.
Proof.
  intros H. induction ps as [|p ps IH]; [done|]. simpl.
  destruct (H p) as (-> & Ht & Hc). unfold lottery_tickets. by rewrite Ht, Hc, IH.
Qed.

Lemma choose_ext (k k' : kernel) (ticket sum : Z) (ps : list nat) :
  (forall q, state (proc k' q) = state (proc k q) /\
             tickets (proc k' q) = tickets (proc k q) /\
             compensation (proc k' q) = compensation (proc k q)) ->
  choose k' ticket sum ps = choose k ticket sum ps.
Proof.
  intros H. revert sum. induction ps as [|p ps IH]; intros sum; [done|]. simpl.
  destruct (H p) as (-> & Ht & Hc). unfold lottery_tickets. rewrite Ht, Hc.
  destruct (decide (state (proc k p) <> PROC_READY)); [apply IH|].
  by rewrite IH.
Qed.

(** The tickets that the first loop counts. *)
Lemma check_alarms_total (ps : list nat) (k : kernel) (t : Z) :
  (forall p, p ∈ ps -> state (proc k p) = PROC_READY ->
             0 <= lottery_tickets (proc k p)) ->
  0 <= t -> t + ready_tickets k ps <= INT_MAX ->
  snd (foldl check_alarm (k, t) ps) = t + ready_tickets k ps.
Proof.
  revert k t. induction ps as [|p ps IH]; intros k t Hpos Ht Hmax.
  { simpl. lia. }
  cbn [foldl]. destruct (check_alarm (k, t) p) as [k1 t1] eqn:E.
  pose proof (check_alarm_total k t p) as Ht1. rewrite E in Ht1. cbn [snd] in Ht1.
  assert (Hsame : forall q, state (proc k1 q) = state (proc k q) /\
                            tickets (proc k1 q) = tickets (proc k q) /\
                            compensation (proc k1 q) = compensation (proc k q)).
  { intros q. pose proof (check_alarms_sched [p] k t q) as H. cbn [foldl] in H.
    rewrite E in H. cbn [fst] in H. cbv zeta in H. tauto. }
  assert (Hrest : 0 <= ready_tickets k ps).
  { clear -Hpos. induction ps as [|q ps IH]; [done|]. simpl.
    assert (0 <= ready_tickets k ps).
    { apply IH. intros r Hr. apply Hpos. apply elem_of_cons in Hr as [->|Hr].
      - by left.
      - right. by right. }
    destruct (decide (state (proc k q) = PROC_READY)) as [Hq|]; [|done].
    specialize (Hpos q). assert (q ∈ p :: q :: ps) by (right; by left).
    specialize (Hpos H0 Hq). lia. }
  cbn [ready_tickets] in *.
  assert (Hpos1 : forall q, q ∈ ps -> state (proc k1 q) = PROC_READY ->
                            0 <= lottery_tickets (proc k1 q)).
  { intros q Hq Hr. destruct (Hsame q) as (Hs & Hti & Hc).
    unfold lottery_tickets. rewrite Hti, Hc. apply Hpos; [by right|congruence]. }
  pose proof (ready_tickets_ext k k1 ps Hsame) as Hrt.
  assert (Ht1' : t1 = if decide (state (proc k p) = PROC_READY)
                      then t + lottery_tickets (proc k p) else t).
  { rewrite Ht1. destruct (decide (state (proc k p) = PROC_READY)) as [Hp|]; [|done].
    specialize (Hpos p (list_elem_of_here _ _) Hp).
    apply wrap_int_id. unfold in_int, INT_MIN, INT_MAX in *. lia. }
  destruct (decide (state (proc k p) = PROC_READY)) as [Hp|].
  - specialize (Hpos p (list_elem_of_here _ _) Hp).
    rewrite (IH k1 t1 Hpos1); rewrite ?Hrt; lia.
  - rewrite (IH k1 t1 Hpos1); rewrite ?Hrt; lia.
Qed.

Lemma ready_tickets_nonneg (k : kernel) (ps : list nat) :
  (forall p, p ∈ ps -> state (proc k p) = PROC_READY ->
             0 <= lottery_tickets (proc k p)) ->
  0 <= ready_tickets k ps.
Proof.
  induction ps as [|q ps IH]; intros Hpos; [done|]. simpl.
  assert (0 <= ready_tickets k ps).
  { apply IH. intros r Hr. apply Hpos. by right. }
  destruct (decide (state (proc k q) = PROC_READY)) as [Hq|]; [|done].
  specialize (Hpos q (list_elem_of_here _ _) Hq). lia.
Qed.

(** The second loop of yield, from a running sum [sum] on. *)
Lemma choose_from (k : kernel) (ticket sum : Z) (ps : list nat) :
  (forall p, p ∈ ps -> state (proc k p) = PROC_READY ->
             0 <= lottery_tickets (proc k p)) ->
  0 <= sum <= ticket ->
  sum + ready_tickets k ps <= INT_MAX ->
  (ticket < sum + ready_tickets k ps ->
     exists ps1 p ps2,
       ps = ps1 ++ p :: ps2 /\ choose k ticket sum ps = p /\
       state (proc k p) = PROC_READY /\
       sum + ready_tickets k ps1 <= ticket
         < sum + ready_tickets k ps1 + lottery_tickets (proc k p)) /\
  (sum + ready_tickets k ps <= ticket -> choose k ticket sum ps = IDLE).
Proof.
  revert sum. induction ps as [|p ps IH]; intros sum Hpos Hsum Hmax.
  { simpl. split; [lia|done]. }
  assert (Hpos' : forall q, q ∈ ps -> state (proc k q) = PROC_READY ->
                            0 <= lottery_tickets (proc k q)).
  { intros q Hq. apply Hpos. by right. }
  pose proof (ready_tickets_nonneg k ps Hpos') as Hrest.
  cbn [ready_tickets choose] in *.
  destruct (decide (state (proc k p) = PROC_READY)) as [Hp|Hp].
  - rewrite decide_False by (intros Hn; by apply Hn).
    specialize (Hpos p (list_elem_of_here _ _) Hp). cbv zeta.
    rewrite wrap_int_id by (unfold in_int, INT_MIN, INT_MAX in *; lia).
    destruct (Z.ltb_spec ticket (sum + lottery_tickets (proc k p))) as [Hwin|Hnot].
    + split; [|lia]. intros _. exists [], p, ps. simpl. repeat split; [done|lia..].
    + destruct (IH (sum + lottery_tickets (proc k p)) Hpos') as [IH1 IH2]; [lia..|].
      split.
      * intros Hlt. destruct IH1 as (ps1 & w & ps2 & -> & Hc & Hw & Hr); [lia|].
        exists (p :: ps1), w, ps2. cbn [ready_tickets].
        rewrite decide_True by done. repeat split; [done..|lia|lia].
      * intros Hge. apply IH2. lia.
  - rewrite decide_True by done.
    destruct (IH sum Hpos') as [IH1 IH2]; [lia..|].
    split; [|done].
    intros Hlt. destruct (IH1 Hlt) as (ps1 & w & ps2 & -> & Hc & Hw & Hr).
    exists (p :: ps1), w, ps2. cbn [ready_tickets].
    rewrite decide_False by done. repeat split; [done..|lia|lia].
Qed.

(** X1. The second loop of yield gives the processor to the holder of
    the drawn ticket: when the ready processes hold more tickets than the
    number drawn, the process chosen is ready and the tickets of the
    ready processes before it are at most the number drawn, which is
    less than these tickets and its own together. When the number drawn
    is not less than all tickets of the ready processes, the idle
    process is chosen. *)
Theorem choose_holder_of_ticket (k : kernel) (ticket : Z) (ps : list nat) :
  (forall p, p ∈ ps -> state (proc k p) = PROC_READY ->
             0 <= lottery_tickets (proc k p)) ->
  0 <= ticket ->
  ready_tickets k ps <= INT_MAX ->
  (ticket < ready_tickets k ps ->
     exists ps1 p ps2,
       ps = ps1 ++ p :: ps2 /\ choose k ticket 0 ps = p /\
       state (proc k p) = PROC_READY /\
       ready_tickets k ps1 <= ticket
         < ready_tickets k ps1 + lottery_tickets (proc k p)) /\
  (ready_tickets k ps <= ticket -> choose k ticket 0 ps = IDLE).
Proof.
  intros Hpos Ht Hmax.
  destruct (choose_from k ticket 0 ps Hpos) as [H1 H2]; [lia..|].
  split; [|intros; apply H2; lia].
  intros Hlt. destruct H1 as (ps1 & p & ps2 & Hps & Hc & Hr & Hb); [lia|].
  exists ps1, p, ps2. repeat split; try done; lia.
Qed.

Lemma next_process_bounds (k : kernel) (total_tickets : Z) :
  0 <= total_tickets <= 65536 ->
  1 <= next_process k total_tickets <= Z.max 1 total_tickets.
Proof.
  intros H. destruct (decide (total_tickets = 0)) as [->|Hne].
  - rewrite next_process_formula by lia. rewrite Z.mul_0_r, Z.div_0_l by lia. lia.
  - pose proof (next_process_range k total_tickets). lia.
Qed.

(** X2. The drawn ticket: with up to 65536 tickets in the lottery the
    number drawn lies between 1 and the number of tickets; with no
    ticket at all it is 1. *)
Theorem next_process_draws_ticket (k : kernel) (total_tickets : Z) :
  0 <= total_tickets <= 65536 ->
  1 <= next_process k total_tickets <= Z.max 1 total_tickets.
Proof. exact (next_process_bounds k total_tickets). Qed.

(** ** yield as a whole *)

Lemma next_process_ticks (k k' : kernel) (t : Z) :
  ticks k' = ticks k -> next_process k' t = next_process k t.
Proof. intros H. unfold next_process, rand, CURRENT_TIME. by rewrite H. Qed.

Lemma add_compensation_proc (k : kernel) (q : nat) :
  state (proc (add_compensation k) q) = state (proc k q) /\
  tickets (proc (add_compensation k) q) = tickets (proc k q) /\
  nice (proc (add_compensation k) q) = nice (proc k q) /\
  alarm (proc (add_compensation k) q) = alarm (proc k q) /\
  father (proc (add_compensation k) q) = father (proc k q) /\
  received (proc (add_compensation k) q) = received (proc k q) /\
  (q <> curr_proc k -> proc (add_compensation k) q = proc k q).
Proof.
  unfold add_compensation. destruct (_ && _); [|done].
  rewrite proc_set_proc. destruct (decide _) as [[<- _]|Hn]; [done|].
  repeat split.
Qed.

Lemma add_compensation_frame (k : kernel) :
  ticks (add_compensation k) = ticks k /\
  curr_proc (add_compensation k) = curr_proc k /\
  length (proctab (add_compensation k)) = length (proctab k).
Proof.
  unfold add_compensation. destruct (_ && _); [|done].
  by rewrite length_proctab_set_proc.
Qed.

Lemma yield_resched_frame (k : kernel) :
  ticks (yield_resched k) = ticks k /\
  curr_proc (yield_resched k) = curr_proc k /\
  last_proc (yield_resched k) = curr_proc k /\
  length (proctab (yield_resched k)) = length (proctab k).
Proof.
  unfold yield_resched.
  destruct (add_compensation_frame k) as (Ht & Hc & Hl).
  destruct (decide (state (proc k (curr_proc k)) = PROC_RUNNING)); [|done].
  cbn [with_last_proc ticks curr_proc last_proc proctab].
  unfold sched. rewrite !length_proctab_set_proc. by rewrite Hl.
Qed.

(** What the start of yield does to the process table: a running
    current process becomes ready, with its counter at 0; signals and
    alarms stay. *)
Lemma yield_resched_proc (k : kernel) (q : nat) :
  state (proc (yield_resched k) q) =
    (if decide (q = curr_proc k /\ state (proc k q) = PROC_RUNNING)
     then PROC_READY else state (proc k q)) /\
  tickets (proc (yield_resched k) q) = tickets (proc k q) /\
  nice (proc (yield_resched k) q) = nice (proc k q) /\
  alarm (proc (yield_resched k) q) = alarm (proc k q) /\
  father (proc (yield_resched k) q) = father (proc k q) /\
  received (proc (yield_resched k) q) = received (proc k q).
Proof.
  unfold yield_resched.
  destruct (add_compensation_proc k q) as (A1 & A2 & A3 & A4 & A5 & A6 & _).
  destruct (add_compensation_frame k) as (_ & Hc & Hl).
  destruct (decide (state (proc k (curr_proc k)) = PROC_RUNNING)) as [Hrun|Hrun].
  - change (proc (with_last_proc _ ?x) q) with (proc x q).
    unfold sched. rewrite !proc_set_proc, !length_proctab_set_proc.
    destruct (decide (curr_proc k = q /\ _)) as [[<- Hlt]|Hn].
    + rewrite decide_True by done. simpl. rewrite decide_True by done.
      by rewrite A2, A3, A4, A5, A6.
    + destruct (decide (q = curr_proc k)) as [->|Hne].
      * assert (Hge : (length (proctab k) <= curr_proc k)%nat) by (rewrite Hl in Hn; lia).
        rewrite proc_out_of_range in Hrun by done. done.
      * rewrite decide_False by tauto. by rewrite A1, A2, A3, A4, A5, A6.
  - change (proc (with_last_proc _ ?x) q) with (proc x q).
    rewrite decide_False; [done|]. intros [-> ?]. done.
Qed.

Lemma dispatch_frame (next : nat) (k : kernel) :
  curr_proc (dispatch next k) = next /\
  last_proc (dispatch next k) = last_proc k /\
  ticks (dispatch next k) = ticks k /\
  length (proctab (dispatch next k)) = length (proctab k).
Proof.
  unfold dispatch, switch_to. cbv zeta.
  cbn [with_curr_proc curr_proc last_proc ticks proctab].
  by rewrite !length_proctab_set_proc.
Qed.

Lemma dispatch_proc (next : nat) (k : kernel) (q : nat) :
  proc (dispatch next k) q =
    if decide (q = next /\ (next < length (proctab k))%nat)
    then
      {| state := PROC_RUNNING; counter := PROC_QUANTUM; priority := PRIO_USER;
         nice := nice (proc k next);
         tickets := wrap_int (wrap_int (wrap_int (PRIO_USER * -1) + NORMALIZATION_VALUE)
                              - nice (proc k next));
         compensation := 0; alarm := alarm (proc k next);
         father := father (proc k next); received := received (proc k next) |}
    else proc k q.
Proof.
  unfold dispatch, switch_to. cbv zeta.
  change (proc (with_curr_proc _ ?x) q) with (proc x q).
  rewrite !proc_set_proc, !length_proctab_set_proc.
  destruct (decide (q = next /\ _)) as [[-> Hlt]|Hn].
  - rewrite !decide_True by done. reflexivity.
  - rewrite !decide_False by (intros [<- ?]; tauto). reflexivity.
Qed.

Lemma yield_unfold (k : kernel) :
  yield k = dispatch (yield_next k) (fst (check_alarms (yield_resched k))).
Proof.
  unfold yield, yield_next. by destruct (check_alarms (yield_resched k)).
Qed.

Lemma yield_next_unfold (k : kernel) :
  yield_next k =
    choose (yield_resched k) (next_process k (yield_total k)) 0 proc_range.
Proof.
  unfold yield_next, yield_total, check_alarms.
  destruct (foldl check_alarm (yield_resched k, 0) proc_range) as [k1 t] eqn:E.
  cbn [snd].
  pose proof (check_alarms_frame proc_range (yield_resched k) 0) as Hf.
  rewrite E in Hf. cbn [fst] in Hf. destruct Hf as (Ht & _).
  destruct (yield_resched_frame k) as (Ht0 & _).
  rewrite (next_process_ticks k k1) by congruence.
  apply choose_ext. intros q.
  pose proof (check_alarms_sched proc_range (yield_resched k) 0 q) as Hs.
  rewrite E in Hs. cbn [fst] in Hs. cbv zeta in Hs. tauto.
Qed.

(** The process chosen by the lottery is the idle process or a process
    of the table range that is ready. *)
Lemma choose_idle_or_ready (k : kernel) (ticket sum : Z) (ps : list nat) :
  choose k ticket sum ps = IDLE \/
  (choose k ticket sum ps ∈ ps /\
   state (proc k (choose k ticket sum ps)) = PROC_READY).
Proof.
  revert sum. induction ps as [|p ps IH]; intros sum; [by left|]. simpl.
  destruct (decide (state (proc k p) <> PROC_READY)) as [Hn|Hr].
  - destruct (IH sum) as [?|[? ?]]; [by left|]. right. split; [by right|done].
  - destruct (_ <? _).
    + right. split; [by left|]. by destruct (decide (state (proc k p) = PROC_READY)).
    + destruct (IH (wrap_int (sum + lottery_tickets (proc k p)))) as [?|[? ?]];
        [by left|]. right. split; [by right|done].
Qed.

Lemma yield_curr_proc (k : kernel) : curr_proc (yield k) = yield_next k.
Proof. rewrite yield_unfold. by destruct (dispatch_frame (yield_next k)
                                   (fst (check_alarms (yield_resched k)))). Qed.

Lemma proc_range_in_table (k : kernel) (p : nat) :
  (LAST_PROC < length (proctab k))%nat -> p ∈ proc_range ->
  (p < length (proctab k))%nat.
Proof. unfold proc_range. intros H Hp. apply elem_of_seq in Hp. lia. Qed.

Lemma yield_next_idle_or_ready (k : kernel) :
  yield_next k = IDLE \/
  (yield_next k ∈ proc_range /\
   state (proc (yield_resched k) (yield_next k)) = PROC_READY).
Proof. rewrite yield_next_unfold. apply choose_idle_or_ready. Qed.

Lemma yield_next_in_table (k : kernel) :
  (IDLE < length (proctab k))%nat -> (LAST_PROC < length (proctab k))%nat ->
  (yield_next k < length (proctab k))%nat.
Proof.
  intros Hi Hl. destruct (yield_next_idle_or_ready k) as [->|[Hin _]]; [done|].
  by apply proc_range_in_table.
Qed.

(** The process table after yield. *)
Lemma yield_proc (k : kernel) (q : nat) :
  q <> yield_next k ->
  state (proc (yield k) q) = state (proc (yield_resched k) q) /\
  alarm (proc (yield k) q) = alarm (proc (fst (check_alarms (yield_resched k))) q) /\
  received (proc (yield k) q)
    = received (proc (fst (check_alarms (yield_resched k))) q).
Proof.
  intros Hne. rewrite yield_unfold, dispatch_proc.
  rewrite decide_False by tauto.
  pose proof (check_alarms_sched proc_range (yield_resched k) 0 q) as Hs.
  cbv zeta in Hs. unfold check_alarms. tauto.
Qed.

(** X3. yield counts the tickets of the ready processes of the table
    range and draws one of them. If the number drawn is less than the
    number of tickets, the processor goes to a process of the range that
    was ready; if it is the last ticket, or if there is no ticket at
    all, the processor goes to the idle process, whatever is ready. *)
Theorem yield_runs_ticket_holder (k : kernel) :
  let k0 := yield_resched k in
  let total := ready_tickets k0 proc_range in
  (forall p, p ∈ proc_range -> state (proc k0 p) = PROC_READY ->
             0 <= lottery_tickets (proc k0 p)) ->
  total <= 65536 ->
  yield_total k = total /\
  1 <= next_process k total <= Z.max 1 total /\
  (next_process k total < total ->
     curr_proc (yield k) ∈ proc_range /\
     state (proc k0 (curr_proc (yield k))) = PROC_READY) /\
  (total <= next_process k total -> curr_proc (yield k) = IDLE).
Proof.
  intros k0 total Hpos Hmax.
  pose proof (ready_tickets_nonneg k0 proc_range Hpos) as Hnn. fold total in Hnn.
  assert (Htot : yield_total k = total).
  { unfold yield_total, check_alarms. fold k0.
    rewrite check_alarms_total; [fold total; lia|done|lia|].
    fold total. unfold INT_MAX. lia. }
  pose proof (next_process_bounds k total) as Hdraw.
  split; [done|]. split; [apply Hdraw; lia|].
  rewrite yield_curr_proc, yield_next_unfold, Htot. fold k0.
  destruct (choose_from k0 (next_process k total) 0 proc_range Hpos) as [H1 H2].
  { lia. }
  { fold total. unfold INT_MAX. lia. }
  fold total in H1, H2. split.
  - intros Hlt. destruct H1 as (ps1 & p & ps2 & Hps & -> & Hr & _); [lia|].
    split; [|done]. rewrite Hps. apply elem_of_app. right. by left.
  - intros Hge. apply H2. lia.
Qed.

(** X4. At most one process runs: if no process other than the current
    one is running when yield is called, then after yield the new
    current process is running and no other process is. *)
Theorem yield_keeps_one_running (k : kernel) :
  (IDLE < length (proctab k))%nat ->
  (LAST_PROC < length (proctab k))%nat ->
  only_running k (curr_proc k) ->
  state (proc (yield k) (curr_proc (yield k))) = PROC_RUNNING /\
  only_running (yield k) (curr_proc (yield k)).
Proof.
  intros Hi Hl Hone.
  pose proof (yield_next_in_table k Hi Hl) as Hnext.
  destruct (yield_resched_frame k) as (_ & _ & _ & Hlen0).
  destruct (check_alarms_frame proc_range (yield_resched k) 0) as (_ & _ & _ & Hlen1).
  rewrite yield_curr_proc. split.
  - rewrite yield_unfold, dispatch_proc. unfold check_alarms.
    rewrite decide_True; [done|]. split; [done|]. rewrite Hlen1, Hlen0. done.
  - intros q Hq Hrun.
    destruct (decide (q = yield_next k)) as [|Hne]; [done|]. exfalso.
    destruct (yield_proc k q Hne) as (Hs & _). rewrite Hs in Hrun.
    destruct (yield_resched_proc k q) as (Hs0 & _). rewrite Hs0 in Hrun.
    destruct (decide (q = curr_proc k /\ _)) as [|Hn]; [done|].
    rewrite yield_unfold in Hq.
    destruct (dispatch_frame (yield_next k) (fst (check_alarms (yield_resched k))))
      as (_ & _ & _ & Hlen2).
    rewrite Hlen2 in Hq. unfold check_alarms in Hq. rewrite Hlen1, Hlen0 in Hq.
    apply Hn. split; [|done]. by apply Hone.
Qed.

(** X5. The process that yield gives the processor to starts a full
    quantum with the user priority and without compensation tickets,
    and its tickets are computed from the user priority and its nice
    value alone: what it held before, and the priority it had, do not
    count. yield also remembers the process that had the processor. *)
Theorem yield_starts_fresh_quantum (k : kernel) :
  (IDLE < length (proctab k))%nat ->
  (LAST_PROC < length (proctab k))%nat ->
  let p := proc (yield k) (curr_proc (yield k)) in
  counter p = PROC_QUANTUM /\
  priority p = PRIO_USER /\
  compensation p = 0 /\
  tickets p =
    wrap_int (wrap_int (wrap_int (PRIO_USER * -1) + NORMALIZATION_VALUE)
              - nice (proc k (curr_proc (yield k)))) /\
  last_proc (yield k) = curr_proc k.
Proof.
  intros Hi Hl p. subst p.
  pose proof (yield_next_in_table k Hi Hl) as Hnext.
  destruct (yield_resched_frame k) as (_ & _ & Hlast0 & Hlen0).
  destruct (check_alarms_frame proc_range (yield_resched k) 0)
    as (_ & _ & Hlast1 & Hlen1).
  rewrite yield_curr_proc. rewrite yield_unfold, dispatch_proc. unfold check_alarms.
  rewrite decide_True by (split; [done|]; by rewrite Hlen1, Hlen0).
  cbn [counter priority compensation tickets].
  destruct (check_alarms_sched proc_range (yield_resched k) 0 (yield_next k))
    as (_ & _ & _ & Hn & _). cbv zeta in Hn.
  destruct (yield_resched_proc k (yield_next k)) as (_ & _ & Hn0 & _).
  rewrite Hn, Hn0. repeat split.
  destruct (dispatch_frame (yield_next k)
              (fst (foldl check_alarm (yield_resched k, 0) proc_range)))
    as (_ & -> & _). by rewrite Hlast1.
Qed.

Lemma alarm_expired_yield_resched (k : kernel) (q : nat) :
  alarm_expired (ticks (yield_resched k)) (proc (yield_resched k) q)
  = alarm_expired (ticks k) (proc k q).
Proof.
  destruct (yield_resched_frame k) as (-> & _).
  destruct (yield_resched_proc k q) as (Hs & _ & _ & Ha & _).
  unfold alarm_expired, IS_VALID. rewrite Ha. f_equal. f_equal.
  rewrite Hs. destruct (decide (q = curr_proc k /\ _)) as [[_ Hr]|]; [|done].
  rewrite Hr. done.
Qed.

(** X6. Alarms: yield looks at every process of the table range; a valid
    process whose alarm is set and lies before the current tick gets
    SIGALRM once and has its alarm cleared. The alarm and the signals of
    every other process are left as they are, also when the alarm time
    is the current tick itself. *)
Theorem yield_fires_expired_alarms (k : kernel) (p : nat) :
  let fired := bool_decide (p ∈ proc_range) && alarm_expired (ticks k) (proc k p) in
  alarm (proc (yield k) p) = (if fired then 0 else alarm (proc k p)) /\
  received (proc (yield k) p) =
    (if fired then SIGALRM :: received (proc k p) else received (proc k p)).
Proof.
  intros fired.
  assert (Hnd : NoDup proc_range) by apply NoDup_seq.
  pose proof (check_alarms_proc proc_range (yield_resched k) 0 p Hnd) as Hp.
  rewrite alarm_expired_yield_resched in Hp.
  destruct (yield_resched_proc k p) as (_ & _ & _ & Ha & _ & Hr).
  assert (Hd : alarm (proc (yield k) p)
                 = alarm (proc (fst (check_alarms (yield_resched k))) p) /\
               received (proc (yield k) p)
                 = received (proc (fst (check_alarms (yield_resched k))) p)).
  { rewrite yield_unfold, dispatch_proc.
    by destruct (decide (p = yield_next k /\ _)) as [[-> _]|]. }
  destruct Hd as [-> ->]. unfold check_alarms. rewrite Hp. subst fired.
  destruct (decide (p ∈ proc_range)) as [Hin|Hnin].
  - rewrite bool_decide_eq_true_2 by done. cbn [andb].
    destruct (alarm_expired (ticks k) (proc k p)); [|done].
    unfold alarm_fired. cbn [alarm received with_received with_alarm]. by rewrite Hr.
  - rewrite bool_decide_eq_false_2 by done. done.
Qed.

Lemma yield_received (k : kernel) (p : nat) :
  received (proc (yield k) p) = SIGALRM :: received (proc k p) \/
  received (proc (yield k) p) = received (proc k p).
Proof.
  assert (Hnd : NoDup proc_range) by apply NoDup_seq.
  pose proof (check_alarms_proc proc_range (yield_resched k) 0 p Hnd) as Hp.
  destruct (yield_resched_proc k p) as (_ & _ & _ & _ & _ & Hr).
  rewrite yield_unfold, dispatch_proc.
  assert (Hrec : received (proc (fst (check_alarms (yield_resched k))) p)
                   = SIGALRM :: received (proc k p) \/
                 received (proc (fst (check_alarms (yield_resched k))) p)
                   = received (proc k p)).
  { unfold check_alarms. rewrite Hp. destruct (decide _); [|by right].
    destruct (alarm_expired _ _); [left|by right].
    unfold alarm_fired. cbn [received with_received with_alarm]. by rewrite Hr. }
  by destruct (decide (p = yield_next k /\ _)) as [[-> _]|].
Qed.

(** ** stop and resume *)

(** X7. stop takes the processor from the process that calls it: the
    caller is left stopped, another process is the current one, and
    the caller's father has been sent SIGCHLD. resume then makes the
    stopped process ready again, with its counter at 0. *)
Theorem stop_gives_up_processor (k : kernel) :
  let c := curr_proc k in
  let f := father (proc k c) in
  (c < length (proctab k))%nat ->
  c <> IDLE ->
  curr_proc (stop k) <> c /\
  last_proc (stop k) = c /\
  state (proc (stop k) c) = PROC_STOPPED /\
  ((f < length (proctab k))%nat -> SIGCHLD ∈ received (proc (stop k) f)) /\
  state (proc (resume c (stop k)) c) = PROC_READY /\
  counter (proc (resume c (stop k)) c) = 0.
Proof.
  intros c f Hc Hidle. unfold stop. cbv zeta.
  change (curr_proc (set_proc (curr_proc k) (with_state PROC_STOPPED) k)) with c.
  fold c.
  set (ks := set_proc c (with_state PROC_STOPPED) k).
  assert (Hf : father (proc ks c) = f).
  { unfold ks. rewrite proc_set_proc. by rewrite decide_True. }
  rewrite Hf. set (k2 := sndsig f SIGCHLD ks).
  assert (Hcur : curr_proc k2 = c) by done.
  assert (Hlen : length (proctab k2) = length (proctab k)).
  { unfold k2, sndsig, ks. by rewrite !length_proctab_set_proc. }
  assert (Hst : state (proc k2 c) = PROC_STOPPED).
  { unfold k2, sndsig. rewrite proc_set_proc.
    assert (state (proc ks c) = PROC_STOPPED).
    { unfold ks. rewrite proc_set_proc. by rewrite decide_True. }
    by destruct (decide _) as [[-> _]|]. }
  assert (Hst0 : state (proc (yield_resched k2) c) = PROC_STOPPED).
  { destruct (yield_resched_proc k2 c) as (-> & _). rewrite Hst.
    by destruct (decide _) as [[_ ?]|]. }
  assert (Hnext : yield_next k2 <> c).
  { destruct (yield_next_idle_or_ready k2) as [->|[_ Hr]]; [done|].
    intros E. rewrite E in Hr. congruence. }
  destruct (yield_resched_frame k2) as (_ & _ & Hlast0 & Hlen0).
  destruct (check_alarms_frame proc_range (yield_resched k2) 0)
    as (_ & _ & Hlast1 & Hlen1).
  assert (Hlast : last_proc (yield k2) = c).
  { rewrite yield_unfold.
    destruct (dispatch_frame (yield_next k2) (fst (check_alarms (yield_resched k2))))
      as (_ & -> & _). unfold check_alarms. by rewrite Hlast1, Hlast0. }
  assert (Hstop : state (proc (yield k2) c) = PROC_STOPPED).
  { destruct (yield_proc k2 c) as (-> & _); [congruence|done]. }
  assert (Hylen : length (proctab (yield k2)) = length (proctab k)).
  { rewrite yield_unfold.
    destruct (dispatch_frame (yield_next k2) (fst (check_alarms (yield_resched k2))))
      as (_ & _ & _ & ->). unfold check_alarms. by rewrite Hlen1, Hlen0, Hlen. }
  split; [by rewrite yield_curr_proc|]. split; [done|]. split; [done|].
  split.
  - intros Hfl.
    destruct (yield_received k2 f) as [-> | ->].
    + right. unfold k2, sndsig. rewrite proc_set_proc.
      rewrite decide_True by (split; [done|]; unfold ks;
                              by rewrite length_proctab_set_proc).
      by left.
    + unfold k2, sndsig. rewrite proc_set_proc.
      rewrite decide_True by (split; [done|]; unfold ks;
                              by rewrite length_proctab_set_proc).
      by left.
  - unfold resume. rewrite decide_True by done.
    rewrite proc_sched_eq by (by rewrite Hylen). done.
Qed.

(** X8. resume is for stopped processes only: it leaves no process
    stopped in the slot it is called on, changes no other process,
    changes nothing at all when the process is not stopped, and
    resuming a second time changes nothing either. *)
Theorem resume_only_stopped (k : kernel) (p : nat) :
  state (proc (resume p k) p) <> PROC_STOPPED /\
  (forall q, q <> p -> proc (resume p k) q = proc k q) /\
  (state (proc k p) <> PROC_STOPPED -> resume p k = k) /\
  resume p (resume p k) = resume p k.
Proof.
  assert (Hno : forall k', state (proc k' p) <> PROC_STOPPED -> resume p k' = k').
  { intros k' Hn. unfold resume. by rewrite decide_False. }
  assert (Hafter : state (proc (resume p k) p) <> PROC_STOPPED).
  { destruct (decide (state (proc k p) = PROC_STOPPED)) as [Hs|Hn].
    - unfold resume. rewrite decide_True by done.
      destruct (decide (p < length (proctab k))%nat) as [Hlt|Hge].
      + by rewrite proc_sched_eq.
      + rewrite proc_out_of_range in Hs by lia. done.
    - by rewrite (Hno k Hn). }
  split; [exact Hafter|]. split; [|split; [apply Hno|by apply Hno]].
  intros q Hq. unfold resume. destruct (decide _); [|done].
  by apply proc_sched_ne.
Qed.

End SchedulerMore.

(** * Further properties of the buffer cache *)

Section CacheMore.
Context {cfg : Config}.

#[local] Hint Resolve valid_store valid_wake valid_with_interrupts valid_with_io_log
  valid_with_any_free_chain valid_set_proc valid_free_buffers
  valid_unlinked valid_counted valid_locked valid_hash_unlinked
  valid_reassigned valid_hash_inserted : valid.

(** ** Lists without one buffer *)

Lemma elem_of_without (x j : nat) (l : list nat) :
  x ∈ without j l <-> x ∈ l /\ x <> j.
Proof. unfold without. rewrite list_elem_of_filter. tauto. Qed.

Lemma without_notin (j : nat) (l : list nat) : j ∉ l -> without j l = l.
Proof.
  intros H. unfold without. induction l as [|x l IH]; [done|].
  apply not_elem_of_cons in H as [Hx Hl].
  rewrite filter_cons_True by congruence. by rewrite IH.
Qed.

Lemma without_app_cons (j : nat) (l1 l2 : list nat) :
  NoDup (l1 ++ j :: l2) -> without j (l1 ++ j :: l2) = l1 ++ l2.
Proof.
  intros Hnd. apply NoDup_app in Hnd as (_ & Hdisj & Hnd2).
  apply NoDup_cons in Hnd2 as [Hj2 _].
  unfold without. rewrite filter_app, filter_cons_False by (intros H; by apply H).
  fold (without j l1). fold (without j l2).
  rewrite !without_notin; [done|done|]. intros Hj1. apply (Hdisj j Hj1). by left.
Qed.

Lemma NoDup_without (j : nat) (l : list nat) : NoDup l -> NoDup (without j l).
Proof. apply NoDup_filter. Qed.

(** ** A store that writes what is there already *)

Lemma store_same_proj {A : Type} (proj : buffer -> A) (k : kernel) (p q : bufptr)
    (f : buffer -> buffer) :
  proj (f k@p) = proj k@p -> proj (store p f k)@q = proj k@q.
Proof.
  intros H. destruct (decide (p = q)) as [->|Hne].
  - destruct (decide (valid_ptr k q)).
    + by rewrite load_store_eq.
    + by rewrite load_store_invalid.
  - by rewrite load_store_ne.
Qed.

(** ** Hash queues under the statements of getblk *)

Lemma is_hash_queue_frame (k k' : kernel) (h : nat) (l : list nat) :
  (forall p, p = Hashtab h \/ p ∈ (Buffers <$> l) ->
     hash_next k'@p = hash_next k@p /\ hash_prev k'@p = hash_prev k@p) ->
  length (buffers k') = length (buffers k) ->
  is_hash_queue k h l -> is_hash_queue k' h l.
Proof.
  intros Hsame Hlen (Hp & Hnd & Hb). split; [|split; [done|]].
  - eapply path_frame; [| |exact Hp]; intros p Hin; by apply Hsame.
  - intros i Hi. rewrite Hlen. auto.
Qed.

(** Taking a buffer out of its hash queue: the queue loses the buffer,
    and the links of what is not in the queue stay. *)
Lemma hash_unlinked_member (k : kernel) (h j : nat) (l1 l2 : list nat) :
  (h < length (hashtab k))%nat ->
  is_hash_queue k h (l1 ++ j :: l2) ->
  let k' := hash_unlinked (Buffers j) k in
  is_hash_queue k' h (l1 ++ l2) /\
  (forall p, p <> Hashtab h -> p ∉ (Buffers <$> (l1 ++ l2)) ->
     hash_next k'@p = hash_next k@p /\ hash_prev k'@p = hash_prev k@p).
Proof.
  intros Hh (Hpath & Hnd & Hb) k'.
  pose proof Hpath as Hsplit. apply path_app in Hsplit as [Hp1 Hp2].
  pose proof (path_prev_in hash_next hash_prev k l1 (Hashtab h) (Buffers j) Hp1) as HP.
  pose proof (path_next hash_next hash_prev k l2 (Buffers j) (Hashtab h) Hp2) as HN.
  set (P := hash_prev k@(Buffers j)) in *.
  set (N := hash_next k@(Buffers j)) in *.
  pose proof Hnd as Hnd'. apply NoDup_app in Hnd' as (Hnd1 & Hdisj & Hnd2).
  apply NoDup_cons in Hnd2 as [Hj2 Hnd2].
  assert (HvP : valid_ptr k P).
  { apply elem_of_cons in HP as [->|HP]; [done|].
    apply list_elem_of_fmap in HP as (x & -> & Hx). apply Hb.
    apply elem_of_app. by left. }
  assert (HPj : P <> Buffers j).
  { intros HPj. rewrite HPj in HP. apply elem_of_cons in HP as [HP|HP]; [done|].
    apply list_elem_of_fmap in HP as (x & [= <-] & Hx).
    apply (Hdisj j Hx). by left. }
  assert (HvN : valid_ptr k N).
  { rewrite HN. destruct l2 as [|n l2]; [done|]. apply Hb.
    apply elem_of_app. right. right. by left. }
  assert (HNin : N = Hashtab h \/ N ∈ (Buffers <$> (l1 ++ l2))).
  { rewrite HN. destruct l2 as [|n l2]; [by left|]. right. simpl.
    apply list_elem_of_fmap. exists n. split; [done|].
    apply elem_of_app. right. by left. }
  assert (HPin : P = Hashtab h \/ P ∈ (Buffers <$> (l1 ++ l2))).
  { apply elem_of_cons in HP as [->|HP]; [by left|]. right.
    rewrite fmap_app. apply elem_of_app. by left. }
  assert (Hu : k' = store N (with_hash_prev P) (store P (with_hash_next N) k)).
  { unfold k', hash_unlinked. cbv zeta. fold P N.
    rewrite (load_store_proj hash_prev) by done. fold P.
    by rewrite load_store_ne by done. }
  rewrite Hu. split.
  - split; [|split].
    + apply (path_remove hash_next hash_prev k _ (Hashtab h) l1 j l2 Hpath Hnd);
        [done|fold P N; by ld|fold P N; by ld|..].
      * intros p Hp. fold P in Hp. by ld.
      * intros p Hp. fold N in Hp. by ld.
    + apply NoDup_app. split; [done|]. split; [|done].
      intros x Hx1 Hx2. apply (Hdisj x Hx1). by right.
    + intros i Hi. rewrite !length_buffers_store. apply Hb.
      apply elem_of_app in Hi as [Hi|Hi]; apply elem_of_app; [by left|].
      right. by right.
  - intros p Hq1 Hq2.
    assert (p <> P) by (intros ->; destruct HPin; done).
    assert (p <> N) by (intros ->; destruct HNin; done).
    split; by ld.
Qed.

(** Taking a buffer that is linked to itself out of its queue changes no
    link. *)
Lemma hash_unlinked_self (k : kernel) (j : nat) (p : bufptr) :
  hash_self k j ->
  hash_next (hash_unlinked (Buffers j) k)@p = hash_next k@p /\
  hash_prev (hash_unlinked (Buffers j) k)@p = hash_prev k@p.
Proof.
  intros [Hn Hp]. unfold hash_unlinked. cbv zeta. rewrite Hn, Hp.
  set (u1 := store (Buffers j) (with_hash_next (Buffers j)) k).
  assert (Hn1 : forall q, hash_next u1@q = hash_next k@q).
  { intros q. unfold u1. apply store_same_proj. by rewrite <- Hn at 1. }
  assert (Hp1 : forall q, hash_prev u1@q = hash_prev k@q).
  { intros q. unfold u1. by apply load_store_proj. }
  rewrite Hn1, Hp1, Hn, Hp. split.
  - rewrite (load_store_proj hash_next) by done. apply Hn1.
  - rewrite <- Hp1. apply store_same_proj. cbn [with_hash_prev hash_prev].
    by rewrite Hp1, Hp.
Qed.

(** The four assignments that put a buffer in front of a hash queue. *)
Lemma hash_inserted_queue (k : kernel) (h j : nat) (l : list nat) :
  (j < length (buffers k))%nat ->
  (h < length (hashtab k))%nat ->
  is_hash_queue k h l -> j ∉ l ->
  let k' := hash_inserted h (Buffers j) k in
  is_hash_queue k' h (j :: l) /\
  (forall p, p <> Hashtab h -> p <> Buffers j -> p ∉ (Buffers <$> l) ->
     hash_next k'@p = hash_next k@p /\ hash_prev k'@p = hash_prev k@p).
Proof.
  intros Hj Hh (Hpath & Hnd & Hb) Hnotin k'.
  pose proof (path_next hash_next hash_prev k l (Hashtab h) (Hashtab h) Hpath) as Hhead.
  set (X := path_head l (Hashtab h)) in *.
  assert (Hvb : valid_ptr k (Buffers j)) by exact Hj.
  assert (Hvh : valid_ptr k (Hashtab h)) by exact Hh.
  assert (HvX : valid_ptr k X).
  { unfold X. destruct l as [|x l]; [done|]. apply Hb. by left. }
  assert (HXj : X <> Buffers j).
  { unfold X. destruct l as [|x l]; [done|]. simpl.
    apply not_elem_of_cons in Hnotin as [? _]. congruence. }
  assert (HXin : X = Hashtab h \/ X ∈ (Buffers <$> l)).
  { unfold X. destruct l as [|x l]; [by left|]. right. simpl. by left. }
  assert (HHj : forall x, Hashtab h <> Buffers x) by done.
  unfold k', hash_inserted. cbv zeta. rewrite Hhead.
  set (k1 := store X (with_hash_prev (Buffers j)) k).
  set (k2 := store (Buffers j) (with_hash_prev (Hashtab h)) k1).
  assert (Hh2 : hash_next k2@(Hashtab h) = X).
  { unfold k2, k1. ld. done. }
  rewrite Hh2.
  set (k3 := store (Buffers j) (with_hash_next X) k2).
  set (k4 := store (Hashtab h) (with_hash_next (Buffers j)) k3).
  split.
  - split; [|split].
    + assert (H1 : hash_next k4@(Hashtab h) = Buffers j) by (unfold k4; by ld).
      assert (H2 : hash_prev k4@(Buffers j) = Hashtab h)
        by (unfold k4, k3, k2; by ld).
      assert (H3 : hash_next k4@(Buffers j) = hash_next k@(Hashtab h))
        by (unfold k4, k3; rewrite Hhead; by ld).
      assert (H4 : hash_prev k4@(hash_next k@(Hashtab h)) = Buffers j)
        by (unfold k4, k3, k2, k1; rewrite Hhead; by ld).
      assert (H5 : forall p, p <> Hashtab h -> p <> Buffers j ->
                hash_next k4@p = hash_next k@p)
        by (intros p Hp1 Hp2; unfold k4, k3, k2, k1; by ld).
      assert (H6 : forall p, p <> Buffers j -> p <> hash_next k@(Hashtab h) ->
                hash_prev k4@p = hash_prev k@p)
        by (intros p Hp1 Hp2; unfold k4, k3, k2, k1; rewrite Hhead in *; by ld).
      exact (path_push hash_next hash_prev k k4 (Hashtab h) j l
               Hpath Hnd Hnotin (HHj j) HHj H1 H2 H3 H4 H5 H6).
    + by apply NoDup_cons.
    + intros x Hx. unfold k4, k3, k2, k1. rewrite !length_buffers_store.
      apply elem_of_cons in Hx as [->|Hx]; auto.
  - intros p Hp1 Hp2 Hp3.
    assert (p <> X) by (intros ->; destruct HXin; done).
    unfold k4, k3, k2, k1. split; by ld.
Qed.

(** The invariant of the hash table depends on the hash links and on
    the device and block numbers only. *)
Lemma cache_inv_ext (k k' : kernel) (qs : nat -> list nat) :
  (forall p, hash_next k'@p = hash_next k@p /\ hash_prev k'@p = hash_prev k@p /\
             dev k'@p = dev k@p /\ num k'@p = num k@p) ->
  length (buffers k') = length (buffers k) ->
  length (hashtab k') = length (hashtab k) ->
  cache_inv k qs -> cache_inv k' qs.
Proof.
  intros Hsame Hlb Hlh (Hq & Hhash & Hself & Huniq).
  split; [|split; [|split]].
  - intros h Hh. rewrite Hlh in Hh.
    apply (is_hash_queue_frame k); [|done|by apply Hq].
    intros p _. destruct (Hsame p) as (? & ? & _). done.
  - intros h j Hh Hj. rewrite Hlh in Hh.
    destruct (Hsame (Buffers j)) as (_ & _ & -> & ->). by apply Hhash.
  - intros j Hj Hno. rewrite Hlb in Hj. rewrite Hlh in Hno.
    unfold hash_self. destruct (Hsame (Buffers j)) as (-> & -> & _).
    by apply Hself.
  - intros h j1 j2 Hh H1 H2. rewrite Hlh in Hh.
    destruct (Hsame (Buffers j1)) as (_ & _ & -> & ->).
    destruct (Hsame (Buffers j2)) as (_ & _ & -> & ->). by apply (Huniq h).
Qed.

(** A buffer of the queues is in one queue only. *)
Lemma cache_inv_one_queue (k : kernel) (qs : nat -> list nat) (h1 h2 j : nat) :
  cache_inv k qs ->
  (h1 < length (hashtab k))%nat -> (h2 < length (hashtab k))%nat ->
  j ∈ qs h1 -> j ∈ qs h2 -> h1 = h2.
Proof.
  intros (_ & Hhash & _) Hh1 Hh2 H1 H2.
  rewrite <- (Hhash h1 j Hh1 H1). by apply Hhash.
Qed.

(** The queues after a buffer has been taken out of its hash queue. *)
Lemma hash_unlinked_queues (k : kernel) (qs : nat -> list nat) (j : nat) :
  cache_inv k qs ->
  (j < length (buffers k))%nat ->
  let k' := hash_unlinked (Buffers j) k in
  (forall h, (h < length (hashtab k))%nat -> is_hash_queue k' h (without j (qs h))) /\
  (forall x, (forall h, (h < length (hashtab k))%nat -> x ∉ qs h) ->
     hash_next k'@(Buffers x) = hash_next k@(Buffers x) /\
     hash_prev k'@(Buffers x) = hash_prev k@(Buffers x)).
Proof.
  intros Hinv Hj k'. pose proof Hinv as (Hq & Hhash & Hself & _).
  assert (Hlen : length (buffers k') = length (buffers k)).
  { by destruct (steps_other (Buffers j) k 0%N 0%N 0) as (_ & _ & _ & (? & _) & _). }
  set (h0 := HASH (dev k@(Buffers j)) (num k@(Buffers j))).
  destruct (decide ((h0 < length (hashtab k))%nat /\ j ∈ qs h0)) as [[Hh0 Hin]|Hno].
  - apply list_elem_of_split in Hin as (l1 & l2 & E).
    pose proof (Hq h0 Hh0) as Hq0. rewrite E in Hq0.
    destruct (hash_unlinked_member k h0 j l1 l2 Hh0 Hq0) as [Hnew Hframe].
    fold k' in Hnew, Hframe.
    assert (Hnd : NoDup (l1 ++ j :: l2)) by (by destruct Hq0 as (_ & ? & _)).
    split.
    + intros h Hh. destruct (decide (h = h0)) as [->|Hne].
      * rewrite E, without_app_cons by done. exact Hnew.
      * assert (Hjh : j ∉ qs h).
        { intros Hjh. apply Hne. rewrite <- (Hhash h j Hh Hjh). done. }
        rewrite without_notin by done.
        apply (is_hash_queue_frame k); [|done|by apply Hq].
        intros p [->|Hp].
        -- apply Hframe; [congruence|].
           intros Hc. apply list_elem_of_fmap in Hc as (x & ? & _). done.
        -- apply list_elem_of_fmap in Hp as (x & -> & Hx).
           apply Hframe; [done|].
           intros Hc. apply list_elem_of_fmap in Hc as (y & [= <-] & Hy).
           apply Hne.
           apply (cache_inv_one_queue k qs h h0 x Hinv Hh Hh0 Hx).
           rewrite E. apply elem_of_app in Hy as [Hy|Hy]; apply elem_of_app;
             [by left|right; by right].
    + intros x Hx. apply Hframe; [done|].
      intros Hc. apply list_elem_of_fmap in Hc as (y & [= <-] & Hy).
      apply (Hx h0 Hh0). rewrite E.
      apply elem_of_app in Hy as [Hy|Hy]; apply elem_of_app;
        [by left|right; by right].
  - assert (Hnone : forall h, (h < length (hashtab k))%nat -> j ∉ qs h).
    { intros h Hh Hjh. apply Hno. pose proof (Hhash h j Hh Hjh) as Eh.
      fold h0 in Eh. subst h. done. }
    pose proof (Hself j Hj Hnone) as Hs.
    split.
    + intros h Hh. rewrite without_notin by auto.
      apply (is_hash_queue_frame k); [|done|by apply Hq].
      intros p _. by apply hash_unlinked_self.
    + intros x _. by apply hash_unlinked_self.
Qed.

(** The move of a buffer to the hash queue of a block that no buffer of
    the queue holds keeps the invariant of the hash table; the buffer is
    then first in the queue of the block. *)
Lemma rehash_cache_inv (k : kernel) (qs : nat -> list nat) (d n : N) (j : nat) :
  let h := HASH d n in
  cache_inv k qs ->
  (j < length (buffers k))%nat ->
  (h < length (hashtab k))%nat ->
  (forall x, x ∈ qs h -> ~ holds k x d n) ->
  let k' := rehash_state d n h (Buffers j) k in
  let qs' := requeued h j qs in
  cache_inv k' qs' /\ holds k' j d n /\
  length (buffers k') = length (buffers k) /\
  length (hashtab k') = length (hashtab k).
Proof.
  intros h Hinv Hj Hh Hfree k' qs'.
  pose proof Hinv as (Hq & Hhash & Hself & Huniq).
  set (J := Buffers j) in *.
  set (ka := hash_unlinked J k).
  set (kb := reassigned d n J ka).
  assert (Hk' : k' = hash_inserted h J kb) by done.
  destruct (hash_unlinked_queues k qs j Hinv Hj) as [HqA HframeA].
  fold J in HqA, HframeA. fold ka in HqA, HframeA.
  destruct (steps_other J k d n h) as (_ & _ & _ & (LbA & LhA & _) & _).
  fold ka in LbA, LhA.
  destruct (steps_other J ka d n h) as (_ & _ & _ & _ & (LbB & LhB & _) & _).
  fold kb in LbB, LhB.
  destruct (steps_other J kb d n h) as (_ & _ & _ & _ & _ & (LbC & LhC & _)).
  rewrite <- Hk' in LbC, LhC.
  assert (HvA : valid_ptr ka J) by (unfold ka; eauto with valid).
  destruct (reassigned_buf d n J ka HvA) as (Bd & Bn & _). fold kb in Bd, Bn.
  assert (HidB : forall x, x <> j ->
            dev kb@(Buffers x) = dev k@(Buffers x) /\
            num kb@(Buffers x) = num k@(Buffers x)).
  { intros x Hx. assert (Hne : Buffers x <> J) by (unfold J; congruence).
    unfold kb. destruct (step_ne J (Buffers x) ka d n Hne) as (_ & _ & ->).
    unfold ka. by rewrite (hash_unlinked_proj dev), (hash_unlinked_proj num). }
  assert (HlinkB : forall p, hash_next kb@p = hash_next ka@p /\
                             hash_prev kb@p = hash_prev ka@p).
  { intros p. unfold kb.
    by rewrite (reassigned_proj hash_next), (reassigned_proj hash_prev). }
  assert (HqB : forall h', (h' < length (hashtab k))%nat ->
            is_hash_queue kb h' (without j (qs h'))).
  { intros h' Hh'. apply (is_hash_queue_frame ka); [|done|by apply HqA].
    intros p _. apply HlinkB. }
  assert (Hjout : j ∉ without j (qs h)).
  { intros Hc. apply elem_of_without in Hc as [_ ?]. done. }
  destruct (hash_inserted_queue kb h j (without j (qs h))) as [HqC HframeC];
    [by rewrite LbB, LbA|by rewrite LhB, LhA|by apply HqB|done|].
  fold J in HqC, HframeC. rewrite <- Hk' in HqC, HframeC.
  assert (HidC : forall p, dev k'@p = dev kb@p /\ num k'@p = num kb@p).
  { intros p. rewrite Hk'.
    by rewrite (hash_inserted_proj dev), (hash_inserted_proj num). }
  assert (Hmem : forall h' x, x ∈ qs' h' -> x = j /\ h' = h \/ x <> j /\ x ∈ qs h').
  { intros h' x. unfold qs', requeued. destruct (decide (h' = h)) as [->|Hne].
    - intros Hx. apply elem_of_cons in Hx as [->|Hx]; [by left|].
      apply elem_of_without in Hx. right. tauto.
    - intros Hx. apply elem_of_without in Hx. right. tauto. }
  assert (Hmem' : forall h' x, x <> j -> x ∈ qs h' -> x ∈ qs' h').
  { intros h' x Hx Hin. unfold qs', requeued. destruct (decide (h' = h)) as [->|Hne].
    - right. by apply elem_of_without.
    - by apply elem_of_without. }
  assert (Hjin : j ∈ qs' h).
  { unfold qs', requeued. rewrite decide_True by done. by left. }
  assert (Hid : forall x, x <> j ->
            dev k'@(Buffers x) = dev k@(Buffers x) /\
            num k'@(Buffers x) = num k@(Buffers x)).
  { intros x Hx. destruct (HidC (Buffers x)) as [-> ->]. by apply HidB. }
  assert (Hidj : holds k' j d n).
  { unfold holds. fold J. destruct (HidC J) as [-> ->]. done. }
  split; [|split; [done|split; congruence]].
  split; [|split; [|split]].
  - intros h' Hh'. rewrite LhC, LhB, LhA in Hh'.
    unfold qs', requeued. destruct (decide (h' = h)) as [->|Hne]; [done|].
    apply (is_hash_queue_frame kb); [|done|by apply HqB].
    intros p [->|Hp].
    + apply HframeC; [congruence|done|].
      intros Hc. apply list_elem_of_fmap in Hc as (x & ? & _). done.
    + apply list_elem_of_fmap in Hp as (x & -> & Hx).
      apply elem_of_without in Hx as [Hx Hxj].
      apply HframeC; [done|unfold J; congruence|].
      intros Hc. apply list_elem_of_fmap in Hc as (y & [= <-] & Hy).
      apply elem_of_without in Hy as [Hy _].
      apply Hne. by apply (cache_inv_one_queue k qs h' h x).
  - intros h' x Hh' Hx. rewrite LhC, LhB, LhA in Hh'.
    destruct (Hmem h' x Hx) as [[-> ->]|[Hne Hin]].
    + destruct Hidj as [-> ->]. done.
    + destruct (Hid x Hne) as [-> ->]. by apply Hhash.
  - intros x Hx Hno. rewrite LbC, LbB, LbA in Hx. rewrite LhC, LhB, LhA in Hno.
    assert (Hxj : x <> j) by (intros ->; by apply (Hno h Hh)).
    assert (Hxno : forall h', (h' < length (hashtab k))%nat -> x ∉ qs h').
    { intros h' Hh' Hin. apply (Hno h' Hh'). by apply Hmem'. }
    destruct (Hself x Hx Hxno) as [Sn Sp].
    destruct (HframeA x Hxno) as [An Ap].
    destruct (HlinkB (Buffers x)) as [Bn' Bp'].
    destruct (HframeC (Buffers x)) as [Cn Cp]; [done|unfold J; congruence| |].
    { intros Hc. apply list_elem_of_fmap in Hc as (y & [= <-] & Hy).
      apply elem_of_without in Hy as [Hy _]. by apply (Hxno h Hh). }
    unfold hash_self. rewrite Cn, Cp, Bn', Bp', An, Ap. done.
  - intros h' x1 x2 Hh' H1 H2 Ed En. rewrite LhC, LhB, LhA in Hh'.
    destruct (Hmem h' x1 H1) as [[-> E1]|[Hne1 Hin1]],
             (Hmem h' x2 H2) as [[-> E2]|[Hne2 Hin2]]; try done.
    + exfalso. subst h'. apply (Hfree x2 Hin2).
      destruct (Hid x2 Hne2) as [Ed2 En2]. destruct Hidj as [Dj Nj].
      unfold holds. split; congruence.
    + exfalso. subst h'. apply (Hfree x1 Hin1).
      destruct (Hid x1 Hne1) as [Ed1 En1]. destruct Hidj as [Dj Nj].
      unfold holds. split; congruence.
    + destruct (Hid x1 Hne1) as [Ed1 En1]. destruct (Hid x2 Hne2) as [Ed2 En2].
      apply (Huniq h' x1 x2 Hh' Hin1 Hin2); congruence.
Qed.

(** ** getblk and the hash table *)

(** The two ways in which getblk returns a buffer. *)
Lemma getblk_done (k : kernel) (d n : N) (l lf : list nat) (j : nat) :
  flags_distinct ->
  (0 < BUFFERS_HASHTAB_SIZE)%nat ->
  length (buffers k) = NR_BUFFERS ->
  length (hashtab k) = BUFFERS_HASHTAB_SIZE ->
  is_hash_queue k (HASH d n) l ->
  is_free_list k lf ->
  outcome (getblk d n k) = Done (Buffers j) ->
  let k0 := with_interrupts false k in
  (j < length (buffers k))%nat /\
  flag_set (flags k@(Buffers j)) BUFFER_LOCKED = false /\
  ((lookup_block k d n l = Some j /\
    final (getblk d n k) = found_state (Buffers j) k0) \/
   (lookup_block k d n l = None /\
    (exists lf', lf = j :: lf') /\
    flag_set (flags k@(Buffers j)) BUFFER_DIRTY = false /\
    final (getblk d n k) = miss_state d n (HASH d n) (Buffers j) k0)).
Proof.
  intros Hflags Hsize Hnb Hnh Hq Hfl Hdone k0.
  pose proof (getblk_cases k d n l lf Hflags Hsize Hnb Hnh Hq Hfl) as Hc.
  cbv zeta in Hc. fold k0 in Hc.
  destruct ((d =? 0)%N && (n =? 0)%N).
  { apply res_outcome_final in Hc as [Ho _]. congruence. }
  destruct (lookup_block k d n l) as [b|] eqn:Hlook.
  - destruct (lookup_block_Some k d n l b Hlook) as (h1 & h2 & El & _).
    assert (Hb : (b < length (buffers k))%nat).
    { destruct Hq as (_ & _ & Hbnd). apply Hbnd. rewrite El.
      apply elem_of_app. right. by left. }
    destruct (flag_set (flags k@(Buffers b)) BUFFER_LOCKED) eqn:Hl.
    { apply res_outcome_final in Hc as [Ho _]. congruence. }
    apply res_outcome_final in Hc as [Ho Hf].
    assert (b = j) by congruence. subst b.
    split; [done|]. split; [done|]. left. by split.
  - destruct lf as [|b lf'].
    { apply res_outcome_final in Hc as [Ho _]. congruence. }
    cbv zeta in Hc.
    assert (Hb : (b < length (buffers k))%nat).
    { destruct Hfl as (_ & _ & Hbnd). apply Hbnd. by left. }
    destruct (flag_set (flags k@(Buffers b)) BUFFER_DIRTY) eqn:Hd.
    { apply res_outcome_final in Hc as [Ho _]. congruence. }
    destruct (flag_set (flags k@(Buffers b)) BUFFER_LOCKED) eqn:Hl.
    { apply res_outcome_final in Hc as [Ho _]. congruence. }
    apply res_outcome_final in Hc as [Ho Hf].
    assert (b = j) by congruence. subst b.
    split; [done|]. split; [done|]. right.
    split; [done|]. split; [by exists lf'|]. by split.
Qed.

Lemma miss_state_unfold (d n : N) (h : nat) (buf : bufptr) (k : kernel) :
  miss_state d n h buf k =
    with_interrupts true (locked buf (rehash_state d n h buf (victim_state buf k))).
Proof. reflexivity. Qed.

Lemma lookup_block_ext (k k' : kernel) (d n : N) (l : list nat) :
  (forall x, x ∈ l -> dev k'@(Buffers x) = dev k@(Buffers x) /\
                      num k'@(Buffers x) = num k@(Buffers x)) ->
  lookup_block k' d n l = lookup_block k d n l.
Proof.
  induction l as [|x l IH]; intros H; [done|]. simpl.
  rewrite IH by (intros y Hy; apply H; by right).
  destruct (H x (list_elem_of_here _ _)) as [Hd Hn].
  destruct (decide (holds k' x d n)) as [H1|H1], (decide (holds k x d n)) as [H2|H2];
    try done; unfold holds in *; rewrite Hd, Hn in H1; tauto.
Qed.

(** The hash table after a hit. *)
Lemma found_state_cache_inv (k : kernel) (qs : nat -> list nat) (d n : N) (j : nat) :
  BUFFER_LOCKED <> 0 ->
  cache_inv k qs ->
  (j < length (buffers k))%nat ->
  lookup_block k d n (qs (HASH d n)) = Some j ->
  cache_inv (found_state (Buffers j) k) qs /\
  lookup_block (found_state (Buffers j) k) d n (qs (HASH d n)) = Some j /\
  flag_set (flags (found_state (Buffers j) k)@(Buffers j)) BUFFER_LOCKED = true /\
  length (buffers (found_state (Buffers j) k)) = length (buffers k) /\
  length (hashtab (found_state (Buffers j) k)) = length (hashtab k).
Proof.
  intros HL Hinv Hj Hlook.
  destruct (found_state_facts k (Buffers j) Hj)
    as (F1 & _ & F3 & _ & _ & _ & F7 & F8).
  split; [|split; [|split; [|by split]]].
  - apply (cache_inv_ext k); [|done..]. intros p.
    destruct (F3 p) as (? & ? & ? & ?). done.
  - rewrite <- Hlook. apply lookup_block_ext. intros x _.
    by destruct (F3 (Buffers x)) as (-> & -> & _).
  - rewrite F1. by apply flag_set_on.
Qed.

Lemma with_interrupts_shape (b : bool) (k : kernel) :
  buffers (with_interrupts b k) = buffers k /\
  hashtab (with_interrupts b k) = hashtab k /\
  io_log (with_interrupts b k) = io_log k /\
  interrupts (with_interrupts b k) = b.
Proof. done. Qed.

(** The hash table after a miss. *)
Lemma miss_state_cache_inv (k : kernel) (qs : nat -> list nat) (d n : N) (j : nat) :
  BUFFER_LOCKED <> 0 ->
  cache_inv k qs ->
  (j < length (buffers k))%nat ->
  (HASH d n < length (hashtab k))%nat ->
  lookup_block k d n (qs (HASH d n)) = None ->
  let qs' := requeued (HASH d n) j qs in
    cache_inv (miss_state d n (HASH d n) (Buffers j) k) qs' /\
    lookup_block (miss_state d n (HASH d n) (Buffers j) k) d n (qs' (HASH d n))
      = Some j /\
    flag_set (flags (miss_state d n (HASH d n) (Buffers j) k)@(Buffers j))
      BUFFER_LOCKED = true /\
    length (buffers (miss_state d n (HASH d n) (Buffers j) k)) = length (buffers k) /\
    length (hashtab (miss_state d n (HASH d n) (Buffers j) k)) = length (hashtab k).
Proof.
  intros HL Hinv Hj Hh Hlook qs'. rewrite miss_state_unfold.
  set (kv := victim_state (Buffers j) k).
  assert (Hvproj : forall (A : Type) (proj : buffer -> A) q,
            (forall v b, proj (with_free_next v b) = proj b) ->
            (forall v b, proj (with_free_prev v b) = proj b) ->
            (forall v b, proj (with_count v b) = proj b) ->
            proj kv@q = proj k@q).
  { intros A proj q H1 H2 H3. unfold kv, victim_state.
    rewrite (counted_proj proj) by exact H3. by rewrite (unlinked_proj proj). }
  destruct (steps_other (Buffers j) k d n 0) as ((LbU & LhU & _) & _).
  destruct (steps_other (Buffers j) (unlinked (Buffers j) k) d n 0)
    as (_ & (LbV & LhV & _) & _).
  assert (Lb : length (buffers kv) = length (buffers k)).
  { unfold kv, victim_state. rewrite LbV. exact LbU. }
  assert (Lh : length (hashtab kv) = length (hashtab k)).
  { unfold kv, victim_state. rewrite LhV. exact LhU. }
  assert (Hinvv : cache_inv kv qs).
  { apply (cache_inv_ext k); [|exact Lb|exact Lh|exact Hinv]. intros p.
    rewrite (Hvproj _ hash_next), (Hvproj _ hash_prev), (Hvproj _ dev),
      (Hvproj _ num) by (intros; reflexivity). tauto. }
  assert (Hfree : forall x, x ∈ qs (HASH d n) -> ~ holds kv x d n).
  { intros x Hx. unfold holds.
    rewrite (Hvproj _ dev), (Hvproj _ num) by (intros; reflexivity).
    by apply (lookup_block_None k d n (qs (HASH d n))). }
  assert (Hjv : (j < length (buffers kv))%nat) by (rewrite Lb; exact Hj).
  assert (Hhv : (HASH d n < length (hashtab kv))%nat) by (rewrite Lh; exact Hh).
  pose proof (rehash_cache_inv kv qs d n j Hinvv Hjv Hhv Hfree) as Hre.
  cbv zeta in Hre. destruct Hre as (Hinv' & Hhold & Lb' & Lh').
  set (km := rehash_state d n (HASH d n) (Buffers j) kv) in *.
  set (kl := locked (Buffers j) km).
  destruct (steps_other (Buffers j) km d n 0) as (_ & _ & (LbL & LhL & _) & _).
  fold kl in LbL, LhL.
  destruct (with_interrupts_shape true kl) as (Wb & Wh & _).
  assert (Hlproj : forall (A : Type) (proj : buffer -> A) q,
            (forall v b, proj (with_flags v b) = proj b) ->
            proj (with_interrupts true kl)@q = proj km@q).
  { intros A proj q H1. rewrite load_with_interrupts. unfold kl.
    apply locked_proj. exact H1. }
  split; [|split; [|split; [|split]]].
  - apply (cache_inv_ext km); [| | |exact Hinv'].
    + intros p. rewrite (Hlproj _ hash_next), (Hlproj _ hash_prev),
        (Hlproj _ dev), (Hlproj _ num) by (intros; reflexivity). tauto.
    + rewrite Wb. exact LbL.
    + rewrite Wh. exact LhL.
  - unfold qs', requeued. rewrite decide_True by reflexivity. cbn [lookup_block].
    rewrite decide_True; [reflexivity|]. unfold holds.
    rewrite (Hlproj _ dev), (Hlproj _ num) by (intros; reflexivity). exact Hhold.
  - rewrite load_with_interrupts. unfold kl. rewrite flags_locked.
    + by apply flag_set_on.
    + unfold km, rehash_state. apply valid_hash_inserted, valid_reassigned,
        valid_hash_unlinked. exact Hjv.
  - rewrite Wb, LbL, Lb'. exact Lb.
  - rewrite Wh, LhL, Lh'. exact Lh.
Qed.

(** getblk keeps the invariant of the hash table when it returns a
    buffer, and the buffer is the one that a search of the queue of the
    block finds. *)
Lemma getblk_cache_inv (k : kernel) (d n : N) (qs : nat -> list nat) (lf : list nat)
    (j : nat) :
  flags_distinct ->
  (0 < BUFFERS_HASHTAB_SIZE)%nat ->
  length (buffers k) = NR_BUFFERS ->
  length (hashtab k) = BUFFERS_HASHTAB_SIZE ->
  cache_inv k qs ->
  is_free_list k lf ->
  outcome (getblk d n k) = Done (Buffers j) ->
  exists qs',
    cache_inv (final (getblk d n k)) qs' /\
    lookup_block (final (getblk d n k)) d n (qs' (HASH d n)) = Some j /\
    flag_set (flags (final (getblk d n k))@(Buffers j)) BUFFER_LOCKED = true /\
    length (buffers (final (getblk d n k))) = length (buffers k) /\
    length (hashtab (final (getblk d n k))) = length (hashtab k).
Proof.
  intros Hflags Hsize Hnb Hnh Hinv Hfl Hdone.
  assert (Hh : (HASH d n < length (hashtab k))%nat).
  { rewrite Hnh. by apply HASH_in_range. }
  pose proof Hinv as (Hq & _).
  destruct (getblk_done k d n (qs (HASH d n)) lf j Hflags Hsize Hnb Hnh
              (Hq _ Hh) Hfl Hdone) as (Hj & Hunl & Hcase).
  destruct Hflags as (_ & HL & _).
  assert (Hinv0 : cache_inv (with_interrupts false k) qs).
  { apply (cache_inv_ext k); [|done..]. intros p. by rewrite load_with_interrupts. }
  assert (Hlook0 : lookup_block (with_interrupts false k) d n (qs (HASH d n))
                   = lookup_block k d n (qs (HASH d n))).
  { apply lookup_block_with_interrupts. }
  destruct Hcase as [[Hlook Hf]|(Hlook & _ & _ & Hf)]; rewrite Hf.
  - destruct (found_state_cache_inv (with_interrupts false k) qs d n j HL Hinv0)
      as (A & B & C & D & E); [exact Hj|by rewrite Hlook0|].
    exists qs. split; [exact A|]. split; [exact B|]. split; [exact C|].
    split; [exact D|exact E].
  - destruct (miss_state_cache_inv (with_interrupts false k) qs d n j HL Hinv0)
      as (A & B & C & D & E); [exact Hj|exact Hh|by rewrite Hlook0|].
    exists (requeued (HASH d n) j qs). split; [exact A|]. split; [exact B|]. split; [exact C|].
    split; [exact D|exact E].
Qed.

(** The queues after getblk has taken a buffer for a block that was
    not in the cache. *)
Lemma getblk_miss_cache_inv (k : kernel) (d n : N) (qs : nat -> list nat)
    (lf : list nat) (j : nat) :
  flags_distinct ->
  (0 < BUFFERS_HASHTAB_SIZE)%nat ->
  length (buffers k) = NR_BUFFERS ->
  length (hashtab k) = BUFFERS_HASHTAB_SIZE ->
  cache_inv k qs ->
  is_free_list k lf ->
  lookup_block k d n (qs (HASH d n)) = None ->
  outcome (getblk d n k) = Done (Buffers j) ->
  cache_inv (final (getblk d n k)) (requeued (HASH d n) j qs).
Proof.
  intros Hflags Hsize Hnb Hnh Hinv Hfl Hlook Hdone.
  assert (Hh : (HASH d n < length (hashtab k))%nat).
  { rewrite Hnh. by apply HASH_in_range. }
  pose proof Hinv as (Hq & _).
  destruct (getblk_done k d n (qs (HASH d n)) lf j Hflags Hsize Hnb Hnh
              (Hq _ Hh) Hfl Hdone) as (Hj & Hunl & Hcase).
  destruct Hflags as (_ & HL & _).
  assert (Hinv0 : cache_inv (with_interrupts false k) qs).
  { apply (cache_inv_ext k); [|done..]. intros p. by rewrite load_with_interrupts. }
  destruct Hcase as [[Hlook' _]|(_ & _ & _ & Hf)]; [congruence|]. rewrite Hf.
  destruct (miss_state_cache_inv (with_interrupts false k) qs d n j HL Hinv0)
    as (A & _); [exact Hj|exact Hh| |exact A].
  by rewrite lookup_block_with_interrupts.
Qed.

(** ** Writing a buffer back *)

Lemma free_list_inv_ext (k k' : kernel) (lf : list nat) :
  (forall p, free_next k'@p = free_next k@p /\ free_prev k'@p = free_prev k@p /\
             count k'@p = count k@p) ->
  length (buffers k') = length (buffers k) ->
  free_list_inv k lf -> free_list_inv k' lf.
Proof.
  intros Hsame Hlen [Hfl Hc]. split.
  - apply (is_free_list_ext k); [| |done|done]; intros p; by destruct (Hsame p) as (? & ? & ?).
  - intros i Hi. rewrite Hlen in Hi. destruct (Hsame (Buffers i)) as (_ & _ & ->).
    by apply Hc.
Qed.

Lemma counts_in_range_ext (k k' : kernel) :
  (forall i, count k'@(Buffers i) = count k@(Buffers i)) ->
  length (buffers k') = length (buffers k) ->
  counts_in_range k -> counts_in_range k'.
Proof. intros Hsame Hlen Hc i Hi. rewrite Hsame. apply Hc. by rewrite <- Hlen. Qed.

(** A buffer gets one more reference, and leaves the free list if it
    had none: the statements [if (buf->count++ == 0) ...] of getblk and
    of bsync. *)
Lemma taken_free_list_inv (k : kernel) (j : nat) (lf : list nat) :
  free_list_inv k lf ->
  counts_in_range k ->
  (j < length (buffers k))%nat ->
  let k' := if count k@(Buffers j) =? 0
            then unlinked (Buffers j) (counted (Buffers j) k)
            else counted (Buffers j) k in
  (exists lf', free_list_inv k' lf') /\
  count k'@(Buffers j) = count k@(Buffers j) + 1 /\
  (forall q, q <> Buffers j -> count k'@q = count k@q) /\
  length (buffers k') = length (buffers k) /\
  length (hashtab k') = length (hashtab k) /\
  io_log k' = io_log k /\
  (forall (A : Type) (proj : buffer -> A) q,
     (forall v b, proj (with_free_next v b) = proj b) ->
     (forall v b, proj (with_free_prev v b) = proj b) ->
     (forall v b, proj (with_count v b) = proj b) ->
     proj k'@q = proj k@q).
Proof.
  intros Hinv Hrange Hj k'. pose proof Hinv as [Hfl Hcounts].
  assert (Hproj : forall (A : Type) (proj : buffer -> A) q,
     (forall v b, proj (with_free_next v b) = proj b) ->
     (forall v b, proj (with_free_prev v b) = proj b) ->
     (forall v b, proj (with_count v b) = proj b) ->
     proj k'@q = proj k@q).
  { intros A proj q H1 H2 H3. unfold k'. destruct (count k@(Buffers j) =? 0).
    - rewrite (unlinked_proj proj) by done. by rewrite (counted_proj proj).
    - by rewrite (counted_proj proj). }
  assert (Hwrap : wrap_int (count k@(Buffers j) + 1) = count k@(Buffers j) + 1).
  { specialize (Hrange j Hj). apply wrap_int_id.
    unfold in_int, INT_MIN, INT_MAX in *. lia. }
  assert (Hcj : count k'@(Buffers j) = count k@(Buffers j) + 1).
  { unfold k'. destruct (count k@(Buffers j) =? 0).
    - rewrite (unlinked_proj count) by done. by rewrite count_counted.
    - by rewrite count_counted. }
  assert (Hco : forall q, q <> Buffers j -> count k'@q = count k@q).
  { intros q Hq. unfold k'. destruct (count k@(Buffers j) =? 0).
    - rewrite (unlinked_proj count) by done.
      by destruct (step_ne (Buffers j) q k 0%N 0%N Hq) as (-> & _).
    - by destruct (step_ne (Buffers j) q k 0%N 0%N Hq) as (-> & _). }
  destruct (steps_other (Buffers j) k 0%N 0%N 0) as (_ & (Lb1 & Lh1 & Li1) & _).
  destruct (steps_other (Buffers j) (counted (Buffers j) k) 0%N 0%N 0)
    as ((Lb2 & Lh2 & Li2) & _).
  assert (Hother : length (buffers k') = length (buffers k) /\
                   length (hashtab k') = length (hashtab k) /\
                   io_log k' = io_log k).
  { unfold k'. destruct (count k@(Buffers j) =? 0); repeat split; congruence. }
  destruct Hother as (Lb & Lh & Li).
  split; [|by repeat split].
  assert (Hfc : is_free_list (counted (Buffers j) k) lf).
  { apply (is_free_list_ext k); [intros; by apply counted_proj..|done|done]. }
  assert (Hlist : exists lf', is_free_list k' lf' /\
                    forall i, i ∈ lf' <-> i ∈ lf /\ i <> j).
  { unfold k'. destruct (count k@(Buffers j) =? 0) eqn:Hzero.
    - apply Z.eqb_eq in Hzero. apply (Hcounts j Hj) in Hzero.
      apply list_elem_of_split in Hzero as (l1 & l2 & ->).
      exists (l1 ++ l2). split; [by apply unlinked_free_list|].
      destruct Hfl as (_ & Hnd & _).
      apply NoDup_app in Hnd as (_ & Hdisj & Hnd2).
      apply NoDup_cons in Hnd2 as [Hb2 _].
      intros i. rewrite !elem_of_app, elem_of_cons. split; [|tauto].
      intros [Hi|Hi]; (split; [tauto|]); intros ->; [|done].
      apply (Hdisj j Hi). by left.
    - apply Z.eqb_neq in Hzero. exists lf. split; [done|].
      intros i. split; [|tauto]. intros Hi. split; [done|]. intros ->.
      by apply (Hcounts j Hj) in Hi. }
  destruct Hlist as (lf' & Hfl' & Hmem). exists lf'.
  apply (take_free_list_inv k k' j lf lf' Hinv Hrange); try done.
  intros i Hi. apply Hco. congruence.
Qed.

Lemma res_bdev_writeblk (k : kernel) (buf : bufptr) :
  res (bdev_writeblk buf) k =
    res (brelse buf)
      (store buf (with_flags (Z.land (flags k@buf) (Z.lnot BUFFER_DIRTY)))
         (with_io_log (io_log k ++ [DevWrite (dev k@buf) (num k@buf)]) k)).
Proof.
  unfold bdev_writeblk. rewrite !res_bind_stmt. by rewrite load_with_io_log.
Qed.

(** The model of bdev_writeblk on a referenced buffer: one write
    request, the buffer is clean, released and unlocked. *)
Lemma bdev_writeblk_effect (k : kernel) (i : nat) (lf : list nat) :
  (i < length (buffers k))%nat ->
  1 <= count k@(Buffers i) ->
  free_list_inv k lf ->
  let r := bdev_writeblk (Buffers i) k in
  outcome r = Done tt /\
  (exists lf', free_list_inv (final r) lf') /\
  io_log (final r) = io_log k ++ [DevWrite (dev k@(Buffers i)) (num k@(Buffers i))] /\
  flags (final r)@(Buffers i)
    = Z.land (Z.land (flags k@(Buffers i)) (Z.lnot BUFFER_DIRTY)) (Z.lnot BUFFER_LOCKED) /\
  count (final r)@(Buffers i) = count k@(Buffers i) - 1 /\
  (forall q, dev (final r)@q = dev k@q /\ num (final r)@q = num k@q /\
             hash_next (final r)@q = hash_next k@q /\
             hash_prev (final r)@q = hash_prev k@q) /\
  (forall q, q <> Buffers i ->
     flags (final r)@q = flags k@q /\ count (final r)@q = count k@q) /\
  length (buffers (final r)) = length (buffers k) /\
  length (hashtab (final r)) = length (hashtab k).
Proof.
  intros Hi Hc1 Hinv r.
  set (kw := store (Buffers i)
               (with_flags (Z.land (flags k@(Buffers i)) (Z.lnot BUFFER_DIRTY)))
               (with_io_log (io_log k ++ [DevWrite (dev k@(Buffers i))
                                            (num k@(Buffers i))]) k)).
  pose proof (res_bdev_writeblk k (Buffers i)) as Hres. fold kw in Hres.
  apply res_outcome_final in Hres as [Ho Hf]. fold r in Ho, Hf.
  assert (Hv : valid_ptr k (Buffers i)) by exact Hi.
  assert (Hkw : forall (A : Type) (proj : buffer -> A) q,
            (forall v b, proj (with_flags v b) = proj b) -> proj kw@q = proj k@q).
  { intros A proj q H. unfold kw. rewrite (load_store_proj proj) by done.
    by rewrite load_with_io_log. }
  assert (Lb : length (buffers kw) = length (buffers k))
    by (unfold kw; by rewrite length_buffers_store).
  assert (Lh : length (hashtab kw) = length (hashtab k))
    by (unfold kw; by rewrite length_hashtab_store).
  assert (Hinvw : free_list_inv kw lf).
  { apply (free_list_inv_ext k); [|done..]. intros p.
    by rewrite (Hkw _ free_next), (Hkw _ free_prev), (Hkw _ count). }
  assert (Hcw : 1 <= count kw@(Buffers i)) by (by rewrite Hkw).
  assert (Hiw : (i < length (buffers kw))%nat) by (by rewrite Lb).
  destruct (brelse_free_list_inv kw i lf Hiw Hcw Hinvw) as [Hob Hinv'].
  destruct Hinvw as [_ Hcounts]. destruct (Hcounts i Hiw) as [[_ Hmax] _].
  assert (Hcount : 1 <= count kw@(Buffers i) <= INT_MAX) by lia.
  destruct (brelse_fields kw (Buffers i) Hiw Hcount)
    as (_ & Hid & Hfl & Hcnt & Hlog & Lb' & Lh' & Hoth).
  rewrite Ho, Hf. split; [done|]. split; [done|].
  split.
  { rewrite Hlog. unfold kw. by rewrite io_log_store. }
  split.
  { rewrite Hfl. unfold kw. rewrite load_store_eq; [done|].
    by apply valid_with_io_log. }
  split; [by rewrite Hcnt, Hkw|].
  split.
  { intros q. destruct (Hid q) as (-> & -> & -> & ->).
    by rewrite (Hkw _ dev), (Hkw _ num), (Hkw _ hash_next), (Hkw _ hash_prev). }
  split.
  { intros q Hq. destruct (Hoth q Hq) as [-> ->]. split; [|by rewrite Hkw].
    unfold kw. by rewrite load_store_ne, load_with_io_log by done. }
  split; congruence.
Qed.

Lemma brelse_curr_proc (k : kernel) (buf : bufptr) :
  curr_proc (final (brelse buf k)) = curr_proc k.
Proof.
  pose proof (brelse_run k buf) as Hrun. cbv zeta in Hrun.
  set (k1 := store buf (with_count (wrap_int (count k@buf - 1)))
               (with_interrupts false k)) in *.
  set (kw := with_any_free_chain [] (wake (any_free_chain k1) k1)) in *.
  assert (H1 : curr_proc k1 = curr_proc k) by (unfold k1; by rewrite curr_proc_store).
  assert (Hw : curr_proc kw = curr_proc k).
  { unfold kw. cbn [with_any_free_chain curr_proc].
    destruct (wake_other (any_free_chain k1) k1) as (_ & -> & _). exact H1. }
  set (k2 := if count k1@buf =? 0 then _ else _) in Hrun.
  assert (H2 : curr_proc k2 = curr_proc k).
  { unfold k2. destruct (count k1@buf =? 0); [|exact H1].
    destruct (_ && _); rewrite !curr_proc_store; exact Hw. }
  destruct (count k2@buf <? 0); apply res_outcome_final in Hrun as [_ ->].
  - exact H2.
  - cbn [with_interrupts curr_proc].
    destruct (blkunlock_other k2 buf) as (_ & _ & -> & _). exact H2.
Qed.

Lemma bdev_writeblk_curr_proc (k : kernel) (buf : bufptr) :
  curr_proc (final (bdev_writeblk buf k)) = curr_proc k.
Proof.
  pose proof (res_bdev_writeblk k buf) as Hres.
  apply res_outcome_final in Hres as [_ ->].
  rewrite brelse_curr_proc. by rewrite curr_proc_store.
Qed.

Lemma steps_curr_proc (buf : bufptr) (k : kernel) :
  curr_proc (unlinked buf k) = curr_proc k /\
  curr_proc (counted buf k) = curr_proc k /\
  curr_proc (locked buf k) = curr_proc k.
Proof. unfold unlinked, counted, locked. cbv zeta. repeat split; by ko. Qed.

(** ** bsync *)

(** One iteration of the loop of bsync, on a buffer that is not
    locked. *)
Lemma bsync_buffer_effect (k : kernel) (i : nat) (lf : list nat) :
  flags_distinct ->
  (i < length (buffers k))%nat ->
  free_list_inv k lf ->
  counts_in_range k ->
  flag_set (flags k@(Buffers i)) BUFFER_LOCKED = false ->
  let r := bsync_buffer (Buffers i) k in
  let valid := flag_set (flags k@(Buffers i)) BUFFER_VALID in
  outcome r = Done tt /\
  (exists lf', free_list_inv (final r) lf') /\
  io_log (final r) =
    io_log k ++ (if valid then [DevWrite (dev k@(Buffers i)) (num k@(Buffers i))]
                 else []) /\
  flag_set (flags (final r)@(Buffers i)) BUFFER_LOCKED = false /\
  flag_set (flags (final r)@(Buffers i)) BUFFER_VALID = valid /\
  flag_set (flags (final r)@(Buffers i)) BUFFER_DIRTY =
    (if valid then false else flag_set (flags k@(Buffers i)) BUFFER_DIRTY) /\
  (forall q, dev (final r)@q = dev k@q /\ num (final r)@q = num k@q /\
             hash_next (final r)@q = hash_next k@q /\
             hash_prev (final r)@q = hash_prev k@q /\
             count (final r)@q = count k@q) /\
  (forall q, q <> Buffers i -> flags (final r)@q = flags k@q) /\
  length (buffers (final r)) = length (buffers k) /\
  length (hashtab (final r)) = length (hashtab k) /\
  curr_proc (final r) = curr_proc k.
Proof.
  intros (_ & _ & _ & HVL & HDL & HDV) Hi Hinv Hrange Hunl r valid.
  assert (Hv : valid_ptr k (Buffers i)) by exact Hi.
  set (kl := locked (Buffers i) k).
  assert (Hlock : res (blklock (Buffers i)) k = (Done tt, kl)).
  { rewrite res_blklock. by rewrite Hunl. }
  assert (Hlp : forall (A : Type) (proj : buffer -> A) q,
            (forall v b, proj (with_flags v b) = proj b) -> proj kl@q = proj k@q).
  { intros A proj q H. by apply locked_proj. }
  assert (Hlf : flags kl@(Buffers i) = Z.lor (flags k@(Buffers i)) BUFFER_LOCKED)
    by (by apply flags_locked).
  assert (Hlne : forall q, q <> (Buffers i) -> kl@q = k@q).
  { intros q Hq. unfold kl. by destruct (step_ne (Buffers i) q k 0%N 0%N Hq) as (_ & -> & _). }
  destruct (steps_other (Buffers i) k 0%N 0%N 0) as (_ & _ & (Lbl & Lhl & Lil & _) & _).
  fold kl in Lbl, Lhl, Lil.
  assert (Hvl : valid_ptr kl (Buffers i)) by (unfold kl; eauto with valid).
  assert (Hinvl : free_list_inv kl lf).
  { apply (free_list_inv_ext k); [|done..]. intros p.
    by rewrite (Hlp _ free_next), (Hlp _ free_prev), (Hlp _ count). }
  assert (Hrangel : counts_in_range kl).
  { apply (counts_in_range_ext k); [|done..]. intros x. by rewrite Hlp. }
  assert (Hvalid : flag_set (flags kl@(Buffers i)) BUFFER_VALID = valid).
  { rewrite Hlf. by apply flag_set_other. }
  assert (Hres : res (bsync_buffer (Buffers i)) k =
            if valid
            then res (bdev_writeblk (Buffers i))
                   (if count kl@(Buffers i) =? 0 then unlinked (Buffers i) (counted (Buffers i) kl)
                    else counted (Buffers i) kl)
            else res (blkunlock (Buffers i)) kl).
  { unfold bsync_buffer. erewrite res_bind_done by exact Hlock.
    rewrite res_cond, Hvalid. destruct valid; cbn [negb]; [|done].
    rewrite res_bind_count_incr, res_bind_if.
    destruct (count kl@(Buffers i) =? 0).
    - by rewrite res_bind_free_unlink.
    - by rewrite res_bind_ret. }
  destruct valid eqn:Hval.
  - set (kt := if count kl@(Buffers i) =? 0 then unlinked (Buffers i) (counted (Buffers i) kl)
               else counted (Buffers i) kl) in *.
    destruct (taken_free_list_inv kl i lf Hinvl Hrangel)
      as ((lft & Hinvt) & Hct & Hcot & Lbt & Lht & Lit & Htp); [by rewrite Lbl|].
    fold kt in Hinvt, Hct, Hcot, Lbt, Lht, Lit, Htp.
    assert (Hc1 : 1 <= count kt@(Buffers i)).
    { rewrite Hct, Hlp by done. specialize (Hrange i Hi). lia. }
    destruct (bdev_writeblk_effect kt i lft) as
      (Ho & Hinv' & Hlog & Hfl & Hcnt & Hid & Hoth & Lb' & Lh');
      [by rewrite Lbt, Lbl|done|done|].
    apply res_outcome_final in Hres as [Ho' Hf']. fold r in Ho', Hf'.
    rewrite Ho', Hf'.
    assert (Hflags : flags (final (bdev_writeblk (Buffers i) kt))@(Buffers i) =
              Z.land (Z.land (Z.lor (flags k@(Buffers i)) BUFFER_LOCKED)
                        (Z.lnot BUFFER_DIRTY)) (Z.lnot BUFFER_LOCKED)).
    { rewrite Hfl, Htp by done. by rewrite Hlf. }
    split; [done|]. split; [done|]. split.
    { rewrite Hlog, Lit, Lil, (Htp _ dev), (Htp _ num), (Hlp _ dev), (Hlp _ num) by done. done. }
    split; [rewrite Hflags; apply flag_clear_off|].
    split.
    { rewrite Hflags, flag_clear_other by done.
      rewrite flag_clear_other by (by rewrite Z.land_comm).
      rewrite <- Hlf. exact Hvalid. }
    split.
    { rewrite Hflags, flag_clear_other by done. apply flag_clear_off. }
    split.
    { intros q. destruct (Hid q) as (-> & -> & -> & ->).
      rewrite (Htp _ dev), (Htp _ num), (Htp _ hash_next), (Htp _ hash_prev), (Hlp _ dev), (Hlp _ num), (Hlp _ hash_next), (Hlp _ hash_prev) by done.
      repeat split.
      destruct (decide (q = (Buffers i))) as [->|Hq].
      - rewrite Hcnt, Hct, Hlp by done. lia.
      - destruct (Hoth q Hq) as [_ ->]. rewrite Hcot by done. by rewrite Hlp. }
    split.
    { intros q Hq. destruct (Hoth q Hq) as [-> _]. rewrite Htp by done.
      by rewrite Hlne. }
    split; [congruence|]. split; [congruence|].
    rewrite bdev_writeblk_curr_proc. unfold kt.
    destruct (steps_curr_proc (Buffers i) k) as (_ & _ & C3). fold kl in C3.
    destruct (steps_curr_proc (Buffers i) kl) as (_ & C2 & _).
    destruct (steps_curr_proc (Buffers i) (counted (Buffers i) kl)) as (C1 & _).
    destruct (count kl@(Buffers i) =? 0); congruence.
  - destruct (blkunlock_effect kl (Buffers i) Hvl)
      as (Ho & _ & Hfl & _ & _ & _ & _ & Ud & Un & _ & Uc & Ufn & Ufp & Uhn & Uhp
          & Une).
    destruct (blkunlock_other kl (Buffers i)) as (_ & Ulog & _ & _ & Lb' & Lh' & _).
    apply res_outcome_final in Hres as [Ho' Hf']. fold r in Ho', Hf'.
    rewrite Ho', Hf'.
    assert (Hall : forall (A : Type) (proj : buffer -> A) q,
              proj (final (blkunlock (Buffers i) kl))@(Buffers i) = proj kl@(Buffers i) ->
              proj (final (blkunlock (Buffers i) kl))@q = proj kl@q).
    { intros A proj q H. destruct (decide (q = (Buffers i))) as [->|Hq]; [done|].
      by rewrite Une. }
    split; [done|]. split.
    { exists lf. apply (free_list_inv_ext kl); [|done..].
      intros p. by rewrite (Hall _ free_next), (Hall _ free_prev), (Hall _ count). }
    split; [rewrite Ulog, Lil; by rewrite app_nil_r|].
    split; [rewrite Hfl; apply flag_clear_off|].
    split.
    { rewrite Hfl, flag_clear_other by done. exact Hvalid. }
    split.
    { rewrite Hfl, flag_clear_other by done. rewrite Hlf. by apply flag_set_other. }
    split.
    { intros q. rewrite (Hall _ dev), (Hall _ num), (Hall _ hash_next), (Hall _ hash_prev), (Hall _ count) by done.
      by rewrite (Hlp _ dev), (Hlp _ num), (Hlp _ hash_next), (Hlp _ hash_prev), (Hlp _ count). }
    split.
    { intros q Hq. rewrite Une by done. by rewrite Hlne. }
    split; [congruence|]. split; [congruence|].
    destruct (blkunlock_other kl (Buffers i)) as (_ & _ & -> & _).
    by destruct (steps_curr_proc (Buffers i) k) as (_ & _ & ?).
Qed.

(** bsync waits at the first locked buffer. *)
Lemma bsync_buffer_locked (k : kernel) (buf : bufptr) :
  flag_set (flags k@buf) BUFFER_LOCKED = true ->
  res (bsync_buffer buf) k =
    (Asleep, final (@sleep unit (BufChain buf) PRIO_BUFFER (with_interrupts false k))).
Proof.
  intros Hl. unfold bsync_buffer. apply res_bind_asleep.
  rewrite res_blklock. by rewrite Hl.
Qed.

Lemma sync_writes_ext (k k' : kernel) (bufs : list nat) :
  (forall i, i ∈ bufs ->
     flags k'@(Buffers i) = flags k@(Buffers i) /\
     dev k'@(Buffers i) = dev k@(Buffers i) /\
     num k'@(Buffers i) = num k@(Buffers i)) ->
  sync_writes k' bufs = sync_writes k bufs.
Proof.
  induction bufs as [|i bufs IH]; intros H; [done|]. cbn [sync_writes].
  destruct (H i (list_elem_of_here _ _)) as (-> & -> & ->).
  rewrite IH; [done|]. intros x Hx. apply H. by right.
Qed.

(** The loop of bsync over buffers that are not locked. *)
Lemma bsync_loop_effect (bufs : list nat) (k : kernel) (lf : list nat) :
  flags_distinct ->
  NoDup bufs ->
  (forall i, i ∈ bufs -> (i < length (buffers k))%nat) ->
  free_list_inv k lf ->
  counts_in_range k ->
  (forall i, i ∈ bufs -> flag_set (flags k@(Buffers i)) BUFFER_LOCKED = false) ->
  let r := bsync_loop bufs k in
  outcome r = Done tt /\
  (exists lf', free_list_inv (final r) lf') /\
  io_log (final r) = io_log k ++ sync_writes k bufs /\
  (forall i, i ∈ bufs ->
     flag_set (flags (final r)@(Buffers i)) BUFFER_LOCKED = false /\
     flag_set (flags (final r)@(Buffers i)) BUFFER_VALID
       = flag_set (flags k@(Buffers i)) BUFFER_VALID /\
     flag_set (flags (final r)@(Buffers i)) BUFFER_DIRTY =
       (if flag_set (flags k@(Buffers i)) BUFFER_VALID then false
        else flag_set (flags k@(Buffers i)) BUFFER_DIRTY)) /\
  (forall q, dev (final r)@q = dev k@q /\ num (final r)@q = num k@q /\
             hash_next (final r)@q = hash_next k@q /\
             hash_prev (final r)@q = hash_prev k@q /\
             count (final r)@q = count k@q) /\
  (forall i, i ∉ bufs -> flags (final r)@(Buffers i) = flags k@(Buffers i)) /\
  length (buffers (final r)) = length (buffers k) /\
  length (hashtab (final r)) = length (hashtab k) /\
  curr_proc (final r) = curr_proc k.
Proof.
  intros Hflags. revert k lf.
  induction bufs as [|i bufs IH]; intros k lf Hnd Hb Hinv Hrange Hunl r.
  { subst r. cbn [bsync_loop ret outcome final sync_writes].
    rewrite app_nil_r. split; [done|]. split; [by exists lf|].
    split; [done|]. split; [intros i Hi; by apply elem_of_nil in Hi|]. done. }
  apply NoDup_cons in Hnd as [Hi Hnd].
  destruct (bsync_buffer_effect k i lf Hflags) as
    (Ho1 & (lf1 & Hinv1) & Hlog1 & HL1 & HV1 & HD1 & Hid1 & Hoth1 & Lb1 & Lh1 & Cp1);
    [apply Hb; by left|done|done|apply Hunl; by left|].
  set (k1 := final (bsync_buffer (Buffers i) k)) in *.
  assert (Hne : forall x, x ∈ bufs -> Buffers x <> Buffers i) by (intros x Hx [= ->]; done).
  destruct (IH k1 lf1 Hnd) as (Ho & Hinv' & Hlog & Hfl & Hid & Hout & Lb & Lh & Cp).
  { intros x Hx. rewrite Lb1. apply Hb. by right. }
  { done. }
  { apply (counts_in_range_ext k); [|done..]. intros x.
    by destruct (Hid1 (Buffers x)) as (_ & _ & _ & _ & ->). }
  { intros x Hx. rewrite Hoth1 by auto. apply Hunl. by right. }
  assert (Hres : res (bsync_loop (i :: bufs)) k = res (bsync_loop bufs) k1).
  { cbn [bsync_loop].
    apply (res_bind_done _ (fun _ => bsync_loop bufs) k tt k1).
    by apply res_outcome_final. }
  apply res_outcome_final in Hres as [Hor Hfr]; [|reflexivity..].
  subst r. rewrite Hor, Hfr.
  split; [done|]. split; [done|]. split.
  { rewrite Hlog, Hlog1. cbn [sync_writes].
    rewrite (sync_writes_ext k k1 bufs).
    - destruct (flag_set (flags k@(Buffers i)) BUFFER_VALID);
        by rewrite <- ?app_assoc, ?app_nil_r.
    - intros x Hx. rewrite Hoth1 by auto.
      by destruct (Hid1 (Buffers x)) as (-> & -> & _). }
  split.
  { intros x Hx. apply elem_of_cons in Hx as [->|Hx].
    - rewrite (Hout i Hi). done.
    - destruct (Hfl x Hx) as (F1 & F2 & F3). rewrite F1, F2, F3.
      by rewrite (Hoth1 (Buffers x)) by auto. }
  split.
  { intros q. destruct (Hid q) as (-> & -> & -> & -> & ->). apply Hid1. }
  split.
  { intros x Hx. apply not_elem_of_cons in Hx as [Hxi Hx].
    rewrite (Hout x Hx). apply Hoth1. congruence. }
  split; [congruence|]. split; congruence.
Qed.

(** ** The invariants of the cache, operation by operation *)

Lemma binit_invariants (k : kernel) :
  length (buffers k) = NR_BUFFERS ->
  length (hashtab k) = BUFFERS_HASHTAB_SIZE ->
  (0 < NR_BUFFERS)%nat ->
  free_list_inv (final (binit k)) (seq 0 NR_BUFFERS) /\
  cache_inv (final (binit k)) (fun _ => []) /\
  all_unlocked (final (binit k)) /\
  counts_in_range (final (binit k)) /\
  length (buffers (final (binit k))) = NR_BUFFERS /\
  length (hashtab (final (binit k))) = BUFFERS_HASHTAB_SIZE.
Proof.
  intros Hnb Hnh Hnr.
  destruct (binit_effect k Hnb Hnh Hnr) as (_ & Hbufs & Hfree & Hhash).
  destruct (binit_shape k Hnb Hnh) as (Lb & Lh & _).
  split; [by apply binit_free_list_inv|].
  split; [|split; [|split; [|by split]]].
  - split; [|split; [|split]].
    + intros h Hh. rewrite Lh in Hh. destruct (Hhash h Hh) as [H1 H2].
      split; [by split|]. split; [apply NoDup_nil_2|].
      intros i Hi. by apply elem_of_nil in Hi.
    + intros h j _ Hj. by apply elem_of_nil in Hj.
    + intros j Hj _. rewrite Lb in Hj.
      destruct (Hbufs j Hj) as (_ & _ & _ & _ & _ & _ & _ & _ & _ & _ & H1 & H2).
      by split.
    + intros h j1 j2 _ Hj. by apply elem_of_nil in Hj.
  - intros i Hi. rewrite Lb in Hi.
    by destruct (Hbufs i Hi) as (_ & _ & H & _).
  - intros i Hi. rewrite Lb in Hi.
    destruct (Hbufs i Hi) as (_ & _ & _ & _ & _ & _ & _ & -> & _).
    unfold INT_MAX. lia.
Qed.

(** X9. binit establishes the invariants of the cache: a buffer has no
    reference if and only if it is on the free list (which holds every
    buffer), every hash queue is a well-formed list (an empty one), no
    buffer is locked, and every count can still be incremented. *)
Theorem binit_establishes_invariants (k : kernel) :
  length (buffers k) = NR_BUFFERS ->
  length (hashtab k) = BUFFERS_HASHTAB_SIZE ->
  (0 < NR_BUFFERS)%nat ->
  free_list_inv (final (binit k)) (seq 0 NR_BUFFERS) /\
  cache_inv (final (binit k)) (fun _ => []) /\
  all_unlocked (final (binit k)) /\
  counts_in_range (final (binit k)).
Proof.
  intros Hnb Hnh Hnr.
  destruct (binit_invariants k Hnb Hnh Hnr) as (H1 & H2 & H3 & H4 & _).
  split; [exact H1|]. split; [exact H2|]. split; [exact H3|exact H4].
Qed.

(** X10. getblk keeps the invariants when it returns a buffer: in the
    state it returns in, interrupts are enabled, a buffer has no
    reference if and only if it is on the free list, the hash table is
    well formed with every queued buffer in the queue of its block and
    no block held by two buffers, and a search of the queue of the block
    asked for finds the returned buffer. *)
Theorem getblk_keeps_invariants (k : kernel) (d n : N) (qs : nat -> list nat)
    (lf : list nat) (j : nat) :
  flags_distinct ->
  (0 < BUFFERS_HASHTAB_SIZE)%nat ->
  length (buffers k) = NR_BUFFERS ->
  length (hashtab k) = BUFFERS_HASHTAB_SIZE ->
  cache_inv k qs ->
  free_list_inv k lf ->
  counts_in_range k ->
  outcome (getblk d n k) = Done (Buffers j) ->
  interrupts (final (getblk d n k)) = true /\
  (exists lf', free_list_inv (final (getblk d n k)) lf') /\
  (exists qs', cache_inv (final (getblk d n k)) qs' /\
     lookup_block (final (getblk d n k)) d n (qs' (HASH d n)) = Some j).
Proof.
  intros Hflags Hsize Hnb Hnh Hinv Hfree Hrange Hdone.
  assert (Hh : (HASH d n < length (hashtab k))%nat).
  { rewrite Hnh. by apply HASH_in_range. }
  pose proof Hinv as (Hq & _). pose proof Hfree as (Hfl & _).
  destruct (getblk_free_list_inv k d n (qs (HASH d n)) lf j Hflags Hsize Hnb Hnh
              (Hq _ Hh) Hfree Hrange Hdone) as [Hint Hfree'].
  destruct (getblk_cache_inv k d n qs lf j Hflags Hsize Hnb Hnh Hinv Hfl Hdone)
    as (qs' & Hinv' & Hlook & _).
  split; [exact Hint|]. split; [exact Hfree'|]. exists qs'. by split.
Qed.

(** X11. A block that is held is not handed out again: after getblk has
    returned the buffer of a block, a second getblk for the same block
    does not return. It sleeps in the wait queue of that buffer, and
    has not touched the reference count. *)
Theorem getblk_held_block_sleeps (k : kernel) (d n : N) (qs : nat -> list nat)
    (lf : list nat) (j : nat) :
  flags_distinct ->
  (0 < BUFFERS_HASHTAB_SIZE)%nat ->
  length (buffers k) = NR_BUFFERS ->
  length (hashtab k) = BUFFERS_HASHTAB_SIZE ->
  cache_inv k qs ->
  free_list_inv k lf ->
  counts_in_range k ->
  outcome (getblk d n k) = Done (Buffers j) ->
  let k1 := final (getblk d n k) in
  outcome (getblk d n k1) = Asleep /\
  curr_proc k1 ∈ chain (final (getblk d n k1))@(Buffers j) /\
  count (final (getblk d n k1))@(Buffers j) = count k1@(Buffers j).
Proof.
  intros Hflags Hsize Hnb Hnh Hinv Hfree Hrange Hdone k1.
  assert (Hh : (HASH d n < length (hashtab k))%nat).
  { rewrite Hnh. by apply HASH_in_range. }
  pose proof Hinv as (Hq & _). pose proof Hfree as (Hfl & _).
  destruct (getblk_free_list_inv k d n (qs (HASH d n)) lf j Hflags Hsize Hnb Hnh
              (Hq _ Hh) Hfree Hrange Hdone) as [_ (lf' & Hfl' & _)].
  destruct (getblk_cache_inv k d n qs lf j Hflags Hsize Hnb Hnh Hinv Hfl Hdone)
    as (qs' & Hinv' & Hlook & Hlocked & Lb & Lh).
  fold k1 in Hfl', Hinv', Hlook, Hlocked, Lb, Lh.
  assert (Hnz : (d =? 0)%N && (n =? 0)%N = false).
  { pose proof (getblk_cases k d n (qs (HASH d n)) lf Hflags Hsize Hnb Hnh
                  (Hq _ Hh) Hfl) as Hc. cbv zeta in Hc.
    destruct ((d =? 0)%N && (n =? 0)%N); [|done].
    apply res_outcome_final in Hc as [Ho _]. congruence. }
  pose proof Hinv' as (Hq' & _).
  assert (Hh1 : (HASH d n < length (hashtab k1))%nat) by (rewrite Lh; exact Hh).
  pose proof (getblk_cases k1 d n (qs' (HASH d n)) lf' Hflags Hsize) as Hc.
  cbv zeta in Hc. rewrite Hnz, Hlook, Hlocked in Hc.
  apply res_outcome_final in Hc as [Ho Hf];
    [|by rewrite Lb|by rewrite Lh|by apply Hq'|exact Hfl'].
  split; [exact Ho|]. rewrite Hf.
  assert (Hj : valid_ptr k1 (Buffers j)).
  { destruct (Hq' _ Hh1) as (_ & _ & Hb). apply Hb.
    destruct (lookup_block_Some k1 d n _ j Hlook) as (l1 & l2 & -> & _).
    apply elem_of_app. right. by left. }
  unfold sleep. cbn [final set_queue queue].
  change (curr_proc (with_interrupts false k1)) with (curr_proc k1).
  split.
  - rewrite load_with_interrupts, !load_set_proc, load_store_eq
      by (by apply valid_with_interrupts).
    cbn [with_chain chain]. by left.
  - rewrite load_with_interrupts, !load_set_proc.
    rewrite (load_store_proj count) by (intros; reflexivity).
    by rewrite load_with_interrupts.
Qed.

(** X12. brelse keeps the invariants: on a buffer with at least one
    reference it returns, a buffer still has no reference if and only if
    it is on the free list, the hash table is as it was, and the buffer
    is not locked any more. *)
Theorem brelse_keeps_invariants (k : kernel) (i : nat) (qs : nat -> list nat)
    (lf : list nat) :
  (i < length (buffers k))%nat ->
  1 <= count k@(Buffers i) ->
  free_list_inv k lf ->
  cache_inv k qs ->
  outcome (brelse (Buffers i) k) = Done tt /\
  (exists lf', free_list_inv (final (brelse (Buffers i) k)) lf') /\
  cache_inv (final (brelse (Buffers i) k)) qs /\
  flag_set (flags (final (brelse (Buffers i) k))@(Buffers i)) BUFFER_LOCKED = false.
Proof.
  intros Hi Hc1 Hfree Hinv.
  destruct (brelse_free_list_inv k i lf Hi Hc1 Hfree) as [Ho Hfree'].
  destruct Hfree as [_ Hcounts]. destruct (Hcounts i Hi) as [[_ Hmax] _].
  assert (Hcount : 1 <= count k@(Buffers i) <= INT_MAX) by lia.
  destruct (brelse_fields k (Buffers i) Hi Hcount)
    as (_ & Hid & Hfl & _ & _ & Lb & Lh & _).
  split; [exact Ho|]. split; [exact Hfree'|]. split.
  - apply (cache_inv_ext k); [|exact Lb|exact Lh|exact Hinv].
    intros p. destruct (Hid p) as (? & ? & ? & ?). tauto.
  - rewrite Hfl. apply flag_clear_off.
Qed.

(** getblk after brelse has put a clean buffer in front of the free
    list. *)
Lemma getblk_after_brelse (k : kernel) (i : nat) (d n : N) (l lf : list nat) :
  flags_distinct ->
  (0 < BUFFERS_HASHTAB_SIZE)%nat ->
  length (buffers k) = NR_BUFFERS ->
  length (hashtab k) = BUFFERS_HASHTAB_SIZE ->
  is_hash_queue k (HASH d n) l ->
  free_list_inv k lf ->
  (i < length (buffers k))%nat ->
  count k@(Buffers i) = 1 ->
  flag_set (flags k@(Buffers i)) BUFFER_DIRTY = false ->
  (d =? 0)%N && (n =? 0)%N = false ->
  lookup_block k d n l = None ->
  outcome (getblk d n (final (brelse (Buffers i) k))) = Done (Buffers i).
Proof.
  intros Hflags Hsize Hnb Hnh Hq Hfree Hi Hone Hclean Hnz Hlook.
  pose proof Hfree as [Hfl Hcounts].
  assert (Hcount : 1 <= count k@(Buffers i) <= INT_MAX).
  { rewrite Hone. unfold INT_MAX. lia. }
  assert (Hnotin : i ∉ lf).
  { intros Hin. apply (Hcounts i Hi) in Hin. lia. }
  destruct (brelse_effect k i lf Hi Hcount Hfl Hnotin) as (_ & _ & Hlast & _).
  destruct (Hlast Hone) as (_ & _ & Hfl').
  rewrite Hclean, andb_false_r in Hfl'.
  destruct (brelse_fields k (Buffers i) Hi Hcount)
    as (_ & Hid & Hflags' & _ & _ & Lb & Lh & _).
  set (k' := final (brelse (Buffers i) k)) in *.
  assert (Hq' : is_hash_queue k' (HASH d n) l).
  { apply (is_hash_queue_frame k); [|exact Lb|exact Hq].
    intros p _. destruct (Hid p) as (_ & _ & ? & ?). tauto. }
  assert (Hlook' : lookup_block k' d n l = None).
  { rewrite <- Hlook. apply lookup_block_ext. intros x _.
    destruct (Hid (Buffers x)) as (? & ? & _). tauto. }
  pose proof (getblk_cases k' d n l (i :: lf) Hflags Hsize) as Hc.
  cbv zeta in Hc. rewrite Hnz, Hlook' in Hc.
  destruct Hflags as (_ & _ & _ & _ & HDL & _).
  assert (Hd' : flag_set (flags k'@(Buffers i)) BUFFER_DIRTY = false).
  { rewrite Hflags', flag_clear_other by exact HDL. exact Hclean. }
  assert (Hl' : flag_set (flags k'@(Buffers i)) BUFFER_LOCKED = false).
  { rewrite Hflags'. apply flag_clear_off. }
  rewrite Hd', Hl' in Hc.
  apply res_outcome_final in Hc as [Ho _];
    [exact Ho|by rewrite Lb|by rewrite Lh|exact Hq'|exact Hfl'].
Qed.

(** X13. A clean buffer that is released last is recycled first: when
    brelse drops the last reference of a buffer that is not dirty, the
    next getblk for a block that is not in the cache takes this very
    buffer. *)
Theorem released_buffer_is_next_victim (k : kernel) (i : nat) (d n : N)
    (l lf : list nat) :
  flags_distinct ->
  (0 < BUFFERS_HASHTAB_SIZE)%nat ->
  length (buffers k) = NR_BUFFERS ->
  length (hashtab k) = BUFFERS_HASHTAB_SIZE ->
  is_hash_queue k (HASH d n) l ->
  free_list_inv k lf ->
  (i < length (buffers k))%nat ->
  count k@(Buffers i) = 1 ->
  flag_set (flags k@(Buffers i)) BUFFER_DIRTY = false ->
  (d =? 0)%N && (n =? 0)%N = false ->
  lookup_block k d n l = None ->
  outcome (getblk d n (final (brelse (Buffers i) k))) = Done (Buffers i).
Proof. exact (getblk_after_brelse k i d n l lf). Qed.

(** ** bread *)

Lemma bread_outcome (k : kernel) (d n : N) (buf : bufptr) :
  outcome (bread d n k) = Done buf -> outcome (getblk d n k) = Done buf.
Proof.
  intros H. destruct (outcome (getblk d n k)) as [a|msg| |] eqn:E.
  - assert (Hg : res (getblk d n) k = (Done a, final (getblk d n k))).
    { by apply res_outcome_final. }
    pose proof (res_bread k d n a _ Hg) as Hb.
    destruct (flag_set _ _); apply res_outcome_final in Hb as [Ho _]; congruence.
  - destruct (bind_not_done (getblk d n)
                (fun buf => cond (fun k => flag_set (flags k@buf) BUFFER_VALID)
                              (ret buf) (bdev_readblk buf >> ret buf)) k)
      as (_ & _ & Hno & _); [intros a; congruence|].
    by destruct (Hno buf).
  - destruct (bind_not_done (getblk d n)
                (fun buf => cond (fun k => flag_set (flags k@buf) BUFFER_VALID)
                              (ret buf) (bdev_readblk buf >> ret buf)) k)
      as (_ & _ & Hno & _); [intros a; congruence|].
    by destruct (Hno buf).
  - destruct (bind_not_done (getblk d n)
                (fun buf => cond (fun k => flag_set (flags k@buf) BUFFER_VALID)
                              (ret buf) (bdev_readblk buf >> ret buf)) k)
      as (_ & _ & Hno & _); [intros a; congruence|].
    by destruct (Hno buf).
Qed.

(** bread after its getblk has returned a locked buffer of the
    block. *)
Lemma bread_after_getblk (k : kernel) (d n : N) (j : nat) (k1 : kernel) :
  flags_distinct ->
  res (getblk d n) k = (Done (Buffers j), k1) ->
  valid_ptr k1 (Buffers j) ->
  flag_set (flags k1@(Buffers j)) BUFFER_LOCKED = true ->
  holds k1 j d n ->
  holds (final (bread d n k)) j d n /\
  flag_set (flags (final (bread d n k))@(Buffers j)) BUFFER_VALID = true /\
  flag_set (flags (final (bread d n k))@(Buffers j)) BUFFER_LOCKED = true /\
  io_log (final (bread d n k)) =
    io_log k1 ++ (if flag_set (flags k1@(Buffers j)) BUFFER_VALID then []
                  else [DevRead d n]).
Proof.
  intros (HV & _ & _ & HVL & _) Hg Hv Hl [Hd Hn].
  pose proof (res_bread k d n (Buffers j) k1 Hg) as Hb.
  destruct (flag_set (flags k1@(Buffers j)) BUFFER_VALID) eqn:Hval.
  - apply res_outcome_final in Hb as [_ ->].
    rewrite app_nil_r. by repeat split.
  - cbv zeta in Hb. apply res_outcome_final in Hb as [_ ->].
    rewrite Hd, Hn.
    set (k2 := with_io_log (io_log k1 ++ [DevRead d n]) k1).
    assert (Hv2 : valid_ptr k2 (Buffers j)) by (by apply valid_with_io_log).
    assert (Hf : flags (store (Buffers j)
                   (with_flags (Z.lor (flags k2@(Buffers j)) BUFFER_VALID)) k2)@(Buffers j)
                 = Z.lor (flags k1@(Buffers j)) BUFFER_VALID).
    { rewrite load_store_eq by exact Hv2. unfold k2. by rewrite load_with_io_log. }
    split; [|split; [|split]].
    + unfold holds. rewrite (load_store_proj dev), (load_store_proj num)
        by (intros; reflexivity).
      unfold k2. by rewrite load_with_io_log.
    + rewrite Hf. by apply flag_set_on.
    + rewrite Hf, flag_set_other by (by rewrite Z.land_comm). exact Hl.
    + by rewrite io_log_store.
Qed.

(** X14. bread returns its buffer valid and locked, with the device and
    block number asked for, and goes to the driver only if it has to:
    when the block is found in the cache in a valid buffer no request is
    issued, otherwise exactly one read of the block. *)
Theorem bread_reads_unless_valid (k : kernel) (d n : N) (l lf : list nat) (j : nat) :
  flags_distinct ->
  (0 < BUFFERS_HASHTAB_SIZE)%nat ->
  length (buffers k) = NR_BUFFERS ->
  length (hashtab k) = BUFFERS_HASHTAB_SIZE ->
  is_hash_queue k (HASH d n) l ->
  is_free_list k lf ->
  outcome (bread d n k) = Done (Buffers j) ->
  holds (final (bread d n k)) j d n /\
  flag_set (flags (final (bread d n k))@(Buffers j)) BUFFER_VALID = true /\
  flag_set (flags (final (bread d n k))@(Buffers j)) BUFFER_LOCKED = true /\
  io_log (final (bread d n k)) =
    io_log k ++
    match lookup_block k d n l with
    | Some b => if flag_set (flags k@(Buffers b)) BUFFER_VALID then []
                else [DevRead d n]
    | None => [DevRead d n]
    end.
Proof.
  intros Hflags Hsize Hnb Hnh Hq Hfl Hdone.
  apply bread_outcome in Hdone.
  destruct (getblk_done k d n l lf j Hflags Hsize Hnb Hnh Hq Hfl Hdone)
    as (Hj & Hunl & Hcase).
  pose proof Hflags as (_ & HL & _ & HVL & _).
  assert (Hk0 : forall q, (with_interrupts false k)@q = k@q)
    by (intros q; apply load_with_interrupts).
  assert (Hh : valid_ptr (with_interrupts false k) (Hashtab (HASH d n))).
  { change (HASH d n < length (hashtab k))%nat. rewrite Hnh. by apply HASH_in_range. }
  destruct Hcase as [[Hlook Hf]|(Hlook & _ & _ & Hf)].
  - destruct (found_state_facts (with_interrupts false k) (Buffers j) Hj)
      as (F1 & _ & F3 & _ & F5 & _ & F7 & _).
    destruct (lookup_block_Some k d n l j Hlook) as (_ & _ & _ & _ & Hhold).
    rewrite Hk0 in F1.
    destruct (bread_after_getblk k d n j
                (found_state (Buffers j) (with_interrupts false k)) Hflags)
      as (B1 & B2 & B3 & B4).
    { apply res_outcome_final. split; [exact Hdone|exact Hf]. }
    { change (j < length (buffers (found_state (Buffers j) (with_interrupts false k))))%nat.
      rewrite F7. exact Hj. }
    { rewrite F1. by apply flag_set_on. }
    { unfold holds. destruct (F3 (Buffers j)) as (-> & -> & _).
      rewrite !Hk0. exact Hhold. }
    split; [exact B1|]. split; [exact B2|]. split; [exact B3|].
    rewrite B4, F5, F1, Hlook. rewrite flag_set_other by exact HVL. done.
  - destruct (miss_state_facts (with_interrupts false k) d n (HASH d n) (Buffers j)
                Hj Hh) as (M1 & M2 & M3 & _ & _ & M6 & _ & M8 & _).
    destruct (bread_after_getblk k d n j
                (miss_state d n (HASH d n) (Buffers j) (with_interrupts false k))
                Hflags) as (B1 & B2 & B3 & B4).
    { apply res_outcome_final. split; [exact Hdone|exact Hf]. }
    { change (j < length (buffers (miss_state d n (HASH d n) (Buffers j)
                                     (with_interrupts false k))))%nat.
      rewrite M8. exact Hj. }
    { rewrite M3. by apply flag_set_on. }
    { by split. }
    split; [exact B1|]. split; [exact B2|]. split; [exact B3|].
    rewrite B4, M6, M3, Hlook. rewrite flag_set_other by exact HVL.
    by rewrite flag_clear_off.
Qed.

Lemma set_proc_io_log (i : nat) (f : process -> process) (k : kernel) :
  io_log (set_proc i f k) = io_log k.
Proof. done. Qed.

Lemma blkunlock_curr_proc (k : kernel) (buf : bufptr) :
  curr_proc (final (blkunlock buf k)) = curr_proc k.
Proof. by destruct (blkunlock_other k buf) as (_ & _ & ? & _). Qed.

(** ** bsync *)

(** X16. bsync on a cache in which no buffer is locked returns after it
    has handed to the driver one write for every valid buffer, dirty or
    not, in index order, and nothing else. Afterwards no buffer is
    locked, the valid buffers are clean, and the reference counts, the
    device and block numbers and the hash queues are as before; a buffer
    still has no reference if and only if it is on the free list. *)
Theorem bsync_writes_valid_buffers (k : kernel) (lf : list nat) :
  flags_distinct ->
  length (buffers k) = NR_BUFFERS ->
  free_list_inv k lf ->
  counts_in_range k ->
  all_unlocked k ->
  outcome (bsync k) = Done tt /\
  io_log (final (bsync k)) = io_log k ++ sync_writes k (seq 0 NR_BUFFERS) /\
  (exists lf', free_list_inv (final (bsync k)) lf') /\
  all_unlocked (final (bsync k)) /\
  (forall i, (i < NR_BUFFERS)%nat ->
     flag_set (flags (final (bsync k))@(Buffers i)) BUFFER_VALID
       = flag_set (flags k@(Buffers i)) BUFFER_VALID /\
     (flag_set (flags k@(Buffers i)) BUFFER_VALID = true ->
      flag_set (flags (final (bsync k))@(Buffers i)) BUFFER_DIRTY = false)) /\
  (forall q, dev (final (bsync k))@q = dev k@q /\ num (final (bsync k))@q = num k@q /\
             hash_next (final (bsync k))@q = hash_next k@q /\
             hash_prev (final (bsync k))@q = hash_prev k@q /\
             count (final (bsync k))@q = count k@q).
Proof.
  intros Hflags Hnb Hfree Hrange Hunl. unfold bsync.
  assert (Hin : forall i, i ∈ seq 0 NR_BUFFERS -> (i < length (buffers k))%nat).
  { intros i Hi. apply elem_of_seq in Hi. lia. }
  destruct (bsync_loop_effect (seq 0 NR_BUFFERS) k lf Hflags (NoDup_seq _ _) Hin
              Hfree Hrange) as (Ho & Hinv' & Hlog & Hfl & Hid & _ & Lb & _ & _).
  { intros i Hi. apply Hunl. by apply Hin. }
  split; [exact Ho|]. split; [exact Hlog|]. split; [exact Hinv'|]. split.
  { intros i Hi. rewrite Lb, Hnb in Hi.
    assert (Hi' : i ∈ seq 0 NR_BUFFERS) by (apply elem_of_seq; lia).
    by destruct (Hfl i Hi') as (? & _). }
  split; [|exact Hid].
  intros i Hi. assert (Hi' : i ∈ seq 0 NR_BUFFERS) by (apply elem_of_seq; lia).
  destruct (Hfl i Hi') as (_ & HV & HD). split; [exact HV|].
  intros Hval. by rewrite HD, Hval.
Qed.

Lemma res_bsync_loop_app (l1 l2 : list nat) (k k1 : kernel) :
  res (bsync_loop l1) k = (Done tt, k1) ->
  res (bsync_loop (l1 ++ l2)) k = res (bsync_loop l2) k1.
Proof.
  revert k. induction l1 as [|i l1 IH]; intros k H.
  - apply res_outcome_final in H as [_ <-]. reflexivity.
  - cbn [bsync_loop app] in *.
    destruct (outcome (bsync_buffer (Buffers i) k)) as [[]|msg| |] eqn:E.
    + assert (Hb : res (bsync_buffer (Buffers i)) k
                   = (Done tt, final (bsync_buffer (Buffers i) k))).
      { by apply res_outcome_final. }
      rewrite (res_bind_done _ (fun _ => bsync_loop (l1 ++ l2)) k tt _ Hb).
      rewrite (res_bind_done _ (fun _ => bsync_loop l1) k tt _ Hb) in H.
      by apply IH.
    + assert (Hb : res (bsync_buffer (Buffers i)) k
                   = (Panic msg, final (bsync_buffer (Buffers i) k))).
      { by apply res_outcome_final. }
      rewrite (res_bind_panic _ (fun _ => bsync_loop l1) k _ msg Hb) in H. done.
    + assert (Hb : res (bsync_buffer (Buffers i)) k
                   = (Asleep, final (bsync_buffer (Buffers i) k))).
      { by apply res_outcome_final. }
      rewrite (res_bind_asleep _ (fun _ => bsync_loop l1) k _ Hb) in H. done.
    + exfalso. destruct (bind_not_done (bsync_buffer (Buffers i))
                           (fun _ => bsync_loop l1) k) as (_ & _ & Hno & _).
      { intros a. congruence. }
      apply res_outcome_final in H as [Ho _]. by destruct (Hno tt).
Qed.

(** X17. bsync does not get past a locked buffer: it deals with the
    buffers before the first locked one, with one write for each valid
    buffer among them, and then sleeps in the wait queue of the locked
    buffer. *)
Theorem bsync_sleeps_at_locked_buffer (k : kernel) (lf : list nat) (i0 : nat) :
  flags_distinct ->
  length (buffers k) = NR_BUFFERS ->
  free_list_inv k lf ->
  counts_in_range k ->
  (i0 < NR_BUFFERS)%nat ->
  (forall i, (i < i0)%nat -> flag_set (flags k@(Buffers i)) BUFFER_LOCKED = false) ->
  flag_set (flags k@(Buffers i0)) BUFFER_LOCKED = true ->
  outcome (bsync k) = Asleep /\
  io_log (final (bsync k)) = io_log k ++ sync_writes k (seq 0 i0) /\
  curr_proc k ∈ chain (final (bsync k))@(Buffers i0).
Proof.
  intros Hflags Hnb Hfree Hrange Hi0 Hunl Hlocked. unfold bsync.
  assert (Hseq : seq 0 NR_BUFFERS = seq 0 i0 ++ i0 :: seq (S i0) (NR_BUFFERS - S i0)).
  { replace NR_BUFFERS with (i0 + S (NR_BUFFERS - S i0))%nat at 1 by lia.
    rewrite seq_app. cbn [seq]. by rewrite Nat.add_0_l. }
  assert (Hin : forall i, i ∈ seq 0 i0 -> (i < length (buffers k))%nat).
  { intros i Hi. apply elem_of_seq in Hi. lia. }
  destruct (bsync_loop_effect (seq 0 i0) k lf Hflags (NoDup_seq _ _) Hin
              Hfree Hrange) as (Ho & _ & Hlog & _ & _ & Hout & Lb & _ & Hcur).
  { intros i Hi. apply Hunl. apply elem_of_seq in Hi. lia. }
  set (k1 := final (bsync_loop (seq 0 i0) k)) in *.
  assert (Hl1 : flag_set (flags k1@(Buffers i0)) BUFFER_LOCKED = true).
  { rewrite Hout; [exact Hlocked|]. intros Hc. apply elem_of_seq in Hc. lia. }
  assert (Hres : res (bsync_loop (seq 0 NR_BUFFERS)) k =
            (Asleep, final (@sleep unit (BufChain (Buffers i0)) PRIO_BUFFER
                              (with_interrupts false k1)))).
  { rewrite Hseq. rewrite (res_bsync_loop_app _ _ k k1)
      by (by apply res_outcome_final).
    cbn [bsync_loop]. apply res_bind_asleep. by apply bsync_buffer_locked. }
  apply res_outcome_final in Hres as [-> ->].
  assert (Hv : valid_ptr k1 (Buffers i0)).
  { change (i0 < length (buffers k1))%nat. rewrite Lb, Hnb. exact Hi0. }
  split; [done|]. unfold sleep. cbn [final set_queue queue].
  change (curr_proc (with_interrupts false k1)) with (curr_proc k1).
  split.
  - cbn [with_interrupts io_log]. rewrite !set_proc_io_log, io_log_store.
    exact Hlog.
  - rewrite load_with_interrupts, !load_set_proc, load_store_eq
      by (by apply valid_with_interrupts).
    cbn [with_chain chain]. rewrite Hcur. by left.
Qed.

(** ** Locking and unlocking *)

Lemma unlock_restores_flags (fl L : Z) :
  Z.land fl L = 0 -> Z.land (Z.lor fl L) (Z.lnot L) = fl.
Proof.
  intros H. apply Z.bits_inj'. intros i Hi.
  rewrite Z.land_spec, Z.lor_spec, Z.lnot_spec by done.
  apply (f_equal (fun z => Z.testbit z i)) in H.
  rewrite Z.land_spec, Z.bits_0 in H.
  destruct (Z.testbit fl i), (Z.testbit L i); simpl in *; congruence.
Qed.

(** X18. Locking a buffer that is not locked and unlocking it again
    leaves every buffer as it was, but for the wait queue of the buffer,
    which is empty afterwards: blklock returns with the lock flag set,
    and blkunlock gives back the flags word of before. *)
Theorem blklock_blkunlock_restores (k : kernel) (buf : bufptr) :
  valid_ptr k buf ->
  BUFFER_LOCKED <> 0 ->
  flag_set (flags k@buf) BUFFER_LOCKED = false ->
  outcome (blklock buf k) = Done tt /\
  flag_set (flags (final (blklock buf k))@buf) BUFFER_LOCKED = true /\
  let k2 := final (blkunlock buf (final (blklock buf k))) in
  with_chain [] k2@buf = with_chain [] k@buf /\
  (forall q, q <> buf -> k2@q = k@q).
Proof.
  intros Hv HL Hunl.
  pose proof (res_blklock k buf) as Hres. rewrite Hunl in Hres.
  apply res_outcome_final in Hres as [Ho Hf]. rewrite Ho, Hf.
  assert (Hvl : valid_ptr (locked buf k) buf) by (by apply valid_locked).
  pose proof (flags_locked buf k Hv) as Hfl.
  split; [done|]. split; [rewrite Hfl; by apply flag_set_on|].
  intros k2.
  destruct (blkunlock_effect (locked buf k) buf Hvl)
    as (_ & _ & Ufl & _ & _ & _ & _ & Ud & Un & Uda & Uc & Ufn & Ufp & Uhn & Uhp
        & Une).
  fold k2 in Ufl, Ud, Un, Uda, Uc, Ufn, Ufp, Uhn, Uhp, Une.
  assert (Hzero : Z.land (flags k@buf) BUFFER_LOCKED = 0).
  { unfold flag_set in Hunl. apply negb_false_iff in Hunl. by apply Z.eqb_eq. }
  split.
  - unfold with_chain. f_equal.
    + rewrite Ud. by apply (locked_proj dev).
    + rewrite Un. by apply (locked_proj num).
    + rewrite Uda. by apply (locked_proj data).
    + rewrite Uc. by apply (locked_proj count).
    + rewrite Ufl, Hfl. by apply unlock_restores_flags.
    + rewrite Ufn. by apply (locked_proj free_next).
    + rewrite Ufp. by apply (locked_proj free_prev).
    + rewrite Uhn. by apply (locked_proj hash_next).
    + rewrite Uhp. by apply (locked_proj hash_prev).
  - intros q Hq. rewrite Une by exact Hq.
    by destruct (step_ne buf q k 0%N 0%N Hq) as (_ & -> & _).
Qed.

(** ** A block changes hands *)

Lemma load_with_curr_proc (k : kernel) (w : nat) (p : bufptr) :
  (with_curr_proc w k)@p = k@p.
Proof. by destruct p. Qed.

(** getblk counts one reference for the buffer that it returns. *)
Lemma getblk_count (k : kernel) (d n : N) (l lf : list nat) (j : nat) :
  flags_distinct ->
  (0 < BUFFERS_HASHTAB_SIZE)%nat ->
  length (buffers k) = NR_BUFFERS ->
  length (hashtab k) = BUFFERS_HASHTAB_SIZE ->
  is_hash_queue k (HASH d n) l ->
  is_free_list k lf ->
  counts_in_range k ->
  outcome (getblk d n k) = Done (Buffers j) ->
  (j < length (buffers k))%nat /\
  count (final (getblk d n k))@(Buffers j) = count k@(Buffers j) + 1.
Proof.
  intros Hflags Hsize Hnb Hnh Hq Hfl Hrange Hdone.
  destruct (getblk_done k d n l lf j Hflags Hsize Hnb Hnh Hq Hfl Hdone)
    as (Hj & _ & Hcase).
  split; [exact Hj|].
  assert (Hwrap : wrap_int (count (with_interrupts false k)@(Buffers j) + 1)
                  = count k@(Buffers j) + 1).
  { rewrite load_with_interrupts. specialize (Hrange j Hj).
    apply wrap_int_id. unfold in_int, INT_MIN, INT_MAX in *. lia. }
  assert (Hh : valid_ptr (with_interrupts false k) (Hashtab (HASH d n))).
  { change (HASH d n < length (hashtab k))%nat. rewrite Hnh. by apply HASH_in_range. }
  destruct Hcase as [[_ Hf]|(_ & _ & _ & Hf)]; rewrite Hf.
  - destruct (found_state_facts (with_interrupts false k) (Buffers j) Hj)
      as (_ & F2 & _). by rewrite F2.
  - destruct (miss_state_facts (with_interrupts false k) d n (HASH d n) (Buffers j)
                Hj Hh) as (_ & _ & _ & M4 & _). by rewrite M4.
Qed.

(** The state in which a process sleeps on a buffer. *)
Lemma sleep_on_buffer (A : Type) (k : kernel) (buf : bufptr) (prio : Z) :
  valid_ptr k buf ->
  let k' := final (@sleep A (BufChain buf) prio k) in
  (forall (A : Type) (proj : buffer -> A) q,
     (forall v b, proj (with_chain v b) = proj b) -> proj k'@q = proj k@q) /\
  chain k'@buf = curr_proc k :: chain k@buf /\
  ((curr_proc k < length (proctab k))%nat ->
   state (proc k' (curr_proc k)) = PROC_WAITING) /\
  length (buffers k') = length (buffers k) /\
  length (hashtab k') = length (hashtab k) /\
  length (proctab k') = length (proctab k).
Proof.
  intros Hv k'. unfold k', sleep. cbn [final set_queue queue].
  set (k1 := store buf (with_chain (curr_proc k :: chain k@buf)) k).
  assert (Hp1 : proctab k1 = proctab k) by (unfold k1; apply proctab_store).
  split.
  { intros B proj q H. rewrite load_with_interrupts, !load_set_proc. unfold k1.
    apply load_store_proj. intros b. apply H. }
  split.
  { rewrite load_with_interrupts, !load_set_proc. unfold k1.
    by rewrite load_store_eq. }
  split.
  { intros Hc.
    change (state (proc (set_proc (curr_proc k) (with_state PROC_WAITING)
                           (set_proc (curr_proc k) (with_priority prio) k1))
                     (curr_proc k)) = PROC_WAITING).
    rewrite proc_set_proc_eq; [done|].
    rewrite length_proctab_set_proc. by rewrite Hp1. }
  split.
  { change (length (buffers k1) = length (buffers k)). unfold k1.
    apply length_buffers_store. }
  split.
  { change (length (hashtab k1) = length (hashtab k)). unfold k1.
    apply length_hashtab_store. }
  change (length (proctab (set_proc (curr_proc k) (with_state PROC_WAITING)
                             (set_proc (curr_proc k) (with_priority prio) k1)))
          = length (proctab k)).
  rewrite !length_proctab_set_proc. by rewrite Hp1.
Qed.

(** X19. A block changes hands: while one process holds the buffer of a
    block, getblk puts a second process that asks for the block to
    sleep; when the holder releases the buffer, brelse makes the sleeper
    ready, and getblk then returns the same buffer. *)
Theorem brelse_hands_block_over (k : kernel) (d n : N) (qs : nat -> list nat)
    (lf : list nat) (j w : nat) :
  flags_distinct ->
  (0 < BUFFERS_HASHTAB_SIZE)%nat ->
  length (buffers k) = NR_BUFFERS ->
  length (hashtab k) = BUFFERS_HASHTAB_SIZE ->
  cache_inv k qs ->
  free_list_inv k lf ->
  counts_in_range k ->
  outcome (getblk d n k) = Done (Buffers j) ->
  (w < length (proctab (final (getblk d n k))))%nat ->
  let k1 := with_curr_proc w (final (getblk d n k)) in
  let k2 := final (getblk d n k1) in
  let k3 := final (brelse (Buffers j) k2) in
  outcome (getblk d n k1) = Asleep /\
  state (proc k2 w) = PROC_WAITING /\
  outcome (brelse (Buffers j) k2) = Done tt /\
  state (proc k3 w) = PROC_READY /\
  outcome (getblk d n k3) = Done (Buffers j).
Proof.
  intros Hflags Hsize Hnb Hnh Hinv Hfree Hrange Hdone Hw k1 k2 k3.
  assert (Hh : (HASH d n < length (hashtab k))%nat).
  { rewrite Hnh. by apply HASH_in_range. }
  pose proof Hinv as (Hq & _). pose proof Hfree as (Hfl & Hcounts).
  destruct (getblk_free_list_inv k d n (qs (HASH d n)) lf j Hflags Hsize Hnb Hnh
              (Hq _ Hh) Hfree Hrange Hdone) as [_ (lf1 & Hfree1)].
  destruct (getblk_cache_inv k d n qs lf j Hflags Hsize Hnb Hnh Hinv Hfl Hdone)
    as (qs1 & Hinv1 & Hlook1 & Hlocked1 & Lb1 & Lh1).
  destruct (getblk_count k d n (qs (HASH d n)) lf j Hflags Hsize Hnb Hnh
              (Hq _ Hh) Hfl Hrange Hdone) as [Hj Hcount1].
  assert (Hnz : (d =? 0)%N && (n =? 0)%N = false).
  { pose proof (getblk_cases k d n (qs (HASH d n)) lf Hflags Hsize Hnb Hnh
                  (Hq _ Hh) Hfl) as Hc. cbv zeta in Hc.
    destruct ((d =? 0)%N && (n =? 0)%N); [|done].
    apply res_outcome_final in Hc as [Ho _]. congruence. }
  set (kg := final (getblk d n k)) in *.
  assert (Hk1 : forall q, k1@q = kg@q) by (intros q; apply load_with_curr_proc).
  assert (Lbk1 : length (buffers k1) = NR_BUFFERS) by (by rewrite <- Hnb, <- Lb1).
  assert (Lhk1 : length (hashtab k1) = BUFFERS_HASHTAB_SIZE)
    by (by rewrite <- Hnh, <- Lh1).
  assert (Hfree_k1 : free_list_inv k1 lf1).
  { apply (free_list_inv_ext kg); [|reflexivity|exact Hfree1].
    intros p. by rewrite Hk1. }
  assert (Hinv_k1 : cache_inv k1 qs1).
  { apply (cache_inv_ext kg); [|reflexivity|reflexivity|exact Hinv1].
    intros p. by rewrite Hk1. }
  assert (Hlook_k1 : lookup_block k1 d n (qs1 (HASH d n)) = Some j).
  { rewrite <- Hlook1. apply lookup_block_ext. intros x _. by rewrite Hk1. }
  pose proof Hinv_k1 as (Hq1 & _). pose proof Hfree_k1 as (Hfl1 & Hcounts1).
  assert (Hh1 : (HASH d n < length (hashtab k1))%nat) by (by rewrite Lhk1, <- Hnh).
  assert (Hj1 : (j < length (buffers k1))%nat) by (by rewrite Lbk1, <- Hnb).
  (* the second request sleeps *)
  pose proof (getblk_cases k1 d n (qs1 (HASH d n)) lf1 Hflags Hsize Lbk1 Lhk1
                (Hq1 _ Hh1) Hfl1) as Hc.
  cbv zeta in Hc. rewrite Hnz, Hlook_k1, Hk1, Hlocked1 in Hc.
  apply res_outcome_final in Hc as [Ho2 Hf2]. fold k2 in Hf2.
  set (kb := with_interrupts false k1) in *.
  assert (Hvb : valid_ptr kb (Buffers j)) by exact Hj1.
  destruct (sleep_on_buffer (option bufptr) kb (Buffers j) PRIO_BUFFER Hvb)
    as (Sproj & Schain & Sstate & SLb & SLh & SLp).
  rewrite <- Hf2 in Sproj, Schain, Sstate, SLb, SLh, SLp.
  assert (Hkb : forall q, kb@q = kg@q).
  { intros q. unfold kb. by rewrite load_with_interrupts. }
  assert (Hk2 : forall (A : Type) (proj : buffer -> A) q,
            (forall v b, proj (with_chain v b) = proj b) -> proj k2@q = proj kg@q).
  { intros A proj q H. rewrite (Sproj A proj q H). by rewrite Hkb. }
  assert (Lb2 : length (buffers k2) = length (buffers k)) by (by rewrite SLb, <- Lb1).
  assert (Lh2 : length (hashtab k2) = length (hashtab k)) by (by rewrite SLh, <- Lh1).
  assert (Hwait : state (proc k2 w) = PROC_WAITING) by (by apply Sstate).
  (* the holder releases the buffer *)
  assert (Hfree2 : free_list_inv k2 lf1).
  { apply (free_list_inv_ext kg); [|by rewrite Lb2|exact Hfree1].
    intros p. by rewrite (Hk2 _ free_next), (Hk2 _ free_prev), (Hk2 _ count). }
  assert (Hinv2 : cache_inv k2 qs1).
  { apply (cache_inv_ext kg); [|by rewrite Lb2|by rewrite Lh2|exact Hinv1].
    intros p. by rewrite (Hk2 _ hash_next), (Hk2 _ hash_prev), (Hk2 _ dev),
      (Hk2 _ num). }
  assert (Hj2 : (j < length (buffers k2))%nat) by (by rewrite Lb2).
  assert (Hc2 : 1 <= count k2@(Buffers j)).
  { rewrite (Hk2 _ count) by done. rewrite Hcount1.
    destruct (Hcounts j Hj) as [[? _] _]. lia. }
  pose proof Hfree2 as (Hfl2 & Hcounts2).
  assert (Hcount2 : 1 <= count k2@(Buffers j) <= INT_MAX).
  { destruct (Hcounts2 j Hj2) as [[_ ?] _]. lia. }
  assert (Hnotin : j ∉ lf1).
  { intros Hin. apply (Hcounts2 j Hj2) in Hin. lia. }
  destruct (brelse_effect k2 j lf1 Hj2 Hcount2 Hfl2 Hnotin)
    as (Ho3 & _ & _ & _ & Hunl3 & _ & Hwake).
  fold k3 in Hunl3, Hwake.
  destruct (brelse_free_list_inv k2 j lf1 Hj2 Hc2 Hfree2) as [_ (lf3 & Hfree3)].
  fold k3 in Hfree3.
  destruct (brelse_fields k2 (Buffers j) Hj2 Hcount2)
    as (_ & Hid3 & _ & _ & _ & Lb3 & Lh3 & _).
  fold k3 in Hid3, Lb3, Lh3.
  assert (Hready : state (proc k3 w) = PROC_READY).
  { apply Hwake; [rewrite Schain; by left|].
    rewrite SLp. exact Hw. }
  (* the sleeper asks again *)
  assert (Hq3 : is_hash_queue k3 (HASH d n) (qs1 (HASH d n))).
  { destruct Hinv2 as (Hq2 & _).
    apply (is_hash_queue_frame k2); [|exact Lb3|apply Hq2; by rewrite Lh2].
    intros p _. destruct (Hid3 p) as (_ & _ & ? & ?). tauto. }
  assert (Hlook3 : lookup_block k3 d n (qs1 (HASH d n)) = Some j).
  { rewrite <- Hlook1. apply lookup_block_ext. intros x _.
    destruct (Hid3 (Buffers x)) as (-> & -> & _).
    by rewrite (Hk2 _ dev), (Hk2 _ num). }
  destruct Hfree3 as (Hfl3 & _).
  pose proof (getblk_cases k3 d n (qs1 (HASH d n)) lf3 Hflags Hsize) as Hc4.
  cbv zeta in Hc4. rewrite Hnz, Hlook3, Hunl3 in Hc4.
  apply res_outcome_final in Hc4 as [Ho4 _];
    [|by rewrite Lb3, Lb2|by rewrite Lh3, Lh2|exact Hq3|exact Hfl3].
  split; [exact Ho2|]. split; [exact Hwait|]. split; [exact Ho3|].
  split; [exact Hready|exact Ho4].
Qed.

(** ** Waiting for a free buffer *)

(** The state in which a process sleeps until some buffer is free. *)
Lemma sleep_on_any_free (A : Type) (k : kernel) (prio : Z) :
  let k' := final (@sleep A AnyFreeChain prio k) in
  (forall q, k'@q = k@q) /\
  any_free_chain k' = curr_proc k :: any_free_chain k /\
  ((curr_proc k < length (proctab k))%nat ->
   state (proc k' (curr_proc k)) = PROC_WAITING) /\
  length (buffers k') = length (buffers k) /\
  length (hashtab k') = length (hashtab k) /\
  length (proctab k') = length (proctab k).
Proof.
  intros k'. unfold k', sleep. cbn [final set_queue queue].
  set (k1 := with_any_free_chain (curr_proc k :: any_free_chain k) k).
  split.
  { intros q. rewrite load_with_interrupts, !load_set_proc. unfold k1.
    apply load_with_any_free_chain. }
  split; [reflexivity|]. split.
  { intros Hc.
    change (state (proc (set_proc (curr_proc k) (with_state PROC_WAITING)
                           (set_proc (curr_proc k) (with_priority prio) k1))
                     (curr_proc k)) = PROC_WAITING).
    rewrite proc_set_proc_eq; [done|].
    rewrite length_proctab_set_proc. exact Hc. }
  split; [reflexivity|]. split; [reflexivity|].
  change (length (proctab (set_proc (curr_proc k) (with_state PROC_WAITING)
                             (set_proc (curr_proc k) (with_priority prio) k1)))
          = length (proctab k)).
  by rewrite !length_proctab_set_proc.
Qed.

(** X20. Waiting for a free buffer: when the block asked for is not in
    the cache and the free list is empty, getblk changes no buffer and
    puts its caller to sleep. The brelse that drops the last reference
    of a buffer makes the caller ready again, and getblk then takes
    that buffer for the block, provided the buffer is not dirty. *)
Theorem brelse_wakes_getblk_without_buffer (k : kernel) (d n : N)
    (l : list nat) (i : nat) :
  flags_distinct ->
  (0 < BUFFERS_HASHTAB_SIZE)%nat ->
  length (buffers k) = NR_BUFFERS ->
  length (hashtab k) = BUFFERS_HASHTAB_SIZE ->
  is_hash_queue k (HASH d n) l ->
  free_list_inv k [] ->
  (d =? 0)%N && (n =? 0)%N = false ->
  lookup_block k d n l = None ->
  (curr_proc k < length (proctab k))%nat ->
  (i < length (buffers k))%nat ->
  count k@(Buffers i) = 1 ->
  let k1 := final (getblk d n k) in
  let k2 := final (brelse (Buffers i) k1) in
  outcome (getblk d n k) = Asleep /\
  (forall q, k1@q = k@q) /\
  state (proc k1 (curr_proc k)) = PROC_WAITING /\
  outcome (brelse (Buffers i) k1) = Done tt /\
  state (proc k2 (curr_proc k)) = PROC_READY /\
  (flag_set (flags k@(Buffers i)) BUFFER_DIRTY = false ->
   outcome (getblk d n k2) = Done (Buffers i)).
Proof.
  intros Hflags Hsize Hnb Hnh Hq Hfree Hnz Hlook Hcur Hi Hone k1 k2.
  pose proof Hfree as (Hfl & Hcounts).
  pose proof (getblk_cases k d n l [] Hflags Hsize Hnb Hnh Hq Hfl) as Hc.
  cbv zeta in Hc. rewrite Hnz, Hlook in Hc.
  apply res_outcome_final in Hc as [Ho1 Hf1]. fold k1 in Hf1.
  set (k0 := with_interrupts false k) in *.
  destruct (sleep_on_any_free bufptr k0 PRIO_BUFFER)
    as (Sload & Schain & Sstate & SLb & SLh & SLp).
  rewrite <- Hf1 in Sload, Schain, Sstate, SLb, SLh, SLp.
  assert (Hk1 : forall q, k1@q = k@q).
  { intros q. rewrite Sload. apply load_with_interrupts. }
  assert (Lb1 : length (buffers k1) = length (buffers k)) by exact SLb.
  assert (Lh1 : length (hashtab k1) = length (hashtab k)) by exact SLh.
  assert (Hfree1 : free_list_inv k1 []).
  { apply (free_list_inv_ext k); [|exact Lb1|exact Hfree]. intros p. by rewrite Hk1. }
  assert (Hq1 : is_hash_queue k1 (HASH d n) l).
  { apply (is_hash_queue_frame k); [|exact Lb1|exact Hq].
    intros p _. by rewrite Hk1. }
  assert (Hi1 : (i < length (buffers k1))%nat) by (by rewrite Lb1).
  assert (Hone1 : count k1@(Buffers i) = 1) by (by rewrite Hk1).
  assert (Hcount1 : 1 <= count k1@(Buffers i) <= INT_MAX).
  { rewrite Hone1. unfold INT_MAX. lia. }
  destruct Hfree1 as (Hfl1 & Hcounts1).
  destruct (brelse_effect k1 i [] Hi1 Hcount1 Hfl1 (not_elem_of_nil i))
    as (Ho2 & _ & Hlast & _).
  destruct (Hlast Hone1) as (_ & Hwake & _). fold k2 in Hwake.
  split; [exact Ho1|]. split; [exact Hk1|].
  split; [by apply Sstate|]. split; [exact Ho2|]. split.
  { apply Hwake; [rewrite Schain; by left|]. rewrite SLp. exact Hcur. }
  intros Hclean.
  apply (getblk_after_brelse k1 i d n l [] Hflags Hsize).
  - rewrite Lb1. exact Hnb.
  - rewrite Lh1. exact Hnh.
  - exact Hq1.
  - split; [exact Hfl1|exact Hcounts1].
  - exact Hi1.
  - exact Hone1.
  - rewrite Hk1. exact Hclean.
  - exact Hnz.
  - rewrite <- Hlook. apply lookup_block_ext. intros x _. by rewrite Hk1.
Qed.

End CacheMore.

(** * Instances *)

(** ** The example states of the further properties *)

Ltac example_in_range :=
  let p := fresh "p" in
  let Hp := fresh "Hp" in
  intros p Hp;
  repeat (apply elem_of_cons in Hp as [->|Hp]; [intros; by vm_compute|]);
  by apply elem_of_nil in Hp.

Ltac example_free_list_inv :=
  split;
  [ example_list
  | let i := fresh "i" in
    let Hi := fresh "Hi" in
    intros i Hi;
    do 4 (destruct i as [|i];
          [ split; [vm_compute; split; congruence|];
            split; [intros H; first [by vm_compute in H | vm_compute; tauto
                                    | repeat constructor]
                   |intros H; first [by vm_compute
                                    | exfalso; clear -H;
                                      repeat (apply elem_of_cons in H as [H|H];
                                              [discriminate|]);
                                      by apply elem_of_nil in H]]
          |]);
    vm_compute in Hi; lia ].

Ltac example_unlocked :=
  let i := fresh "i" in
  let Hi := fresh "Hi" in
  intros i Hi;
  do 4 (destruct i as [|i]; [by vm_compute|]);
  vm_compute in Hi; lia.

Lemma cache_init_invariants :
  free_list_inv cache_init [0; 1; 2; 3]%nat /\
  @cache_inv example_cfg cache_init (fun _ => []) /\
  @all_unlocked example_cfg cache_init /\
  counts_in_range cache_init /\
  length (buffers cache_init) = @NR_BUFFERS example_cfg /\
  length (hashtab cache_init) = @BUFFERS_HASHTAB_SIZE example_cfg.
Proof.
  assert (H1 : length (buffers boot_kernel) = @NR_BUFFERS example_cfg) by reflexivity.
  assert (H2 : length (hashtab boot_kernel) = @BUFFERS_HASHTAB_SIZE example_cfg)
    by reflexivity.
  assert (H3 : (0 < @NR_BUFFERS example_cfg)%nat) by (simpl; lia).
  exact (@binit_invariants example_cfg boot_kernel H1 H2 H3).
Qed.

Lemma example_sizes :
  (0 < @BUFFERS_HASHTAB_SIZE example_cfg)%nat /\ (0 < @NR_BUFFERS example_cfg)%nat.
Proof. simpl. lia. Qed.

Lemma cache_init_getblk : outcome (@getblk example_cfg 1 10 cache_init) = Done (Buffers 0).
Proof. by vm_compute. Qed.

(** The state in which getblk(1, 10) returns after binit: buffer 0 is
    held, and it is the only buffer of hash queue 2. *)
Lemma cache_got_invariants :
  let k := final (@getblk example_cfg 1 10 cache_init) in
  free_list_inv k [1; 2; 3]%nat /\
  @cache_inv example_cfg k (requeued 2 0 (fun _ => [])) /\
  counts_in_range k /\
  length (buffers k) = @NR_BUFFERS example_cfg /\
  length (hashtab k) = @BUFFERS_HASHTAB_SIZE example_cfg.
Proof.
  intros k. destruct cache_init_invariants as (Hf & Hc & _ & _ & Lb & Lh).
  destruct example_sizes as [Hs _]. destruct Hf as [Hfl _].
  split; [unfold k; example_free_list_inv|].
  split.
  { exact (@getblk_miss_cache_inv example_cfg cache_init 1 10 (fun _ => [])
             [0; 1; 2; 3]%nat 0 example_flags_distinct Hs Lb Lh Hc Hfl eq_refl
             cache_init_getblk). }
  split; [unfold k; example_counts|].
  split; by vm_compute.
Qed.

Lemma cache_held_invariants :
  free_list_inv cache_held [1; 2; 3]%nat /\ counts_in_range cache_held.
Proof. split; [example_free_list_inv|example_counts]. Qed.

Lemma cache_released_invariants :
  free_list_inv cache_released [0; 1; 2; 3]%nat /\
  counts_in_range cache_released /\
  @all_unlocked example_cfg cache_released.
Proof. split; [example_free_list_inv|]. split; [example_counts|example_unlocked]. Qed.

Lemma cache_released_hash_queue :
  is_hash_queue cache_released (@HASH example_cfg 1 10) [0]%nat.
Proof. example_list. Qed.

Lemma cache_released_shape :
  length (buffers cache_released) = @NR_BUFFERS example_cfg /\
  length (hashtab cache_released) = @BUFFERS_HASHTAB_SIZE example_cfg.
Proof. by vm_compute. Qed.

Lemma cache_held_shape :
  length (buffers cache_held) = @NR_BUFFERS example_cfg /\
  (0 < length (buffers cache_held))%nat /\
  1 <= count cache_held@(Buffers 0) /\
  flag_set (flags cache_held@(Buffers 0)) (@BUFFER_LOCKED example_cfg) = true.
Proof. split; [by vm_compute|]. split; [vm_compute; lia|]. split; by vm_compute. Qed.

Lemma cache_init_bread :
  outcome (@bread example_cfg 1 10 cache_init) = Done (Buffers 0).
Proof. by vm_compute. Qed.

Lemma cache_released_bread :
  outcome (@bread example_cfg 1 10 cache_released) = Done (Buffers 0).
Proof. by vm_compute. Qed.

Lemma cache_got_buffer :
  let k := final (@getblk example_cfg 1 10 cache_init) in
  (0 < length (buffers k))%nat /\
  count k@(Buffers 0) = 1 /\
  1 <= count k@(Buffers 0) /\
  flag_set (flags k@(Buffers 0)) (@BUFFER_DIRTY example_cfg) = false /\
  is_hash_queue k (@HASH example_cfg 1 11) [] /\
  lookup_block k 1 11 [] = None.
Proof.
  split; [vm_compute; lia|]. split; [by vm_compute|]. split; [by vm_compute|].
  split; [by vm_compute|]. split; [example_list|done].
Qed.

Lemma cache_init_buffer :
  valid_ptr cache_init (Buffers 0) /\
  @BUFFER_LOCKED example_cfg <> 0 /\
  flag_set (flags cache_init@(Buffers 0)) (@BUFFER_LOCKED example_cfg) = false.
Proof. split; [vm_compute; lia|]. split; by vm_compute. Qed.

Lemma example_tables :
  (@IDLE example_cfg < length (proctab (lottery_kernel 0)))%nat /\
  (@LAST_PROC example_cfg < length (proctab (lottery_kernel 0)))%nat /\
  (curr_proc compensation_kernel < length (proctab compensation_kernel))%nat /\
  curr_proc compensation_kernel <> @IDLE example_cfg /\
  (father (proc compensation_kernel (curr_proc compensation_kernel))
   < length (proctab compensation_kernel))%nat.
Proof.
  split; [vm_compute; lia|]. split; [vm_compute; lia|]. split; [vm_compute; lia|].
  split; [by vm_compute|vm_compute; lia].
Qed.

(** ** Instances of the scheduler properties *)

Lemma example_tickets_nonneg (k : kernel) (ps : list nat) :
  forallb (fun p => bool_decide (state (proc k p) = PROC_READY ->
                                 0 <= lottery_tickets (proc k p))) ps = true ->
  forall p, p ∈ ps -> state (proc k p) = PROC_READY ->
            0 <= lottery_tickets (proc k p).
Proof.
  intros H p Hp. rewrite forallb_forall in H.
  apply list_elem_of_In in Hp. specialize (H p Hp).
  by apply bool_decide_eq_true_1 in H.
Qed.

Lemma choose_holder_of_ticket_witness :
  ready_tickets (lottery_kernel 0) [1; 2]%nat = 40 /\
  (39 < ready_tickets (lottery_kernel 0) [1; 2]%nat ->
   exists ps1 p ps2,
     [1; 2]%nat = ps1 ++ p :: ps2 /\
     @choose example_cfg (lottery_kernel 0) 39 0 [1; 2]%nat = p /\
     state (proc (lottery_kernel 0) p) = PROC_READY /\
     ready_tickets (lottery_kernel 0) ps1 <= 39
       < ready_tickets (lottery_kernel 0) ps1
         + lottery_tickets (proc (lottery_kernel 0) p)) /\
  @choose example_cfg (lottery_kernel 0) 40 0 [1; 2]%nat = @IDLE example_cfg.
Proof.
  assert (Hpos : forall p, p ∈ [1; 2]%nat ->
            state (proc (lottery_kernel 0) p) = PROC_READY ->
            0 <= lottery_tickets (proc (lottery_kernel 0) p)).
  { apply example_tickets_nonneg. by vm_compute. }
  assert (Hmax : ready_tickets (lottery_kernel 0) [1; 2]%nat <= INT_MAX)
    by (vm_compute; congruence).
  split; [by vm_compute|]. split.
  - assert (H39 : 0 <= 39) by lia.
    exact (proj1 (@choose_holder_of_ticket example_cfg (lottery_kernel 0) 39
                    [1; 2]%nat Hpos H39 Hmax)).
  - assert (H40 : 0 <= 40) by lia.
    apply (proj2 (@choose_holder_of_ticket example_cfg (lottery_kernel 0) 40
                    [1; 2]%nat Hpos H40 Hmax)).
    vm_compute. congruence.
Defined.

Lemma next_process_draws_ticket_witness :
  1 <= next_process (lottery_kernel 35) 40 <= Z.max 1 40.
Proof.
  assert (H : 0 <= 40 <= 65536) by lia.
  exact (next_process_draws_ticket (lottery_kernel 35) 40 H).
Defined.

Lemma yield_runs_ticket_holder_witness :
  @yield_total example_cfg (lottery_kernel 35) = 40 /\
  curr_proc (@yield example_cfg (lottery_kernel 35)) = @IDLE example_cfg /\
  curr_proc (@yield example_cfg (lottery_kernel 0)) ∈ @proc_range example_cfg.
Proof.
  assert (Hpos : forall now p, p ∈ @proc_range example_cfg ->
            state (proc (@yield_resched example_cfg (lottery_kernel now)) p)
              = PROC_READY ->
            0 <= lottery_tickets
                   (proc (@yield_resched example_cfg (lottery_kernel now)) p)).
  { intros now. apply example_tickets_nonneg. by vm_compute. }
  assert (Hmax : forall now,
            ready_tickets (@yield_resched example_cfg (lottery_kernel now))
              (@proc_range example_cfg) <= 65536).
  { intros now. vm_compute. congruence. }
  destruct (@yield_runs_ticket_holder example_cfg (lottery_kernel 35)
              (Hpos 35) (Hmax 35)) as (Ht & _ & _ & Hidle).
  destruct (@yield_runs_ticket_holder example_cfg (lottery_kernel 0)
              (Hpos 0) (Hmax 0)) as (_ & _ & Hwin & _).
  split; [exact Ht|]. split.
  - apply Hidle. vm_compute. congruence.
  - apply Hwin. by vm_compute.
Defined.

Lemma lottery_kernel_one_running (now : Z) :
  only_running (lottery_kernel now) (curr_proc (lottery_kernel now)).
Proof.
  intros q Hq Hrun.
  do 3 (destruct q as [|q]; [first [reflexivity | by vm_compute in Hrun]|]).
  vm_compute in Hq. lia.
Qed.

Lemma yield_keeps_one_running_witness :
  state (proc (@yield example_cfg (lottery_kernel 0))
           (curr_proc (@yield example_cfg (lottery_kernel 0)))) = PROC_RUNNING /\
  only_running (@yield example_cfg (lottery_kernel 0))
    (curr_proc (@yield example_cfg (lottery_kernel 0))).
Proof.
  destruct example_tables as (H1 & H2 & _).
  exact (@yield_keeps_one_running example_cfg (lottery_kernel 0) H1 H2
           (lottery_kernel_one_running 0)).
Defined.

Lemma yield_starts_fresh_quantum_witness :
  counter (proc (@yield example_cfg (lottery_kernel 0))
             (curr_proc (@yield example_cfg (lottery_kernel 0))))
    = @PROC_QUANTUM example_cfg /\
  last_proc (@yield example_cfg (lottery_kernel 0)) = curr_proc (lottery_kernel 0).
Proof.
  destruct example_tables as (H1 & H2 & _).
  destruct (@yield_starts_fresh_quantum example_cfg (lottery_kernel 0) H1 H2)
    as (Hc & _ & _ & _ & Hl).
  split; [exact Hc|exact Hl].
Defined.

Lemma stop_gives_up_processor_witness :
  curr_proc (@stop example_cfg compensation_kernel) <> curr_proc compensation_kernel /\
  state (proc (@stop example_cfg compensation_kernel) (curr_proc compensation_kernel))
    = PROC_STOPPED /\
  SIGCHLD ∈ received (proc (@stop example_cfg compensation_kernel)
                        (father (proc compensation_kernel
                                   (curr_proc compensation_kernel)))).
Proof.
  destruct example_tables as (_ & _ & H1 & H2 & H3).
  destruct (@stop_gives_up_processor example_cfg compensation_kernel H1 H2)
    as (Hc & _ & Hs & Hf & _).
  split; [exact Hc|]. split; [exact Hs|]. exact (Hf H3).
Defined.

(** ** Instances of the buffer cache properties *)

Lemma binit_establishes_invariants_witness :
  free_list_inv (final (@binit example_cfg boot_kernel))
    (seq 0 (@NR_BUFFERS example_cfg)) /\
  @all_unlocked example_cfg (final (@binit example_cfg boot_kernel)).
Proof.
  assert (H1 : length (buffers boot_kernel) = @NR_BUFFERS example_cfg) by reflexivity.
  assert (H2 : length (hashtab boot_kernel) = @BUFFERS_HASHTAB_SIZE example_cfg)
    by reflexivity.
  assert (H3 : (0 < @NR_BUFFERS example_cfg)%nat) by (simpl; lia).
  destruct (@binit_establishes_invariants example_cfg boot_kernel H1 H2 H3)
    as (Hf & _ & Hu & _).
  split; [exact Hf|exact Hu].
Defined.

Lemma getblk_keeps_invariants_witness :
  outcome (@getblk example_cfg 1 10 cache_init) = Done (Buffers 0) /\
  interrupts (final (@getblk example_cfg 1 10 cache_init)) = true /\
  (exists lf', free_list_inv (final (@getblk example_cfg 1 10 cache_init)) lf') /\
  (exists qs',
     @cache_inv example_cfg (final (@getblk example_cfg 1 10 cache_init)) qs' /\
     lookup_block (final (@getblk example_cfg 1 10 cache_init)) 1 10
       (qs' (@HASH example_cfg 1 10)) = Some 0%nat).
Proof.
  destruct cache_init_invariants as (Hf & Hc & _ & Hr & Lb & Lh).
  destruct example_sizes as [Hs _].
  split; [exact cache_init_getblk|].
  exact (@getblk_keeps_invariants example_cfg cache_init 1 10 (fun _ => [])
           [0; 1; 2; 3]%nat 0 example_flags_distinct Hs Lb Lh Hc Hf Hr
           cache_init_getblk).
Defined.

Lemma getblk_held_block_sleeps_witness :
  outcome (@getblk example_cfg 1 10 cache_init) = Done (Buffers 0) /\
  outcome (@getblk example_cfg 1 10 (final (@getblk example_cfg 1 10 cache_init)))
    = Asleep.
Proof.
  destruct cache_init_invariants as (Hf & Hc & _ & Hr & Lb & Lh).
  destruct example_sizes as [Hs _].
  destruct (@getblk_held_block_sleeps example_cfg cache_init 1 10 (fun _ => [])
              [0; 1; 2; 3]%nat 0 example_flags_distinct Hs Lb Lh Hc Hf Hr
              cache_init_getblk) as (Ho & _).
  split; [exact cache_init_getblk|exact Ho].
Defined.

Lemma brelse_keeps_invariants_witness :
  count (final (@getblk example_cfg 1 10 cache_init))@(Buffers 0) = 1 /\
  outcome (@brelse example_cfg (Buffers 0) (final (@getblk example_cfg 1 10 cache_init)))
    = Done tt /\
  @cache_inv example_cfg
    (final (@brelse example_cfg (Buffers 0) (final (@getblk example_cfg 1 10 cache_init))))
    (requeued 2 0 (fun _ => [])).
Proof.
  destruct cache_got_invariants as (Hf & Hc & _).
  destruct cache_got_buffer as (H1 & H2 & H3 & _).
  destruct (@brelse_keeps_invariants example_cfg _ 0 _ _ H1 H3 Hf Hc)
    as (Ho & _ & Hc' & _).
  split; [exact H2|]. split; [exact Ho|exact Hc'].
Defined.

Lemma released_buffer_is_next_victim_witness :
  outcome (@getblk example_cfg 1 11
             (final (@brelse example_cfg (Buffers 0)
                       (final (@getblk example_cfg 1 10 cache_init)))))
    = Done (Buffers 0).
Proof.
  destruct cache_got_invariants as (Hf & _ & _ & Lb & Lh).
  destruct example_sizes as [Hs _].
  destruct cache_got_buffer as (H1 & H2 & _ & H3 & Hq & H4).
  exact (@released_buffer_is_next_victim example_cfg _ 0 1 11 [] _
           example_flags_distinct Hs Lb Lh Hq Hf H1 H2 H3 eq_refl H4).
Defined.

Lemma bread_reads_unless_valid_witness :
  io_log (final (@bread example_cfg 1 10 cache_init))
    = io_log cache_init ++ [DevRead 1 10] /\
  io_log (final (@bread example_cfg 1 10 cache_released))
    = io_log cache_released ++ [].
Proof.
  destruct cache_init_invariants as ([Hfl _] & _ & _ & _ & Lb & Lh).
  destruct cache_released_invariants as ([Hfl' _] & _).
  destruct cache_released_shape as [Lb' Lh'].
  destruct example_sizes as [Hs _].
  destruct (@bread_reads_unless_valid example_cfg cache_init 1 10 [] [0; 1; 2; 3]%nat 0
              example_flags_distinct Hs Lb Lh cache_init_hash_queue Hfl
              cache_init_bread) as (_ & _ & _ & Hlog).
  destruct (@bread_reads_unless_valid example_cfg cache_released 1 10 [0]%nat
              [0; 1; 2; 3]%nat 0 example_flags_distinct Hs Lb' Lh'
              cache_released_hash_queue Hfl' cache_released_bread)
    as (_ & _ & _ & Hlog').
  split; [exact Hlog|exact Hlog'].
Defined.

Lemma bsync_writes_valid_buffers_witness :
  outcome (@bsync example_cfg cache_released) = Done tt /\
  io_log (final (@bsync example_cfg cache_released))
    = io_log cache_released
      ++ @sync_writes example_cfg cache_released (seq 0 (@NR_BUFFERS example_cfg)) /\
  @all_unlocked example_cfg (final (@bsync example_cfg cache_released)).
Proof.
  destruct cache_released_invariants as (Hf & Hr & Hu).
  destruct cache_released_shape as [Lb _].
  destruct (@bsync_writes_valid_buffers example_cfg cache_released [0; 1; 2; 3]%nat
              example_flags_distinct Lb Hf Hr Hu) as (Ho & Hlog & _ & Hu' & _).
  split; [exact Ho|]. split; [exact Hlog|exact Hu'].
Defined.

Lemma bsync_sleeps_at_locked_buffer_witness :
  flag_set (flags cache_held@(Buffers 0)) (@BUFFER_LOCKED example_cfg) = true /\
  outcome (@bsync example_cfg cache_held) = Asleep /\
  io_log (final (@bsync example_cfg cache_held))
    = io_log cache_held ++ @sync_writes example_cfg cache_held (seq 0 0).
Proof.
  destruct cache_held_invariants as (Hf & Hr).
  destruct cache_held_shape as (Lb & _ & _ & Hl).
  destruct example_sizes as [_ H0].
  assert (Hbefore : forall i, (i < 0)%nat ->
            flag_set (flags cache_held@(Buffers i)) (@BUFFER_LOCKED example_cfg)
              = false) by (intros i Hi; lia).
  destruct (@bsync_sleeps_at_locked_buffer example_cfg cache_held [1; 2; 3]%nat 0
              example_flags_distinct Lb Hf Hr H0 Hbefore Hl) as (Ho & Hlog & _).
  split; [exact Hl|]. split; [exact Ho|exact Hlog].
Defined.

Lemma blklock_blkunlock_restores_witness :
  outcome (@blklock example_cfg (Buffers 0) cache_init) = Done tt /\
  flag_set (flags (final (@blklock example_cfg (Buffers 0) cache_init))@(Buffers 0))
    (@BUFFER_LOCKED example_cfg) = true /\
  with_chain []
    (final (@blkunlock example_cfg (Buffers 0)
              (final (@blklock example_cfg (Buffers 0) cache_init))))@(Buffers 0)
    = with_chain [] cache_init@(Buffers 0).
Proof.
  destruct cache_init_buffer as (Hv & HL & Hu).
  destruct (@blklock_blkunlock_restores example_cfg cache_init (Buffers 0) Hv HL Hu)
    as (Ho & Hl & Hsame & _).
  split; [exact Ho|]. split; [exact Hl|exact Hsame].
Defined.

Lemma cache_got_waiter :
  (1 < length (proctab (final (@getblk example_cfg 1 10 cache_init))))%nat.
Proof. vm_compute. lia. Qed.

Lemma brelse_hands_block_over_witness :
  outcome (@getblk example_cfg 1 10
             (with_curr_proc 1 (final (@getblk example_cfg 1 10 cache_init))))
    = Asleep /\
  state (proc (final (@brelse example_cfg (Buffers 0)
                        (final (@getblk example_cfg 1 10
                                  (with_curr_proc 1
                                     (final (@getblk example_cfg 1 10 cache_init)))))))
           1) = PROC_READY.
Proof.
  destruct cache_init_invariants as (Hf & Hc & _ & Hr & Lb & Lh).
  destruct example_sizes as [Hs _].
  destruct (@brelse_hands_block_over example_cfg cache_init 1 10 (fun _ => [])
              [0; 1; 2; 3]%nat 0 1 example_flags_distinct Hs Lb Lh Hc Hf Hr
              cache_init_getblk cache_got_waiter) as (Ho & _ & _ & Hready & _).
  split; [exact Ho|exact Hready].
Defined.

Lemma cache_full_facts :
  @flags_distinct example_cfg /\
  length (buffers cache_full) = @NR_BUFFERS example_cfg /\
  length (hashtab cache_full) = @BUFFERS_HASHTAB_SIZE example_cfg /\
  is_hash_queue cache_full (@HASH example_cfg 1 5) [] /\
  free_list_inv cache_full [] /\
  (curr_proc cache_full < length (proctab cache_full))%nat /\
  (0 < length (buffers cache_full))%nat /\
  count cache_full@(Buffers 0) = 1 /\
  flag_set (flags cache_full@(Buffers 0)) (@BUFFER_DIRTY example_cfg) = false.
Proof.
  split; [exact example_flags_distinct|]. split; [by vm_compute|].
  split; [by vm_compute|]. split; [example_list|].
  split; [example_free_list_inv|]. split; [vm_compute; lia|].
  split; [vm_compute; lia|]. split; by vm_compute.
Qed.

Lemma brelse_wakes_getblk_without_buffer_witness :
  outcome (@getblk example_cfg 1 5 cache_full) = Asleep /\
  state (proc (final (@getblk example_cfg 1 5 cache_full)) (curr_proc cache_full))
    = PROC_WAITING /\
  state (proc (final (@brelse example_cfg (Buffers 0)
                        (final (@getblk example_cfg 1 5 cache_full))))
           (curr_proc cache_full)) = PROC_READY /\
  outcome (@getblk example_cfg 1 5
             (final (@brelse example_cfg (Buffers 0)
                       (final (@getblk example_cfg 1 5 cache_full)))))
    = Done (Buffers 0).
Proof.
  destruct cache_full_facts as (Hfd & Lb & Lh & Hq & Hf & Hc & Hi & Hone & Hclean).
  destruct example_sizes as [Hs _].
  destruct (@brelse_wakes_getblk_without_buffer example_cfg cache_full 1 5 [] 0
              Hfd Hs Lb Lh Hq Hf eq_refl eq_refl Hc Hi Hone)
    as (Ho & _ & Hw & _ & Hr & Hagain).
  split; [exact Ho|]. split; [exact Hw|]. split; [exact Hr|exact (Hagain Hclean)].
Defined.
